(* ===== verification/_CoqProject ===== *)
-Q . S2P
Prelude.v
Rfc3339.v
Json.v
Merge.v
PolicyDoc.v
Versions.v
Manifest.v
Net.v
Paths.v
PolicyValidate.v
PolicyParse.v
PolicyMatch.v
PolicyProps.v
Files.v
State.v
SelfUpdate.v
Source.v
Config.v
PolicyStore.v
RemoteConfig.v
MachineInfo.v
SourcePolicy.v
Download.v
Layout.v
Installer.v
Wire.v
World.v
Cycle.v
CycleInv.v
CycleProps.v
Ledger.v
Attempts.v
Progress.v
Conc.v
Gate.v
Commands.v
CommandProps.v
Checks.v
Winget.v
Report.v
ReadOnly.v
Events.v
EventProps.v
Presence.v
PresenceProps.v
Supervisor.v
Loop.v
Wake.v
Ipc.v
Assoc.v
Process.v
Trust.v
Sessions.v
Native.v
Toast.v
Logging.v
Admin.v
Life.v
Genversion.v
