(* ===== verification/Prelude.v ===== *)
(** * EMLyUpdater: a model of the service and its properties

    EMLyUpdater is a Windows service that keeps the mail viewer EMLy up to
    date. It fetches a policy document and release manifests from a chain of
    servers, downloads, verifies and runs setups - EMLy's and its own -, holds
    a WebSocket to its server over which commands arrive, answers EMLy over a
    named pipe, and keeps a state file across restarts. This library models
    that program from the Go sources under src/ and proves what makes its
    parts correct. Everything is executable: each component has concrete runs,
    the witnesses of its theorems.

    ** How the program is modelled

    - Pure code is functions. Fallible code returns [result]. Code that changes
      shared state is a program of the state monad [M] of this file; the state
      is a record of what the Go object holds. Concurrent code is a [prog] of
      Conc.v: a sequence of steps, each one critical section, channel
      operation or system call, which the steps of other goroutines interleave.
    - What the world answers - the network, the clock, the disk, processes,
      Windows - are oracles, functions of the number of questions asked so far
      in that run, so that every theorem is about all answers.
    - An [int64] is a [Z] with its wrap-around written where a product or a sum
      can leave the type ([wrap64], [d_mul]; [time.Time.Sub] saturates,
      [sat64]); [uint32] is [wrapu32]. An instant is its distance in
      nanoseconds from Go's zero time.
    - A string is its bytes. Case folding and trimming are those of ASCII.
      JSON is a value of [json] with the length of its text ([blob]); documents
      are decoded by codecs with the exact member names. Go's error texts are
      abridged where only their presence matters.
    - Third-party code is a parameter: version comparison ([VersionLib] and its
      laws, Versions.v), the INI parser ([IniLib]), SHA-256 and SHA-1
      ([Sha256], [Sha1]), protobuf ([Proto] and its round-trip law). Witnesses
      instantiate each with a concrete function. Go's own library is modelled:
      RFC 3339 times, URLs, addresses and CIDR blocks of both families,
      [filepath.Clean], prefixes and splits.
    - Recursion on fuel or on a list of answers: [fit] gets one unit of fuel
      per package, which suffices since each round drops one; the retry loops
      recurse on the attempts left; a loop without a bound of its own (the
      heartbeat, the update loop, the supervisor, [WaitForExit], [cmdStop])
      runs on the list of the turns the world grants it, and its theorems hold
      for every such list.

    ** The files

    Shared: Prelude (machine integers, results, the monad and its triples,
    strings, lists), Rfc3339, Json, Net (URLs, addresses), Files (a directory,
    its primitives with faults, [save] as their sequence), Paths
    ([filepath.Clean] and [Join]), Versions, Conc (programs, interleavings,
    protocol invariants).

    The policy document, internal/policy: Merge (merge.go), PolicyDoc
    (document.go and its codecs), PolicyValidate, PolicyParse (parse.go),
    PolicyMatch (match.go), PolicyProps, PolicyStore (store.go, cache.go,
    legacy.go). internal/manifest: Manifest. internal/config: Config.

    One machine, internal/machineinfo: MachineInfo. internal/state: State. The
    sources of updates, internal/source: Source. internal/download: Download,
    and Layout (the directories of internal/config/paths.go and the two caches
    below them). internal/installer: Installer. internal/selfupdate: SelfUpdate.

    The service, internal/service: RemoteConfig (remoteconfig.go), SourcePolicy
    (sourcepolicy.go, preferred.go), World (the state and oracles of a cycle),
    Cycle (service.go, selfupdate.go, clientupdates.go), CycleInv (what every
    step of a cycle preserves), CycleProps, Ledger (what a cycle leaves of the
    other goroutines' records), Attempts (the updater's own updates over the
    life of a machine), Progress (what a cycle achieves), Loop ([RunLoop]), Wake
    (clientnotify.go, sessionwatch.go, [Execute]), Life ([New], and the process
    from there on).

    The client channel, internal/wsclient and the rest of internal/service:
    Wire (protocol.go, id.go, backoff.go), Presence and PresenceProps
    (client.go, session.go), Supervisor (clientws.go), Gate and Commands
    (clientpower.go, clientcmd.go), CommandProps, Checks (the dry runs), Winget
    (internal/winget and the listing), Report (machine.info, identities),
    ReadOnly (which of these answers a command), Events and EventProps
    (clientevents.go).

    Around it: Ipc (internal/ipc), Assoc (internal/assoc), Process
    (internal/process), Trust (internal/authenticode, internal/cert,
    [ensureCertificate]), Sessions (internal/notify, internal/power), Toast
    (internal/toast), Native (the buffers and handles behind Trust and
    MachineInfo), Logging (internal/logging), Admin (main.go and the
    command lines the updater starts itself with), Genversion
    (tools/genversion); tools/winget-update-parser is with Winget.

    Definitions carry the names of the Go functions; a method whose name is
    taken elsewhere has a prefix, and the comment before it names it.

    ** What is shown

    - What runs is what was announced: CycleProps ([executed_verified],
      [gated_cycle], [cycle_bounded], [failures_reported_once]) over any run of
      the service, resting on Download ([Ensure_verified]) and Trust
      ([Verify_pinned]); Attempts ([selfupdate_bounded]) bounds how often a
      release of the updater is tried, over any history of a machine; Loop
      ([published_applied]) shows that a published policy rules the next
      cycle, and its [RunLoop_service] carries the rest to the program's own
      loop, Life ([process_life]) to a process from its construction on. Layout
      ([caches_disjoint]) keeps the two caches apart.
    - What is announced gets installed: Progress ([cycle_progress]), in an
      environment where nothing but some of the servers fails.
    - Cycles and command handlers share state.json: an access of a cycle to it
      is preceded by any calls of the others ([others], World.v), and Ledger
      ([commands_survive]) shows that none of their records is lost.
    - The policy: PolicyProps (acceptance, evaluation, the merge patch, the
      validator against a declarative specification, the server chain) and
      RemoteConfig ([refresh_monotone]).
    - The state file: State refines three independent registers, survives a
      crash at any point of a save, and recovers from a corrupt file.
    - Commands of the client channel: CommandProps (admission, at most one run
      per id and verb, exclusion between installations and restarts, the gate
      that heals), PresenceProps (the protocol of a connection; restarts only
      over TLS), EventProps (one service.started, only current sessions),
      Supervisor, Checks, Winget, Report, Wake. ReadOnly
      ([read_only_commands]) shows that the other commands only read.
    - The other interfaces: Ipc (the pipe never fails open, frames), Assoc,
      Sessions, Native and Toast (whatever fails, what was acquired is given
      back once), Process, Admin, Logging ([lines_reach_open_files]: no line
      goes to a closed file while the files are replaced).
    - Genversion ([genversion_agrees]): after a run of the build tool, the
      program and its installer carry the version of versioninfo.json.

    Some theorems show a defect: their doc comments say so, with the run that
    exhibits it.

    ** What is not modelled, and why

    Panics and the goroutine that recovers them; the wording of log lines; HTTP
    and WebSocket framing below a request, a reply or a message; the Windows
    calls themselves (only their outcomes); the path of the executable (the log
    next to it); the fields through which the tests replace a function; the
    layout of a table or of indented JSON on a terminal; generated protobuf
    code. Members of JSON objects are matched by their exact names, where
    encoding/json also accepts other cases. *)
From stdpp Require Export base gmap strings list fin_maps numbers pretty.
From Stdlib Require Export ZArith Lia.
From Stdlib Require Export Ascii.

Declare Scope emly_scope.
Delimit Scope emly_scope with emly.
#[global] Open Scope string_scope.
#[global] Open Scope list_scope.
#[global] Open Scope Z_scope.
#[global] Open Scope emly_scope.

#[global] Arguments String.append : simpl nomatch.

(** * Machine integers: Go's [int64] (and [int] on amd64), [int32], [uint32] *)

Definition int64_min : Z := - 2 ^ 63.
Definition int64_max : Z := 2 ^ 63 - 1.

(** Two's-complement wrap-around of an [int64] result. *)
Definition wrap64 (z : Z) : Z := (z + 2 ^ 63) mod 2 ^ 64 - 2 ^ 63.

(** The saturating result of [time.Time.Sub]. *)
Definition sat64 (z : Z) : Z := Z.max int64_min (Z.min int64_max z).

Definition in_int64 (z : Z) : Prop := int64_min <= z <= int64_max.

Definition wrapu32 (z : Z) : Z := z mod 2 ^ 32.

(** * Time: an instant is its distance in nanoseconds from Go's zero
    [time.Time]; a duration is an [int64] of nanoseconds *)

Definition time := Z.
Definition duration := Z.

Definition zero_time : time := 0.
Definition is_zero_time (t : time) : bool := t =? 0.

Definition nanosecond : duration := 1.
Definition millisecond : duration := 1000000.
Definition second : duration := 1000000000.
Definition minute : duration := 60 * second.
Definition hour : duration := 60 * minute.

Definition t_add (t : time) (d : duration) : time := t + d.
Definition t_sub (a b : time) : duration := sat64 (a - b).
Definition t_after (a b : time) : bool := b <? a.
Definition t_before (a b : time) : bool := a <? b.

(** [n * d] for an integer count of a duration unit, as Go multiplies it. *)
Definition d_mul (n : Z) (d : duration) : duration := wrap64 (n * d).

Lemma wrap64_range z : in_int64 (wrap64 z).
Proof.
  unfold in_int64, wrap64, int64_min, int64_max.
  pose proof (Z.mod_pos_bound (z + 2 ^ 63) (2 ^ 64) ltac:(lia)). lia.
Qed.

Lemma wrap64_id z : in_int64 z -> wrap64 z = z.
Proof.
  unfold in_int64, wrap64, int64_min, int64_max. intros H.
  rewrite Z.mod_small; lia.
Qed.

Lemma sat64_range z : in_int64 (sat64 z).
Proof. unfold in_int64, sat64, int64_min, int64_max. lia. Qed.

Lemma sat64_id z : in_int64 z -> sat64 z = z.
Proof. unfold in_int64, sat64. lia. Qed.

(** * Errors: a Go [(value, error)] return *)

Inductive result (E A : Type) : Type :=
| Ok (a : A)
| Err (e : E).
Arguments Ok {E A} _.
Arguments Err {E A} _.

Definition is_ok {E A} (r : result E A) : bool :=
  match r with Ok _ => true | Err _ => false end.

#[export] Instance result_ret E : MRet (result E) := fun A a => Ok a.
#[export] Instance result_bind E : MBind (result E) := fun A B f r =>
  match r with Ok a => f a | Err e => Err e end.

#[export] Instance result_eq_dec E A `{!EqDecision E, !EqDecision A} :
  EqDecision (result E A).
Proof. solve_decision. Defined.

Lemma result_bind_ok {E A B} (f : A -> result E B) (r : result E A) b :
  r ≫= f = Ok b <-> exists a, r = Ok a /\ f a = Ok b.
Proof.
  destruct r as [a|e]; simpl; split.
  - eauto.
  - by intros (? & [= ->] & ?).
  - done.
  - by intros (? & ? & ?).
Qed.

(** * A state monad for code that threads a shared object *)

Definition M (S A : Type) : Type := S -> A * S.

#[export] Instance M_ret S : MRet (M S) := fun A a s => (a, s).
#[export] Instance M_bind S : MBind (M S) := fun A B f m s =>
  let '(a, s') := m s in f a s'.

Definition get {S} : M S S := fun s => (s, s).
Definition gets {S A} (f : S -> A) : M S A := fun s => (f s, s).
Definition put {S} (s : S) : M S unit := fun _ => (tt, s).
Definition modify {S} (f : S -> S) : M S unit := fun s => (tt, f s).
Definition when {S} (b : bool) (m : M S unit) : M S unit :=
  if b then m else mret tt.

Fixpoint mfor {S A} (l : list A) (body : A -> M S unit) : M S unit :=
  match l with
  | [] => mret tt
  | x :: l' => body x ;; mfor l' body
  end.

Definition exec {S A} (m : M S A) (s : S) : S := (m s).2.
Definition eval {S A} (m : M S A) (s : S) : A := (m s).1.

(** ** Hoare triples for the monad *)

Section Triples.
Context {S : Type}.

Definition triple {A} (P : S -> Prop) (m : M S A) (Q : A -> S -> Prop) : Prop :=
  forall s, P s -> Q (m s).1 (m s).2.

Definition preserves {A} (I : S -> Prop) (m : M S A) : Prop :=
  triple I m (fun _ => I).

Lemma triple_ret {A} (a : A) P (Q : A -> S -> Prop) :
  (forall s, P s -> Q a s) -> triple P (mret a) Q.
Proof. intros H s Hs. apply H, Hs. Qed.

Lemma triple_bind {A B} (m : M S A) (f : A -> M S B) P R (Q : B -> S -> Prop) :
  triple P m R -> (forall a, triple (R a) (f a) Q) -> triple P (m ≫= f) Q.
Proof.
  intros Hm Hf s Hs. unfold mbind, M_bind. specialize (Hm s Hs).
  destruct (m s) as [a s']. apply Hf, Hm.
Qed.

Lemma triple_weaken {A} (m : M S A) (P P' : S -> Prop) (Q Q' : A -> S -> Prop) :
  triple P' m Q' -> (forall s, P s -> P' s) -> (forall a s, Q' a s -> Q a s) ->
  triple P m Q.
Proof. intros H HP HQ s Hs. apply HQ, H, HP, Hs. Qed.

Lemma preserves_ret {A} (I : S -> Prop) (a : A) : preserves I (mret a).
Proof. intros s Hs. exact Hs. Qed.

Lemma preserves_bind {A B} (I : S -> Prop) (m : M S A) (f : A -> M S B) :
  preserves I m -> (forall a, preserves I (f a)) -> preserves I (m ≫= f).
Proof. apply triple_bind. Qed.

Lemma preserves_get (I : S -> Prop) : preserves I get.
Proof. intros s Hs. exact Hs. Qed.

Lemma preserves_gets {A} (I : S -> Prop) (f : S -> A) : preserves I (gets f).
Proof. intros s Hs. exact Hs. Qed.

Lemma preserves_modify (I : S -> Prop) (f : S -> S) :
  (forall s, I s -> I (f s)) -> preserves I (modify f).
Proof. intros H s Hs. apply H, Hs. Qed.

Lemma preserves_when (I : S -> Prop) b m :
  preserves I m -> preserves I (when b m).
Proof. destruct b; [done|]. intros _. apply preserves_ret. Qed.

Lemma preserves_if {A} (I : S -> Prop) (b : bool) (m1 m2 : M S A) :
  preserves I m1 -> preserves I m2 -> preserves I (if b then m1 else m2).
Proof. by destruct b. Qed.

Lemma preserves_mfor {A} (I : S -> Prop) (l : list A) body :
  (forall a, preserves I (body a)) -> preserves I (mfor l body).
Proof.
  intros H. induction l as [|x l IH]; simpl; [apply preserves_ret|].
  apply preserves_bind; auto.
Qed.
End Triples.

Create HintDb preserves.
Create HintDb emly.
#[export] Hint Resolve preserves_ret preserves_bind preserves_get preserves_gets
  preserves_when preserves_mfor : preserves.

(** Walk a monadic program down to its primitive effects, which are left as
    goals [preserves I (modify f)] or closed by the [preserves] database. *)
Ltac preserve_step :=
  match goal with
  | |- preserves _ (_ ≫= _) => apply preserves_bind; [|intros ?]
  | |- preserves _ (mret _) => apply preserves_ret
  | |- preserves _ get => apply preserves_get
  | |- preserves _ (gets _) => apply preserves_gets
  | |- preserves _ (when _ _) => apply preserves_when
  | |- preserves _ (mfor _ _) => apply preserves_mfor; intros ?
  | |- preserves _ (if ?b then _ else _) => destruct b eqn:?
  | |- preserves _ (match ?x with _ => _ end) => destruct x eqn:?
  | |- preserves _ _ => solve [eauto with preserves]
  end.
Ltac preserve := repeat preserve_step.

(** Reflect the boolean comparisons of the goal and the hypotheses into [Prop]
    so that [lia] applies. *)
Ltac bool_to_prop :=
  repeat match goal with
  | H : (_ <? _)%Z = true |- _ => apply Z.ltb_lt in H
  | H : (_ <? _)%Z = false |- _ => apply Z.ltb_ge in H
  | H : (_ <=? _)%Z = true |- _ => apply Z.leb_le in H
  | H : (_ <=? _)%Z = false |- _ => apply Z.leb_gt in H
  | H : (_ =? _)%Z = true |- _ => apply Z.eqb_eq in H
  | H : (_ =? _)%Z = false |- _ => apply Z.eqb_neq in H
  | H : _ && _ = true |- _ => apply andb_true_iff in H; destruct H
  | H : _ || _ = false |- _ => apply orb_false_iff in H; destruct H
  | H : negb _ = true |- _ => apply negb_true_iff in H
  | H : negb _ = false |- _ => apply negb_false_iff in H
  end.

(** Case analysis on every [if]/[match] scrutinee of the goal. *)
Ltac case_goal :=
  match goal with
  | |- context [if ?b then _ else _] => destruct b eqn:?
  | |- context [match ?x with _ => _ end] => destruct x eqn:?
  end.

(** * Strings, as Go's byte strings *)

Definition str_eqb (a b : string) : bool := String.eqb a b.
#[global] Arguments str_eqb : simpl never.
Infix "=s" := str_eqb (at level 70) : emly_scope.

Lemma str_eqb_eq a b : (a =s b) = true <-> a = b.
Proof. apply String.eqb_eq. Qed.
Lemma str_eqb_neq a b : (a =s b) = false <-> a <> b.
Proof. apply String.eqb_neq. Qed.
Lemma str_eqb_refl a : (a =s a) = true.
Proof. apply String.eqb_refl. Qed.

Definition ascii_lower (c : ascii) : ascii :=
  let n := nat_of_ascii c in
  if (65 <=? n)%nat && (n <=? 90)%nat then ascii_of_nat (n + 32) else c.

Fixpoint string_map (f : ascii -> ascii) (s : string) : string :=
  match s with
  | EmptyString => EmptyString
  | String c s' => String (f c) (string_map f s')
  end.

(** [strings.ToLower] and [strings.EqualFold] on ASCII. *)
Definition to_lower (s : string) : string := string_map ascii_lower s.
Definition equal_fold (a b : string) : bool := to_lower a =s to_lower b.

Definition is_space (c : ascii) : bool :=
  let n := nat_of_ascii c in (n =? 32)%nat || ((9 <=? n)%nat && (n <=? 13)%nat).

Fixpoint trim_left (f : ascii -> bool) (s : string) : string :=
  match s with
  | EmptyString => EmptyString
  | String c s' => if f c then trim_left f s' else s
  end.

Fixpoint trim_right (f : ascii -> bool) (s : string) : string :=
  match s with
  | EmptyString => EmptyString
  | String c s' =>
      match trim_right f s' with
      | EmptyString => if f c then EmptyString else String c EmptyString
      | r => String c r
      end
  end.

(** [strings.TrimSpace] on ASCII. *)
Definition trim_space (s : string) : string := trim_left is_space (trim_right is_space s).

Definition has_prefix (s p : string) : bool := String.prefix p s.

Definition slen (s : string) : Z := Z.of_nat (String.length s).

(** The byte offset of the first [c], Go's [strings.IndexByte] ([None] for -1). *)
Fixpoint index_byte (s : string) (c : ascii) : option nat :=
  match s with
  | EmptyString => None
  | String d s' => if Ascii.eqb d c then Some O else S <$> index_byte s' c
  end.

(** [strings.Contains]. *)
Fixpoint str_contains (s sub : string) : bool :=
  String.prefix sub s ||
  match s with
  | EmptyString => false
  | String _ s' => str_contains s' sub
  end.

Definition take_str (n : nat) (s : string) : string := String.substring 0 n s.
Fixpoint drop_str (n : nat) (s : string) : string :=
  match n, s with
  | O, _ => s
  | S n', String _ s' => drop_str n' s'
  | S _, EmptyString => EmptyString
  end.

Definition has_suffix (s suf : string) : bool :=
  (String.length suf <=? String.length s)%nat &&
  (drop_str (String.length s - String.length suf) s =s suf).

(** [strings.TrimPrefix] and [strings.TrimSuffix]. *)
Definition trim_prefix (s p : string) : string :=
  if has_prefix s p then drop_str (String.length p) s else s.
Definition trim_suffix (s suf : string) : string :=
  if has_suffix s suf then take_str (String.length s - String.length suf) s else s.

(** [strings.Split] on a one-byte separator: never the empty list. *)
Fixpoint split_byte (c : ascii) (s : string) : list string :=
  match s with
  | EmptyString => [""]
  | String d s' =>
      if Ascii.eqb d c then "" :: split_byte c s'
      else match split_byte c s' with
           | [] => [String d ""]
           | x :: r => String d x :: r
           end
  end.

(** [strings.Cut] on a one-byte separator. *)
Definition cut_byte (c : ascii) (s : string) : string * string * bool :=
  match index_byte s c with
  | Some i => (take_str i s, drop_str (S i) s, true)
  | None => (s, "", false)
  end.

(** [strings.Join]. *)
Fixpoint join (sep : string) (l : list string) : string :=
  match l with
  | [] => ""
  | [x] => x
  | x :: r => x +:+ sep +:+ join sep r
  end.

Definition is_digit (c : ascii) : bool :=
  let n := nat_of_ascii c in (48 <=? n)%nat && (n <=? 57)%nat.
Definition digit_val (c : ascii) : Z := Z.of_nat (nat_of_ascii c) - 48.

Fixpoint string_forallb (f : ascii -> bool) (s : string) : bool :=
  match s with
  | EmptyString => true
  | String c s' => f c && string_forallb f s'
  end.

Fixpoint dec_val_aux (acc : Z) (s : string) : Z :=
  match s with
  | EmptyString => acc
  | String c s' => dec_val_aux (acc * 10 + digit_val c) s'
  end.

(** The value of a non-empty string of decimal digits. *)
Definition parse_dec (s : string) : option Z :=
  if (s =s "") || negb (string_forallb is_digit s) then None else Some (dec_val_aux 0 s).

Lemma to_lower_idem s : to_lower (to_lower s) = to_lower s.
Proof.
  unfold to_lower. induction s as [|c s IH]; simpl; [done|]. f_equal; [|done].
  destruct c as [[] [] [] [] [] [] [] []]; reflexivity.
Qed.

Lemma equal_fold_refl s : equal_fold s s = true.
Proof. apply str_eqb_refl. Qed.

Lemma equal_fold_sym a b : equal_fold a b = equal_fold b a.
Proof. apply String.eqb_sym. Qed.

Lemma equal_fold_trans a b c :
  equal_fold a b = true -> equal_fold b c = true -> equal_fold a c = true.
Proof. unfold equal_fold. rewrite !str_eqb_eq. congruence. Qed.

#[export] Hint Resolve str_eqb_refl equal_fold_refl : core.

(** ** Concatenation, prefixes and lengths *)

Lemma take_str_app a s n : take_str (String.length a + n) (a +:+ s) = a +:+ take_str n s.
Proof.
  induction a as [|d a IH]; [done|]. change (String d a +:+ s) with (String d (a +:+ s)).
  unfold take_str in *. cbn. by rewrite IH.
Qed.

Lemma append_nil a : a +:+ "" = a.
Proof. induction a as [|c a IH]; [done|]. change (String c a +:+ "") with (String c (a +:+ "")). by rewrite IH. Qed.

Lemma drop_str_app a s : drop_str (String.length a) (a +:+ s) = s.
Proof. induction a as [|d a IH]; [done|]. exact IH. Qed.

Lemma to_lower_length s : String.length (to_lower s) = String.length s.
Proof. unfold to_lower. induction s as [|c s IH]; cbn; [done|]. by rewrite IH. Qed.

Lemma slen_app a b : slen (a +:+ b) = slen a + slen b.
Proof.
  unfold slen. induction a as [|c a IH]; [done|].
  change (String c a +:+ b) with (String c (a +:+ b)). cbn [String.length]. lia.
Qed.

Lemma slen_take n s : slen (take_str n s) <= Z.of_nat n.
Proof.
  unfold slen, take_str. revert s. induction n as [|n IH]; intros [|c s]; cbn; try lia.
  specialize (IH s). lia.
Qed.

Lemma prefix_split p s : has_prefix s p = true -> s = p +:+ drop_str (String.length p) s.
Proof.
  unfold has_prefix. revert s. induction p as [|c p IH]; intros s; [done|].
  destruct s as [|c' s]; [done|]. cbn. destruct (ascii_dec c c') as [->|]; [|done].
  intros H. by rewrite <-(IH s H).
Qed.

Lemma prefix_app p r : has_prefix (p +:+ r) p = true.
Proof.
  unfold has_prefix. induction p as [|c p IH]; [by destruct r|]. cbn.
  by destruct (ascii_dec c c).
Qed.

Lemma length_sapp a b : String.length (a +:+ b) = (String.length a + String.length b)%nat.
Proof. induction a as [|c a IH]; [done|]. cbn. by rewrite IH. Qed.

Lemma sapp_assoc3 (a b c : string) : (a +:+ b) +:+ c = a +:+ (b +:+ c).
Proof. induction a as [|x a IH]; [done|]. cbn. by rewrite IH. Qed.

Lemma forallb_sapp f (a b : string) :
  string_forallb f (a +:+ b) = string_forallb f a && string_forallb f b.
Proof. induction a as [|c a IH]; [done|]. cbn. by rewrite IH, andb_assoc. Qed.

(** * Lists *)

(** The first element satisfying [f]: a Go [for range] with an early return. *)
Fixpoint find_first {A} (f : A -> bool) (l : list A) : option A :=
  match l with
  | [] => None
  | x :: r => if f x then Some x else find_first f r
  end.

Lemma find_first_some {A} (f : A -> bool) l x :
  find_first f l = Some x -> x ∈ l /\ f x = true.
Proof.
  induction l as [|y l IH]; simpl; [done|]. destruct (f y) eqn:E.
  - intros [= ->]. split; [apply list_elem_of_here|done].
  - intros H. destruct (IH H). split; [by apply list_elem_of_further|done].
Qed.

Lemma find_first_none {A} (f : A -> bool) l :
  find_first f l = None <-> forall x, x ∈ l -> f x = false.
Proof.
  induction l as [|y l IH]; simpl.
  - split; [|done]. intros _ x Hx. by apply elem_of_nil in Hx.
  - destruct (f y) eqn:E; split.
    + done.
    + intros H. specialize (H y (list_elem_of_here _ _)). congruence.
    + intros H x Hx. apply elem_of_cons in Hx as [->|Hx]; [done|]. by apply IH.
    + intros H. apply IH. intros x Hx. apply H. by apply list_elem_of_further.
Qed.

Definition bfilter {A} (f : A -> bool) (l : list A) : list A := List.filter f l.

Definition len {A} (l : list A) : Z := Z.of_nat (length l).

Lemma len_nonneg {A} (l : list A) : 0 <= len l.
Proof. unfold len. lia. Qed.

Lemma len_nonzero {A} (l : list A) : (len l =? 0) = false <-> l <> [].
Proof. unfold len. rewrite Z.eqb_neq. destruct l; simpl; split; try done; lia. Qed.

Lemma len_app {A} (l k : list A) : len (l ++ k) = len l + len k.
Proof. unfold len. rewrite length_app. lia. Qed.

Lemma len_cons {A} (x : A) l : len (x :: l) = 1 + len l.
Proof. unfold len. simpl length. lia. Qed.

Definition is_some {A} (o : option A) : bool :=
  match o with Some _ => true | None => false end.

Definition from_opt {A} (d : A) (o : option A) : A :=
  match o with Some a => a | None => d end.
