(* ===== verification/Rfc3339.v ===== *)
(** Calendar dates and the RFC 3339 layout of Go's [time] package: the text in
    which the document, the state file and the client channel carry instants.

    The program reads instants with [time.Parse(time.RFC3339, s)] and writes
    them with [Format(time.RFC3339)] or, through [encoding/json], with the
    nanosecond layout. An instant is a number of nanoseconds since
    0001-01-01T00:00:00Z, so Go's zero [time.Time] is [0]; a time zone is only
    an offset applied while parsing. The parser accepts the strict grammar of
    RFC 3339 (two digits per field, a dot before the fraction). *)
From S2P Require Import Prelude.

(** * Days and the Gregorian calendar *)

Definition is_leap (y : Z) : bool :=
  (y mod 4 =? 0) && (negb (y mod 100 =? 0) || (y mod 400 =? 0)).

Definition days_before_year (y : Z) : Z :=
  365 * (y - 1) + (y - 1) / 4 - (y - 1) / 100 + (y - 1) / 400.

Definition month_lengths (leap : bool) : list Z :=
  [31; if leap then 29 else 28; 31; 30; 31; 30; 31; 31; 30; 31; 30; 31].

Definition sumZ (l : list Z) : Z := foldr Z.add 0 l.

Definition days_before_month (leap : bool) (m : Z) : Z :=
  sumZ (take (Z.to_nat (m - 1)) (month_lengths leap)).

Definition days_in_month (leap : bool) (m : Z) : Z :=
  nth (Z.to_nat (m - 1)) (month_lengths leap) 0.

Definition to_days (y m d : Z) : Z :=
  days_before_year y + days_before_month (is_leap y) m + (d - 1).

(** The year of a day number and the day's offset in that year. *)
Definition year_of_days (n : Z) : Z * Z :=
  let c400 := n / 146097 in let r := n mod 146097 in
  let c100 := Z.min 3 (r / 36524) in let r := r - 36524 * c100 in
  let c4 := r / 1461 in let r := r mod 1461 in
  let c1 := Z.min 3 (r / 365) in
  (400 * c400 + 100 * c100 + 4 * c4 + c1 + 1, r - 365 * c1).

Fixpoint month_of_yday (ms : list Z) (m yday : Z) : Z * Z :=
  match ms with
  | [] => (m, yday + 1)
  | l :: ms' => if yday <? l then (m, yday + 1) else month_of_yday ms' (m + 1) (yday - l)
  end.

Definition of_days (n : Z) : Z * Z * Z :=
  let '(y, yday) := year_of_days n in
  let '(m, d) := month_of_yday (month_lengths (is_leap y)) 1 yday in
  (y, m, d).

(** * Reading and writing fixed-width decimal fields *)

Definition digit_char (d : Z) : ascii := ascii_of_nat (Z.to_nat (48 + d)).

Fixpoint pad (n : nat) (z : Z) : string :=
  match n with
  | O => ""
  | S n' => String (digit_char (z / 10 ^ Z.of_nat n')) (pad n' (z mod 10 ^ Z.of_nat n'))
  end.

Fixpoint read_digits (n : nat) (acc : Z) (s : string) : option (Z * string) :=
  match n, s with
  | O, _ => Some (acc, s)
  | S n', String c s' =>
      if is_digit c then read_digits n' (acc * 10 + digit_val c) s' else None
  | S _, EmptyString => None
  end.

Definition expect (c : ascii) (s : string) : option string :=
  match s with
  | String d s' => if Ascii.eqb c d then Some s' else None
  | EmptyString => None
  end.

(** The fraction without its trailing zeros; [n] digits are left to write. *)
Fixpoint frac (n : nat) (z : Z) : string :=
  match n with
  | O => ""
  | S n' => if z =? 0 then "" else
      String (digit_char (z / 10 ^ Z.of_nat n')) (frac n' (z mod 10 ^ Z.of_nat n'))
  end.

(** Digits of a fraction, weight [w] for the next one; digits past the ninth
    weigh nothing. *)
Fixpoint read_frac (w : Z) (s : string) : Z * string :=
  match s with
  | String c s' =>
      if is_digit c then
        let '(v, r) := read_frac (w / 10) s' in (digit_val c * w + v, r)
      else (0, s)
  | EmptyString => (0, s)
  end.

(** * The layouts *)

Definition format_secs (secs : Z) : string :=
  let '(y, m, d) := of_days (secs / 86400) in
  let r := secs mod 86400 in
  pad 4 y +:+ "-" +:+ pad 2 m +:+ "-" +:+ pad 2 d +:+ "T" +:+
  pad 2 (r / 3600) +:+ ":" +:+ pad 2 (r mod 3600 / 60) +:+ ":" +:+ pad 2 (r mod 60).

(** [t.UTC().Format(time.RFC3339)]. *)
Definition format_rfc3339 (t : time) : string := format_secs (t / second) +:+ "Z".

(** [time.RFC3339Nano], what [encoding/json] writes. *)
Definition format_rfc3339_nano (t : time) : string :=
  let ns := t mod second in
  format_secs (t / second) +:+ (if ns =? 0 then "" else "." +:+ frac 9 ns) +:+ "Z".

(** The client channel's millisecond layout "2006-01-02T15:04:05.000Z07:00". *)
Definition format_millis (t : time) : string :=
  format_secs (t / second) +:+ "." +:+ pad 3 (t mod second / millisecond) +:+ "Z".

Definition read_offset (s : string) : option Z :=
  match s with
  | "Z" => Some 0
  | String c r =>
      '(h, r) ← read_digits 2 0 r;
      r ← expect ":" r;
      '(m, r) ← read_digits 2 0 r;
      if (r =s "") && (h <=? 24) && (m <=? 60) then
        if Ascii.eqb c "+" then Some (h * 3600 + m * 60)
        else if Ascii.eqb c "-" then Some (- (h * 3600 + m * 60)) else None
      else None
  | EmptyString => None
  end.

(** [time.Parse(time.RFC3339, s)]. *)
Definition parse_rfc3339 (s : string) : option time :=
  '(y, s) ← read_digits 4 0 s; s ← expect "-" s;
  '(m, s) ← read_digits 2 0 s; s ← expect "-" s;
  '(d, s) ← read_digits 2 0 s; s ← expect "T" s;
  '(hh, s) ← read_digits 2 0 s; s ← expect ":" s;
  '(mm, s) ← read_digits 2 0 s; s ← expect ":" s;
  '(ss, s) ← read_digits 2 0 s;
  let '(ns, s) := match s with
                  | String "." (String c r) =>
                      if is_digit c then read_frac 100000000 (String c r) else (0, s)
                  | _ => (0, s)
                  end in
  off ← read_offset s;
  if (1 <=? m) && (m <=? 12) && (1 <=? d) && (d <=? days_in_month (is_leap y) m)
     && (hh <? 24) && (mm <? 60) && (ss <? 60)
  then Some ((to_days y m d * 86400 + hh * 3600 + mm * 60 + ss - off) * second + ns)
  else None.

(** * Round trip *)

Lemma is_digit_digit_char d : 0 <= d < 10 -> is_digit (digit_char d) = true.
Proof.
  intros H. assert (d = 0 \/ d = 1 \/ d = 2 \/ d = 3 \/ d = 4 \/ d = 5 \/ d = 6 \/ d = 7
    \/ d = 8 \/ d = 9) as C by lia.
  by repeat (destruct C as [->|C]; [reflexivity|]); subst.
Qed.

Lemma digit_val_digit_char d : 0 <= d < 10 -> digit_val (digit_char d) = d.
Proof.
  intros H. assert (d = 0 \/ d = 1 \/ d = 2 \/ d = 3 \/ d = 4 \/ d = 5 \/ d = 6 \/ d = 7
    \/ d = 8 \/ d = 9) as C by lia.
  by repeat (destruct C as [->|C]; [reflexivity|]); subst.
Qed.

Lemma pow10_S n : 10 ^ Z.of_nat (S n) = 10 * 10 ^ Z.of_nat n.
Proof. rewrite Nat2Z.inj_succ, Z.pow_succ_r by lia. done. Qed.

Lemma pow10_pos n : 0 < 10 ^ Z.of_nat n.
Proof. apply Z.pow_pos_nonneg; lia. Qed.

Lemma leading_digit n z : 0 <= z < 10 ^ Z.of_nat (S n) ->
  0 <= z / 10 ^ Z.of_nat n < 10 /\ 0 <= z mod 10 ^ Z.of_nat n < 10 ^ Z.of_nat n /\
  z = z / 10 ^ Z.of_nat n * 10 ^ Z.of_nat n + z mod 10 ^ Z.of_nat n.
Proof.
  rewrite pow10_S. pose proof (pow10_pos n). intros Hz.
  pose proof (Z.mod_pos_bound z (10 ^ Z.of_nat n) ltac:(lia)).
  pose proof (Z.div_mod z (10 ^ Z.of_nat n) ltac:(lia)). nia.
Qed.

Lemma read_digits_pad n : forall z acc r, 0 <= z < 10 ^ Z.of_nat n ->
  read_digits n acc (pad n z +:+ r) = Some (acc * 10 ^ Z.of_nat n + z, r).
Proof.
  induction n as [|n IH]; intros z acc r Hz.
  - simpl in *. do 2 f_equal. lia.
  - destruct (leading_digit n z Hz) as (Hd & Hm & Hq).
    cbn [pad read_digits String.append].
    rewrite is_digit_digit_char, digit_val_digit_char by done.
    rewrite IH by done. do 2 f_equal. rewrite pow10_S.
    rewrite Hq at 3. lia.
Qed.

Lemma read_frac_stop w r : match r with String c _ => is_digit c | _ => false end = false ->
  read_frac w r = (0, r).
Proof. destruct r as [|c r]; simpl; [done|]. by intros ->. Qed.

Lemma read_frac_frac n : forall z r, 0 <= z < 10 ^ Z.of_nat n ->
  match r with String c _ => is_digit c | _ => false end = false ->
  read_frac (10 ^ Z.of_nat n / 10) (frac n z +:+ r) = (z, r).
Proof.
  induction n as [|n IH]; intros z r Hz Hr.
  - simpl in *. rewrite read_frac_stop by done. do 2 f_equal; lia.
  - cbn [frac]. destruct (z =? 0) eqn:E.
    + bool_to_prop. subst. by rewrite read_frac_stop.
    + destruct (leading_digit n z Hz) as (Hd & Hm & Hq).
      cbn [String.append read_frac]. rewrite is_digit_digit_char by done.
      replace (10 ^ Z.of_nat (S n) / 10) with (10 ^ Z.of_nat n)
        by (rewrite pow10_S, Z.mul_comm, Z.div_mul; lia).
      rewrite IH by done. rewrite digit_val_digit_char by done. f_equal. lia.
Qed.

Lemma month_of_yday_spec ms : forall m yday, 0 <= yday < sumZ ms ->
  let '(m', d) := month_of_yday ms m yday in
  m <= m' < m + len ms /\ yday = sumZ (take (Z.to_nat (m' - m)) ms) + (d - 1) /\
  1 <= d <= nth (Z.to_nat (m' - m)) ms 0.
Proof.
  unfold len. induction ms as [|l ms IH]; intros m yday H; simpl in H; [lia|].
  cbn [month_of_yday]. destruct (yday <? l) eqn:E; bool_to_prop.
  - rewrite Z.sub_diag. simpl. lia.
  - specialize (IH (m + 1) (yday - l) ltac:(lia)).
    destruct (month_of_yday ms (m + 1) (yday - l)) as [m' d].
    destruct IH as (H1 & H2 & H3).
    replace (Z.to_nat (m' - m)) with (S (Z.to_nat (m' - (m + 1)))) by lia.
    simpl. lia.
Qed.

Lemma year_of_days_spec n : 0 <= n ->
  let '(y, yday) := year_of_days n in
  1 <= y /\ n = days_before_year y + yday /\ 0 <= yday < (if is_leap y then 366 else 365).
Proof.
  intros Hn. unfold year_of_days.
  set (c400 := n / 146097). set (r := n mod 146097).
  set (c100 := Z.min 3 (r / 36524)). set (r2 := r - 36524 * c100).
  set (c4 := r2 / 1461). set (r3 := r2 mod 1461). set (c1 := Z.min 3 (r3 / 365)).
  assert (Hr : 0 <= r < 146097 /\ n = 146097 * c400 + r /\ 0 <= c400)
    by (unfold r, c400; Z.to_euclidean_division_equations; lia).
  assert (H100 : 0 <= c100 <= 3 /\ r = 36524 * c100 + r2 /\ 0 <= r2 /\ (r2 < 36524 \/ c100 = 3 /\ r2 <= 36524))
    by (unfold r2, c100; Z.to_euclidean_division_equations; lia).
  assert (H4 : 0 <= r3 < 1461 /\ r2 = 1461 * c4 + r3 /\ 0 <= c4 <= 24)
    by (unfold r3, c4; Z.to_euclidean_division_equations; lia).
  assert (H1 : 0 <= c1 <= 3 /\ 0 <= r3 - 365 * c1 /\ (r3 - 365 * c1 < 365 \/ c1 = 3 /\ r3 - 365 * c1 <= 365))
    by (unfold c1; Z.to_euclidean_division_equations; lia).
  clearbody c1 r3 c4 r2 c100 r c400.
  set (y := 400 * c400 + 100 * c100 + 4 * c4 + c1 + 1).
  assert (Hq : (y - 1) / 4 = 100 * c400 + 25 * c100 + c4 /\ (y - 1) / 100 = 4 * c400 + c100
               /\ (y - 1) / 400 = c400)
    by (unfold y; Z.to_euclidean_division_equations; lia).
  destruct Hq as (Q4 & Q100 & Q400).
  split; [lia|]. unfold days_before_year. rewrite Q4, Q100, Q400.
  split; [unfold y; lia|].
  assert (HL : is_leap y = (c1 =? 3) && (negb (c4 =? 24) || (c100 =? 3))).
  { unfold is_leap. apply eq_true_iff_eq.
    rewrite !andb_true_iff, !orb_true_iff, !negb_true_iff, !Z.eqb_eq, !Z.eqb_neq.
    assert (M4 : y mod 4 = 0 <-> c1 = 3)
      by (unfold y; clear -H1; Z.to_euclidean_division_equations; lia).
    assert (M100 : y mod 100 = 0 <-> c1 = 3 /\ c4 = 24)
      by (unfold y; clear -H1 H4; Z.to_euclidean_division_equations; lia).
    assert (M400 : y mod 400 = 0 <-> c1 = 3 /\ c4 = 24 /\ c100 = 3)
      by (unfold y; clear -H1 H4 H100; Z.to_euclidean_division_equations; lia).
    rewrite M4, M100, M400. clear.
    destruct (Z.eq_dec c1 3), (Z.eq_dec c4 24), (Z.eq_dec c100 3); tauto. }
  rewrite HL.
  destruct (c1 =? 3) eqn:E1, (c4 =? 24) eqn:E4, (c100 =? 3) eqn:E100; bool_to_prop;
    cbn [andb orb negb]; lia.
Qed.

Lemma days_before_year_0 y : y <= 9999 -> days_before_year y < 3652059.
Proof. unfold days_before_year. intros. Z.to_euclidean_division_equations. lia. Qed.

(** A day number and its calendar date determine each other. *)
Lemma to_days_of_days n : 0 <= n ->
  let '(y, m, d) := of_days n in
  to_days y m d = n /\ 1 <= y /\ 1 <= m <= 12 /\ 1 <= d <= days_in_month (is_leap y) m.
Proof.
  intros Hn. unfold of_days. pose proof (year_of_days_spec n Hn) as Hy.
  destruct (year_of_days n) as [y yday]. destruct Hy as (Hy1 & Hy2 & Hy3).
  assert (HS : sumZ (month_lengths (is_leap y)) = if is_leap y then 366 else 365)
    by by destruct (is_leap y).
  pose proof (month_of_yday_spec (month_lengths (is_leap y)) 1 yday ltac:(lia)) as Hm.
  destruct (month_of_yday _ 1 yday) as [m d]. destruct Hm as (Hm1 & Hm2 & Hm3).
  assert (len (month_lengths (is_leap y)) = 12) as HL by by destruct (is_leap y).
  unfold to_days, days_before_month, days_in_month. lia.
Qed.

(** The first instant that needs a five-digit year. *)
Definition max_time : time := 3652059 * 86400 * second.

Lemma of_days_year n : 0 <= n < 3652059 -> (of_days n).1.1 <= 9999.
Proof.
  intros H. pose proof (to_days_of_days n ltac:(lia)) as Hd.
  destruct (of_days n) as [[y m] d]. destruct Hd as (Hd & Hy & Hm & Hr). simpl.
  destruct (Z_le_gt_dec y 9999); [lia|].
  assert (3652059 <= days_before_year y)
    by (unfold days_before_year; Z.to_euclidean_division_equations; lia).
  unfold to_days in Hd.
  assert (0 <= days_before_month (is_leap y) m).
  { unfold days_before_month, month_lengths. generalize (Z.to_nat (m - 1)).
    intros k. destruct (is_leap y); do 13 (destruct k as [|k]; [simpl; lia|]); simpl; lia. }
  lia.
Qed.

Lemma expect_same c r : expect c (String c r) = Some r.
Proof. simpl. by rewrite Ascii.eqb_refl. Qed.

Lemma sapp_assoc (a b c : string) : (a +:+ b) +:+ c = a +:+ (b +:+ c).
Proof. induction a as [|x a IH]; simpl; [done|]. by rewrite IH. Qed.

Lemma digit_range2 z : 0 <= z < 100 -> 0 <= z < 10 ^ Z.of_nat 2.
Proof. done. Qed.

Lemma frac_nonempty z : 0 < z < second -> exists c r, frac 9 z = String c r /\ is_digit c = true.
Proof.
  intros H. cbn [frac]. destruct (z =? 0) eqn:E; bool_to_prop; [lia|].
  eexists _, _. split; [reflexivity|]. apply is_digit_digit_char.
  apply (leading_digit 8). unfold second in H. lia.
Qed.

(** The fraction and the zone designator are read back. *)
Lemma read_tail ns : 0 <= ns < second ->
  (match (if ns =? 0 then "" else "." +:+ frac 9 ns) +:+ "Z" with
   | String "." (String c r) =>
       if is_digit c then read_frac 100000000 (String c r)
       else (0, (if ns =? 0 then "" else "." +:+ frac 9 ns) +:+ "Z")
   | _ => (0, (if ns =? 0 then "" else "." +:+ frac 9 ns) +:+ "Z")
   end) = (ns, "Z").
Proof.
  intros H. destruct (ns =? 0) eqn:E; bool_to_prop.
  - subst. reflexivity.
  - destruct (frac_nonempty ns ltac:(lia)) as (c & r & Hf & Hc).
    pose proof (read_frac_frac 9 ns "Z" ltac:(unfold second in *; lia) eq_refl) as Hr.
    rewrite Hf in *. cbn [String.append] in *. rewrite Hc. exact Hr.
Qed.

(** What [encoding/json] writes for a [time.Time], [time.Parse] reads back. *)
Lemma parse_format_nano t : 0 <= t < max_time ->
  parse_rfc3339 (format_rfc3339_nano t) = Some t.
Proof.
  intros Ht. unfold format_rfc3339_nano, format_secs.
  set (secs := t / second).
  assert (Hs : 0 <= secs < 3652059 * 86400)
    by (unfold secs, max_time, second in *; Z.to_euclidean_division_equations; lia).
  assert (Hdn : 0 <= secs / 86400 < 3652059)
    by (Z.to_euclidean_division_equations; lia).
  pose proof (to_days_of_days (secs / 86400) ltac:(lia)) as Hd.
  pose proof (of_days_year (secs / 86400) Hdn) as Hy.
  destruct (of_days (secs / 86400)) as [[y m] d]. simpl in Hy.
  destruct Hd as (Hd & Hy1 & Hm & Hday).
  assert (Hd31 : days_in_month (is_leap y) m <= 31).
  { unfold days_in_month, month_lengths. generalize (Z.to_nat (m - 1)). intros k.
    destruct (is_leap y); do 13 (destruct k as [|k]; [simpl; lia|]); simpl; lia. }
  assert (Hr : 0 <= secs mod 86400 < 86400) by (apply Z.mod_pos_bound; lia).
  set (r := secs mod 86400) in *.
  assert (Hns : 0 <= t mod second < second) by (apply Z.mod_pos_bound; done).
  unfold parse_rfc3339. rewrite !sapp_assoc.
  rewrite read_digits_pad by (simpl; lia). cbn [mbind option_bind String.append].
  rewrite expect_same. cbn [mbind option_bind].
  rewrite read_digits_pad by (simpl; lia). cbn [mbind option_bind String.append].
  rewrite expect_same. cbn [mbind option_bind].
  rewrite read_digits_pad by (simpl; lia). cbn [mbind option_bind String.append].
  rewrite expect_same. cbn [mbind option_bind].
  rewrite read_digits_pad by (apply digit_range2; Z.to_euclidean_division_equations; lia).
  cbn [mbind option_bind String.append]. rewrite expect_same. cbn [mbind option_bind].
  rewrite read_digits_pad by (apply digit_range2; Z.to_euclidean_division_equations; lia).
  cbn [mbind option_bind String.append]. rewrite expect_same. cbn [mbind option_bind].
  rewrite read_digits_pad by (apply digit_range2; Z.to_euclidean_division_equations; lia).
  cbn [mbind option_bind]. rewrite read_tail by done.
  cbn [mbind option_bind read_offset]. rewrite !Z.mul_0_l, !Z.add_0_l.
  assert (Hh : r / 3600 < 24 /\ r mod 3600 / 60 < 60 /\ r mod 60 < 60 /\
    r / 3600 * 3600 + r mod 3600 / 60 * 60 + r mod 60 = r)
    by (Z.to_euclidean_division_equations; lia).
  destruct Hh as (H1 & H2 & H3 & H4).
  replace ((1 <=? m) && (m <=? 12) && (1 <=? d) && (d <=? days_in_month (is_leap y) m)
     && (r / 3600 <? 24) && (r mod 3600 / 60 <? 60) && (r mod 60 <? 60)) with true
    by (symmetry; rewrite !andb_true_iff, !Z.leb_le, !Z.ltb_lt; lia).
  f_equal. rewrite Hd.
  pose proof (Z.div_mod secs 86400 ltac:(lia)). fold r in H.
  pose proof (Z.div_mod t second ltac:(done)). fold secs in H0. lia.
Qed.
