(* ===== verification/Json.v ===== *)
(** Generic JSON values and the typed decoding the program asks of
    [encoding/json].

    A value is what [json.Unmarshal] puts in an [any]: [nil], a [bool], a
    [float64] (split into the integral ones, [JInt], and the others, [JFrac]),
    a [string], an [[]any] or a [map[string]any]. A struct is decoded field by
    field from the object's keys: an unknown key is ignored, an absent key and
    a null leave Go's zero value, a value of another kind is an error. Keys
    are matched exactly (the decoder's fallback to a case-insensitive match of
    a key is outside the model). *)
From S2P Require Import Prelude.

Inductive json : Type :=
| JNull
| JBool (b : bool)
| JInt (z : Z)
| JFrac (num den : Z)
| JStr (s : string)
| JArr (l : list json)
| JObj (m : gmap string json).

Abbreviation jobject := (gmap string json).

(** Bytes handed to the decoder: their number, and the value they denote when
    they are syntactically valid JSON. *)
Record blob := Blob { blob_len : Z; blob_json : option json }.

Definition is_null (j : json) : bool := match j with JNull => true | _ => false end.
Definition as_obj (j : json) : option jobject :=
  match j with JObj m => Some m | _ => None end.

(** * Induction over nested maps *)

Fixpoint jsize (j : json) : nat :=
  match j with
  | JArr l => S (foldr (fun x n => jsize x + n)%nat O l)
  | JObj m => S (map_fold (fun _ x n => jsize x + n)%nat O m)
  | _ => 1
  end.

Lemma jsize_lookup (m : jobject) k v : m !! k = Some v -> (jsize v < jsize (JObj m))%nat.
Proof.
  intros H. cbn [jsize]. rewrite (map_fold_delete_L _ _ k v m); [lia| |done].
  intros. lia.
Qed.

Lemma jsize_elem (l : list json) v : v ∈ l -> (jsize v < jsize (JArr l))%nat.
Proof. cbn [jsize]. induction 1; simpl; lia. Qed.

Section JsonInd.
Context (P : json -> Prop).
Hypothesis Hnull : P JNull.
Hypothesis Hbool : forall b, P (JBool b).
Hypothesis Hint : forall z, P (JInt z).
Hypothesis Hfrac : forall n d, P (JFrac n d).
Hypothesis Hstr : forall s, P (JStr s).
Hypothesis Harr : forall l, (forall v, v ∈ l -> P v) -> P (JArr l).
Hypothesis Hobj : forall m : jobject, (forall k v, m !! k = Some v -> P v) -> P (JObj m).

Lemma json_induction j : P j.
Proof using All.
  remember (jsize j) as n eqn:E. revert j E.
  induction n as [n IH] using lt_wf_ind. intros j ->. destruct j; try done; auto.
  - apply Harr. intros v Hv. eapply IH; [|reflexivity]. by apply jsize_elem.
  - apply Hobj. intros k v Hv. eapply IH; [|reflexivity]. by eapply jsize_lookup.
Qed.
End JsonInd.

(** Map a function over an object's values. *)
Definition jmap {A} (f : json -> A) (m : jobject) : gmap string A :=
  map_fold (fun k v acc => <[k := f v]> acc) ∅ m.

Lemma jmap_fmap {A} (f : json -> A) (m : jobject) : jmap f m = f <$> m.
Proof.
  unfold jmap. induction m as [|k v m Hk IH] using map_ind.
  - by rewrite map_fold_empty, fmap_empty.
  - rewrite map_fold_insert_L; [by rewrite IH, fmap_insert| |done].
    intros k1 k2 v1 v2 y Hne _ _. by apply insert_insert_ne.
Qed.

(** * Typed decoding *)

(** A Go slice: [None] is the nil slice. Ranging over it and taking its length
    do not tell nil from empty; encoding it does. *)
Definition slice (A : Type) : Type := option (list A).
Definition sl {A} (s : slice A) : list A := from_opt [] s.

Class Codec (A : Type) := {
  zero : A;
  dec : json -> option A;
  enc : A -> json
}.

#[export] Instance string_codec : Codec string := {|
  zero := ""; enc := JStr;
  dec j := match j with JNull => Some "" | JStr s => Some s | _ => None end |}.

#[export] Instance bool_codec : Codec bool := {|
  zero := false; enc := JBool;
  dec j := match j with JNull => Some false | JBool b => Some b | _ => None end |}.

Definition int64_ok (z : Z) : bool := (int64_min <=? z) && (z <=? int64_max).

#[export] Instance int_codec : Codec Z := {|
  zero := 0; enc := JInt;
  dec j := match j with
           | JNull => Some 0
           | JInt z => if int64_ok z then Some z else None
           | _ => None
           end |}.

(** A Go pointer field: null and absent are nil. *)
#[export] Instance pointer_codec A `{!Codec A} : Codec (option A) := {|
  zero := None;
  enc o := match o with None => JNull | Some a => enc a end;
  dec j := match j with JNull => Some None | _ => Some <$> dec j end |}.

Definition slice_codec A `{!Codec A} : Codec (slice A) := {|
  zero := None;
  enc s := match s with None => JNull | Some l => JArr (enc <$> l) end;
  dec j := match j with
           | JNull => Some None
           | JArr l => Some <$> mapM dec l
           | _ => None
           end |}.

#[export] Instance map_codec A `{!Codec A} : Codec (gmap string A) := {|
  zero := ∅;
  enc m := JObj (enc <$> m);
  dec j := match j with
           | JNull => Some ∅
           | JObj m => if bool_decide (map_Forall (fun _ v => is_Some (dec v)) m)
                       then Some (omap dec m) else None
           | _ => None
           end |}.

(** One struct field. *)
Definition field {A} `{!Codec A} (m : jobject) (k : string) : option A :=
  match m !! k with None => Some zero | Some v => dec v end.

(** A struct: [f] decodes the fields of an object. *)
Definition dec_struct {A} (z : A) (f : jobject -> option A) (j : json) : option A :=
  match j with JNull => Some z | JObj m => f m | _ => None end.

Definition obj (l : list (string * json)) : json := JObj (list_to_map l).

(** ** Decoding what was encoded *)

Class CodecOk A `{!Codec A} := {
  fits : A -> Prop;
  dec_enc : forall a, fits a -> dec (enc a) = Some a;
  dec_null : dec JNull = Some zero
}.
Arguments fits {A _ _} _.

(** Types whose encoding is never null, so that a pointer to them round-trips. *)
Class EncNotNull A `{!Codec A} := enc_not_null : forall a : A, enc a <> JNull.

#[export] Instance string_ok : CodecOk string.
Proof. by refine {| fits _ := True |}. Defined.
#[export] Instance bool_ok : CodecOk bool.
Proof. by refine {| fits _ := True |}. Defined.
#[export] Instance string_nn : EncNotNull string.
Proof. done. Qed.
#[export] Instance bool_nn : EncNotNull bool.
Proof. done. Qed.

#[export] Instance int_ok : CodecOk Z.
Proof.
  refine {| fits := in_int64 |}.
  - intros a [? ?]. cbn. unfold int64_ok.
    by rewrite (proj2 (Z.leb_le _ _)), (proj2 (Z.leb_le _ _)) by done.
  - done.
Defined.

#[export] Instance pointer_ok A `{!Codec A, !CodecOk A, !EncNotNull A} :
  CodecOk (option A).
Proof.
  refine {| fits o := match o with None => True | Some a => fits a end |}.
  - intros [a|] H; [|done]. cbn. pose proof (enc_not_null a).
    rewrite (dec_enc a H). by destruct (enc a).
  - done.
Defined.

#[export] Instance slice_ok A `{!Codec A, !CodecOk A} :
  @CodecOk (slice A) (slice_codec A).
Proof.
  refine {| fits s := Forall fits (sl s) |}.
  - intros [l|] H; [|done]. cbn in *.
    assert (mapM dec (enc <$> l) = Some l) as ->; [|done].
    apply mapM_Some, Forall2_fmap_l, Forall_Forall2_diag.
    eapply Forall_impl; [exact H|]. intros a Ha. by apply dec_enc.
  - done.
Defined.

#[export] Instance map_ok A `{!Codec A, !CodecOk A} : CodecOk (gmap string A).
Proof.
  refine {| fits m := map_Forall (fun _ => fits) m |}.
  - intros m H. cbn. rewrite bool_decide_true.
    + f_equal. apply map_eq. intros k. rewrite lookup_omap, lookup_fmap.
      destruct (m !! k) as [a|] eqn:E; simpl; [|done]. apply dec_enc, (H k a E).
    + intros k v. rewrite lookup_fmap. destruct (m !! k) as [a|] eqn:E; simpl; [|done].
      intros [= <-]. rewrite (dec_enc a (H k a E)). eauto.
  - done.
Defined.

Lemma field_absent {A} `{!Codec A} (m : jobject) k : m !! k = None -> field m k = Some zero.
Proof. unfold field. by intros ->. Qed.

Lemma field_enc {A} `{!Codec A, !CodecOk A} (m : jobject) k (a : A) :
  m !! k = Some (enc a) -> fits a -> field m k = Some a.
Proof. unfold field. intros -> H. by apply dec_enc. Qed.
