(* ===== verification/Merge.v ===== *)
(** internal/policy/merge.go: RFC 7386 merge patches on generic JSON values.

    [merge_patch] is stated against the RFC's own reading of an object, one
    key at a time ([merged_key]), and against its effect on nested paths. *)
From Stdlib Require Import Btauto.
From S2P Require Import Prelude Json.

(** [cloneValue]. *)
Fixpoint cloneValue (v : json) : json :=
  match v with
  | JObj m => JObj (map_fold (fun k val out => <[k := cloneValue val]> out) ∅ m)
  | JArr l => JArr (List.map cloneValue l)
  | _ => v
  end.

(** The target's keys, copied into a fresh map. *)
Definition clone_members (target : option json) : jobject :=
  match target with
  | Some (JObj tm) => map_fold (fun k v out => <[k := cloneValue v]> out) ∅ tm
  | _ => ∅
  end.

(** [mergePatch]; [None] is the [nil] Go reads from a map for a missing key. *)
Fixpoint mergePatch (target : option json) (patch : json) {struct patch} : json :=
  match patch with
  | JObj pm =>
      let out := clone_members target in
      JObj (map_fold (fun k v out =>
              match v with
              | JNull => delete k out
              | _ => <[k := mergePatch (out !! k) v]> out
              end) out pm)
  | _ => cloneValue patch
  end.

(** [stripNulls]. *)
Fixpoint stripNulls (v : json) : json :=
  match v with
  | JObj m =>
      JObj (map_fold (fun k val out =>
              match val with JNull => out | _ => <[k := stripNulls val]> out end) ∅ m)
  | _ => cloneValue v
  end.

(** A patch that says nothing. *)
Definition merge_obj (target patch : jobject) : jobject :=
  from_opt ∅ (as_obj (mergePatch (Some (JObj target)) (JObj patch))).

(** * Lemmas *)

Lemma cloneValue_id v : cloneValue v = v.
Proof.
  induction v as [| | | | |l IH|m IH] using json_induction; cbn [cloneValue]; try done.
  - f_equal. induction l as [|x l IHl]; simpl; [done|].
    rewrite IH, IHl by (intros; try apply IH; set_solver). done.
  - f_equal. etransitivity; [exact (jmap_fmap cloneValue m)|]. apply map_eq. intros k.
    rewrite lookup_fmap. destruct (m !! k) eqn:E; simpl; [|done]. f_equal. eauto.
Qed.

Lemma clone_members_obj tm : clone_members (Some (JObj tm)) = tm.
Proof.
  pose proof (cloneValue_id (JObj tm)) as H. cbn [cloneValue] in H. by injection H.
Qed.

(** The members a target contributes: none unless it is an object. *)
Definition members (t : option json) : jobject :=
  match t with Some (JObj m) => m | _ => ∅ end.

Lemma clone_members_spec t : clone_members t = members t.
Proof. destruct t as [[]|]; try done. apply clone_members_obj. Qed.

(** RFC 7386, one key: [p] is the patch's value for it, [t] the target's. *)
Definition merged_key (t p : option json) : option json :=
  match p with
  | None => t
  | Some JNull => None
  | Some v => Some (mergePatch t v)
  end.

Lemma mergePatch_scalar t p : as_obj p = None -> mergePatch t p = p.
Proof. destruct p; try done; intros _; apply cloneValue_id. Qed.

Lemma merge_fold_lookup (pm out : jobject) k :
  map_fold (fun k v out => match v with
                           | JNull => delete k out
                           | _ => <[k := mergePatch (out !! k) v]> out
                           end) out pm !! k
  = merged_key (out !! k) (pm !! k).
Proof.
  revert k. induction pm as [|k' v pm Hk IH] using map_ind; intros k.
  - rewrite map_fold_empty, lookup_empty. done.
  - rewrite map_fold_insert_L; [| |done].
    + destruct (decide (k = k')) as [->|Hne].
      * rewrite lookup_insert_eq. specialize (IH k'). rewrite Hk in IH.
        destruct v; cbn [merged_key] in *;
          rewrite ?lookup_delete_eq, ?lookup_insert_eq, ?IH; done.
      * rewrite lookup_insert_ne by done. rewrite <-IH.
        destruct v; rewrite ?lookup_delete_ne, ?lookup_insert_ne by done; done.
    + intros k1 k2 v1 v2 y Hne _ _.
      destruct v1, v2; rewrite ?lookup_delete_ne, ?lookup_insert_ne by done;
        first [ by apply insert_insert_ne | by rewrite delete_insert_ne
              | by rewrite <-delete_insert_ne | by rewrite delete_delete ].
Qed.

Lemma mergePatch_obj t pm :
  exists out, mergePatch t (JObj pm) = JObj out /\
    forall k, out !! k = merged_key (members t !! k) (pm !! k).
Proof.
  eexists. split; [reflexivity|]. intros k.
  rewrite clone_members_spec. apply merge_fold_lookup.
Qed.

Lemma mergePatch_obj_is_obj t pm : as_obj (mergePatch t (JObj pm)) <> None.
Proof. destruct (mergePatch_obj t pm) as (out & -> & _). done. Qed.

Lemma merge_obj_lookup t p k : merge_obj t p !! k = merged_key (t !! k) (p !! k).
Proof.
  unfold merge_obj. destruct (mergePatch_obj (Some (JObj t)) p) as (out & -> & H).
  apply H.
Qed.

Lemma merge_obj_eq t p : mergePatch (Some (JObj t)) (JObj p) = JObj (merge_obj t p).
Proof. unfold merge_obj. by destruct (mergePatch_obj (Some (JObj t)) p) as (out & -> & _). Qed.

Lemma strip_fold_lookup (m : jobject) k :
  map_fold (fun k val out =>
      match val with JNull => out | _ => <[k := stripNulls val]> out end) (∅ : jobject) m !! k
  = match m !! k with None | Some JNull => None | Some v => Some (stripNulls v) end.
Proof.
  induction m as [|k' v m Hk IH] using map_ind.
  - by rewrite map_fold_empty, !lookup_empty.
  - rewrite map_fold_insert_L; [| |done].
    + destruct (decide (k = k')) as [->|Hne].
      * rewrite lookup_insert_eq. rewrite Hk in IH.
        destruct v; rewrite ?lookup_insert_eq; done.
      * rewrite (lookup_insert_ne m) by done. rewrite <-IH.
        destruct v; rewrite ?lookup_insert_ne by done; done.
    + intros k1 k2 v1 v2 y Hne _ _. destruct v1, v2; try done; by apply insert_insert_ne.
Qed.

Lemma stripNulls_obj m : exists out, stripNulls (JObj m) = JObj out /\
  forall k, out !! k = match m !! k with
                       | None | Some JNull => None
                       | Some v => Some (stripNulls v)
                       end.
Proof. eexists. split; [reflexivity|]. apply strip_fold_lookup. Qed.

(** No object reachable through object members has a null member. *)
Fixpoint no_nulls (v : json) : bool :=
  match v with
  | JObj m => map_fold (fun _ val b => negb (is_null val) && no_nulls val && b) true m
  | _ => true
  end.

Lemma no_nulls_obj m : no_nulls (JObj m) = true <->
  forall k v, m !! k = Some v -> is_null v = false /\ no_nulls v = true.
Proof.
  cbn [no_nulls]. induction m as [|k v m Hk IH] using map_ind.
  - rewrite map_fold_empty. split; [|done]. intros _ k v. by rewrite lookup_empty.
  - rewrite map_fold_insert_L; [| |done].
    + rewrite !andb_true_iff, negb_true_iff, IH. split.
      * intros [[H1 H2] H3] k' v'. destruct (decide (k' = k)) as [->|Hne].
        -- rewrite lookup_insert_eq. by intros [= <-].
        -- rewrite lookup_insert_ne by done. apply H3.
      * intros H. split; [apply (H k), lookup_insert_eq|].
        intros k' v' Hl. apply (H k'). rewrite lookup_insert_ne; [done|]. intros ->. congruence.
    + intros. btauto.
Qed.

Lemma stripNulls_not_null v : is_null v = false -> is_null (stripNulls v) = false.
Proof. by destruct v. Qed.

Lemma stripNulls_clean v : no_nulls (stripNulls v) = true.
Proof.
  induction v as [| | | | |l|m IH] using json_induction; try done.
  destruct (stripNulls_obj m) as (out & -> & H). apply no_nulls_obj.
  intros k v. rewrite H. destruct (m !! k) as [w|] eqn:E; [|done].
  specialize (IH k w E). destruct w; intros [= <-]; (split; [done|exact IH]).
Qed.

Lemma stripNulls_fix v : no_nulls v = true -> stripNulls v = v.
Proof.
  induction v as [| | | | |l|m IH] using json_induction; try done.
  - intros _. apply cloneValue_id.
  - rewrite no_nulls_obj. intros Hn. destruct (stripNulls_obj m) as (out & -> & H).
    f_equal. apply map_eq. intros k. rewrite H.
    destruct (m !! k) as [w|] eqn:E; [|done]. destruct (Hn k w E) as [Hw Hw'].
    specialize (IH k w E Hw'). destruct w; by rewrite ?IH.
Qed.

Lemma mergePatch_null_free t p : no_nulls p = true ->
  (forall v, t = Some v -> no_nulls v = true) -> no_nulls (mergePatch t p) = true.
Proof.
  revert t. induction p as [| | | | |l|pm IH] using json_induction; intros t Hp Ht; try done.
  destruct (mergePatch_obj t pm) as (out & -> & H). apply no_nulls_obj. intros k v.
  rewrite H. rewrite no_nulls_obj in Hp.
  assert (Hm : forall v, members t !! k = Some v -> is_null v = false /\ no_nulls v = true).
  { intros w Hw. destruct t as [[| | | | | |tm]|]; try done.
    specialize (Ht (JObj tm) eq_refl). rewrite no_nulls_obj in Ht. by apply (Ht k). }
  destruct (pm !! k) as [w|] eqn:E; simpl; [|apply Hm].
  destruct (Hp k w E) as [Hw Hw']. specialize (IH k w E (members t !! k) Hw').
  assert (HI : no_nulls (mergePatch (members t !! k) w) = true)
    by (apply IH; intros u Hu; by apply Hm).
  destruct w; try done; intros [= <-]; (split; [done|exact HI]).
Qed.
