(* ===== verification/PolicyDoc.v ===== *)
(** internal/policy/document.go: the typed remote configuration document, its
    JSON codec, and the small accessors declared beside the types.

    A struct is a Record with the source's field names (prefixed where two
    structs share one); a pointer field is an [option], a slice field a
    [slice] (nil told apart from empty), a map field a [gmap]. The [Codec]
    instances are the [json:"..."] tags: what [encoding/json] reads from and
    writes for each struct. [dec_enc] of the [CodecOk] instances is their
    round trip. *)
From S2P Require Import Prelude Json.

#[local] Existing Instance slice_codec.

(** [Refresh]: how often the document is re-fetched, and when a cache is stale. *)
Record Refresh := mkRefresh {
  IntervalMinutes : Z;
  StaleAfterDays : Z
}.

(** [VersionRange]: nil means no bound. *)
Record VersionRange := mkVersionRange {
  rng_Min : option string;
  rng_Max : option string
}.

(** [IPCVersion]. *)
Record IPCVersion := mkIPCVersion {
  ipc_Updater : VersionRange;
  ipc_EMLy : VersionRange;
  ipc_Enabled : option bool
}.

(** [IPCProtocol]. *)
Record IPCProtocol := mkIPCProtocol {
  Versions : gmap string IPCVersion;
  DefaultVersion : Z
}.

(** [Site]: one entry of dcLookupMap. *)
Record Site := mkSite {
  InternalSubnets : slice string;
  BaseServer : string;
  BackupServer : slice string;
  site_Enabled : option bool
}.

(** [Whitelist]. *)
Record Whitelist := mkWhitelist {
  Hostnames : slice string;
  HWIDs : slice string
}.

(** [HostIntegrity]. *)
Record HostIntegrity := mkHostIntegrity {
  hi_Enabled : bool;
  hi_Whitelist : Whitelist
}.

(** [ControlUpdater]. *)
Record ControlUpdater := mkControlUpdater {
  cu_Enabled : bool;
  cu_Reason : option string;
  cu_Until : option string
}.

(** [ControlApp]. *)
Record ControlApp := mkControlApp {
  ca_Enabled : bool;
  Mode : string;
  ca_Reason : option string;
  ca_Until : option string
}.

(** [Control]. *)
Record Control := mkControl {
  ctl_Updater : ControlUpdater;
  ctl_App : ControlApp
}.

(** [CriticalWarning]. *)
Record CriticalWarning := mkCriticalWarning {
  cw_Enabled : bool;
  Seconds : Z
}.

(** [DCLookupRetry]. *)
Record DCLookupRetry := mkDCLookupRetry {
  dc_Attempts : Z;
  DelaySeconds : Z
}.

(** [ResolverSettings]. *)
Record ResolverSettings := mkResolverSettings {
  rs_Attempts : Z;
  BaseBackoffSeconds : Z
}.

(** [Toggle]. *)
Record Toggle := mkToggle {
  tg_Enabled : bool
}.

(** [UpdaterSettings]. *)
Record UpdaterSettings := mkUpdaterSettings {
  PollIntervalMinutes : Z;
  ChannelOverride : option string;
  us_CriticalWarning : CriticalWarning;
  us_DCLookupRetry : DCLookupRetry;
  us_Resolver : ResolverSettings;
  us_SelfUpdate : Toggle;
  InstallCertificate : Toggle
}.

(** [LoggingSettings]. *)
Record LoggingSettings := mkLoggingSettings {
  Level : string;
  MaxSizeMB : Z;
  Backups : Z;
  Compress : bool;
  EventLog : bool
}.

(** [ClientWSSettings]. *)
Record ClientWSSettings := mkClientWSSettings {
  ws_Enabled : bool;
  ws_Commands : slice string
}.

(** [Selector]: keys are ANDed, values within a list ORed. *)
Record Selector := mkSelector {
  sel_All : bool;
  sel_HWIDs : slice string;
  sel_Hostnames : slice string;
  DCs : slice string;
  Subnets : slice string;
  Domains : slice string
}.
(** [Override]; a nil [Patch] is told apart from an empty one. *)
Record Override := mkOverride {
  ov_ID : string;
  Match : Selector;
  Except : option Selector;
  ov_Until : option string;
  Patch : option jobject
}.

(** [Document]. *)
Record Document := mkDocument {
  doc_SchemaVersion : Z;
  Revision : Z;
  GeneratedAt : string;
  doc_Refresh : Refresh;
  Servers : gmap string string;
  DefaultServer : string;
  doc_IPCProtocol : IPCProtocol;
  DCLookupMap : gmap string Site;
  doc_HostIntegrity : HostIntegrity;
  doc_Control : Control;
  doc_Updater : UpdaterSettings;
  doc_Logging : LoggingSettings;
  ClientWS : ClientWSSettings;
  Overrides : slice Override
}.

(** [Host]: the facts a selector is evaluated against. *)
Record Host := mkHost {
  h_HWID : string;
  h_Hostname : string;
  h_DC : string;
  h_Domain : string;
  h_IPs : list string;
  h_Now : time
}.

(** * Constants *)

Definition SchemaVersion : Z := 1.
Definition MaxDocumentSize : Z := 2 ^ 20.
Definition ManifestPath : string := "/v2/updates/manifest".

Definition AppModeNormal := "normal".
Definition AppModeReadOnly := "readonly".
Definition AppModeMaintenance := "maintenance".

Definition DefaultClientWSCommands : list string :=
  ["machine.info"; "emly.manifest.check"; "updater.manifest.check"; "apps.list_upgradable"].

Definition knownClientWSCommands : list string :=
  ["machine.info"; "emly.manifest.check"; "updater.manifest.check";
   "apps.list_upgradable"; "service.restart"; "machine.reboot"].

Definition PatchableSections : list string :=
  ["control"; "updater"; "logging"; "defaultServer"; "clientWs"].

(** [slices.Contains] on strings. *)
Definition contains (l : list string) (s : string) : bool := existsb (fun x => x =s s) l.

(** * Accessors *)

Definition Allows (c : ClientWSSettings) (name : string) : bool :=
  contains (sl c.(ws_Commands)) name.

Definition default_true (b : option bool) : bool :=
  match b with None => true | Some b => b end.
Definition IPCVersion_IsEnabled (v : IPCVersion) : bool := default_true v.(ipc_Enabled).
Definition Site_IsEnabled (s : Site) : bool := default_true s.(site_Enabled).

(** Durations, with Go's [int64] product. *)
Definition Refresh_Interval (r : Refresh) : duration := d_mul r.(IntervalMinutes) minute.
Definition StaleAfter (r : Refresh) : duration :=
  d_mul (wrap64 (r.(StaleAfterDays) * 24)) hour.
Definition PollInterval (u : UpdaterSettings) : duration := d_mul u.(PollIntervalMinutes) minute.
Definition Delay (d : DCLookupRetry) : duration := d_mul d.(DelaySeconds) second.
Definition BaseBackoff (r : ResolverSettings) : duration := d_mul r.(BaseBackoffSeconds) second.

Definition Channel (u : UpdaterSettings) : string := from_opt "" u.(ChannelOverride).

(** * JSON *)

#[export] Instance Refresh_codec : Codec Refresh := {|
  zero := mkRefresh zero zero;
  enc x := obj [("intervalMinutes", enc (x.(IntervalMinutes))); ("staleAfterDays", enc (x.(StaleAfterDays)))];
  dec := dec_struct (mkRefresh zero zero) (fun m =>
    v0 ← field m "intervalMinutes";
    v1 ← field m "staleAfterDays";
    Some (mkRefresh v0 v1)) |}.

#[export] Instance VersionRange_codec : Codec VersionRange := {|
  zero := mkVersionRange zero zero;
  enc x := obj [("min", enc (x.(rng_Min))); ("max", enc (x.(rng_Max)))];
  dec := dec_struct (mkVersionRange zero zero) (fun m =>
    v0 ← field m "min";
    v1 ← field m "max";
    Some (mkVersionRange v0 v1)) |}.

#[export] Instance IPCVersion_codec : Codec IPCVersion := {|
  zero := mkIPCVersion zero zero zero;
  enc x := obj [("updater", enc (x.(ipc_Updater))); ("emly", enc (x.(ipc_EMLy))); ("enabled", enc (x.(ipc_Enabled)))];
  dec := dec_struct (mkIPCVersion zero zero zero) (fun m =>
    v0 ← field m "updater";
    v1 ← field m "emly";
    v2 ← field m "enabled";
    Some (mkIPCVersion v0 v1 v2)) |}.

#[export] Instance IPCProtocol_codec : Codec IPCProtocol := {|
  zero := mkIPCProtocol zero zero;
  enc x := obj [("versions", enc (x.(Versions))); ("defaultVersion", enc (x.(DefaultVersion)))];
  dec := dec_struct (mkIPCProtocol zero zero) (fun m =>
    v0 ← field m "versions";
    v1 ← field m "defaultVersion";
    Some (mkIPCProtocol v0 v1)) |}.

#[export] Instance Site_codec : Codec Site := {|
  zero := mkSite zero zero zero zero;
  enc x := obj [("internalSubnets", enc (x.(InternalSubnets))); ("baseServer", enc (x.(BaseServer))); ("backupServer", enc (x.(BackupServer))); ("enabled", enc (x.(site_Enabled)))];
  dec := dec_struct (mkSite zero zero zero zero) (fun m =>
    v0 ← field m "internalSubnets";
    v1 ← field m "baseServer";
    v2 ← field m "backupServer";
    v3 ← field m "enabled";
    Some (mkSite v0 v1 v2 v3)) |}.

#[export] Instance Whitelist_codec : Codec Whitelist := {|
  zero := mkWhitelist zero zero;
  enc x := obj [("hostnames", enc (x.(Hostnames))); ("hwids", enc (x.(HWIDs)))];
  dec := dec_struct (mkWhitelist zero zero) (fun m =>
    v0 ← field m "hostnames";
    v1 ← field m "hwids";
    Some (mkWhitelist v0 v1)) |}.

#[export] Instance HostIntegrity_codec : Codec HostIntegrity := {|
  zero := mkHostIntegrity zero zero;
  enc x := obj [("enabled", enc (x.(hi_Enabled))); ("whitelist", enc (x.(hi_Whitelist)))];
  dec := dec_struct (mkHostIntegrity zero zero) (fun m =>
    v0 ← field m "enabled";
    v1 ← field m "whitelist";
    Some (mkHostIntegrity v0 v1)) |}.

#[export] Instance ControlUpdater_codec : Codec ControlUpdater := {|
  zero := mkControlUpdater zero zero zero;
  enc x := obj [("enabled", enc (x.(cu_Enabled))); ("reason", enc (x.(cu_Reason))); ("until", enc (x.(cu_Until)))];
  dec := dec_struct (mkControlUpdater zero zero zero) (fun m =>
    v0 ← field m "enabled";
    v1 ← field m "reason";
    v2 ← field m "until";
    Some (mkControlUpdater v0 v1 v2)) |}.

#[export] Instance ControlApp_codec : Codec ControlApp := {|
  zero := mkControlApp zero zero zero zero;
  enc x := obj [("enabled", enc (x.(ca_Enabled))); ("mode", enc (x.(Mode))); ("reason", enc (x.(ca_Reason))); ("until", enc (x.(ca_Until)))];
  dec := dec_struct (mkControlApp zero zero zero zero) (fun m =>
    v0 ← field m "enabled";
    v1 ← field m "mode";
    v2 ← field m "reason";
    v3 ← field m "until";
    Some (mkControlApp v0 v1 v2 v3)) |}.

#[export] Instance Control_codec : Codec Control := {|
  zero := mkControl zero zero;
  enc x := obj [("updater", enc (x.(ctl_Updater))); ("app", enc (x.(ctl_App)))];
  dec := dec_struct (mkControl zero zero) (fun m =>
    v0 ← field m "updater";
    v1 ← field m "app";
    Some (mkControl v0 v1)) |}.

#[export] Instance CriticalWarning_codec : Codec CriticalWarning := {|
  zero := mkCriticalWarning zero zero;
  enc x := obj [("enabled", enc (x.(cw_Enabled))); ("seconds", enc (x.(Seconds)))];
  dec := dec_struct (mkCriticalWarning zero zero) (fun m =>
    v0 ← field m "enabled";
    v1 ← field m "seconds";
    Some (mkCriticalWarning v0 v1)) |}.

#[export] Instance DCLookupRetry_codec : Codec DCLookupRetry := {|
  zero := mkDCLookupRetry zero zero;
  enc x := obj [("attempts", enc (x.(dc_Attempts))); ("delaySeconds", enc (x.(DelaySeconds)))];
  dec := dec_struct (mkDCLookupRetry zero zero) (fun m =>
    v0 ← field m "attempts";
    v1 ← field m "delaySeconds";
    Some (mkDCLookupRetry v0 v1)) |}.

#[export] Instance ResolverSettings_codec : Codec ResolverSettings := {|
  zero := mkResolverSettings zero zero;
  enc x := obj [("attempts", enc (x.(rs_Attempts))); ("baseBackoffSeconds", enc (x.(BaseBackoffSeconds)))];
  dec := dec_struct (mkResolverSettings zero zero) (fun m =>
    v0 ← field m "attempts";
    v1 ← field m "baseBackoffSeconds";
    Some (mkResolverSettings v0 v1)) |}.

#[export] Instance Toggle_codec : Codec Toggle := {|
  zero := mkToggle zero;
  enc x := obj [("enabled", enc (x.(tg_Enabled)))];
  dec := dec_struct (mkToggle zero) (fun m =>
    v0 ← field m "enabled";
    Some (mkToggle v0)) |}.

#[export] Instance UpdaterSettings_codec : Codec UpdaterSettings := {|
  zero := mkUpdaterSettings zero zero zero zero zero zero zero;
  enc x := obj [("pollIntervalMinutes", enc (x.(PollIntervalMinutes))); ("channelOverride", enc (x.(ChannelOverride))); ("criticalWarning", enc (x.(us_CriticalWarning))); ("dcLookupRetry", enc (x.(us_DCLookupRetry))); ("resolver", enc (x.(us_Resolver))); ("selfUpdate", enc (x.(us_SelfUpdate))); ("installCertificate", enc (x.(InstallCertificate)))];
  dec := dec_struct (mkUpdaterSettings zero zero zero zero zero zero zero) (fun m =>
    v0 ← field m "pollIntervalMinutes";
    v1 ← field m "channelOverride";
    v2 ← field m "criticalWarning";
    v3 ← field m "dcLookupRetry";
    v4 ← field m "resolver";
    v5 ← field m "selfUpdate";
    v6 ← field m "installCertificate";
    Some (mkUpdaterSettings v0 v1 v2 v3 v4 v5 v6)) |}.

#[export] Instance LoggingSettings_codec : Codec LoggingSettings := {|
  zero := mkLoggingSettings zero zero zero zero zero;
  enc x := obj [("level", enc (x.(Level))); ("maxSizeMB", enc (x.(MaxSizeMB))); ("backups", enc (x.(Backups))); ("compress", enc (x.(Compress))); ("eventLog", enc (x.(EventLog)))];
  dec := dec_struct (mkLoggingSettings zero zero zero zero zero) (fun m =>
    v0 ← field m "level";
    v1 ← field m "maxSizeMB";
    v2 ← field m "backups";
    v3 ← field m "compress";
    v4 ← field m "eventLog";
    Some (mkLoggingSettings v0 v1 v2 v3 v4)) |}.

#[export] Instance ClientWSSettings_codec : Codec ClientWSSettings := {|
  zero := mkClientWSSettings zero zero;
  enc x := obj [("enabled", enc (x.(ws_Enabled))); ("commands", enc (x.(ws_Commands)))];
  dec := dec_struct (mkClientWSSettings zero zero) (fun m =>
    v0 ← field m "enabled";
    v1 ← field m "commands";
    Some (mkClientWSSettings v0 v1)) |}.

#[export] Instance Selector_codec : Codec Selector := {|
  zero := mkSelector zero zero zero zero zero zero;
  enc x := obj [("all", enc (x.(sel_All))); ("hwids", enc (x.(sel_HWIDs))); ("hostnames", enc (x.(sel_Hostnames))); ("dcs", enc (x.(DCs))); ("subnets", enc (x.(Subnets))); ("domains", enc (x.(Domains)))];
  dec := dec_struct (mkSelector zero zero zero zero zero zero) (fun m =>
    v0 ← field m "all";
    v1 ← field m "hwids";
    v2 ← field m "hostnames";
    v3 ← field m "dcs";
    v4 ← field m "subnets";
    v5 ← field m "domains";
    Some (mkSelector v0 v1 v2 v3 v4 v5)) |}.
(** A JSON object kept generic: [map[string]any]. *)
Definition dec_any_map (j : json) : option (option jobject) :=
  match j with JNull => Some None | JObj m => Some (Some m) | _ => None end.

#[export] Instance Override_codec : Codec Override := {|
  zero := mkOverride "" zero None None None;
  enc x := obj [("id", enc x.(ov_ID)); ("match", enc x.(Match)); ("except", enc x.(Except));
                ("until", enc x.(ov_Until));
                ("patch", match x.(Patch) with None => JNull | Some p => JObj p end)];
  dec := dec_struct (mkOverride "" zero None None None) (fun m =>
    v0 ← field m "id"; v1 ← field m "match"; v2 ← field m "except"; v3 ← field m "until";
    v4 ← match m !! "patch" with None => Some None | Some j => dec_any_map j end;
    Some (mkOverride v0 v1 v2 v3 v4)) |}.

#[export] Instance Document_codec : Codec Document := {|
  zero := mkDocument 0 0 "" zero ∅ "" zero ∅ zero zero zero zero zero None;
  enc x := obj [("schemaVersion", enc x.(doc_SchemaVersion)); ("revision", enc x.(Revision));
    ("generatedAt", enc x.(GeneratedAt)); ("refresh", enc x.(doc_Refresh));
    ("servers", enc x.(Servers)); ("defaultServer", enc x.(DefaultServer));
    ("ipcProtocol", enc x.(doc_IPCProtocol)); ("dcLookupMap", enc x.(DCLookupMap));
    ("hostIntegrity", enc x.(doc_HostIntegrity)); ("control", enc x.(doc_Control));
    ("updater", enc x.(doc_Updater)); ("logging", enc x.(doc_Logging));
    ("clientWs", enc x.(ClientWS)); ("overrides", enc x.(Overrides))];
  dec := dec_struct (mkDocument 0 0 "" zero ∅ "" zero ∅ zero zero zero zero zero None) (fun m =>
    v0 ← field m "schemaVersion"; v1 ← field m "revision"; v2 ← field m "generatedAt";
    v3 ← field m "refresh"; v4 ← field m "servers"; v5 ← field m "defaultServer";
    v6 ← field m "ipcProtocol"; v7 ← field m "dcLookupMap"; v8 ← field m "hostIntegrity";
    v9 ← field m "control"; v10 ← field m "updater"; v11 ← field m "logging";
    v12 ← field m "clientWs"; v13 ← field m "overrides";
    Some (mkDocument v0 v1 v2 v3 v4 v5 v6 v7 v8 v9 v10 v11 v12 v13)) |}.

(** * Round trips *)

(** A struct whose fields fit round-trips: look every key up, then apply the
    field's own round trip. *)
Ltac struct_ok C W :=
  refine {| fits := W |};
  [ intros ? ?; destruct_and?; cbn [dec enc C dec_struct obj];
    repeat (erewrite field_enc; [|reflexivity|eassumption]; cbn [mbind option_bind]);
    match goal with |- Some _ = Some ?x => by destruct x end
  | reflexivity ].

#[export] Instance Refresh_ok : CodecOk Refresh.
Proof.
  struct_ok Refresh_codec (fun x : Refresh =>
    fits (x.(IntervalMinutes)) /\ fits (x.(StaleAfterDays))).
Defined.
#[export] Instance Refresh_nn : EncNotNull Refresh.
Proof. done. Qed.

#[export] Instance VersionRange_ok : CodecOk VersionRange.
Proof.
  struct_ok VersionRange_codec (fun x : VersionRange =>
    fits (x.(rng_Min)) /\ fits (x.(rng_Max))).
Defined.
#[export] Instance VersionRange_nn : EncNotNull VersionRange.
Proof. done. Qed.

#[export] Instance IPCVersion_ok : CodecOk IPCVersion.
Proof.
  struct_ok IPCVersion_codec (fun x : IPCVersion =>
    fits (x.(ipc_Updater)) /\ fits (x.(ipc_EMLy)) /\ fits (x.(ipc_Enabled))).
Defined.
#[export] Instance IPCVersion_nn : EncNotNull IPCVersion.
Proof. done. Qed.

#[export] Instance IPCProtocol_ok : CodecOk IPCProtocol.
Proof.
  struct_ok IPCProtocol_codec (fun x : IPCProtocol =>
    fits (x.(Versions)) /\ fits (x.(DefaultVersion))).
Defined.
#[export] Instance IPCProtocol_nn : EncNotNull IPCProtocol.
Proof. done. Qed.

#[export] Instance Site_ok : CodecOk Site.
Proof.
  struct_ok Site_codec (fun x : Site =>
    fits (x.(InternalSubnets)) /\ fits (x.(BaseServer)) /\ fits (x.(BackupServer)) /\ fits (x.(site_Enabled))).
Defined.
#[export] Instance Site_nn : EncNotNull Site.
Proof. done. Qed.

#[export] Instance Whitelist_ok : CodecOk Whitelist.
Proof.
  struct_ok Whitelist_codec (fun x : Whitelist =>
    fits (x.(Hostnames)) /\ fits (x.(HWIDs))).
Defined.
#[export] Instance Whitelist_nn : EncNotNull Whitelist.
Proof. done. Qed.

#[export] Instance HostIntegrity_ok : CodecOk HostIntegrity.
Proof.
  struct_ok HostIntegrity_codec (fun x : HostIntegrity =>
    fits (x.(hi_Enabled)) /\ fits (x.(hi_Whitelist))).
Defined.
#[export] Instance HostIntegrity_nn : EncNotNull HostIntegrity.
Proof. done. Qed.

#[export] Instance ControlUpdater_ok : CodecOk ControlUpdater.
Proof.
  struct_ok ControlUpdater_codec (fun x : ControlUpdater =>
    fits (x.(cu_Enabled)) /\ fits (x.(cu_Reason)) /\ fits (x.(cu_Until))).
Defined.
#[export] Instance ControlUpdater_nn : EncNotNull ControlUpdater.
Proof. done. Qed.

#[export] Instance ControlApp_ok : CodecOk ControlApp.
Proof.
  struct_ok ControlApp_codec (fun x : ControlApp =>
    fits (x.(ca_Enabled)) /\ fits (x.(Mode)) /\ fits (x.(ca_Reason)) /\ fits (x.(ca_Until))).
Defined.
#[export] Instance ControlApp_nn : EncNotNull ControlApp.
Proof. done. Qed.

#[export] Instance Control_ok : CodecOk Control.
Proof.
  struct_ok Control_codec (fun x : Control =>
    fits (x.(ctl_Updater)) /\ fits (x.(ctl_App))).
Defined.
#[export] Instance Control_nn : EncNotNull Control.
Proof. done. Qed.

#[export] Instance CriticalWarning_ok : CodecOk CriticalWarning.
Proof.
  struct_ok CriticalWarning_codec (fun x : CriticalWarning =>
    fits (x.(cw_Enabled)) /\ fits (x.(Seconds))).
Defined.
#[export] Instance CriticalWarning_nn : EncNotNull CriticalWarning.
Proof. done. Qed.

#[export] Instance DCLookupRetry_ok : CodecOk DCLookupRetry.
Proof.
  struct_ok DCLookupRetry_codec (fun x : DCLookupRetry =>
    fits (x.(dc_Attempts)) /\ fits (x.(DelaySeconds))).
Defined.
#[export] Instance DCLookupRetry_nn : EncNotNull DCLookupRetry.
Proof. done. Qed.

#[export] Instance ResolverSettings_ok : CodecOk ResolverSettings.
Proof.
  struct_ok ResolverSettings_codec (fun x : ResolverSettings =>
    fits (x.(rs_Attempts)) /\ fits (x.(BaseBackoffSeconds))).
Defined.
#[export] Instance ResolverSettings_nn : EncNotNull ResolverSettings.
Proof. done. Qed.

#[export] Instance Toggle_ok : CodecOk Toggle.
Proof.
  struct_ok Toggle_codec (fun x : Toggle =>
    fits (x.(tg_Enabled))).
Defined.
#[export] Instance Toggle_nn : EncNotNull Toggle.
Proof. done. Qed.

#[export] Instance UpdaterSettings_ok : CodecOk UpdaterSettings.
Proof.
  struct_ok UpdaterSettings_codec (fun x : UpdaterSettings =>
    fits (x.(PollIntervalMinutes)) /\ fits (x.(ChannelOverride)) /\ fits (x.(us_CriticalWarning)) /\ fits (x.(us_DCLookupRetry)) /\ fits (x.(us_Resolver)) /\ fits (x.(us_SelfUpdate)) /\ fits (x.(InstallCertificate))).
Defined.
#[export] Instance UpdaterSettings_nn : EncNotNull UpdaterSettings.
Proof. done. Qed.

#[export] Instance LoggingSettings_ok : CodecOk LoggingSettings.
Proof.
  struct_ok LoggingSettings_codec (fun x : LoggingSettings =>
    fits (x.(Level)) /\ fits (x.(MaxSizeMB)) /\ fits (x.(Backups)) /\ fits (x.(Compress)) /\ fits (x.(EventLog))).
Defined.
#[export] Instance LoggingSettings_nn : EncNotNull LoggingSettings.
Proof. done. Qed.

#[export] Instance ClientWSSettings_ok : CodecOk ClientWSSettings.
Proof.
  struct_ok ClientWSSettings_codec (fun x : ClientWSSettings =>
    fits (x.(ws_Enabled)) /\ fits (x.(ws_Commands))).
Defined.
#[export] Instance ClientWSSettings_nn : EncNotNull ClientWSSettings.
Proof. done. Qed.

#[export] Instance Selector_ok : CodecOk Selector.
Proof.
  struct_ok Selector_codec (fun x : Selector =>
    fits (x.(sel_All)) /\ fits (x.(sel_HWIDs)) /\ fits (x.(sel_Hostnames)) /\ fits (x.(DCs)) /\ fits (x.(Subnets)) /\ fits (x.(Domains))).
Defined.
#[export] Instance Selector_nn : EncNotNull Selector.
Proof. done. Qed.

(** * Lemmas *)

Lemma contains_spec l s : contains l s = true <-> s ∈ l.
Proof.
  unfold contains. rewrite existsb_exists. split.
  - intros (x & Hx & E). apply str_eqb_eq in E. subst. by apply list_elem_of_In.
  - intros H. exists s. split; [by apply list_elem_of_In|]. done.
Qed.

Lemma Interval_clamped r : 1 <= r.(IntervalMinutes) <= 1440 ->
  minute <= Refresh_Interval r <= 1440 * minute.
Proof.
  intros H. unfold Refresh_Interval, d_mul.
  rewrite wrap64_id; unfold in_int64, int64_min, int64_max, minute, second; lia.
Qed.
