(* ===== verification/Versions.v ===== *)
(** The interface of the third-party version library
    (github.com/hashicorp/go-version) as the program uses it, and the two
    helpers the program builds on it: [manifest.Less]
    (internal/manifest/manifest.go) and [validVersion]
    (internal/policy/parse.go).

    The library's own code is not part of the repository: [VersionLib] is a
    parameter of everything that compares versions, [VersionLaws] its
    documented behaviour (an ordering of the accepted versions), and [Dotted]
    an instance on plain [major.minor.patch] strings, used to evaluate the
    model on concrete inputs. *)
From S2P Require Import Prelude.

(** [goversion.NewVersion] and [Version.LessThan]. *)
Class VersionLib := {
  version : Type;
  NewVersion : string -> option version;
  LessThan : version -> version -> bool
}.

(** [LessThan] is a strict weak order. *)
Class VersionLaws `{VersionLib} := {
  lt_irrefl : forall v, LessThan v v = false;
  lt_trans : forall a b c, LessThan a b = true -> LessThan b c = true -> LessThan a c = true;
  lt_cotrans : forall a b c, LessThan a c = true -> LessThan a b = true \/ LessThan b c = true
}.

Section Less.
Context `{VersionLib}.

(** [manifest.Less]: whether [a] is strictly older than [b]. *)
Definition Less (a b : string) : result string bool :=
  match NewVersion a with
  | None => Err ("invalid version " +:+ a)
  | Some va =>
      match NewVersion b with
      | None => Err ("invalid version " +:+ b)
      | Some vb => Ok (LessThan va vb)
      end
  end.

(** [policy.validVersion]. *)
Definition validVersion (v : string) : bool := is_ok (Less v v).

Lemma Less_ok a b r : Less a b = Ok r <->
  exists va vb, NewVersion a = Some va /\ NewVersion b = Some vb /\ r = LessThan va vb.
Proof.
  unfold Less. split.
  - destruct (NewVersion a) as [va|]; [|done]. destruct (NewVersion b) as [vb|]; [|done].
    intros [= <-]. by exists va, vb.
  - by intros (va & vb & -> & -> & ->).
Qed.

Lemma Less_valid a b r : Less a b = Ok r -> validVersion a = true /\ validVersion b = true.
Proof.
  rewrite Less_ok. intros (va & vb & Ha & Hb & _). unfold validVersion, Less.
  by rewrite Ha, Hb.
Qed.

Context `{!VersionLaws}.

Lemma Less_irrefl a b : Less a a = Ok b -> b = false.
Proof.
  rewrite Less_ok. intros (va & vb & Ha & Hb & ->). assert (va = vb) as -> by congruence.
  apply lt_irrefl.
Qed.

Lemma Less_trans a b c :
  Less a b = Ok true -> Less b c = Ok true -> Less a c = Ok true.
Proof.
  rewrite !Less_ok. intros (va & vb & Ha & Hb & E1) (vb' & vc & Hb' & Hc & E2).
  assert (vb' = vb) as -> by congruence. exists va, vc. split_and!; try done.
  symmetry. by eapply lt_trans.
Qed.

Lemma Less_asym a b : Less a b = Ok true -> Less b a = Ok false.
Proof.
  rewrite !Less_ok. intros (va & vb & Ha & Hb & E1). exists vb, va. split_and!; try done.
  destruct (LessThan vb va) eqn:E; [|done].
  pose proof (lt_trans va vb va (eq_sym E1) E). by rewrite lt_irrefl in *.
Qed.

(** Not older than something that is itself not older: [Less] compares as a
    total preorder. *)
Lemma Less_cotrans a b c : Less a b = Ok false -> Less b c = Ok false -> Less a c = Ok false.
Proof.
  rewrite !Less_ok. intros (va & vb & Ha & Hb & E1) (vb' & vc & Hb' & Hc & E2).
  assert (vb' = vb) as -> by congruence. exists va, vc. split_and!; try done.
  destruct (LessThan va vc) eqn:E; [|done]. destruct (lt_cotrans va vb vc E); congruence.
Qed.
End Less.

(** Versions of exactly three decimal segments. *)
Module Dotted.
Definition triple3 : Type := Z * Z * Z.

Definition parse (s : string) : option triple3 :=
  match split_byte "." s with
  | [a; b; c] =>
      x ← parse_dec a; y ← parse_dec b; z ← parse_dec c; Some (x, y, z)
  | _ => None
  end.

Definition lt (a b : triple3) : bool :=
  let '(a1, a2, a3) := a in let '(b1, b2, b3) := b in
  (a1 <? b1) || ((a1 =? b1) && ((a2 <? b2) || ((a2 =? b2) && (a3 <? b3)))).

Lemma lt_spec a1 a2 a3 b1 b2 b3 : lt (a1, a2, a3) (b1, b2, b3) = true <->
  a1 < b1 \/ a1 = b1 /\ (a2 < b2 \/ a2 = b2 /\ a3 < b3).
Proof.
  unfold lt. rewrite !orb_true_iff, !andb_true_iff, !orb_true_iff, !andb_true_iff,
    !Z.ltb_lt, !Z.eqb_eq. done.
Qed.

Definition lib : VersionLib := {| version := triple3; NewVersion := parse; LessThan := lt |}.

Lemma laws : @VersionLaws lib.
Proof.
  split.
  - intros [[a b] c]. apply not_true_iff_false. cbn [LessThan lib]. rewrite lt_spec. lia.
  - intros [[a1 a2] a3] [[b1 b2] b3] [[c1 c2] c3]. cbn [LessThan lib]. rewrite !lt_spec. lia.
  - intros [[a1 a2] a3] [[b1 b2] b3] [[c1 c2] c3]. cbn [LessThan lib]. rewrite !lt_spec. lia.
Qed.
End Dotted.
