(* ===== verification/Manifest.v ===== *)
(** internal/manifest: the two release manifests (EMLy's and the updater's
    own), their parsing, and the version rules read off them. *)
From S2P Require Import Prelude Json Versions.

(** Response bytes: a UTF-8 byte-order mark may precede the JSON text. *)
Record raw_bytes := RawBytes { rb_bom : bool; rb_blob : blob }.

(** [bytes.TrimPrefix(data, BOM)]. *)
Definition trim_bom (d : raw_bytes) : raw_bytes := RawBytes false d.(rb_blob).

(** [encoding/json] refuses a byte-order mark. *)
Definition unmarshal {A} `{!Codec A} (d : raw_bytes) : option A :=
  if d.(rb_bom) then None else j ← d.(rb_blob).(blob_json); dec j.

Record DetailedNote := mkDetailedNote {
  SeverityType : string;
  Description : gmap string string
}.

Record Manifest := mkManifest {
  StableVersion : string;
  BetaVersion : string;
  StableDownload : string;
  BetaDownload : string;
  IsCritical : bool;
  MinRequiredVersion : string;
  SHA256Checksums : gmap string string;
  ReleaseNotes : gmap string string;
  DetailedReleaseNotes : gmap string DetailedNote
}.

Record Target := mkTarget {
  tg_Version : string;
  DownloadRef : string;
  tg_SHA256 : string
}.

Record UpdaterManifest := mkUpdaterManifest {
  um_Version : string;
  um_Download : string;
  um_SHA256 : string;
  um_Size : Z;
  um_PublishedAt : string;
  um_ReleaseNotes : gmap string string
}.

#[export] Instance DetailedNote_codec : Codec DetailedNote := {|
  zero := mkDetailedNote "" ∅;
  enc x := obj [("severityType", enc x.(SeverityType)); ("description", enc x.(Description))];
  dec := dec_struct (mkDetailedNote "" ∅) (fun m =>
    a ← field m "severityType"; b ← field m "description"; Some (mkDetailedNote a b)) |}.

#[export] Instance Manifest_codec : Codec Manifest := {|
  zero := mkManifest "" "" "" "" false "" ∅ ∅ ∅;
  enc x := obj [("stableVersion", enc x.(StableVersion)); ("betaVersion", enc x.(BetaVersion));
    ("stableDownload", enc x.(StableDownload)); ("betaDownload", enc x.(BetaDownload));
    ("isCritical", enc x.(IsCritical)); ("minRequiredVersion", enc x.(MinRequiredVersion));
    ("sha256Checksums", enc x.(SHA256Checksums)); ("releaseNotes", enc x.(ReleaseNotes));
    ("detailedReleaseNotes", enc x.(DetailedReleaseNotes))];
  dec := dec_struct (mkManifest "" "" "" "" false "" ∅ ∅ ∅) (fun m =>
    a ← field m "stableVersion"; b ← field m "betaVersion";
    c ← field m "stableDownload"; d ← field m "betaDownload";
    e ← field m "isCritical"; f ← field m "minRequiredVersion";
    g ← field m "sha256Checksums"; h ← field m "releaseNotes";
    i ← field m "detailedReleaseNotes"; Some (mkManifest a b c d e f g h i)) |}.

#[export] Instance UpdaterManifest_codec : Codec UpdaterManifest := {|
  zero := mkUpdaterManifest "" "" "" 0 "" ∅;
  enc x := obj [("version", enc x.(um_Version)); ("download", enc x.(um_Download));
    ("sha256", enc x.(um_SHA256)); ("size", enc x.(um_Size));
    ("publishedAt", enc x.(um_PublishedAt)); ("releaseNotes", enc x.(um_ReleaseNotes))];
  dec := dec_struct (mkUpdaterManifest "" "" "" 0 "" ∅) (fun m =>
    a ← field m "version"; b ← field m "download"; c ← field m "sha256";
    d ← field m "size"; e ← field m "publishedAt"; f ← field m "releaseNotes";
    Some (mkUpdaterManifest a b c d e f)) |}.

(** [Parse]. *)
Definition Parse (data : raw_bytes) : result string Manifest :=
  match unmarshal (trim_bom data) with
  | None => Err "failed to parse manifest JSON"
  | Some m =>
      if (m.(StableVersion) =s "") || (m.(StableDownload) =s "")
      then Err "invalid manifest: missing stable version or download"
      else Ok m
  end.

Section WithVersions.
Context `{VersionLib}.

(** [Manifest.ChannelVersion]. *)
Definition ChannelVersion (m : Manifest) (channel : string) : result string (string * string) :=
  let no_target := Err ("manifest has no target for channel " +:+ channel) in
  if negb (channel =s "beta") then
    if (m.(StableVersion) =s "") || (m.(StableDownload) =s "") then no_target
    else Ok (m.(StableVersion), m.(StableDownload))
  else
    if (m.(BetaVersion) =s "") || (m.(BetaDownload) =s "") then no_target
    else if negb (m.(StableVersion) =s "") && negb (m.(StableDownload) =s "") then
      betaOutdated ← Less m.(BetaVersion) m.(StableVersion);
      if betaOutdated : bool then Ok (m.(StableVersion), m.(StableDownload))
      else Ok (m.(BetaVersion), m.(BetaDownload))
    else Ok (m.(BetaVersion), m.(BetaDownload)).

(** [Manifest.Forced]. *)
Definition Forced (m : Manifest) (installed : string) : result string bool :=
  if m.(IsCritical) then Ok true
  else if m.(MinRequiredVersion) =s "" then Ok false
  else Less installed m.(MinRequiredVersion).
End WithVersions.

(** [ParseUpdater]. *)
Definition ParseUpdater (data : raw_bytes) : result string UpdaterManifest :=
  match unmarshal (trim_bom data) with
  | None => Err "failed to parse updater manifest JSON"
  | Some m =>
      let m := mkUpdaterManifest (trim_space m.(um_Version)) (trim_space m.(um_Download))
                 (trim_space m.(um_SHA256)) m.(um_Size) m.(um_PublishedAt) m.(um_ReleaseNotes) in
      if m.(um_Version) =s "" then Ok m
      else if m.(um_Download) =s "" then
        Err ("updater manifest offers version " +:+ m.(um_Version) +:+ " with no download URL")
      else if m.(um_SHA256) =s "" then
        Err ("updater manifest offers version " +:+ m.(um_Version) +:+ " with no SHA256 checksum")
      else Ok m
  end.

(** [UpdaterManifest.Offered]; [None] is the nil pointer. *)
Definition Offered (m : option UpdaterManifest) : bool :=
  match m with None => false | Some m => negb (m.(um_Version) =s "") end.

(** [UpdaterManifest.Target]. *)
Definition um_Target (m : UpdaterManifest) : Target :=
  mkTarget m.(um_Version) m.(um_Download) m.(um_SHA256).

(** [UpdaterManifest.Notes]; [order] is the enumeration of the map the final
    [range] happens to use. *)
Definition Notes (m : UpdaterManifest) (order : list (string * string)) (lang : string) : string :=
  if bool_decide (m.(um_ReleaseNotes) = ∅) then ""
  else
    match m.(um_ReleaseNotes) !! lang with
    | Some (String c n) => String c n
    | _ =>
        match m.(um_ReleaseNotes) !! "en" with
        | Some (String c n) => String c n
        | _ => from_opt "" (snd <$> find_first (fun kv => negb (kv.2 =s "")) order)
        end
    end.

(** * Properties *)

Section ChannelProps.
Context `{VersionLib, !VersionLaws}.

Lemma ChannelVersion_usable m channel v d :
  ChannelVersion m channel = Ok (v, d) ->
  v <> "" /\ d <> "" /\
  ((v, d) = (m.(StableVersion), m.(StableDownload)) \/
   channel = "beta" /\ (v, d) = (m.(BetaVersion), m.(BetaDownload))).
Proof.
  unfold ChannelVersion.
  destruct (channel =s "beta") eqn:Ec; cbn [negb]; [apply str_eqb_eq in Ec|];
  destruct (m.(StableVersion) =s "") eqn:E1, (m.(StableDownload) =s "") eqn:E2;
  destruct (m.(BetaVersion) =s "") eqn:E3, (m.(BetaDownload) =s "") eqn:E4; simpl; try done;
  rewrite ?str_eqb_neq in *; try (intros [= <- <-]; split_and!; try done; eauto; fail).
  destruct (Less _ _) as [[]|]; simpl; intros [= <- <-]; split_and!; try done; eauto.
Qed.

(** A channel target is never behind a usable stable release. *)
Lemma ChannelVersion_not_behind m channel v d :
  ChannelVersion m channel = Ok (v, d) -> m.(StableVersion) <> "" -> m.(StableDownload) <> "" ->
  v = m.(StableVersion) \/ Less v m.(StableVersion) = Ok false.
Proof.
  unfold ChannelVersion. rewrite <-!str_eqb_neq. intros Hc E1 E2. rewrite E1, E2 in Hc.
  destruct (channel =s "beta"); simpl in Hc; [|by injection Hc; auto].
  destruct (_ || _); [done|].
  destruct (Less m.(BetaVersion) m.(StableVersion)) as [[]|] eqn:EL; simpl in Hc;
    try done; injection Hc as <- <-; auto.
Qed.
End ChannelProps.

Lemma ParseUpdater_offered data m : ParseUpdater data = Ok m -> Offered (Some m) = true ->
  (um_Target m).(DownloadRef) <> "" /\ (um_Target m).(tg_SHA256) <> "".
Proof.
  unfold ParseUpdater, Offered. destruct (unmarshal _) as [x|]; [|done].
  cbn [um_Version um_Download um_SHA256].
  destruct (trim_space (um_Version x) =s "") eqn:E1.
  { intros [= <-]. cbn [um_Version]. by rewrite E1. }
  destruct (trim_space (um_Download x) =s "") eqn:E2; [done|].
  destruct (trim_space (um_SHA256 x) =s "") eqn:E3; [done|].
  intros [= <-] _. cbn. by rewrite <-!str_eqb_neq.
Qed.

Lemma Notes_from_manifest m order lang : order ≡ₚ map_to_list m.(um_ReleaseNotes) ->
  Notes m order lang = "" \/ exists k, m.(um_ReleaseNotes) !! k = Some (Notes m order lang).
Proof.
  intros Hp. unfold Notes. case_bool_decide; [by left|].
  destruct (_ !! lang) as [[|c n]|] eqn:E1; [| right; by exists lang |];
  (destruct (_ !! "en") as [[|c' n']|] eqn:E2; [| right; by exists "en" |]);
  (destruct (find_first _ order) as [[k v]|] eqn:E3; [right|by left]; exists k; cbn;
   apply find_first_some in E3 as [E3 _]; rewrite Hp in E3; by apply elem_of_map_to_list).
Qed.
