(* ===== verification/Net.v ===== *)
(** The textual network syntax the policy relies on, as the standard library of
    the module's Go release (1.26) reads it: IPv4 and IPv6 addresses and CIDR
    blocks ([net.ParseIP], [net.ParseCIDR], [IPNet.Contains],
    [IPNet.String]), URLs ([url.Parse]); host labels, and the predicates
    internal/policy builds on them ([validCIDR], [validServerURL],
    [hostLabel], [SameDCName], [containsFold], [anyIPInSubnets]).

    Every address is its 16-byte form, an IPv4 address the mapped one, as
    [net.IP] keeps them. *)
From S2P Require Import Prelude.

Definition is_hex (c : ascii) : bool :=
  let n := nat_of_ascii (ascii_lower c) in is_digit c || ((97 <=? n)%nat && (n <=? 102)%nat).
Definition hex_val (c : ascii) : nat :=
  if is_digit c then nat_of_ascii c - 48 else nat_of_ascii (ascii_lower c) - 87.

(** * Addresses *)

(** One decimal octet: one to three digits, no leading zero, at most 255. *)
Definition parse_octet (s : string) : option Z :=
  match s with
  | String "0" (String _ _) => None
  | _ => if (String.length s <=? 3)%nat then
           n ← parse_dec s; if n <=? 255 then Some n else None
         else None
  end.

(** Four octets, as a 32-bit number. *)
Definition parse_v4 (s : string) : option Z :=
  match split_byte "." s with
  | [a; b; c; d] =>
      a ← parse_octet a; b ← parse_octet b; c ← parse_octet c; d ← parse_octet d;
      Some (((a * 256 + b) * 256 + c) * 256 + d)
  | _ => None
  end.

(** The hexadecimal digits of one field, [n] more at most. *)
Fixpoint hex_field (n : nat) (acc : Z) (s : string) : option (Z * string) :=
  match s with
  | String c s' =>
      if is_hex c then
        match n with O => None | S n => hex_field n (16 * acc + Z.of_nat (hex_val c)) s' end
      else Some (acc, s)
  | EmptyString => Some (acc, s)
  end.

(** The fields of an IPv6 address: [n] more at most, those read, where the
    ellipsis stands among them, and the text left. *)
Fixpoint v6_fields (n : nat) (ellipsis : option nat) (read : list Z) (s : string) :
    option (list Z * option nat * string) :=
  match n with
  | O => Some (read, ellipsis, s)
  | S n =>
      if negb (match s with String c _ => is_hex c | EmptyString => false end) then None else
      '(v, rest) ← hex_field 4 0 s;
      let read' := (read ++ [v])%list in
      match rest with
      | EmptyString => Some (read', ellipsis, "")
      | String "." _ =>
          if (6 <? length read)%nat || (negb (is_some ellipsis) && negb (length read =? 6)%nat) then None
          else a ← parse_v4 s; Some ((read ++ [a / 65536; a mod 65536])%list, ellipsis, "")
      | String ":" EmptyString => None
      | String ":" (String ":" rest) =>
          if is_some ellipsis then None
          else if rest =s "" then Some (read', Some (length read'), "")
          else v6_fields n (Some (length read')) read' rest
      | String ":" rest => v6_fields n ellipsis read' rest
      | _ => None
      end
  end.

(** The eight fields, the ellipsis filled in: at least one of zeros. *)
Definition v6_fill (fields : list Z) (ellipsis : option nat) : option (list Z) :=
  match ellipsis with
  | None => if (length fields =? 8)%nat then Some fields else None
  | Some e => if (length fields <? 8)%nat
              then Some (take e fields ++ replicate (8 - length fields) 0 ++ drop e fields)%list else None
  end.

Definition v6_value (fields : list Z) : Z := fold_left (fun a f => a * 65536 + f) fields 0.

Definition parse_v6 (s : string) : option Z :=
  let '(ellipsis, rest) := if has_prefix s "::" then (Some O, drop_str 2 s) else (None, s) in
  if is_some ellipsis && (rest =s "") then Some 0
  else '(fields, ellipsis, rest) ← v6_fields 8 ellipsis [] rest;
       if rest =s "" then v6_value <$> v6_fill fields ellipsis else None.

(** [netip.Addr] and [netip.ParseAddr]: the first of a dot, a colon and a
    percent sign tells the family; a zone, when there is one, is not empty. *)
Inductive Addr := Addr4 (a : Z) | Addr6 (a : Z) (zone : string).

Fixpoint first_mark (s : string) : option ascii :=
  match s with
  | EmptyString => None
  | String c s' => if existsb (Ascii.eqb c) ["."; ":"; "%"]%char then Some c else first_mark s'
  end.

Definition ParseAddr (s : string) : option Addr :=
  match first_mark s with
  | Some "."%char => Addr4 <$> parse_v4 s
  | Some ":"%char =>
      let '(text, zone, found) := cut_byte "%" s in
      if found && (zone =s "") then None else a ← parse_v6 text; Some (Addr6 a zone)
  | _ => None
  end.

(** IPv4-mapped IPv6, and [IP.To4]. *)
Definition v4 (a : Z) : Z := 65535 * 2 ^ 32 + a.
Definition To4 (ip : Z) : option Z :=
  if Z.shiftr ip 32 =? 65535 then Some (Z.land ip (2 ^ 32 - 1)) else None.

(** [net.ParseIP]. *)
Definition ParseIP (s : string) : option Z :=
  match ParseAddr s with
  | Some (Addr4 a) => Some (v4 a)
  | Some (Addr6 a zone) => if zone =s "" then Some a else None
  | None => None
  end.

(** * Blocks *)

(** A network: the masked address and how many of its 128 bits count. *)
Record IPNet := mkIPNet { net_IP : Z; net_bits : Z }.

Definition mask_ip (ip bits : Z) : Z := Z.shiftl (Z.shiftr ip (128 - bits)) (128 - bits).

Definition net_of (ip bits : Z) : IPNet := mkIPNet (mask_ip ip bits) bits.

(** [net.ParseCIDR]: the address and its network. *)
Definition ParseCIDR (s : string) : option (Z * IPNet) :=
  let '(addr, mask, found) := cut_byte "/" s in
  if negb found then None else
  addr ← ParseAddr addr; n ← parse_dec mask;
  match addr with
  | Addr4 a => if n <=? 32 then Some (v4 a, net_of (v4 a) (96 + n)) else None
  | Addr6 a zone => if (zone =s "") && (n <=? 128) then Some (a, net_of a n) else None
  end.

(** [IPNet.Contains]: addresses of the other family are in no block. *)
Definition Contains (n : IPNet) (ip : Z) : bool :=
  Bool.eqb (is_some (To4 ip)) (is_some (To4 n.(net_IP))) && (mask_ip ip n.(net_bits) =? n.(net_IP)).

Definition ip_string (ip : Z) : string :=
  pretty (Z.shiftr ip 24 mod 256) +:+ "." +:+ pretty (Z.shiftr ip 16 mod 256) +:+ "." +:+
  pretty (Z.shiftr ip 8 mod 256) +:+ "." +:+ pretty (ip mod 256).

(** The fields of an address, and the longest run of zeros among them: where
    it starts and its length, the first of the longest. *)
Definition v6_of (ip : Z) : list Z := (fun i => Z.shiftr ip (16 * i) mod 65536) <$> [7; 6; 5; 4; 3; 2; 1; 0].

Fixpoint zeros (l : list Z) : nat :=
  match l with [] => O | f :: l => if f =? 0 then S (zeros l) else O end.

Fixpoint longest (i : nat) (l : list Z) (best : nat * nat) : nat * nat :=
  match l with
  | [] => best
  | _ :: l' => longest (S i) l' (if (best.2 <? zeros l)%nat then (i, zeros l) else best)
  end.

Definition hex_char (d : Z) : ascii :=
  ascii_of_nat (Z.to_nat (if d <? 10 then 48 + d else 87 + d)).

(** A field in hexadecimal, without leading zeros. *)
Definition hex_text (f : Z) : string :=
  let digit i := String (hex_char (Z.shiftr f (4 * i) mod 16)) "" in
  (if f <? 4096 then "" else digit 3) +:+ (if f <? 256 then "" else digit 2) +:+
  (if f <? 16 then "" else digit 1) +:+ digit 0.

Definition v6_string (ip : Z) : string :=
  let fields := v6_of ip in
  let text l := String.concat ":" (hex_text <$> l) in
  let '(start, n) := longest 0 fields (O, 1%nat) in
  if (n <? 2)%nat then text fields
  else text (take start fields) +:+ "::" +:+ text (drop (start + n) fields).

(** [IPNet.String]. *)
Definition IPNet_String (n : IPNet) : string :=
  match To4 n.(net_IP) with
  | Some a => ip_string a +:+ "/" +:+ pretty (n.(net_bits) - 96)
  | None => v6_string n.(net_IP) +:+ "/" +:+ pretty n.(net_bits)
  end.

(** [policy.validCIDR]. *)
Definition validCIDR (c : string) : option string :=
  match ParseCIDR (trim_space c) with
  | None => Some (c +:+ " is not a valid CIDR block")
  | Some (ip, _) => if is_some (To4 ip) then None else Some (c +:+ " is not IPv4")
  end.

(** * Names *)

(** [policy.hostLabel]. *)
Definition hostLabel (name : string) : string :=
  let '(label, _, _) := cut_byte "." (trim_space name) in label.

(** [policy.SameDCName]. *)
Definition SameDCName (a b : string) : bool := equal_fold (hostLabel a) (hostLabel b).

(** [policy.containsFold]. *)
Definition containsFold (list : list string) (s : string) : bool :=
  if s =s "" then false
  else existsb (fun x => equal_fold (trim_space x) (trim_space s)) list.

(** [policy.anyIPInSubnets]. *)
Definition anyIPInSubnets (ips cidrs : list string) : bool :=
  existsb (fun c =>
    match ParseCIDR (trim_space c) with
    | None => false
    | Some (_, n) => existsb (fun ip =>
        match ParseIP (trim_space ip) with Some parsed => Contains n parsed | None => false end) ips
    end) cidrs.

(** * URLs *)

Record URL := mkURL {
  Scheme : string;
  url_Host : string;
  url_Path : string;
  RawQuery : string;
  Fragment : string
}.

Definition is_alpha (c : ascii) : bool :=
  let n := nat_of_ascii (ascii_lower c) in (97 <=? n)%nat && (n <=? 122)%nat.

Definition is_ctl (c : ascii) : bool :=
  let n := nat_of_ascii c in (n <? 32)%nat || (n =? 127)%nat.

(** The end of a scheme: a colon after letters, digits and [+-.], the first
    character a letter. [Err] is "missing protocol scheme". *)
Fixpoint scheme_end (i : nat) (s : string) : result unit (option nat) :=
  match s with
  | EmptyString => Ok None
  | String c s' =>
      if is_alpha c then scheme_end (S i) s'
      else if is_digit c || Ascii.eqb c "+" || Ascii.eqb c "-" || Ascii.eqb c "." then
        match i with O => Ok None | S _ => scheme_end (S i) s' end
      else if Ascii.eqb c ":" then
        match i with O => Err tt | S _ => Ok (Some i) end
      else Ok None
  end.

(** Percent-decoding of a path or fragment. *)
Fixpoint unescape (s : string) : option string :=
  match s with
  | EmptyString => Some ""
  | String "%" (String a (String b s')) =>
      if is_hex a && is_hex b
      then String (ascii_of_nat (16 * hex_val a + hex_val b)) <$> unescape s'
      else None
  | String "%" _ => None
  | String c s' => String c <$> unescape s'
  end.

Fixpoint last_index (s : string) (c : ascii) : option nat :=
  match s with
  | EmptyString => None
  | String d s' =>
      match last_index s' c with
      | Some i => Some (S i)
      | None => if Ascii.eqb d c then Some O else None
      end
  end.

(** The ASCII characters a host may hold as they are: those of a name, the
    sub-delimiters and, for the callers of the package, [:[]<>] and the double
    quote. *)
Definition host_char (c : ascii) : bool :=
  is_alpha c || is_digit c || (nat_of_ascii c =? 34)%nat ||
  existsb (Ascii.eqb c) ["-"; "_"; "."; "~"; "!"; "$"; "&"; "'"; "("; ")"; "*"; "+"; ","; ";"; "="; ":"; "["; "]"; "<"; ">"]%char.

(** Percent-decoding of a host, or of its zone: in a host only the bytes above
    ASCII and the percent sign are encoded. *)
Fixpoint unescape_host (zone : bool) (s : string) : option string :=
  match s with
  | EmptyString => Some ""
  | String "%" (String a (String b s')) =>
      let v := ascii_of_nat (16 * hex_val a + hex_val b) in
      if negb (is_hex a && is_hex b) then None
      else if Ascii.eqb v "%" ||
              (if zone then (128 <=? nat_of_ascii v)%nat || Ascii.eqb v " " || host_char v
               else (8 <=? hex_val a)%nat)
      then String v <$> unescape_host zone s' else None
  | String "%" _ => None
  | String c s' => if (128 <=? nat_of_ascii c)%nat || host_char c then String c <$> unescape_host zone s' else None
  end.

Definition valid_port (s : string) : bool :=
  match s with
  | EmptyString => true
  | String c digits => Ascii.eqb c ":" && string_forallb is_digit digits
  end.

(** The first escaped percent sign, where a zone starts. *)
Fixpoint zone_index (s : string) : option nat :=
  if has_prefix s "%25" then Some O
  else match s with EmptyString => None | String _ s' => S <$> zone_index s' end.

(** [parseHost]: an IPv6 address in brackets or a name, with an optional port
    of digits. *)
Definition parse_host (h : string) : option string :=
  match last_index h "[" with
  | Some (S _) => None
  | Some O =>
      i ← last_index h "]";
      let name := take_str (i - 1) (drop_str 1 h) in
      let port := drop_str (S i) h in
      if negb (valid_port port) then None else
      name ← match zone_index name with
             | Some z => a ← unescape_host false (take_str z name);
                         b ← unescape_host true (drop_str z name); Some (a +:+ b)
             | None => unescape_host false name
             end;
      match ParseAddr name with
      | Some (Addr6 _ _) => Some ("[" +:+ name +:+ "]" +:+ port)
      | _ => None
      end
  | None =>
      let '(_, port, found) := cut_byte ":" h in
      if found && negb (string_forallb is_digit port) then None else unescape_host false h
  end.

Definition valid_userinfo (s : string) : bool :=
  string_forallb (fun c => is_alpha c || is_digit c || existsb (Ascii.eqb c)
    ["-"; "."; "_"; ":"; "~"; "!"; "$"; "&"; "'"; "("; ")"; "*"; "+"; ","; ";"; "="; "%"; "@"]%char) s &&
  is_some (unescape s).

(** [parseAuthority], the host of it. *)
Definition parse_authority (auth : string) : option string :=
  match last_index auth "@" with
  | Some i => h ← parse_host (drop_str (S i) auth); if valid_userinfo (take_str i auth) then Some h else None
  | None => parse_host auth
  end.

(** [url.Parse] for hierarchical and opaque references. *)
Definition url_Parse (raw : string) : option URL :=
  let '(u, frag, _) := cut_byte "#" raw in
  if negb (string_forallb (fun c => negb (is_ctl c)) u) then None else
  frag ← unescape frag;
  match scheme_end 0 u with
  | Err _ => None
  | Ok e =>
      let '(scheme, rest) := match e with
                             | Some i => (to_lower (take_str i u), drop_str (S i) u)
                             | None => ("", u)
                             end in
      let '(rest, query, _) := cut_byte "?" rest in
      if negb (has_prefix rest "/") then
        if is_some e then Some (mkURL scheme "" "" query frag)
        else let '(segment, _, _) := cut_byte "/" rest in
             if is_some (index_byte segment ":") then None
             else path ← unescape rest; Some (mkURL scheme "" path query frag)
      else if has_prefix rest "//" && (is_some e || negb (has_prefix rest "///")) then
        let auth := drop_str 2 rest in
        let '(auth, path) := match index_byte auth "/" with
                             | Some i => (take_str i auth, drop_str i auth)
                             | None => (auth, "")
                             end in
        host ← parse_authority auth; path ← unescape path; Some (mkURL scheme host path query frag)
      else path ← unescape rest; Some (mkURL scheme "" path query frag)
  end.

(** [policy.validServerURL]; [None] is the nil error. *)
Definition validServerURL (raw : string) : option string :=
  match url_Parse raw with
  | None => Some "not a URL"
  | Some u =>
      if negb (u.(Scheme) =s "http") && negb (u.(Scheme) =s "https")
      then Some "scheme must be http or https"
      else if u.(url_Host) =s "" then Some "missing host"
      else if negb (u.(RawQuery) =s "") || negb (u.(Fragment) =s "")
      then Some "must not carry a query string or fragment"
      else if has_suffix u.(url_Path) "/" then Some "must not end with a slash"
      else None
  end.

(** * Lemmas *)

Lemma SameDCName_refl a : SameDCName a a = true.
Proof. apply equal_fold_refl. Qed.

Lemma SameDCName_sym a b : SameDCName a b = SameDCName b a.
Proof. apply equal_fold_sym. Qed.

Lemma SameDCName_trans a b c :
  SameDCName a b = true -> SameDCName b c = true -> SameDCName a c = true.
Proof. apply equal_fold_trans. Qed.

Lemma SameDCName_label a b :
  SameDCName a b = true <-> to_lower (hostLabel a) = to_lower (hostLabel b).
Proof. apply str_eqb_eq. Qed.

Lemma containsFold_spec l s : containsFold l s = true <->
  s <> "" /\ exists x, x ∈ l /\ equal_fold (trim_space x) (trim_space s) = true.
Proof.
  unfold containsFold. destruct (s =s "") eqn:E.
  - apply str_eqb_eq in E. naive_solver.
  - apply str_eqb_neq in E. rewrite existsb_exists. setoid_rewrite list_elem_of_In. naive_solver.
Qed.

Lemma anyIPInSubnets_spec ips cidrs : anyIPInSubnets ips cidrs = true <->
  exists c block n ip a, c ∈ cidrs /\ ParseCIDR (trim_space c) = Some (block, n) /\
    ip ∈ ips /\ ParseIP (trim_space ip) = Some a /\ Contains n a = true.
Proof.
  unfold anyIPInSubnets. rewrite existsb_exists. setoid_rewrite <-list_elem_of_In. split.
  - intros (c & Hc & H). destruct (ParseCIDR _) as [[block n]|] eqn:E; [|done].
    rewrite existsb_exists in H. destruct H as (ip & Hip & H).
    apply list_elem_of_In in Hip. destruct (ParseIP _) as [a|] eqn:E'; [|done].
    by exists c, block, n, ip, a.
  - intros (c & block & n & ip & a & Hc & Hn & Hip & Ha & H). exists c. split; [done|].
    rewrite Hn, existsb_exists. exists ip. rewrite <-list_elem_of_In. by rewrite Ha.
Qed.

Lemma mask_ip_spec ip bits : 0 <= bits <= 128 ->
  mask_ip ip bits = ip / 2 ^ (128 - bits) * 2 ^ (128 - bits).
Proof. intros. unfold mask_ip. by rewrite Z.shiftl_mul_pow2, Z.shiftr_div_pow2 by lia. Qed.

Lemma parse_dec_nonneg s n : parse_dec s = Some n -> 0 <= n.
Proof.
  unfold parse_dec. destruct (s =s "") eqn:E; [done|].
  destruct (string_forallb is_digit s) eqn:E'; [|done]. cbn. intros [= <-].
  assert (forall acc, 0 <= acc -> 0 <= dec_val_aux acc s) as H; [|by apply H].
  clear E. induction s as [|c s IH]; intros acc Hacc; [done|].
  cbn in *. apply andb_true_iff in E' as [Hc Hs]. apply IH; [done|].
  unfold is_digit in Hc. apply andb_true_iff in Hc as [Hc _].
  apply Nat.leb_le in Hc. unfold digit_val. lia.
Qed.

Lemma ParseCIDR_net c ip n : ParseCIDR c = Some (ip, n) ->
  0 <= n.(net_bits) <= 128 /\ n = net_of ip n.(net_bits).
Proof.
  unfold ParseCIDR. destruct (cut_byte _ _) as [[addr mask] found]. destruct found; [|done].
  cbn. destruct (ParseAddr addr) as [[a|a zone]|]; [..|done]; cbn;
    (destruct (parse_dec mask) as [k|] eqn:Ek; [|done]); cbn; apply parse_dec_nonneg in Ek.
  - destruct (k <=? 32) eqn:E; [|done]. bool_to_prop. intros [= <- <-]. cbn [net_bits net_of]. split; [lia|done].
  - destruct (zone =s "") eqn:Ez; [|done]. cbn. destruct (k <=? 128) eqn:E; [|done]. bool_to_prop.
    intros [= <- <-]. cbn [net_bits net_of]. split; [lia|done].
Qed.

(** A network contains exactly the addresses of its family that agree with its
    address on the first [bits] bits. *)
Lemma Contains_spec c ip n a : ParseCIDR c = Some (ip, n) ->
  Contains n a = true <->
    (is_some (To4 a) = is_some (To4 n.(net_IP)) /\ a / 2 ^ (128 - n.(net_bits)) = ip / 2 ^ (128 - n.(net_bits))).
Proof.
  intros H. apply ParseCIDR_net in H as [Hb Hn]. unfold Contains.
  assert (Hi : n.(net_IP) = mask_ip ip n.(net_bits)) by by rewrite Hn at 1.
  rewrite andb_true_iff, Bool.eqb_true_iff, Z.eqb_eq. rewrite Hi at 2. rewrite !mask_ip_spec by done.
  pose proof (Z.pow_pos_nonneg 2 (128 - n.(net_bits)) ltac:(lia) ltac:(lia)).
  split; intros [H1 H2]; (split; [done|nia]).
Qed.

Example v6_texts : (IPNet_String <$> (snd <$> omap ParseCIDR
  ["10.12.8.7/24"; "2001:DB8::/32"; "::ffff:10.12.8.7/120"; "::ffff:1.2.3.4/64"; "1:0:0:2:0:0:0:3/128"; "1::2:3:4:5:6:7/128"])) =
  ["10.12.8.0/24"; "2001:db8::/32"; "10.12.8.0/24"; "::/64"; "1:0:0:2::3/128"; "1:0:2:3:4:5:6:7/128"].
Proof. reflexivity. Qed.

Example v6_refused : omap ParseIP ["1:2:3:4:5:6:7"; "1:2:3:4:5:6:7::8"; "::1::"; "12345::"; "fe80::1%eth0"; "1.2.3"; "01.2.3.4"; ":1"; "1:"] = [].
Proof. reflexivity. Qed.

Example cidr_families : (validCIDR <$> ["10.0.0.0/8"; "::ffff:10.0.0.0/104"; "2001:db8::/32"; "10.0.0.0/33"]) =
  [None; None; Some "2001:db8::/32 is not IPv4"; Some "10.0.0.0/33 is not a valid CIDR block"].
Proof. reflexivity. Qed.

Example url_hosts : (validServerURL <$>
  ["http://[::1]"; "http://[fe80::1%25en0]:8080/v2"; "https://h:80:80"; "http://::1"; "http://h:8x"; "http://a b";
   "http://u:p@h/x"; "http://u p@h/x"; "http://[10.0.0.1]"]) =
  [None; None; Some "not a URL"; Some "not a URL"; Some "not a URL"; Some "not a URL"; None; Some "not a URL"; Some "not a URL"].
Proof. reflexivity. Qed.
