(* ===== verification/Paths.v ===== *)
(** Go's [path/filepath] on Windows, as far as the program uses it:
    [volumeNameLen], [Clean] and [Join].

    [Clean] writes through a buffer that is only made when what it writes first
    differs from the path it reads; whether it was made matters once, where a
    relative result could be mistaken for one with a drive. *)
From S2P Require Import Prelude.

Definition backslash : ascii := "\".
Definition is_sep (c : ascii) : bool := Ascii.eqb c "/" || Ascii.eqb c backslash.
Definition from_slash (s : string) : string :=
  string_map (fun c => if Ascii.eqb c "/" then backslash else c) s.

(** [cutPath]: what follows the first separator. *)
Fixpoint cut_path (s : string) : option string :=
  match s with
  | EmptyString => None
  | String c s' => if is_sep c then Some s' else cut_path s'
  end.

(** [pathHasPrefixFold]: up to case and the direction of separators, and only
    whole elements. *)
Definition path_prefix_fold (s p : string) : bool :=
  equal_fold (from_slash (take_str (String.length p) s)) p &&
  match drop_str (String.length p) s with
  | EmptyString => (String.length p <=? String.length s)%nat
  | String c _ => is_sep c
  end.

(** [uncLen]: host and share after the first [n] bytes. *)
Definition unc_len (s : string) (n : nat) : nat :=
  match cut_path (drop_str n s) with
  | None => String.length s
  | Some rest =>
      match cut_path rest with
      | None => String.length s
      | Some rest' => String.length s - String.length rest' - 1
      end
  end.

(** [volumeNameLen]. *)
Definition volumeNameLen (s : string) : nat :=
  match s with
  | String c rest =>
      match rest with
      | String ":" _ => 2
      | _ =>
          if negb (is_sep c) then 0
          else if path_prefix_fold s "\\.\UNC" then unc_len s 8
          else if path_prefix_fold s "\\." || path_prefix_fold s "\\?" || path_prefix_fold s "\??" then
            if (String.length s =? 3)%nat then 3
            else match cut_path (drop_str 4 s) with
                 | None => String.length s
                 | Some r => String.length s - String.length r - 1
                 end
          else match rest with
               | String d _ => if is_sep d then unc_len s 2 else 0
               | EmptyString => 0
               end
      end
  | EmptyString => 0
  end.

(** The elements between separators. *)
Fixpoint elements (s : string) : list string :=
  match s with
  | EmptyString => [""]
  | String c s' =>
      if is_sep c then "" :: elements s'
      else match elements s' with
           | [] => [String c ""]
           | x :: r => String c x :: r
           end
  end.

(** What [Clean] has written after the volume: its elements, the last one
    first, and its buffer once made - with what was taken back still at its
    end. *)
Record cleaned := mkCleaned { cl_stack : list string; cl_buf : option string }.

Definition rendered (rooted : bool) (stack : list string) : string :=
  (if rooted then "\" else "") +:+ join "\" (rev stack).

(** The buffer after the bytes up to [out] were written. *)
Definition write_buf (path out : string) (buf : option string) : option string :=
  match buf with
  | Some old => Some (out +:+ drop_str (String.length out) old)
  | None => if has_prefix path out then None else Some out
  end.

Definition clean_push (path : string) (rooted : bool) (e : string) (s : cleaned) : cleaned :=
  let stack := e :: s.(cl_stack) in
  mkCleaned stack (write_buf path (rendered rooted stack) s.(cl_buf)).

(** One element: empty ones and [.] go, [..] takes back the one before it,
    stays when there is none, and is dropped at a root. *)
Definition clean_step (path : string) (rooted : bool) (s : cleaned) (e : string) : cleaned :=
  if (e =s "") || (e =s ".") then s
  else if e =s ".." then
    match s.(cl_stack) with
    | top :: below =>
        if top =s ".." then clean_push path rooted e s else mkCleaned below s.(cl_buf)
    | [] => if rooted then s else clean_push path rooted e s
    end
  else clean_push path rooted e s.

(** Whether a colon comes before any separator. *)
Fixpoint colon_first (s : string) : bool :=
  match s with
  | EmptyString => false
  | String c s' => if is_sep c then false else Ascii.eqb c ":" || colon_first s'
  end.

(** [postClean]: a relative path that was rewritten must not read as one with
    a drive, nor a rooted one as one of the object manager's. *)
Definition post_clean (vol : nat) (buf : option string) (out : string) : string :=
  match vol, buf with
  | O, Some b =>
      if colon_first b then ".\" +:+ out
      else if has_prefix (from_slash b) "\??" then "\." +:+ out
      else out
  | _, _ => out
  end.

(** [filepath.Clean]. *)
Definition filepath_Clean (original : string) : string :=
  let vol := volumeNameLen original in
  let path := drop_str vol original in
  if path =s "" then
    match original with
    | String a (String b _) => if (1 <? vol)%nat && is_sep a && is_sep b then from_slash original
                               else original +:+ "."
    | _ => original +:+ "."
    end
  else
    let rooted := match path with String c _ => is_sep c | EmptyString => false end in
    let start := mkCleaned [] (if rooted then write_buf path "\" None else None) in
    let s := foldl (clean_step path rooted) start (elements path) in
    let out := rendered rooted s.(cl_stack) in
    let '(out, buf) :=
      if out =s "" then (".", write_buf path "." s.(cl_buf)) else (out, s.(cl_buf)) in
    from_slash (take_str vol original +:+ post_clean vol buf out).

(** What [filepath.Join] has written after one more element. *)
Definition join_step (a b : string) : string :=
  if a =s "" then b
  else match String.get (String.length a - 1) a with
       | Some c =>
           if is_sep c then
             let e := trim_left is_sep b in
             if (String.length a =? 1)%nat && has_prefix e "??" &&
                match drop_str 2 e with EmptyString => true | String d _ => is_sep d end
             then a +:+ ".\" +:+ e else a +:+ e
           else if Ascii.eqb c ":" then a +:+ b
           else a +:+ "\" +:+ b
       | None => b
       end.

(** [filepath.Join], of two elements and of any number. *)
Definition joined (s : string) : string := if s =s "" then "" else filepath_Clean s.
Definition filepath_Join (a b : string) : string := joined (join_step a b).
Definition filepath_JoinAll (l : list string) : string := joined (foldl join_step "" l).

Example clean_dots : filepath_Clean "C:/Program Files\.\EMLy\\x\..\EMLy.exe" = "C:\Program Files\EMLy\EMLy.exe".
Proof. vm_compute. reflexivity. Qed.
Example clean_share : filepath_Clean "\\host\share\a\..\..\b" = "\\host\share\b".
Proof. vm_compute. reflexivity. Qed.
Example clean_relative : filepath_Clean "..\a\..\..\b" = "..\..\b" /\ filepath_Clean "a/.." = ".".
Proof. by vm_compute. Qed.
Example clean_drive : filepath_Clean "./c:" = ".\c:" /\ filepath_Clean "C:" = "C:.".
Proof. by vm_compute. Qed.
Example join_exe : filepath_Join "C:\EMLy\" "EMLy.exe" = "C:\EMLy\EMLy.exe".
Proof. vm_compute. reflexivity. Qed.
