(* ===== verification/PolicyValidate.v ===== *)
(** internal/policy/parse.go, the checks: selectors ([validateSelector]) and
    whole documents ([validateDocument]), each problem reported with its
    JSON-pointer-like path.

    [DocOk] says, without order or messages, what a valid document is;
    [validateDocument_ok] is the equivalence of the two. A Go [range] over a
    map is enumerated by [map_to_list]: the enumeration decides the order of
    equal-path problems and which of two clashing site names is reported,
    never whether there is a problem. Standard-library error texts are
    abridged. *)
From S2P Require Import Prelude Rfc3339 Json Versions Net PolicyDoc.
From Stdlib Require Strings.String.

Record Problem := mkProblem { Path : string; Message : string }.

Abbreviation Problems := (list Problem).

(** [Problem.String], [Problems.Error]. *)
Definition Problem_String (p : Problem) : string := p.(Path) +:+ ": " +:+ p.(Message).
Definition Problems_Error (ps : Problems) : string :=
  match ps with [] => "no problems" | _ => join "; " (Problem_String <$> ps) end.

(** [prefix]. *)
Definition prefix (path : string) (ps : Problems) : Problems :=
  (fun p => mkProblem (path +:+ p.(Path)) p.(Message)) <$> ps.

(** A check: one problem when [bad]. *)
Definition add (bad : bool) (path msg : string) : Problems :=
  if bad then [mkProblem path msg] else [].

Definition is_rfc3339 (s : string) : bool := is_some (parse_rfc3339 s).

Definition bad_until (u : option string) : bool :=
  match u with Some s => negb (is_rfc3339 s) | None => false end.

(** [strconv.Atoi]. *)
Definition atoi (s : string) : option Z :=
  let r := match s with
           | String "-" s' => Z.opp <$> parse_dec s'
           | String "+" s' => parse_dec s'
           | _ => parse_dec s
           end in
  z ← r; if int64_ok z then Some z else None.

(** [strconv.Itoa]. *)
Definition itoa (z : Z) : string := pretty z.

Fixpoint index_from {A} (i : Z) (l : list A) : list (Z * A) :=
  match l with [] => [] | x :: r => (i, x) :: index_from (i + 1) r end.

(** The problems of each element of a slice, with its index. *)
Definition each {A} (l : list A) (f : Z -> A -> Problems) : Problems :=
  concat ((fun ix => f ix.1 ix.2) <$> index_from 0 l).

(** [sort.SliceStable] by path. *)
Fixpoint insert_path (p : Problem) (l : Problems) : Problems :=
  match l with
  | [] => [p]
  | q :: r => if String.ltb q.(Path) p.(Path) then q :: insert_path p r else p :: l
  end.
Definition sort_paths (ps : Problems) : Problems := foldr insert_path [] ps.

(** * Selectors *)

Definition cidr_problem (path c : string) : Problems :=
  match validCIDR c with Some e => [mkProblem path e] | None => [] end.

(** [validateSelector]. *)
Definition validateSelector (s : Selector) (raw : json) (path : string) (allowAll : bool) : Problems :=
  match raw with
  | JObj m =>
      let present := filter (fun kv => is_null kv.2 = false) m in
      let rest :=
        let lists := length (bfilter (fun l => negb (len l =? 0))
          [sl s.(sel_HWIDs); sl s.(sel_Hostnames); sl s.(DCs); sl s.(Domains); sl s.(Subnets)]) in
        add (lists =? 0)%nat path
          "needs at least one non-empty list (hwids, hostnames, dcs, subnets, domains)" ++
        each (sl s.(Subnets)) (fun i c => cidr_problem (path +:+ "/subnets/" +:+ itoa i) c) in
      match present !! "all" with
      | Some allRaw =>
          let problems :=
            if negb allowAll then [mkProblem (path +:+ "/all") "not allowed here"]
            else if negb (match allRaw with JBool true => true | _ => false end)
                 then [mkProblem (path +:+ "/all") "must be true when present"]
            else add (1 <? Z.of_nat (size present)) (path +:+ "/all")
                   "must be the only key in the selector" in
          if 0 <? len problems then problems
          else if allowAll then [] else problems ++ rest
      | None => rest
      end
  | _ => [mkProblem path "must be an object"]
  end.

(** * Documents *)

(** The clamp of the refresh interval, which [validateDocument] writes back. *)
Definition clamp_refresh (r : Refresh) : Refresh :=
  mkRefresh (if r.(IntervalMinutes) <? 1 then 1
             else if 1440 <? r.(IntervalMinutes) then 1440 else r.(IntervalMinutes))
            r.(StaleAfterDays).

Definition with_refresh (d : Document) (r : Refresh) : Document :=
  mkDocument d.(doc_SchemaVersion) d.(Revision) d.(GeneratedAt) r d.(Servers) d.(DefaultServer)
    d.(doc_IPCProtocol) d.(DCLookupMap) d.(doc_HostIntegrity) d.(doc_Control) d.(doc_Updater)
    d.(doc_Logging) d.(ClientWS) d.(Overrides).

Definition with_overrides (d : Document) (o : slice Override) : Document :=
  mkDocument d.(doc_SchemaVersion) d.(Revision) d.(GeneratedAt) d.(doc_Refresh) d.(Servers)
    d.(DefaultServer) d.(doc_IPCProtocol) d.(DCLookupMap) d.(doc_HostIntegrity) d.(doc_Control)
    d.(doc_Updater) d.(doc_Logging) d.(ClientWS) o.

(** The closure [serverRef] of [validateDocument]. *)
Definition serverRef (servers : gmap string string) (path name : string) : Problems :=
  if name =s "" then [mkProblem path "required"]
  else add (negb (is_some (servers !! name))) path ("unknown server " +:+ name).

Definition check_server (name raw : string) : Problems :=
  if name =s "" then [mkProblem "/servers" "empty server name"]
  else match validServerURL raw with
       | Some e => [mkProblem ("/servers/" +:+ name) e]
       | None => []
       end.

Section Validate.
Context `{VersionLib}.

Definition bad_bound (b : option string) : bool :=
  match b with Some v => negb (validVersion v) | None => false end.

Definition bad_key (key : string) : bool :=
  match atoi key with Some n => n <=? 0 | None => true end.

Definition check_ipc_version (key : string) (v : IPCVersion) : Problems :=
  let path := "/ipcProtocol/versions/" +:+ key in
  add (bad_key key) path "version key must be a positive integer" ++
  add (bad_bound v.(ipc_Updater).(rng_Min)) (path +:+ "/updater/min") "not a semver" ++
  add (bad_bound v.(ipc_Updater).(rng_Max)) (path +:+ "/updater/max") "not a semver" ++
  add (bad_bound v.(ipc_EMLy).(rng_Min)) (path +:+ "/emly/min") "not a semver" ++
  add (bad_bound v.(ipc_EMLy).(rng_Max)) (path +:+ "/emly/max") "not a semver".

(** The loop over [dcLookupMap], with the labels already seen. *)
Fixpoint check_sites (servers : gmap string string) (seenDC : gmap string string)
    (sites : list (string * Site)) : Problems :=
  match sites with
  | [] => []
  | (name, site) :: rest =>
      let path := "/dcLookupMap/" +:+ name in
      let label := to_lower (hostLabel name) in
      (if label =s "" then [mkProblem path "empty domain controller name"]
       else match seenDC !! label with
            | Some prev => [mkProblem path ("same domain controller as " +:+ prev +:+
                " (names are compared without case or DNS suffix)")]
            | None => []
            end) ++
      add (len (sl site.(InternalSubnets)) =? 0) (path +:+ "/internalSubnets")
        "required, at least one CIDR" ++
      each (sl site.(InternalSubnets)) (fun i c =>
        cidr_problem (path +:+ "/internalSubnets/" +:+ itoa i) c) ++
      serverRef servers (path +:+ "/baseServer") site.(BaseServer) ++
      each (sl site.(BackupServer)) (fun i b =>
        serverRef servers (path +:+ "/backupServer/" +:+ itoa i) b) ++
      check_sites servers (<[label := name]> seenDC) rest
  end.

(** [validateDocument]: the document with its refresh clamped, and the
    problems. *)
Definition validateDocument (d : Document) (remote : bool) : Document * Problems :=
  let d := with_refresh d (clamp_refresh d.(doc_Refresh)) in
  let up := d.(doc_Updater) in
  let lg := d.(doc_Logging) in
  let ps :=
    (if remote then
       add (d.(Revision) <? 0) "/revision" "must be >= 0" ++
       (if d.(GeneratedAt) =s "" then [mkProblem "/generatedAt" "required"]
        else add (negb (is_rfc3339 d.(GeneratedAt))) "/generatedAt" "not an RFC 3339 timestamp")
     else []) ++
    add (d.(doc_Refresh).(StaleAfterDays) <? 0) "/refresh/staleAfterDays" "must be >= 0" ++
    add (bool_decide (d.(Servers) = ∅)) "/servers" "required, at least one entry" ++
    concat ((fun kv => check_server kv.1 kv.2) <$> map_to_list d.(Servers)) ++
    serverRef d.(Servers) "/defaultServer" d.(DefaultServer) ++
    concat ((fun kv => check_ipc_version kv.1 kv.2)
              <$> map_to_list d.(doc_IPCProtocol).(Versions)) ++
    (match d.(doc_IPCProtocol).(Versions) !! itoa d.(doc_IPCProtocol).(DefaultVersion) with
     | None => [mkProblem "/ipcProtocol/defaultVersion" "does not name a listed version"]
     | Some dv => add (negb (IPCVersion_IsEnabled dv)) "/ipcProtocol/defaultVersion"
                    "names a disabled version"
     end) ++
    check_sites d.(Servers) ∅ (map_to_list d.(DCLookupMap)) ++
    add (bad_until d.(doc_Control).(ctl_Updater).(cu_Until)) "/control/updater/until"
      "not an RFC 3339 timestamp" ++
    add (bad_until d.(doc_Control).(ctl_App).(ca_Until)) "/control/app/until"
      "not an RFC 3339 timestamp" ++
    add (negb (contains [AppModeNormal; AppModeReadOnly; AppModeMaintenance]
                 d.(doc_Control).(ctl_App).(Mode)))
      "/control/app/mode" "must be one of normal, readonly, maintenance" ++
    add (up.(PollIntervalMinutes) <? 1) "/updater/pollIntervalMinutes" "must be >= 1" ++
    add (negb (contains [""; "stable"; "beta"] (Channel up))) "/updater/channelOverride"
      "must be stable, beta or null" ++
    add (up.(us_CriticalWarning).(Seconds) <? 0) "/updater/criticalWarning/seconds"
      "must be >= 0" ++
    add ((up.(us_DCLookupRetry).(dc_Attempts) <? 0) || (60 <? up.(us_DCLookupRetry).(dc_Attempts)))
      "/updater/dcLookupRetry/attempts" "must be between 0 and 60" ++
    add ((up.(us_DCLookupRetry).(DelaySeconds) <? 0) || (300 <? up.(us_DCLookupRetry).(DelaySeconds)))
      "/updater/dcLookupRetry/delaySeconds" "must be between 0 and 300" ++
    add (up.(us_Resolver).(rs_Attempts) <? 1) "/updater/resolver/attempts" "must be >= 1" ++
    add (up.(us_Resolver).(BaseBackoffSeconds) <? 0) "/updater/resolver/baseBackoffSeconds"
      "must be >= 0" ++
    add (negb (contains ["debug"; "info"; "warn"; "error"] lg.(Level))) "/logging/level"
      "must be one of debug, info, warn, error" ++
    add ((lg.(MaxSizeMB) <? 1) || (100 <? lg.(MaxSizeMB))) "/logging/maxSizeMB"
      "must be between 1 and 100" ++
    add ((lg.(Backups) <? 0) || (50 <? lg.(Backups))) "/logging/backups"
      "must be between 0 and 50" ++
    each (sl d.(ClientWS).(ws_Commands)) (fun i name =>
      add (negb (contains knownClientWSCommands name)) ("/clientWs/commands/" +:+ itoa i)
        ("unknown command " +:+ name))
  in (d, sort_paths ps).

(** ** What a valid document is *)

Definition server_known (d : Document) (name : string) : Prop :=
  name <> "" /\ is_Some (d.(Servers) !! name).

Record SiteOk (d : Document) (name : string) (s : Site) : Prop := {
  site_named : to_lower (hostLabel name) <> "";
  site_subnets : sl s.(InternalSubnets) <> [];
  site_cidrs : Forall (fun c => validCIDR c = None) (sl s.(InternalSubnets));
  site_base : server_known d s.(BaseServer);
  site_backups : Forall (server_known d) (sl s.(BackupServer))
}.

Record IPCOk (p : IPCProtocol) : Prop := {
  ipc_keys : forall k v, p.(Versions) !! k = Some v -> exists n, atoi k = Some n /\ 0 < n;
  ipc_bounds : forall k v, p.(Versions) !! k = Some v ->
    Forall (fun b => forall w, b = Some w -> validVersion w = true)
      [v.(ipc_Updater).(rng_Min); v.(ipc_Updater).(rng_Max);
       v.(ipc_EMLy).(rng_Min); v.(ipc_EMLy).(rng_Max)];
  ipc_default : exists v, p.(Versions) !! itoa p.(DefaultVersion) = Some v /\
    IPCVersion_IsEnabled v = true
}.

Record KnobsOk (u : UpdaterSettings) (l : LoggingSettings) : Prop := {
  ok_poll : 1 <= u.(PollIntervalMinutes);
  ok_channel : Channel u ∈ [""; "stable"; "beta"];
  ok_warning : 0 <= u.(us_CriticalWarning).(Seconds);
  ok_dc_attempts : 0 <= u.(us_DCLookupRetry).(dc_Attempts) <= 60;
  ok_dc_delay : 0 <= u.(us_DCLookupRetry).(DelaySeconds) <= 300;
  ok_attempts : 1 <= u.(us_Resolver).(rs_Attempts);
  ok_backoff : 0 <= u.(us_Resolver).(BaseBackoffSeconds);
  ok_level : l.(Level) ∈ ["debug"; "info"; "warn"; "error"];
  ok_size : 1 <= l.(MaxSizeMB) <= 100;
  ok_backups : 0 <= l.(Backups) <= 50
}.

Record DocOk (remote : bool) (d : Document) : Prop := {
  ok_revision : remote = true -> 0 <= d.(Revision) /\ is_rfc3339 d.(GeneratedAt) = true;
  ok_stale : 0 <= d.(doc_Refresh).(StaleAfterDays);
  ok_some_server : d.(Servers) <> ∅;
  ok_servers : forall name url, d.(Servers) !! name = Some url ->
    name <> "" /\ validServerURL url = None;
  ok_default : server_known d d.(DefaultServer);
  ok_ipc : IPCOk d.(doc_IPCProtocol);
  ok_sites : forall name s, d.(DCLookupMap) !! name = Some s -> SiteOk d name s;
  ok_labels : forall n1 n2 s1 s2, d.(DCLookupMap) !! n1 = Some s1 ->
    d.(DCLookupMap) !! n2 = Some s2 -> SameDCName n1 n2 = true -> n1 = n2;
  ok_untils : bad_until d.(doc_Control).(ctl_Updater).(cu_Until) = false /\
    bad_until d.(doc_Control).(ctl_App).(ca_Until) = false;
  ok_mode : d.(doc_Control).(ctl_App).(Mode) ∈ [AppModeNormal; AppModeReadOnly; AppModeMaintenance];
  ok_knobs : KnobsOk d.(doc_Updater) d.(doc_Logging);
  ok_commands : Forall (fun c => c ∈ knownClientWSCommands) (sl d.(ClientWS).(ws_Commands))
}.
End Validate.

(** * Lemmas *)

Lemma add_nil b p m : add b p m = [] <-> b = false.
Proof. by destruct b. Qed.

Lemma index_from_elem {A} (l : list A) i j x : (j, x) ∈ index_from i l -> x ∈ l.
Proof.
  revert i. induction l as [|y l IH]; intros i; simpl; [by rewrite elem_of_nil|].
  rewrite !elem_of_cons. intros [[= -> ->]|Hx]; [by left|right; eauto].
Qed.

Lemma index_from_has {A} (l : list A) i x : x ∈ l -> exists j, (j, x) ∈ index_from i l.
Proof.
  intros H. revert i. induction H as [x l|x y l H IH]; intros i; simpl.
  - exists i. left.
  - destruct (IH (i + 1)) as [j Hj]. exists j. by right.
Qed.

Lemma concat_fmap_nil {A B} (f : A -> list B) l :
  concat (f <$> l) = [] <-> Forall (fun x => f x = []) l.
Proof.
  induction l as [|y l IH]; simpl; [by split|].
  by rewrite app_nil, IH, Forall_cons.
Qed.

Lemma each_nil {A} (P : A -> Prop) (l : list A) f :
  (forall i x, f i x = [] <-> P x) -> each l f = [] <-> Forall P l.
Proof.
  intros Hf. unfold each. rewrite concat_fmap_nil, !Forall_forall. split.
  - intros H x Hx. destruct (index_from_has l 0 x Hx) as [j Hj].
    apply (Hf j), (H (j, x) Hj).
  - intros H [j x] Hx. apply Hf, H. by eapply index_from_elem.
Qed.

Lemma insert_path_nil p l : insert_path p l <> [].
Proof. destruct l; simpl; [done|]. by destruct (String.ltb _ _). Qed.

Lemma sort_paths_nil ps : sort_paths ps = [] <-> ps = [].
Proof.
  destruct ps as [|p ps]; [done|]. split; [|done].
  intros H. by apply insert_path_nil in H.
Qed.

Lemma insert_path_perm p l : insert_path p l ≡ₚ p :: l.
Proof.
  induction l as [|q l IH]; simpl; [done|]. destruct (String.ltb _ _); [|done].
  rewrite IH. by constructor.
Qed.

(** Sorting reports the same problems. *)
Lemma sort_paths_perm ps : sort_paths ps ≡ₚ ps.
Proof. induction ps as [|p ps IH]; simpl; [done|]. by rewrite insert_path_perm, IH. Qed.

Lemma serverRef_nil d path name :
  serverRef d.(Servers) path name = [] <-> server_known d name.
Proof.
  unfold serverRef, server_known. destruct (name =s "") eqn:E.
  - apply str_eqb_eq in E. naive_solver.
  - apply str_eqb_neq in E. rewrite add_nil, negb_false_iff.
    destruct (d.(Servers) !! name); simpl; naive_solver.
Qed.

Lemma cidr_problem_nil path c : cidr_problem path c = [] <-> validCIDR c = None.
Proof. unfold cidr_problem. by destruct (validCIDR c). Qed.

Lemma check_server_nil name raw :
  check_server name raw = [] <-> name <> "" /\ validServerURL raw = None.
Proof.
  unfold check_server. destruct (name =s "") eqn:E.
  - apply str_eqb_eq in E. naive_solver.
  - apply str_eqb_neq in E. destruct (validServerURL raw); naive_solver.
Qed.

Lemma contains_false l s : contains l s = true -> negb (contains l s) = false.
Proof. by intros ->. Qed.

Section ValidateOk.
Context `{VersionLib}.

Lemma bad_bound_false b : bad_bound b = false <-> forall w, b = Some w -> validVersion w = true.
Proof. destruct b as [v|]; simpl; [rewrite negb_false_iff|]; naive_solver. Qed.

Lemma bad_key_false k : bad_key k = false <-> exists n, atoi k = Some n /\ 0 < n.
Proof.
  unfold bad_key. destruct (atoi k) as [n|]; [rewrite Z.leb_gt|]; naive_solver.
Qed.

Lemma check_ipc_version_nil key v : check_ipc_version key v = [] <->
  (exists n, atoi key = Some n /\ 0 < n) /\
  Forall (fun b => forall w, b = Some w -> validVersion w = true)
    [v.(ipc_Updater).(rng_Min); v.(ipc_Updater).(rng_Max);
     v.(ipc_EMLy).(rng_Min); v.(ipc_EMLy).(rng_Max)].
Proof.
  unfold check_ipc_version. cbv zeta.
  rewrite !app_nil, !add_nil, bad_key_false, !bad_bound_false, !Forall_cons.
  intuition eauto.
Qed.

Lemma check_sites_nil d seen sites :
  check_sites d.(Servers) seen sites = [] <->
  Forall (fun ns => SiteOk d ns.1 ns.2) sites /\
  NoDup ((fun ns => to_lower (hostLabel ns.1)) <$> sites) /\
  Forall (fun ns => seen !! to_lower (hostLabel ns.1) = None) sites.
Proof.
  revert seen. induction sites as [|[name site] rest IH]; intros seen; cbn [check_sites].
  { rewrite fmap_nil. split; [|done]. intros _. split_and!; constructor. }
  set (label := to_lower (hostLabel name)).
  rewrite fmap_cons, NoDup_cons, !Forall_cons, !app_nil, add_nil, IH, serverRef_nil.
  cbn [fst snd]. fold label.
  rewrite (each_nil (fun c => validCIDR c = None)) by (intros; apply cidr_problem_nil).
  rewrite (each_nil (server_known d)) by (intros; apply serverRef_nil).
  assert (HL : len (sl site.(InternalSubnets)) =? 0 = false <-> sl site.(InternalSubnets) <> []).
  { apply len_nonzero. }
  rewrite HL.
  assert (HS : (if label =s "" then [mkProblem ("/dcLookupMap/" +:+ name) "empty domain controller name"]
       else match seen !! label with
            | Some prev => [mkProblem ("/dcLookupMap/" +:+ name) ("same domain controller as " +:+ prev +:+
                " (names are compared without case or DNS suffix)")]
            | None => []
            end) = [] <-> label <> "" /\ seen !! label = None).
  { destruct (label =s "") eqn:E; [apply str_eqb_eq in E|apply str_eqb_neq in E].
    - naive_solver.
    - destruct (seen !! label); naive_solver. }
  rewrite HS.
  assert (HF : Forall (fun ns : string * Site =>
      <[label:=name]> seen !! to_lower (hostLabel ns.1) = None) rest <->
    Forall (fun ns => seen !! to_lower (hostLabel ns.1) = None) rest /\
    label ∉ ((fun ns => to_lower (hostLabel ns.1)) <$> rest)).
  { rewrite list_elem_of_fmap, !Forall_forall. split.
    - intros HN. split.
      + intros ns Hns. specialize (HN ns Hns). by apply lookup_insert_None in HN as [? _].
      + intros (ns & E & Hns). specialize (HN ns Hns).
        by apply lookup_insert_None in HN as [_ ?].
    - intros [HN HE] ns Hns. apply lookup_insert_None. split; [by apply HN|].
      intros E. apply HE. eauto. }
  rewrite HF. split.
  - intros ([? ?] & ? & ? & ? & ? & ? & ? & ? & ?). split_and!; try done.
  - intros ([[] ?] & [? ?] & ? & ?). split_and!; try done.
Qed.

Lemma map_list_Forall {A} (P : string -> A -> Prop) (m : gmap string A) :
  Forall (fun kv => P kv.1 kv.2) (map_to_list m) <-> forall k v, m !! k = Some v -> P k v.
Proof.
  rewrite Forall_forall. split.
  - intros Hm k v Hk. by apply (Hm (k, v)), elem_of_map_to_list.
  - intros Hm [k v] Hk. by apply Hm, elem_of_map_to_list.
Qed.

(** Distinct labels, read off the enumeration. *)
Lemma labels_NoDup (m : gmap string Site) :
  NoDup ((fun ns => to_lower (hostLabel ns.1)) <$> map_to_list m) <->
  (forall n1 n2 s1 s2, m !! n1 = Some s1 -> m !! n2 = Some s2 ->
     SameDCName n1 n2 = true -> n1 = n2).
Proof.
  setoid_rewrite SameDCName_label. split.
  - intros Hd n1 n2 s1 s2 H1 H2 E. apply elem_of_map_to_list in H1, H2.
    apply list_elem_of_lookup in H1 as [i Hi], H2 as [j Hj].
    assert (i = j) as <-; [|congruence].
    apply (NoDup_lookup _ i j (to_lower (hostLabel n1)) Hd);
      rewrite list_lookup_fmap; [by rewrite Hi|by rewrite Hj, E].
  - intros Hd. apply NoDup_fmap_2_strong; [|apply NoDup_map_to_list].
    intros [n1 s1] [n2 s2] H1 H2 E. apply elem_of_map_to_list in H1, H2. simpl in E.
    assert (n1 = n2) as -> by eauto. congruence.
Qed.

Lemma check_sites_ok d :
  check_sites d.(Servers) ∅ (map_to_list d.(DCLookupMap)) = [] <->
  (forall name s, d.(DCLookupMap) !! name = Some s -> SiteOk d name s) /\
  (forall n1 n2 s1 s2, d.(DCLookupMap) !! n1 = Some s1 -> d.(DCLookupMap) !! n2 = Some s2 ->
     SameDCName n1 n2 = true -> n1 = n2).
Proof.
  rewrite check_sites_nil, map_list_Forall, labels_NoDup. split; [tauto|].
  intros [H1 H2]. split_and!; try done. apply Forall_forall. intros ns _. apply lookup_empty.
Qed.

Lemma check_versions_ok (p : IPCProtocol) :
  concat ((fun kv => check_ipc_version kv.1 kv.2) <$> map_to_list p.(Versions)) = [] /\
  match p.(Versions) !! itoa p.(DefaultVersion) with
  | None => [mkProblem "/ipcProtocol/defaultVersion" "does not name a listed version"]
  | Some dv => add (negb (IPCVersion_IsEnabled dv)) "/ipcProtocol/defaultVersion"
                 "names a disabled version"
  end = [] <-> IPCOk p.
Proof.
  rewrite concat_fmap_nil.
  rewrite (map_list_Forall (fun k v => check_ipc_version k v = [])).
  setoid_rewrite check_ipc_version_nil. split.
  - intros [H1 H2]. split.
    + intros k v Hk. by apply (H1 k v).
    + intros k v Hk. by apply (H1 k v).
    + destruct (_ !! itoa _) as [v|]; [|done]. exists v. split; [done|].
      by apply add_nil, negb_false_iff in H2.
  - intros [H1 H2 (v & Hv & He)]. split; [by eauto|]. by rewrite Hv, He.
Qed.

Lemma contains_neg l s : negb (contains l s) = false <-> s ∈ l.
Proof. by rewrite negb_false_iff, contains_spec. Qed.

(** The refresh interval a validated document carries. *)
Lemma clamp_refresh_range r : 1 <= (clamp_refresh r).(IntervalMinutes) <= 1440.
Proof. unfold clamp_refresh. cbn. repeat case_goal; bool_to_prop; lia. Qed.

Lemma clamp_refresh_id r : 1 <= r.(IntervalMinutes) <= 1440 -> clamp_refresh r = r.
Proof.
  intros Hr. unfold clamp_refresh. destruct r as [i s]. cbn in *.
  repeat case_goal; bool_to_prop; try lia. done.
Qed.

Lemma validateDocument_doc d remote :
  (validateDocument d remote).1 = with_refresh d (clamp_refresh d.(doc_Refresh)).
Proof. done. Qed.

Lemma remote_part_nil (d : Document) (remote : bool) :
  (if remote then
     add (d.(Revision) <? 0) "/revision" "must be >= 0" ++
     (if d.(GeneratedAt) =s "" then [mkProblem "/generatedAt" "required"]
      else add (negb (is_rfc3339 d.(GeneratedAt))) "/generatedAt" "not an RFC 3339 timestamp")
   else []) = [] <->
  (remote = true -> 0 <= d.(Revision) /\ is_rfc3339 d.(GeneratedAt) = true).
Proof.
  destruct remote; [|naive_solver]. rewrite app_nil, add_nil, Z.ltb_ge.
  destruct (_ =s "") eqn:E.
  - apply str_eqb_eq in E. rewrite E. cbn. naive_solver.
  - rewrite add_nil, negb_false_iff. naive_solver.
Qed.

(** A document is accepted exactly when it is [DocOk]. *)
Lemma validateDocument_iff d remote : (validateDocument d remote).2 = [] <-> DocOk remote d.
Proof.
  unfold validateDocument. cbn [snd]. rewrite sort_paths_nil, !app_nil.
  cbn [with_refresh doc_SchemaVersion Revision GeneratedAt doc_Refresh Servers DefaultServer
    doc_IPCProtocol DCLookupMap doc_HostIntegrity doc_Control doc_Updater doc_Logging ClientWS
    clamp_refresh StaleAfterDays].
  rewrite remote_part_nil, !add_nil, !Z.ltb_ge, !orb_false_iff, !Z.ltb_ge, !contains_neg,
    check_sites_ok, (each_nil (fun c => c ∈ knownClientWSCommands)),
    (serverRef_nil d), concat_fmap_nil,
    (map_list_Forall (fun k v => check_server k v = [])), bool_decide_eq_false
    by (intros; by rewrite add_nil, contains_neg).
  setoid_rewrite check_server_nil. split.
  - intros (? & ? & ? & ? & ? & Hv & Hd & [? ?] & ? & ? & ? & ? & ? & ? & ? & ? & ? & ? & ? & ? & ? & ?).
    pose proof (proj1 (check_versions_ok _) (conj Hv Hd)).
    split; try done; split; try done; lia.
  - intros [? ? ? ? ? HI ? ? [? ?] ? [] ?].
    pose proof (proj2 (check_versions_ok _) HI) as [Hv Hd].
    split_and!; try done; lia.
Qed.

(** [DocOk] does not look at the refresh interval or at the overrides. *)
Lemma DocOk_refresh remote d r : r.(StaleAfterDays) = d.(doc_Refresh).(StaleAfterDays) ->
  DocOk remote d -> DocOk remote (with_refresh d r).
Proof. intros E []. split; cbn; try done; [by rewrite E|].
  intros n s Hs. by destruct (ok_sites0 n s Hs).
Qed.

Lemma DocOk_overrides remote d o : DocOk remote d -> DocOk remote (with_overrides d o).
Proof.
  intros []. split; cbn; try done. intros n s Hs. by destruct (ok_sites0 n s Hs).
Qed.

Lemma DocOk_weaken remote d : DocOk remote d -> DocOk false d.
Proof. intros []. by split. Qed.
End ValidateOk.
