(* ===== verification/PolicyParse.v ===== *)
(** internal/policy/parse.go: from the bytes of a remote document to a
    [Parsed] policy. [Parse] checks the schema, fills the sections the
    document leaves out from the defaults ([complete]), decodes the result
    ([build]), validates it, types the overrides ([parseOverrides]) and applies
    each of them and all of them in a dry run ([dryRunOverrides]). *)
From S2P Require Import Prelude Rfc3339 Json Merge Versions Net PolicyDoc PolicyValidate.

#[local] Existing Instance slice_codec.

(** [Defaults]. *)
Record Defaults := mkDefaults {
  df_Refresh : Refresh;
  df_Control : Control;
  df_Updater : UpdaterSettings;
  df_Logging : LoggingSettings;
  df_ClientWS : ClientWSSettings;
  df_IPCProtocol : IPCProtocol
}.

(** [toMap(defaults)]: the object the encoder writes. *)
Definition defaults_map (d : Defaults) : jobject :=
  list_to_map [("refresh", enc d.(df_Refresh)); ("control", enc d.(df_Control));
    ("updater", enc d.(df_Updater)); ("logging", enc d.(df_Logging));
    ("clientWs", enc d.(df_ClientWS)); ("ipcProtocol", enc d.(df_IPCProtocol))].

(** [toMap] of a document. *)
Definition document_map (d : Document) : jobject := from_opt ∅ (as_obj (enc d)).

(** [Parsed]. *)
Record Parsed := mkParsed {
  Global : Document;
  p_raw : jobject;
  p_defaults : jobject;
  legacyManifestURLs : gmap string string
}.

Definition topologySections : list string :=
  ["schemaVersion"; "revision"; "generatedAt"; "servers"; "defaultServer"; "dcLookupMap";
   "hostIntegrity"].

Definition mergedSections : list string := ["refresh"; "control"; "updater"; "logging"; "clientWs"].

(** [m[k]], the nil interface for a missing key. *)
Definition jget (m : jobject) (k : string) : json := from_opt JNull (m !! k).

(** A value that is present and not null. *)
Definition not_null (v : option json) : option json :=
  match v with Some JNull | None => None | Some v => Some v end.

(** The copy of the topology sections at the top of [complete]. *)
Definition copy_sections (raw : jobject) : jobject :=
  foldl (fun out k =>
    match not_null (raw !! k) with
    | None => out
    | Some v => <[k := cloneValue v]> out
    end) ∅ topologySections.

(** A section given its neutral value when it is absent. *)
Definition fill_missing (k : string) (v : json) (out : jobject) : jobject :=
  match out !! k with Some _ => out | None => <[k := v]> out end.

(** [complete]. *)
Definition complete (defaults raw : jobject) : jobject :=
  let out := copy_sections raw in
  let out := fill_missing "dcLookupMap" (JObj ∅) out in
  let out := fill_missing "hostIntegrity" (JObj {["enabled" := JBool false]}) out in
  let out := <["ipcProtocol" := match raw !! "ipcProtocol" with
                                | Some JNull | None => cloneValue (jget defaults "ipcProtocol")
                                | Some v => cloneValue v
                                end]> out in
  foldl (fun out k =>
    <[k := match raw !! k with
           | Some (JObj v) => mergePatch (defaults !! k) (stripNulls (JObj v))
           | _ => cloneValue (jget defaults k)
           end]> out) out mergedSections.

(** [decode]: the typed document, unless a field has the wrong kind. *)
Definition decode (m : jobject) : result string Document :=
  match dec (JObj m) with
  | Some d => Ok d
  | None => Err "unexpected type"
  end.

(** [Parsed.build]. *)
Definition build (defaults global : jobject) : result Problems Document :=
  match decode (complete defaults global) with
  | Ok doc => Ok doc
  | Err e => Err [mkProblem "/" e]
  end.

(** [asInt]. *)
Definition asInt (v : json) : option Z :=
  match v with JInt z => if int64_ok z then Some z else None | _ => None end.

(** One iteration of [parseOverrides]: the override, if it is kept, the
    problems and the ids seen so far. *)
Definition parseOverride (seen : gset string) (i : Z) (item : json) :
    option Override * Problems * gset string :=
  let path := "/overrides/" +:+ itoa i in
  match item with
  | JObj m =>
      match dec (JObj m) with
      | None => (None, [mkProblem path "unexpected type"], seen)
      | Some o =>
          let id_ps :=
            if o.(ov_ID) =s "" then [mkProblem (path +:+ "/id") "required"]
            else add (bool_decide (o.(ov_ID) ∈ seen)) (path +:+ "/id")
                   ("duplicate id " +:+ o.(ov_ID)) in
          let match_ps :=
            match m !! "match" with
            | None => [mkProblem (path +:+ "/match") "required"]
            | Some raw => validateSelector o.(Match) raw (path +:+ "/match") true
            end in
          let except_ps :=
            match m !! "except", o.(Except) with
            | Some JNull, _ | None, _ => []
            | Some ex, Some s => validateSelector s ex (path +:+ "/except") false
            | Some _, None => []
            end in
          let until_ps := add (bad_until o.(ov_Until)) (path +:+ "/until")
                            "not an RFC 3339 timestamp" in
          let patch_ps := add (negb (is_some o.(Patch))) (path +:+ "/patch") "required" in
          let section_ps := concat ((fun kv : string * json =>
              add (negb (contains PatchableSections kv.1)) (path +:+ "/patch/" +:+ kv.1)
                "not a patchable section") <$> map_to_list (from_opt ∅ o.(Patch))) in
          (Some o, id_ps ++ match_ps ++ except_ps ++ until_ps ++ patch_ps ++ section_ps,
           {[ o.(ov_ID) ]} ∪ seen)
      end
  | _ => (None, [mkProblem path "must be an object"], seen)
  end.

Fixpoint parseOverrideList (seen : gset string) (i : Z) (l : list json) : list Override * Problems :=
  match l with
  | [] => ([], [])
  | item :: rest =>
      let '(o, ps, seen) := parseOverride seen i item in
      let '(os, ps') := parseOverrideList seen (i + 1) rest in
      (match o with Some o => o :: os | None => os end, ps ++ ps')
  end.

(** [parseOverrides]; [None] is the missing key. *)
Definition parseOverrides (raw : option json) : slice Override * Problems :=
  match raw with
  | None | Some JNull => (None, [])
  | Some (JArr l) => let '(os, ps) := parseOverrideList ∅ 0 l in (Some os, ps)
  | Some _ => (None, [mkProblem "/overrides" "must be a list"])
  end.

(** The patch as a value: a nil map is not [nil] once boxed in an interface,
    and merges like an empty object. *)
Definition patch_json (o : Override) : json := JObj (from_opt ∅ o.(Patch)).

Definition apply_patch (raw : jobject) (o : Override) : jobject :=
  from_opt ∅ (as_obj (mergePatch (Some (JObj raw)) (patch_json o))).

Section Parse.
Context `{VersionLib}.

(** [build] then [validateDocument]. *)
Definition check_build (defaults raw : jobject) : Problems :=
  match build defaults raw with
  | Err ps => ps
  | Ok doc => (validateDocument doc true).2
  end.

(** [Parsed.dryRunOverrides]. *)
Definition dryRunOverrides (defaults raw : jobject) (overrides : list Override) : Problems :=
  let problems := each overrides (fun i o =>
    prefix ("/overrides/" +:+ itoa i +:+ "/patch") (check_build defaults (apply_patch raw o))) in
  let all := foldl apply_patch raw overrides in
  problems ++
  if (1 <? len overrides) && (len problems =? 0)
  then prefix "/overrides" (check_build defaults all) else [].

(** [Parse]. *)
Definition Parse (data : blob) (defaults : Defaults) : result Problems Parsed :=
  if MaxDocumentSize <? data.(blob_len) then
    Err [mkProblem "/" ("document is " +:+ itoa data.(blob_len) +:+ " bytes")]
  else match data.(blob_json) with
  | None => Err [mkProblem "/" "invalid JSON"]
  | Some JNull => Err [mkProblem "/" "document is null"]
  | Some (JObj raw) =>
      match raw !! "schemaVersion" with
      | None => Err [mkProblem "/schemaVersion" "required"]
      | Some sv =>
          if match asInt sv with Some n => negb (n =? SchemaVersion) | None => true end
          then Err [mkProblem "/schemaVersion" "must be 1"]
          else
            let defMap := defaults_map defaults in
            let global := delete "overrides" (from_opt ∅ (as_obj (cloneValue (JObj raw)))) in
            let '(doc, build_ps) :=
              match build defMap global with
              | Ok doc => let '(doc, ps) := validateDocument doc true in (Some doc, ps)
              | Err ps => (None, ps)
              end in
            let '(overrides, ov_ps) := parseOverrides (raw !! "overrides") in
            match doc, build_ps ++ ov_ps with
            | Some doc, [] =>
                match dryRunOverrides defMap global (sl overrides) with
                | [] => Ok (mkParsed (with_overrides doc overrides) global defMap ∅)
                | ps => Err ps
                end
            | _, ps => Err ps
            end
      end
  | Some _ => Err [mkProblem "/" "invalid JSON"]
  end.
End Parse.

(** * Lemmas *)

(** ** [complete], one key at a time *)

Definition section_value (defaults raw : jobject) (k : string) : option json :=
  if contains mergedSections k then
    Some match raw !! k with
         | Some (JObj v) => mergePatch (defaults !! k) (stripNulls (JObj v))
         | _ => jget defaults k
         end
  else if k =s "ipcProtocol" then Some (from_opt (jget defaults k) (not_null (raw !! k)))
  else if contains topologySections k then
    match not_null (raw !! k) with
    | None => if k =s "dcLookupMap" then Some (JObj ∅)
              else if k =s "hostIntegrity" then Some (JObj {["enabled" := JBool false]}) else None
    | Some v => Some v
    end
  else None.

Lemma fold_insert_lookup {A} (f : string -> A) (ks : list string) (out : gmap string A) k :
  foldl (fun out k => <[k := f k]> out) out ks !! k
  = if bool_decide (k ∈ ks) then Some (f k) else out !! k.
Proof.
  revert out. induction ks as [|k' ks IH]; intros out; simpl; [done|].
  rewrite IH. destruct (decide (k = k')) as [->|Hne].
  - rewrite (bool_decide_true (k' ∈ k' :: ks)) by left.
    case_bool_decide; by rewrite ?lookup_insert_eq.
  - replace (bool_decide (k ∈ k' :: ks)) with (bool_decide (k ∈ ks))
      by (apply bool_decide_ext; rewrite elem_of_cons; tauto).
    case_bool_decide; by rewrite ?lookup_insert_ne by done.
Qed.

Lemma contains_decide l s : contains l s = bool_decide (s ∈ l).
Proof. apply eq_true_iff_eq. rewrite contains_spec. by rewrite bool_decide_eq_true. Qed.

Lemma copy_fold_lookup (raw : jobject) (ks : list string) (out : jobject) k :
  foldl (fun out k =>
    match not_null (raw !! k) with
    | None => out
    | Some v => <[k := cloneValue v]> out
    end) out ks !! k =
  match (if bool_decide (k ∈ ks) then not_null (raw !! k) else None) with
  | Some v => Some v
  | None => out !! k
  end.
Proof.
  revert out. induction ks as [|k' ks IH]; intros out; simpl; [done|].
  rewrite IH. destruct (decide (k = k')) as [->|Hne].
  - rewrite (bool_decide_true (k' ∈ k' :: ks)) by left.
    case_bool_decide; destruct (not_null (raw !! k'));
      by rewrite ?lookup_insert_eq, ?cloneValue_id.
  - replace (bool_decide (k ∈ k' :: ks)) with (bool_decide (k ∈ ks))
      by (apply bool_decide_ext; rewrite elem_of_cons; tauto).
    destruct (not_null (raw !! k')); by rewrite ?lookup_insert_ne by done.
Qed.

Lemma copy_sections_lookup raw k :
  copy_sections raw !! k = if contains topologySections k then not_null (raw !! k) else None.
Proof.
  unfold copy_sections. rewrite copy_fold_lookup, lookup_empty, contains_decide.
  case_bool_decide; [|done]. by destruct (not_null _).
Qed.

Lemma fill_missing_lookup k v out k' :
  fill_missing k v out !! k' =
  match out !! k' with Some x => Some x | None => if k' =s k then Some v else None end.
Proof.
  unfold fill_missing. destruct (k' =s k) eqn:E.
  - apply str_eqb_eq in E as ->. destruct (out !! k) eqn:Ek; [done|].
    by rewrite lookup_insert_eq.
  - apply str_eqb_neq in E. destruct (out !! k); [by destruct (out !! k')|].
    rewrite lookup_insert_ne by done. by destruct (out !! k').
Qed.

Lemma complete_lookup defaults raw k : complete defaults raw !! k = section_value defaults raw k.
Proof.
  unfold complete, section_value. cbv zeta.
  rewrite fold_insert_lookup, <-contains_decide, cloneValue_id.
  destruct (contains mergedSections k); [done|].
  destruct (k =s "ipcProtocol") eqn:Ei.
  { apply str_eqb_eq in Ei as ->. rewrite lookup_insert_eq. f_equal.
    by destruct (raw !! "ipcProtocol") as [[]|]; rewrite ?cloneValue_id. }
  apply str_eqb_neq in Ei.
  rewrite lookup_insert_ne, !fill_missing_lookup, copy_sections_lookup by done.
  destruct (contains topologySections k) eqn:Et.
  - destruct (not_null (raw !! k)); [done|].
    by destruct (k =s "dcLookupMap").
  - destruct (k =s "dcLookupMap") eqn:E1, (k =s "hostIntegrity") eqn:E2; try done;
      apply str_eqb_eq in E1 || apply str_eqb_eq in E2; by subst.
Qed.

(** A key the document leaves out and a key it sets to null are the same. *)
Lemma section_value_null defaults raw k k' :
  section_value defaults (<[k := JNull]> raw) k' = section_value defaults (delete k raw) k'.
Proof.
  unfold section_value. destruct (decide (k = k')) as [->|Hne].
  - by rewrite lookup_insert_eq, lookup_delete_eq.
  - by rewrite lookup_insert_ne, lookup_delete_ne by done.
Qed.

Lemma complete_null defaults raw k :
  complete defaults (<[k := JNull]> raw) = complete defaults (delete k raw).
Proof. apply map_eq. intros k'. by rewrite !complete_lookup, section_value_null. Qed.

(** Inside a merged section too: a null field is an absent field. *)
Lemma stripNulls_null (m : jobject) k :
  stripNulls (JObj (<[k := JNull]> m)) = stripNulls (JObj (delete k m)).
Proof.
  destruct (stripNulls_obj (<[k := JNull]> m)) as (o1 & -> & H1).
  destruct (stripNulls_obj (delete k m)) as (o2 & -> & H2).
  f_equal. apply map_eq. intros k'. rewrite H1, H2.
  destruct (decide (k = k')) as [->|Hne].
  - by rewrite lookup_insert_eq, lookup_delete_eq.
  - by rewrite lookup_insert_ne, lookup_delete_ne by done.
Qed.

(** A default is never deleted: a merged section has every key of the
    default section. *)
Lemma merged_section_keeps (dm v : jobject) k :
  is_Some (dm !! k) ->
  exists m, mergePatch (Some (JObj dm)) (stripNulls (JObj v)) = JObj m /\ is_Some (m !! k).
Proof.
  intros Hk. destruct (stripNulls_obj v) as (p & -> & Hp).
  destruct (mergePatch_obj (Some (JObj dm)) p) as (m & -> & Hm).
  exists m. split; [done|]. rewrite Hm, Hp. cbn [members].
  destruct (v !! k) as [x|]; [|done]. unfold merged_key.
  destruct x; cbn; eauto.
Qed.

(** ** What an accepted document guarantees *)

Lemma len_zero_nil {A} (l : list A) : (len l =? 0) = true -> l = [].
Proof. destruct l as [|a l]; [done|]. rewrite len_cons, Z.eqb_eq. pose proof (len_nonneg l). lia. Qed.

Lemma prefix_nil path ps : prefix path ps = [] <-> ps = [].
Proof. by destruct ps. Qed.

Section ParseOk.
Context `{VersionLib}.

(** A raw document that builds and validates. *)
Definition builds_ok (defaults raw : jobject) : Prop :=
  exists doc, build defaults raw = Ok doc /\ DocOk true doc.

Lemma build_err_nonempty defaults raw ps : build defaults raw = Err ps -> ps <> [].
Proof. unfold build. destruct (decode _); [done|]. by intros [= <-]. Qed.

Lemma check_build_nil defaults raw : check_build defaults raw = [] <-> builds_ok defaults raw.
Proof.
  unfold check_build, builds_ok. destruct (build defaults raw) as [doc|ps] eqn:E.
  - rewrite validateDocument_iff. split; [eauto|]. by intros (d & [= ->] & Hd).
  - apply build_err_nonempty in E. split; [done|]. by intros (d & ? & _).
Qed.

Lemma dryRun_nil defaults raw os : dryRunOverrides defaults raw os = [] <->
  Forall (fun o => builds_ok defaults (apply_patch raw o)) os /\
  (1 < len os -> builds_ok defaults (foldl apply_patch raw os)).
Proof.
  unfold dryRunOverrides. cbv zeta. rewrite app_nil.
  rewrite (each_nil (fun o => builds_ok defaults (apply_patch raw o)))
    by (intros; by rewrite prefix_nil, check_build_nil).
  split; intros [H1 H2]; (split; [done|]).
  - intros Hl. rewrite (proj2 (Z.ltb_lt _ _) Hl) in H2.
    assert (each os (fun i o => prefix ("/overrides/" +:+ itoa i +:+ "/patch")
      (check_build defaults (apply_patch raw o))) = []) as E.
    { apply (each_nil (fun o => builds_ok defaults (apply_patch raw o))); [|done].
      intros. by rewrite prefix_nil, check_build_nil. }
    rewrite E in H2. cbn in H2. by apply prefix_nil, check_build_nil in H2.
  - destruct (1 <? len os) eqn:E; [|done]. apply Z.ltb_lt in E.
    destruct (len _ =? 0); cbn; [|done]. by apply prefix_nil, check_build_nil, H2.
Qed.

(** Everything the caller of [Parse] relies on. *)
Record ParsedOk (defaults : Defaults) (p : Parsed) : Prop := {
  po_global : DocOk true p.(Global);
  po_refresh : 1 <= p.(Global).(doc_Refresh).(IntervalMinutes) <= 1440;
  po_defaults : p.(p_defaults) = defaults_map defaults;
  po_raw : p.(p_raw) !! "overrides" = None;
  po_build : exists d, build p.(p_defaults) p.(p_raw) = Ok d /\
    p.(Global) = with_overrides (with_refresh d (clamp_refresh d.(doc_Refresh)))
                   p.(Global).(Overrides);
  po_legacy : p.(legacyManifestURLs) = ∅;
  po_each : Forall (fun o => builds_ok p.(p_defaults) (apply_patch p.(p_raw) o))
              (sl p.(Global).(Overrides));
  po_all : 1 < len (sl p.(Global).(Overrides)) ->
    builds_ok p.(p_defaults) (foldl apply_patch p.(p_raw) (sl p.(Global).(Overrides)))
}.

Lemma Parse_inv data defaults p : Parse data defaults = Ok p ->
  data.(blob_len) <= MaxDocumentSize /\
  exists raw doc overrides, data.(blob_json) = Some (JObj raw) /\
    raw !! "schemaVersion" = Some (JInt SchemaVersion) /\
    build (defaults_map defaults) (delete "overrides" raw) = Ok doc /\
    (validateDocument doc true).2 = [] /\
    parseOverrides (raw !! "overrides") = (overrides, []) /\
    dryRunOverrides (defaults_map defaults) (delete "overrides" raw) (sl overrides) = [] /\
    p = mkParsed (with_overrides (validateDocument doc true).1 overrides)
          (delete "overrides" raw) (defaults_map defaults) ∅.
Proof.
  unfold Parse. destruct (_ <? _) eqn:El; [done|]. apply Z.ltb_ge in El.
  destruct (blob_json data) as [[| | | | | |raw]|]; try done.
  destruct (raw !! "schemaVersion") as [sv|] eqn:Es; [|done].
  destruct (asInt sv) as [n|] eqn:Ea; [|done].
  destruct (n =? SchemaVersion) eqn:En; cbn [negb]; [|done]. apply Z.eqb_eq in En as ->.
  assert (sv = JInt SchemaVersion) as ->.
  { destruct sv; try done. cbn in Ea. destruct (int64_ok z); congruence. }
  rewrite cloneValue_id. cbn [as_obj from_opt]. cbv zeta.
  destruct (build _ _) as [doc|ps] eqn:Eb.
  2: { destruct (parseOverrides _). by destruct (ps ++ _). }
  destruct (validateDocument doc true) as [doc' ps] eqn:Ev.
  destruct (parseOverrides _) as [os ps'] eqn:Eo.
  destruct (ps ++ ps') eqn:E; [|done]. apply app_nil in E as [-> ->].
  destruct (dryRunOverrides _ _ _) eqn:Ed; [|done]. intros [= <-].
  split; [done|]. exists raw, doc, os. split_and!; try done; by rewrite ?Ev.
Qed.

Lemma Parse_ok data defaults p : Parse data defaults = Ok p -> ParsedOk defaults p.
Proof.
  intros HP. apply Parse_inv in HP as (_ & raw & doc & os & _ & _ & Hb & Hv & Ho & Hd & ->).
  apply dryRun_nil in Hd as [Hd1 Hd2]. rewrite validateDocument_iff in Hv.
  split; cbn [Global p_raw p_defaults legacyManifestURLs]; try done.
  - apply DocOk_overrides. rewrite validateDocument_doc. by apply DocOk_refresh.
  - apply clamp_refresh_range.
  - apply lookup_delete_eq.
  - by exists doc.
Qed.
End ParseOk.
