(* ===== verification/PolicyMatch.v ===== *)
(** internal/policy/match.go: which overrides apply to a host, and the policy
    the host runs ([Effective]): its site, its server chain, its URLs, the kill
    switches.

    [Site] ranges over a Go map and returns at the first entry whose name is
    the host's domain controller, so its result is a function of the order the
    map is enumerated in: [Site_in] takes that order, and
    [Site_order_irrelevant] shows that for the sites of a valid document every
    order gives the same answer. *)
From S2P Require Import Prelude Rfc3339 Json Merge Versions Net PolicyDoc PolicyValidate PolicyParse.

(** [expired]. *)
Definition expired (until : option string) (now : time) : bool :=
  match until with
  | None | Some "" => false
  | Some s => match parse_rfc3339 s with
              | None => false
              | Some t => negb (t_before now t)
              end
  end.

(** [Selector.matches]. *)
Definition matches (s : Selector) (h : Host) : bool :=
  if s.(sel_All) then true
  else if negb (len (sl s.(sel_HWIDs)) =? 0) && negb (containsFold (sl s.(sel_HWIDs)) h.(h_HWID))
  then false
  else if negb (len (sl s.(sel_Hostnames)) =? 0)
          && negb (containsFold (sl s.(sel_Hostnames)) h.(h_Hostname)) then false
  else if negb (len (sl s.(DCs)) =? 0) &&
          ((h.(h_DC) =s "") || negb (existsb (fun dc => SameDCName dc h.(h_DC)) (sl s.(DCs))))
  then false
  else if negb (len (sl s.(Domains)) =? 0) && negb (containsFold (sl s.(Domains)) h.(h_Domain))
  then false
  else if negb (len (sl s.(Subnets)) =? 0) && negb (anyIPInSubnets h.(h_IPs) (sl s.(Subnets)))
  then false
  else true.

(** Whether [Effective]'s loop applies an override to a host. *)
Definition applies (o : Override) (h : Host) : bool :=
  negb (expired o.(ov_Until) h.(h_Now)) && matches o.(Match) h &&
  negb (match o.(Except) with Some e => matches e h | None => false end).

Record Effective := mkEffective {
  Doc : Document;
  Applied : list string;
  e_parsed : Parsed
}.

(** The loop of [Effective]: the patched document and the ids applied. *)
Fixpoint apply_overrides (cur : jobject) (os : list Override) (h : Host) : jobject * list string :=
  match os with
  | [] => (cur, [])
  | o :: rest =>
      if applies o h then
        let '(cur, ids) := apply_overrides (apply_patch cur o) rest h in (cur, o.(ov_ID) :: ids)
      else apply_overrides cur rest h
  end.

Section Effective.
Context `{VersionLib}.

(** [Parsed.Effective]: the policy and the informational error. *)
Definition effective (p : Parsed) (h : Host) : Effective * option string :=
  let '(cur, applied) := apply_overrides p.(p_raw) (sl p.(Global).(Overrides)) h in
  match applied with
  | [] => (mkEffective p.(Global) [] p, None)
  | _ =>
      let remote := (0 <? p.(Global).(Revision)) || negb (p.(Global).(GeneratedAt) =s "") in
      let '(doc, probs) := match build p.(p_defaults) cur with
                           | Ok doc => let '(doc, ps) := validateDocument doc remote in (Some doc, ps)
                           | Err ps => (None, ps)
                           end in
      match doc, probs with
      | Some doc, [] =>
          (mkEffective (with_overrides doc p.(Global).(Overrides)) applied p, None)
      | _, _ =>
          (mkEffective p.(Global) [] p,
           Some ("overrides " +:+ join "," applied +:+
                 " combine into an invalid document, using the global one: " +:+
                 Problems_Error probs))
      end
  end.
End Effective.

(** [Effective.Site], for one enumeration of the map. *)
Fixpoint Site_in (order : list (string * Site)) (h : Host) : option (string * Site) :=
  match order with
  | [] => None
  | (key, s) :: rest =>
      if negb (SameDCName key h.(h_DC)) || negb (Site_IsEnabled s) then Site_in rest h
      else if anyIPInSubnets h.(h_IPs) (sl s.(InternalSubnets)) then Some (key, s)
      else None
  end.

Definition site_lookup (order : list (string * Site)) (h : Host) : option (string * Site) :=
  if h.(h_DC) =s "" then None else Site_in order h.

(** [Effective.Site]. *)
Definition site_of (e : Effective) (h : Host) : option (string * Site) :=
  site_lookup (map_to_list e.(Doc).(DCLookupMap)) h.

(** [Effective.Chain]. *)
Definition Chain (e : Effective) (h : Host) : string * list string :=
  match site_of e h with
  | Some (name, s) => (name, s.(BaseServer) :: sl s.(BackupServer))
  | None => ("", [e.(Doc).(DefaultServer)])
  end.

(** [Effective.BaseURL], [Effective.ManifestURL]. *)
Definition BaseURL (e : Effective) (name : string) : string :=
  from_opt "" (e.(Doc).(Servers) !! name).

Definition ManifestURL (e : Effective) (name : string) : string :=
  match e.(e_parsed).(legacyManifestURLs) !! name with
  | Some u => u
  | None => let base := BaseURL e name in
            if base =s "" then "" else base +:+ ManifestPath
  end.

(** [Effective.IsWhitelisted]. *)
Definition IsWhitelisted (e : Effective) (h : Host) : bool :=
  let w := e.(Doc).(doc_HostIntegrity).(hi_Whitelist) in
  containsFold (sl w.(Hostnames)) h.(h_Hostname) || containsFold (sl w.(HWIDs)) h.(h_HWID).

(** [Effective.UpdaterEnabled]. *)
Definition UpdaterEnabled (e : Effective) (now : time) : bool * string :=
  let c := e.(Doc).(doc_Control).(ctl_Updater) in
  if c.(cu_Enabled) || expired c.(cu_Until) now then (true, "")
  else (false, from_opt "" c.(cu_Reason)).

(** [Effective.AppControl]. *)
Definition AppControl (e : Effective) (now : time) : ControlApp :=
  let c := e.(Doc).(doc_Control).(ctl_App) in
  let ex := expired c.(ca_Until) now in
  mkControlApp (if negb c.(ca_Enabled) && ex then true else c.(ca_Enabled))
    (if negb (c.(Mode) =s AppModeNormal) && ex then AppModeNormal else c.(Mode))
    c.(ca_Reason) c.(ca_Until).

(** * Lemmas *)

(** ** Selectors *)

(** One key of a selector: an empty list does not constrain the host. *)
Definition constrained (l : list string) (ok : Prop) : Prop := l <> [] -> ok.

Definition selects (s : Selector) (h : Host) : Prop :=
  s.(sel_All) = true \/
  constrained (sl s.(sel_HWIDs)) (containsFold (sl s.(sel_HWIDs)) h.(h_HWID) = true) /\
  constrained (sl s.(sel_Hostnames)) (containsFold (sl s.(sel_Hostnames)) h.(h_Hostname) = true) /\
  constrained (sl s.(DCs)) (h.(h_DC) <> "" /\
    exists dc, dc ∈ sl s.(DCs) /\ SameDCName dc h.(h_DC) = true) /\
  constrained (sl s.(Domains)) (containsFold (sl s.(Domains)) h.(h_Domain) = true) /\
  constrained (sl s.(Subnets)) (anyIPInSubnets h.(h_IPs) (sl s.(Subnets)) = true).

Lemma constrained_bool (l : list string) (b : bool) (P : Prop) : (b = true <-> P) ->
  negb (len l =? 0) && negb b = false <-> constrained l P.
Proof.
  intros Hb. unfold constrained. rewrite <-Hb, <-len_nonzero.
  destruct (len l =? 0), b; simpl; naive_solver.
Qed.

Lemma dc_listed (l : list string) dc :
  negb ((dc =s "") || negb (existsb (fun x => SameDCName x dc) l)) = true <->
  dc <> "" /\ exists x, x ∈ l /\ SameDCName x dc = true.
Proof.
  rewrite negb_true_iff, orb_false_iff, str_eqb_neq, negb_false_iff, existsb_exists.
  setoid_rewrite list_elem_of_In. done.
Qed.

Lemma if_false_else (b : bool) (c : bool) :
  (if b then false else c) = true <-> b = false /\ c = true.
Proof. destruct b; naive_solver. Qed.

Lemma matches_selects s h : matches s h = true <-> selects s h.
Proof.
  unfold matches, selects. destruct (sel_All s); [naive_solver|].
  rewrite !if_false_else.
  rewrite !(constrained_bool _ (containsFold _ _)) by reflexivity.
  rewrite (constrained_bool _ (anyIPInSubnets _ _)) by reflexivity.
  rewrite <-(negb_involutive (_ || _)), (constrained_bool _ _ _ (dc_listed _ _)).
  naive_solver.
Qed.

(** ** Expiry *)

Lemma expired_spec until now : expired until now = true <->
  exists s t, until = Some s /\ s <> "" /\ parse_rfc3339 s = Some t /\ t <= now.
Proof.
  unfold expired, t_before. destruct until as [[|c s]|].
  - split; [done|]. by intros (? & ? & [= <-] & ? & _).
  - destruct (parse_rfc3339 _) as [t|] eqn:E.
    + rewrite negb_true_iff, Z.ltb_ge. split.
      * intros. by exists (String c s), t.
      * intros (? & ? & [= <-] & _ & E' & ?). rewrite E in E'. by injection E' as <-.
    + split; [done|]. intros (? & ? & [= <-] & _ & E' & _). by rewrite E in E'.
  - split; [done|]. by intros (? & ? & ? & _).
Qed.

Lemma expired_mono until now now' : now <= now' ->
  expired until now = true -> expired until now' = true.
Proof.
  rewrite !expired_spec. intros Hn (s & t & ? & ? & ? & ?). exists s, t. split_and!; try done. lia.
Qed.

(** ** Effective policies *)

Lemma apply_overrides_applied cur os h :
  (apply_overrides cur os h).2 = ov_ID <$> bfilter (fun o => applies o h) os.
Proof.
  revert cur. induction os as [|o os IH]; intros cur; simpl; [done|].
  destruct (applies o h); [|apply IH]. specialize (IH (apply_patch cur o)).
  destruct (apply_overrides _ os h) as [c ids]. simpl in *. by rewrite IH.
Qed.

Lemma apply_overrides_raw cur os h :
  (apply_overrides cur os h).1 = foldl apply_patch cur (bfilter (fun o => applies o h) os).
Proof.
  revert cur. induction os as [|o os IH]; intros cur; simpl; [done|].
  destruct (applies o h); [|apply IH]. specialize (IH (apply_patch cur o)).
  destruct (apply_overrides _ os h) as [c ids]. simpl in *. done.
Qed.

Section EffectiveOk.
Context `{VersionLib}.

(** The overrides that apply to [h], what they make of the document, and
    whether the document counts as a published one. *)
Definition applicable (p : Parsed) (h : Host) : list Override :=
  bfilter (fun o => applies o h) (sl p.(Global).(Overrides)).
Definition patched_raw (p : Parsed) (h : Host) : jobject := foldl apply_patch p.(p_raw) (applicable p h).
Definition is_published (p : Parsed) : bool :=
  (0 <? p.(Global).(Revision)) || negb (p.(Global).(GeneratedAt) =s "").

(** The policy a host runs is the global document when nothing applies, the
    document its overrides build when that is valid, and else the global one,
    with an error. *)
Lemma effective_cases p h :
  (applicable p h = [] -> effective p h = (mkEffective p.(Global) [] p, None)) /\
  (applicable p h <> [] ->
   (exists doc, build p.(p_defaults) (patched_raw p h) = Ok doc /\
      (validateDocument doc (is_published p)).2 = [] /\
      effective p h = (mkEffective (with_overrides (validateDocument doc (is_published p)).1 p.(Global).(Overrides))
                         (ov_ID <$> applicable p h) p, None)) \/
   (forall doc, build p.(p_defaults) (patched_raw p h) = Ok doc -> (validateDocument doc (is_published p)).2 <> []) /\
   exists msg, effective p h = (mkEffective p.(Global) [] p, Some msg)).
Proof.
  unfold effective, patched_raw, applicable, is_published. rewrite <-apply_overrides_raw.
  pose proof (apply_overrides_applied (p_raw p) (sl (Overrides (Global p))) h) as Hids.
  rewrite <-Hids. destruct (apply_overrides _ _ h) as [cur ids]. cbn [fst snd] in *.
  split; intros Hos.
  - rewrite Hos in Hids. by subst ids.
  - destruct ids as [|i ids]; [symmetry in Hids; by apply fmap_nil_inv in Hids|].
    destruct (build _ cur) as [doc|ps]; [|right; split; [done|by eexists]].
    destruct (validateDocument doc _) as [doc' ps] eqn:E.
    destruct ps as [|pb ps]; [left|right].
    + exists doc. by rewrite E.
    + split; [|by eexists]. intros ? [= <-]. by rewrite E.
Qed.

Lemma effective_parsed p h : (effective p h).1.(e_parsed) = p.
Proof.
  unfold effective. destruct (apply_overrides _ _ _) as [cur [|i ids]]; [done|].
  destruct (match build _ _ with Ok _ => _ | Err _ => _ end) as [[doc|] []]; done.
Qed.

Lemma effective_valid p h defaults : ParsedOk defaults p ->
  DocOk false (effective p h).1.(Doc) /\
  1 <= (effective p h).1.(Doc).(doc_Refresh).(IntervalMinutes) <= 1440.
Proof.
  intros []. assert (Hg : DocOk false p.(Global)) by by eapply DocOk_weaken.
  destruct (effective_cases p h) as [H1 H2]. destruct (decide (applicable p h = [])) as [E|E]; [by rewrite (H1 E)|].
  destruct (H2 E) as [(doc & _ & Hv & ->)|(_ & msg & ->)]; [cbn [fst Doc]|done].
  apply validateDocument_iff in Hv. rewrite validateDocument_doc. split.
  - eapply DocOk_weaken, DocOk_overrides, DocOk_refresh; done.
  - apply clamp_refresh_range.
Qed.

(** ** Sites *)

Definition unique_labels (order : list (string * Site)) : Prop :=
  forall e1 e2, e1 ∈ order -> e2 ∈ order -> SameDCName e1.1 e2.1 = true -> e1 = e2.

Definition site_candidate (h : Host) (e : string * Site) : bool :=
  SameDCName e.1 h.(h_DC) && Site_IsEnabled e.2.

Lemma Site_in_find order h :
  Site_in order h =
  match find_first (site_candidate h) order with
  | Some e => if anyIPInSubnets h.(h_IPs) (sl e.2.(InternalSubnets)) then Some e else None
  | None => None
  end.
Proof.
  induction order as [|[key s] order IH]; simpl; [done|].
  unfold site_candidate at 1. cbn [fst snd].
  destruct (SameDCName key _), (Site_IsEnabled s); cbn; done.
Qed.

Lemma find_first_unique {A} (f : A -> bool) l x :
  (forall a b, a ∈ l -> b ∈ l -> f a = true -> f b = true -> a = b) ->
  x ∈ l -> f x = true -> find_first f l = Some x.
Proof.
  intros Hu Hx Hf. destruct (find_first f l) as [y|] eqn:E.
  - apply find_first_some in E as [Hy Hfy]. f_equal. by apply Hu.
  - rewrite find_first_none in E. by rewrite (E x Hx) in Hf.
Qed.

Lemma candidate_unique order h : unique_labels order ->
  forall a b, a ∈ order -> b ∈ order ->
  site_candidate h a = true -> site_candidate h b = true -> a = b.
Proof.
  intros Hu a b Ha Hb. unfold site_candidate. rewrite !andb_true_iff. intros [H1 _] [H2 _].
  apply Hu; try done. rewrite SameDCName_sym in H2. by eapply SameDCName_trans.
Qed.

Lemma Site_in_perm o1 o2 h : o1 ≡ₚ o2 -> unique_labels o1 -> Site_in o1 h = Site_in o2 h.
Proof.
  intros Hp Hu. rewrite !Site_in_find.
  destruct (find_first (site_candidate h) o1) as [e|] eqn:E1.
  - apply find_first_some in E1 as [He Hc].
    rewrite (find_first_unique (site_candidate h) o2 e); [done| |by rewrite <-Hp|done].
    intros a b Ha Hb. rewrite <-Hp in Ha, Hb. by eapply candidate_unique.
  - rewrite find_first_none in E1.
    assert (find_first (site_candidate h) o2 = None) as ->; [|done].
    apply find_first_none. intros x Hx. apply E1. by rewrite Hp.
Qed.

Lemma DocOk_unique_labels remote d order : DocOk remote d ->
  order ≡ₚ map_to_list d.(DCLookupMap) -> unique_labels order.
Proof.
  intros [] Hp [n1 s1] [n2 s2] H1 H2 E. rewrite Hp in H1, H2.
  apply elem_of_map_to_list in H1, H2. cbn in E.
  assert (n1 = n2) as -> by eauto. congruence.
Qed.

Lemma site_of_inv e h name s : site_of e h = Some (name, s) ->
  e.(Doc).(DCLookupMap) !! name = Some s /\ SameDCName name h.(h_DC) = true /\
  Site_IsEnabled s = true /\ anyIPInSubnets h.(h_IPs) (sl s.(InternalSubnets)) = true /\
  h.(h_DC) <> "".
Proof.
  unfold site_of, site_lookup. destruct (_ =s "") eqn:E; [done|]. apply str_eqb_neq in E.
  rewrite Site_in_find. destruct (find_first _ _) as [[k x]|] eqn:Ef; [|done].
  destruct (anyIPInSubnets _ _) eqn:Ei; [|done]. intros [= -> ->].
  apply find_first_some in Ef as [Hin Hc]. apply elem_of_map_to_list in Hin.
  unfold site_candidate in Hc. apply andb_true_iff in Hc as [? ?]. done.
Qed.

(** ** Chains *)

Lemma sapp_nonempty a b : a +:+ b = "" -> a = "" /\ b = "".
Proof. by destruct a. Qed.

Lemma validServerURL_nonempty url : validServerURL url = None -> url <> "".
Proof. by intros H0 ->. Qed.

Lemma known_manifest_url e remote name : DocOk remote e.(Doc) ->
  e.(e_parsed).(legacyManifestURLs) !! name <> Some "" ->
  server_known e.(Doc) name -> ManifestURL e name <> "".
Proof.
  intros HD Hl [_ [url Hu]]. unfold ManifestURL, BaseURL.
  destruct (legacyManifestURLs (e_parsed e) !! name); [congruence|]. rewrite Hu. cbn.
  destruct (url =s "") eqn:E; [apply str_eqb_eq in E; subst|apply str_eqb_neq in E].
  - destruct (ok_servers _ _ HD _ _ Hu) as [_ Hv]. by apply validServerURL_nonempty in Hv.
  - intros Ha. by apply sapp_nonempty in Ha as [-> _].
Qed.

Lemma Chain_known e h remote : DocOk remote e.(Doc) ->
  (Chain e h).2 <> [] /\ Forall (server_known e.(Doc)) (Chain e h).2.
Proof.
  intros HD. unfold Chain. destruct (site_of e h) as [[name s]|] eqn:E; cbn.
  - apply site_of_inv in E as (Hs & _). destruct (ok_sites _ _ HD _ _ Hs).
    split; [done|]. by constructor.
  - split; [done|]. constructor; [by destruct HD|constructor].
Qed.
End EffectiveOk.
