(* ===== verification/PolicyProps.v ===== *)
(** Properties of internal/policy's evaluation: what a merge patch does, which
    documents are accepted, what an accepted document guarantees, which policy
    a host runs and where it is sent. [Fixture] holds a document, defaults and
    hosts in the shape of the repository's own fixtures, on which the
    properties are evaluated. *)
From S2P Require Import Prelude Rfc3339 Json Merge Versions Net PolicyDoc PolicyValidate.
From S2P Require Import PolicyParse PolicyMatch.

#[local] Existing Instance slice_codec.
#[local] Existing Instance Dotted.lib.

Module Fixture.


Definition object (l : list (string * json)) : jobject := list_to_map l.
Definition strs (l : list string) : json := JArr (JStr <$> l).

Definition defaults : Defaults := mkDefaults (mkRefresh 60 7)
  (mkControl (mkControlUpdater true None None) (mkControlApp true "normal" None None))
  (mkUpdaterSettings 60 None (mkCriticalWarning true 60) (mkDCLookupRetry 5 10)
     (mkResolverSettings 3 5) (mkToggle true) (mkToggle true))
  (mkLoggingSettings "info" 2 5 true true)
  (mkClientWSSettings false (Some DefaultClientWSCommands))
  (mkIPCProtocol {["1" := mkIPCVersion (mkVersionRange None None)
                            (mkVersionRange (Some "1.0.0") None) (Some true)]} 1).

Definition pilot : json := JObj (object
  [("id", JStr "pilot"); ("match", JObj (object [("hostnames", strs ["PC-1"])]));
   ("patch", JObj (object [("updater", JObj (object [("pollIntervalMinutes", JInt 5)]))]))]).

Definition pause : json := JObj (object
  [("id", JStr "pause"); ("match", JObj (object [("all", JBool true)]));
   ("until", JStr "2026-09-05T00:00:00Z");
   ("patch", JObj (object [("control", JObj (object [("updater",
      JObj (object [("enabled", JBool false); ("until", JStr "2026-09-05T00:00:00Z")]))]))]))]).

Definition sites : json := JObj (object
  [("DC-RM2", JObj (object [("internalSubnets", strs ["10.20.0.0/16"]);
      ("baseServer", JStr "lan"); ("backupServer", strs ["main"])]));
   ("dc-mi1.corp", JObj (object [("internalSubnets", strs ["10.30.0.0/16"; "10.31.0.0/16"]);
      ("baseServer", JStr "lan")]))]).

Definition raw : jobject := object
  [("schemaVersion", JInt 1); ("revision", JInt 7);
   ("generatedAt", JStr "2026-09-04T10:00:00Z");
   ("refresh", JObj (object [("intervalMinutes", JInt 0)]));
   ("servers", JObj (object [("main", JStr "https://api.example.com");
                             ("lan", JStr "http://10.20.0.5:8080/emly")]));
   ("defaultServer", JStr "main"); ("dcLookupMap", sites);
   ("logging", JNull); ("overrides", JArr [pilot; pause])].

Definition data : blob := Blob 900 (Some (JObj raw)).

Definition parsed : Parsed :=
  match Parse data defaults with Ok p => p | Err _ => mkParsed zero ∅ ∅ ∅ end.

Lemma parse_ok : Parse data defaults = Ok parsed.
Proof. vm_compute. reflexivity. Qed.

(** 2026-09-04T12:00:00Z *)
Definition now : time := from_opt 0 (parse_rfc3339 "2026-09-04T12:00:00Z").
Definition pc1 : Host := mkHost "HW-1" "pc-1" "dc-rm2.corp.local" "corp.local" ["10.20.3.4"] now.
Definition pc2 : Host := mkHost "HW-2" "PC-2" "" "corp.local" ["192.168.1.9"] (now + 48 * hour).
End Fixture.

(** * Merge patches *)

(** [mergePatch] is RFC 7386: a patch that is not an object replaces the
    target; an object patch produces an object whose every member is the
    target's where the patch is silent, is gone where the patch says null, and
    is otherwise the patch's member merged into the target's. *)
Theorem mergePatch_rfc7386 (target : option json) (patch : json) :
  (as_obj patch = None -> mergePatch target patch = patch) /\
  forall pm, patch = JObj pm -> exists out, mergePatch target patch = JObj out /\
    forall k, out !! k = match pm !! k with
                         | None => members target !! k
                         | Some JNull => None
                         | Some v => Some (mergePatch (members target !! k) v)
                         end.
Proof.
  split; [apply mergePatch_scalar|]. intros pm ->.
  destruct (mergePatch_obj target pm) as (out & -> & Hk). exists out. split; [done|].
  intros k. rewrite Hk. unfold merged_key. by destruct (pm !! k) as [[]|].
Qed.

Lemma mergePatch_rfc7386_witness :
  mergePatch (Some (JInt 1)) (JStr "x") = JStr "x".
Proof. apply (proj1 (mergePatch_rfc7386 (Some (JInt 1)) (JStr "x"))). reflexivity. Defined.

(** the defaults survive every document: whatever a document says about a
    merged section, an absent section, a null section and a section of the
    wrong kind give the default section itself, a null field gives the
    default field, and no key of the default section disappears. *)
Theorem complete_defaults (defaults raw : jobject) (k : string) (dm : jobject) :
  k ∈ mergedSections -> defaults !! k = Some (JObj dm) ->
  match raw !! k with
  | Some (JObj v) =>
      exists m, complete defaults raw !! k = Some (JObj m) /\
        (forall f, is_Some (dm !! f) -> is_Some (m !! f)) /\
        (forall f, v !! f = None \/ v !! f = Some JNull -> m !! f = dm !! f)
  | _ => complete defaults raw !! k = Some (JObj dm)
  end.
Proof.
  intros Hk Hd. rewrite complete_lookup. unfold section_value, jget.
  rewrite (proj2 (contains_spec _ _) Hk), Hd. cbn [from_opt].
  destruct (raw !! k) as [[| | | | | |v]|]; try done.
  destruct (stripNulls_obj v) as (p & Hp & Hl).
  destruct (mergePatch_obj (Some (JObj dm)) p) as (m & Hm & Hml).
  exists m. rewrite Hp, Hm. split_and!; try done.
  - intros f Hf. destruct (merged_section_keeps dm v f Hf) as (m' & Hm' & H').
    rewrite Hp, Hm in Hm'. congruence.
  - intros f Hf. rewrite Hml, Hl. by destruct Hf as [-> | ->].
Qed.

Lemma complete_defaults_witness :
  complete (defaults_map Fixture.defaults) Fixture.raw !! "logging" =
    Some (enc Fixture.defaults.(df_Logging)).
Proof.
  apply (complete_defaults (defaults_map Fixture.defaults) Fixture.raw "logging");
    [apply contains_spec; reflexivity | reflexivity].
Defined.

(** Null and absent are the same everywhere outside a patch: a top-level
    key set to null completes to the same document as the key left out, a
    selector with a null key is checked like one without it, and a null field
    of a merged section is stripped like an absent one. *)
Theorem null_is_absent (defaults raw m : jobject) (k : string) (s : Selector) path allowAll :
  complete defaults (<[k := JNull]> raw) = complete defaults (delete k raw) /\
  stripNulls (JObj (<[k := JNull]> m)) = stripNulls (JObj (delete k m)) /\
  validateSelector s (JObj (<[k := JNull]> m)) path allowAll =
    validateSelector s (JObj (delete k m)) path allowAll.
Proof.
  split_and!; [apply complete_null | apply stripNulls_null |].
  unfold validateSelector.
  assert (filter (fun kv : string * json => is_null kv.2 = false) (<[k := JNull]> m) =
          filter (fun kv : string * json => is_null kv.2 = false) (delete k m)) as ->; [|done].
  rewrite map_filter_insert_False by done. by rewrite map_filter_delete.
Qed.

(** * Acceptance *)

(** C37: [validateDocument] reports no problem exactly for the documents that
    satisfy the specification [DocOk] (server references resolve, every
    server has a usable URL, site names are distinct as the lookup compares
    them, versions, timestamps and ranges are in bounds). *)
Theorem validateDocument_ok `{VersionLib} (d : Document) (remote : bool) :
  (validateDocument d remote).2 = [] <-> DocOk remote d.
Proof. apply validateDocument_iff. Qed.

(** C11: a document [Parse] accepts has a valid global document whose refresh
    interval is between one minute and a day, is kept in its raw form without
    its overrides, and every one of its overrides, applied alone, and all of
    them together build a valid document. *)
Theorem Parse_accepts `{VersionLib} (data : blob) (defaults : Defaults) (p : Parsed) :
  Parse data defaults = Ok p -> data.(blob_len) <= MaxDocumentSize /\ ParsedOk defaults p.
Proof.
  intros HP. split; [|by eapply Parse_ok]. by destruct (Parse_inv _ _ _ HP).
Qed.

Lemma Parse_accepts_witness :
  Fixture.data.(blob_len) <= MaxDocumentSize /\ ParsedOk Fixture.defaults Fixture.parsed.
Proof. exact (Parse_accepts Fixture.data Fixture.defaults Fixture.parsed Fixture.parse_ok). Defined.

(** * The policy of a host *)

Lemma applicable_spec p h o : o ∈ applicable p h <->
  o ∈ sl p.(Global).(Overrides) /\ selects o.(Match) h /\
  (forall x, o.(Except) = Some x -> ~ selects x h) /\ expired o.(ov_Until) h.(h_Now) = false.
Proof.
  unfold applicable, bfilter. rewrite list_elem_of_In, filter_In, <-list_elem_of_In. unfold applies.
  rewrite !andb_true_iff, !negb_true_iff, matches_selects.
  destruct (Except o) as [x|]; [|naive_solver]. rewrite <-(not_true_iff_false (matches x h)), matches_selects. naive_solver.
Qed.

(** The dry run of [Parse] tried each override alone and all of them. *)
Lemma dry_run_covers `{VersionLib} defaults p h : ParsedOk defaults p -> applicable p h <> [] ->
  length (applicable p h) = 1%nat \/ applicable p h = sl p.(Global).(Overrides) ->
  exists doc, build p.(p_defaults) (patched_raw p h) = Ok doc /\ DocOk (is_published p) doc.
Proof.
  intros HP Hos Hcase. assert (Hb : builds_ok p.(p_defaults) (patched_raw p h)).
  { assert (H1 : forall o, applicable p h = [o] -> builds_ok p.(p_defaults) (patched_raw p h)).
    { intros o E. pose proof (po_each _ _ HP) as Heach. rewrite Forall_forall in Heach.
      unfold patched_raw. rewrite E. apply Heach. apply (applicable_spec p h o). rewrite E. apply list_elem_of_here. }
    destruct (applicable p h) as [|o [|o' l]] eqn:E; [done|by eapply H1|].
    destruct Hcase as [?|Hall]; [done|]. unfold patched_raw. rewrite E, Hall. apply (po_all _ _ HP).
    rewrite <-Hall, !len_cons. pose proof (len_nonneg l). lia. }
  destruct Hb as (doc & E & Hd). exists doc. split; [done|].
  destruct (is_published p); [done|]. by eapply DocOk_weaken.
Qed.

(** [Selector.matches] is the selector's meaning: [all] selects every
    host; otherwise every non-empty list must contain the host (names and ids
    without case or surrounding blanks, domain controllers by label, addresses
    by block) and an empty list says nothing. *)
Theorem matches_spec (s : Selector) (h : Host) : matches s h = true <-> selects s h.
Proof. apply matches_selects. Qed.

(** C10: for an accepted document, the policy of every host is valid with a
    refresh interval between one minute and a day, and determined: where no
    override applies - none matches the host, spares it and is unexpired - it
    is the global document; where some do, it is the one they build, applied
    in document order to it, whenever that document is valid, and only
    otherwise the global one, with an error. A single override that applies,
    or all of them together, always takes effect: that is what the dry run of
    Parse is for. *)
Theorem effective_policy `{VersionLib} (defaults : Defaults) (p : Parsed) (h : Host) :
  ParsedOk defaults p ->
  let e := (effective p h).1 in
  let os := applicable p h in
  let builds doc := build p.(p_defaults) (foldl apply_patch p.(p_raw) os) = Ok doc /\ DocOk (is_published p) doc in
  (DocOk false e.(Doc) /\ 1 <= e.(Doc).(doc_Refresh).(IntervalMinutes) <= 1440) /\
  (forall o, o ∈ os <-> o ∈ sl p.(Global).(Overrides) /\ selects o.(Match) h /\
     (forall x, o.(Except) = Some x -> ~ selects x h) /\ expired o.(ov_Until) h.(h_Now) = false) /\
  (os = [] -> effective p h = (mkEffective p.(Global) [] p, None)) /\
  (forall doc, os <> [] -> builds doc ->
     effective p h = (mkEffective (with_overrides (with_refresh doc (clamp_refresh doc.(doc_Refresh)))
                                     p.(Global).(Overrides)) (ov_ID <$> os) p, None)) /\
  (os <> [] -> (forall doc, ~ builds doc) ->
     exists msg, effective p h = (mkEffective p.(Global) [] p, Some msg)) /\
  (os <> [] -> length os = 1%nat \/ os = sl p.(Global).(Overrides) -> e.(Applied) = ov_ID <$> os).
Proof.
  intros HP. cbv zeta. split; [exact (effective_valid p h defaults HP)|].
  split; [intros o; apply applicable_spec|]. destruct (effective_cases p h) as [Hnone Hsome]. split; [exact Hnone|].
  assert (Hb : forall doc, applicable p h <> [] -> build p.(p_defaults) (patched_raw p h) = Ok doc ->
    DocOk (is_published p) doc -> effective p h = (mkEffective (with_overrides (with_refresh doc
      (clamp_refresh doc.(doc_Refresh))) p.(Global).(Overrides)) (ov_ID <$> applicable p h) p, None)).
  { intros doc Hos E Hd. apply validateDocument_iff in Hd.
    destruct (Hsome Hos) as [(doc' & E' & _ & ->)|[Hno _]]; [|by destruct (Hno doc E)].
    rewrite E in E'. injection E' as <-. by rewrite validateDocument_doc. }
  split_and!.
  - intros doc Hos [E Hd]. by apply Hb.
  - intros Hos Hno. destruct (Hsome Hos) as [(doc & E & Hv & _)|[_ Herr]]; [|exact Herr].
    apply validateDocument_iff in Hv. by destruct (Hno doc).
  - intros Hos Hcase. destruct (dry_run_covers defaults p h HP Hos Hcase) as (doc & E & Hd). by rewrite (Hb doc).
Qed.

Lemma effective_policy_witness :
  DocOk false (effective Fixture.parsed Fixture.pc1).1.(Doc) /\
  (effective Fixture.parsed Fixture.pc1).1.(Applied) = ["pilot"; "pause"].
Proof.
  destruct (effective_policy Fixture.defaults Fixture.parsed Fixture.pc1
           (Parse_ok Fixture.data Fixture.defaults Fixture.parsed Fixture.parse_ok))
    as ([Hd _] & _ & _ & Hb & _ & _).
  split; [exact Hd|]. vm_compute. reflexivity.
Defined.

(** the site of a host does not depend on the order in which Go enumerates
    the site map, for any valid document. *)
Theorem Site_order_irrelevant `{VersionLib} (remote : bool) (e : Effective) (h : Host)
    (order : list (string * Site)) :
  DocOk remote e.(Doc) -> order ≡ₚ map_to_list e.(Doc).(DCLookupMap) ->
  site_lookup order h = site_of e h.
Proof.
  intros HD Hp. unfold site_of, site_lookup. destruct (_ =s ""); [done|].
  apply Site_in_perm; [done|]. by eapply DocOk_unique_labels.
Qed.

Lemma Site_order_irrelevant_witness :
  fst <$> site_lookup (reverse (map_to_list
     (effective Fixture.parsed Fixture.pc1).1.(Doc).(DCLookupMap))) Fixture.pc1 = Some "DC-RM2".
Proof.
  rewrite (Site_order_irrelevant false (effective Fixture.parsed Fixture.pc1).1 Fixture.pc1).
  - vm_compute. reflexivity.
  - exact (proj1 (effective_valid Fixture.parsed Fixture.pc1 Fixture.defaults
             (Parse_ok Fixture.data Fixture.defaults Fixture.parsed Fixture.parse_ok))).
  - apply reverse_Permutation.
Defined.

(** C35: a host always has somewhere to go: its chain is not empty, every name
    on it is a server of the document, and its manifest URL is not empty. A
    host at a site gets that site's base server first; every other host gets
    the default server alone. *)
Theorem Chain_resolves `{VersionLib} (remote : bool) (e : Effective) (h : Host) :
  DocOk remote e.(Doc) -> (forall name, e.(e_parsed).(legacyManifestURLs) !! name <> Some "") ->
  (Chain e h).2 <> [] /\
  Forall (fun name => is_Some (e.(Doc).(Servers) !! name) /\ ManifestURL e name <> "") (Chain e h).2 /\
  (site_of e h = None -> (Chain e h).2 = [e.(Doc).(DefaultServer)]) /\
  (forall name s, site_of e h = Some (name, s) -> head (Chain e h).2 = Some s.(BaseServer)).
Proof.
  intros HD Hl. destruct (Chain_known e h remote HD) as [Hne Hk]. split_and!; try done.
  - eapply Forall_impl; [exact Hk|]. intros name Hn. split; [by destruct Hn|].
    by eapply known_manifest_url.
  - unfold Chain. by intros ->.
  - unfold Chain. by intros name s ->.
Qed.

Lemma Chain_resolves_witness :
  (Chain (effective Fixture.parsed Fixture.pc1).1 Fixture.pc1).2 = ["lan"; "main"] /\
  (Chain (effective Fixture.parsed Fixture.pc1).1 Fixture.pc1).2 <> [].
Proof.
  split; [vm_compute; reflexivity|].
  apply (Chain_resolves false (effective Fixture.parsed Fixture.pc1).1 Fixture.pc1).
  - exact (proj1 (effective_valid Fixture.parsed Fixture.pc1 Fixture.defaults
             (Parse_ok Fixture.data Fixture.defaults Fixture.parsed Fixture.parse_ok))).
  - intros name. vm_compute. discriminate.
Defined.

(** the kill switches fail open and stay open: the updater is paused
    exactly while the document disables it and its deadline has not passed,
    and at any instant from the deadline on it is enabled and EMLy reads an
    enabled block in normal mode. *)
Theorem kill_switch_expires (e : Effective) (now later : time) :
  let c := e.(Doc).(doc_Control) in
  ((UpdaterEnabled e now).1 = false <->
     c.(ctl_Updater).(cu_Enabled) = false /\ expired c.(ctl_Updater).(cu_Until) now = false) /\
  (now <= later -> expired c.(ctl_Updater).(cu_Until) now = true ->
     UpdaterEnabled e later = (true, "")) /\
  (now <= later -> expired c.(ctl_App).(ca_Until) now = true ->
     (AppControl e later).(ca_Enabled) = true /\ (AppControl e later).(Mode) = AppModeNormal).
Proof.
  cbv zeta. split_and!.
  - unfold UpdaterEnabled. destruct (cu_Enabled _), (expired _ _); cbn; naive_solver.
  - intros Hn He. unfold UpdaterEnabled. by rewrite (expired_mono _ _ _ Hn He), orb_true_r.
  - intros Hn He. unfold AppControl. rewrite (expired_mono _ _ _ Hn He), !andb_true_r. cbn.
    destruct (ca_Enabled _); (split; [done|]); destruct (Mode _ =s AppModeNormal) eqn:E; cbn;
      by rewrite ?(proj1 (str_eqb_eq _ _) E).
Qed.

Lemma kill_switch_expires_witness :
  (UpdaterEnabled (effective Fixture.parsed Fixture.pc1).1 Fixture.now).1 = false /\
  UpdaterEnabled (effective Fixture.parsed Fixture.pc1).1 (Fixture.now + 24 * hour) = (true, "").
Proof.
  split; [vm_compute; reflexivity|].
  apply (kill_switch_expires (effective Fixture.parsed Fixture.pc1).1
           (Fixture.now + 24 * hour) (Fixture.now + 24 * hour)); [lia|vm_compute; reflexivity].
Defined.
