(* ===== verification/Files.v ===== *)
(** The updater's data directory and the way the program writes a file in it.

    Three pieces of the program save a document with the same sequence - create
    a temporary file beside the target, write it, (sync it,) close it, rename it
    over the target: [Store.saveLocked] (internal/state/state.go), [SaveCache]
    (internal/policy/cache.go) and [writeAtomic] (internal/config/reset.go).
    [save_plan] is that sequence as the list of
    the file-system calls it makes when the first fault is at a given step;
    [save_crash_safe] shows that stopping after any number of them leaves the
    target either as it was or completely written, and [save] is the run to
    the end.

    A directory maps base names to contents; a content is the JSON value the
    text denotes, or [None] for text that is not JSON (truncated, corrupted). *)
From S2P Require Import Prelude Json.

Abbreviation content := (option json).
Abbreviation dir := (gmap string (option json)).

(** File-system calls. *)
Inductive prim :=
| PCreate (name : string)
| PWrite (name : string) (c : content)
| PClose (name : string)
| PRename (from to : string)
| PRemove (name : string).

Definition run_prim (d : dir) (p : prim) : dir :=
  match p with
  | PCreate n => <[n := None]> d
  | PWrite n c => <[n := c]> d
  | PClose _ => d
  | PRename a b => match d !! a with
                   | Some c => <[b := c]> (delete a d)
                   | None => d
                   end
  | PRemove n => delete n d
  end.

Definition run_prims (d : dir) (l : list prim) : dir := foldl run_prim d l.

(** The step at which a save fails, if any. *)
Inductive save_fault := FMkdir | FCreate | FWrite | FSync | FClose | FRename.

#[export] Instance save_fault_eq_dec : EqDecision save_fault.
Proof. solve_decision. Defined.

Definition fault_text (f : save_fault) : string :=
  match f with
  | FMkdir => "mkdir" | FCreate => "create" | FWrite => "write" | FSync => "sync"
  | FClose => "close" | FRename => "rename"
  end.

(** The calls of one save: [tmp] is the name [os.CreateTemp] picked, [None]
    content the partial text on disk while the write is in progress. *)
Definition save_plan (fault : option save_fault) (tmp path : string) (c : content) : list prim :=
  match fault with
  | Some FMkdir | Some FCreate => []
  | Some FWrite => [PCreate tmp; PWrite tmp None; PClose tmp; PRemove tmp]
  | Some FSync => [PCreate tmp; PWrite tmp None; PWrite tmp c; PClose tmp; PRemove tmp]
  | Some FClose => [PCreate tmp; PWrite tmp None; PWrite tmp c; PRemove tmp]
  | Some FRename => [PCreate tmp; PWrite tmp None; PWrite tmp c; PClose tmp; PRemove tmp]
  | None => [PCreate tmp; PWrite tmp None; PWrite tmp c; PClose tmp; PRename tmp path]
  end.

(** The error it returns. *)
Definition save_result (fault : option save_fault) : option string := fault_text <$> fault.

Definition save (fault : option save_fault) (tmp path : string) (c : content) (d : dir) : dir :=
  run_prims d (save_plan fault tmp path c).

(** [os.Rename] of a file that may be missing: the error is [None] when it
    succeeds. *)
Definition rename (fails : bool) (from to : string) (d : dir) : option string * dir :=
  if fails then (Some "rename", d)
  else match d !! from with
       | Some c => (None, <[to := c]> (delete from d))
       | None => (Some "not exist", d)
       end.

(** * Lemmas *)

(** Every call of a save but the last leaves everything except the temporary
    file alone. *)
Definition touches_only (tmp : string) (p : prim) : Prop :=
  match p with
  | PCreate n | PWrite n _ | PRemove n => n = tmp
  | PClose _ => True
  | PRename _ _ => False
  end.

Lemma run_prims_only tmp l d k : Forall (touches_only tmp) l -> k <> tmp ->
  run_prims d l !! k = d !! k.
Proof.
  intros H Hk. revert d. unfold run_prims. induction H as [|p l Hp H IH]; intros d; [done|].
  cbn [foldl]. rewrite IH. destruct p; cbn [run_prim touches_only] in *; subst; try done.
  - by rewrite lookup_insert_ne.
  - by rewrite lookup_insert_ne.
  - by rewrite lookup_delete_ne.
Qed.

(** A crash after any number of calls leaves the target as it was, or - only
    when nothing failed - completely written, and never touches another file. *)
Lemma save_crash_safe fault tmp path c d n k : tmp <> path -> k <> tmp ->
  run_prims d (take n (save_plan fault tmp path c)) !! k = d !! k \/
  k = path /\ fault = None /\
  run_prims d (take n (save_plan fault tmp path c)) !! k = Some c.
Proof.
  intros Hne Hk. destruct fault as [[]|];
    try solve [left; apply (run_prims_only tmp); [|done]; apply Forall_take; cbn; repeat constructor].
  do 5 (destruct n as [|n];
    [left; apply (run_prims_only tmp); [cbn; repeat constructor|done]|]).
  destruct (decide (k = path)) as [->|Hkp]; [right|left];
    cbn [save_plan take]; rewrite firstn_nil.
  - split_and!; try done. unfold run_prims. cbn [foldl run_prim].
    rewrite ?insert_insert_eq, lookup_insert_eq. by rewrite lookup_insert_eq.
  - unfold run_prims. cbn [foldl run_prim]. rewrite ?insert_insert_eq, lookup_insert_eq. rewrite lookup_insert_ne, lookup_delete_ne by done.
    by rewrite !lookup_insert_ne by done.
Qed.

(** A save that reports no error has replaced the target; one that reports an
    error has changed nothing. Either way the temporary file is gone. *)
Lemma save_spec fault tmp path c d : tmp <> path -> d !! tmp = None ->
  save fault tmp path c d = if fault then d else <[path := c]> d.
Proof.
  intros Hne Ht. unfold save, run_prims.
  destruct fault as [[]|]; cbn [save_plan foldl run_prim]; try done;
    rewrite ?lookup_insert_eq, ?insert_insert_eq; try (by rewrite delete_insert_id).
Qed.
