(* ===== verification/State.v ===== *)
(** internal/state/state.go: the three lifecycles kept in state.json - EMLy's
    queued update, the updater's own self-update record, the destructive
    commands accepted over the client channel - and the store that reads and
    writes them.

    Every method holds the store's mutex from its read to its write, so the
    program's goroutines act on the file one method at a time: an execution is
    a list of [op]s. A file system call fails when the environment says so
    ([faults]). [spec_step] is what the store promises its clients: three
    registers, each operation acting on one of them. *)
From S2P Require Import Prelude Rfc3339 Json Files.

(** [encoding/json] on [time.Time]. *)
Definition time_codec : Codec time := {|
  zero := zero_time;
  enc t := JStr (format_rfc3339_nano t);
  dec j := match j with
           | JNull => Some zero_time
           | JStr s => parse_rfc3339 s
           | _ => None
           end |}.

#[local] Instance time_ok : @CodecOk time time_codec.
Proof.
  refine {| fits t := 0 <= t < max_time |}; [|done].
  intros t Ht. cbn. by apply parse_format_nano.
Defined.

(** [Pending]. *)
Record Pending := mkPending {
  pd_Version : string;
  pd_SetupPath : string;
  pd_SHA256 : string;
  pd_Forced : bool;
  DownloadedAt : time
}.

(** [SelfUpdate]. *)
Record SelfUpdate := mkSelfUpdate {
  su_Version : string;
  FromVersion : string;
  su_SetupPath : string;
  su_SHA256 : string;
  Attempts : Z;
  GaveUp : bool;
  LaunchedAt : time
}.

(** [PendingCommand]. *)
Record PendingCommand := mkPendingCommand {
  pc_ID : string;
  pc_Name : string;
  AcceptedAt : time
}.

(** [State]. *)
Record State := mkState {
  st_Pending : option Pending;
  st_SelfUpdate : option SelfUpdate;
  PendingCommands : list PendingCommand
}.

Definition empty_state : State := mkState None None [].

(** * The document *)

#[local] Instance Pending_codec : Codec Pending := {|
  zero := mkPending "" "" "" false zero_time;
  enc p := obj [("version", enc p.(pd_Version)); ("setupPath", enc p.(pd_SetupPath));
    ("sha256", enc p.(pd_SHA256)); ("forced", enc p.(pd_Forced));
    ("downloadedAt", @enc _ time_codec p.(DownloadedAt))];
  dec := dec_struct (mkPending "" "" "" false zero_time) (fun m =>
    a ← field m "version"; b ← field m "setupPath"; c ← field m "sha256";
    d ← field m "forced"; e ← @field _ time_codec m "downloadedAt";
    Some (mkPending a b c d e)) |}.

(** [gaveUp] is omitted when false. *)
#[local] Instance SelfUpdate_codec : Codec SelfUpdate := {|
  zero := mkSelfUpdate "" "" "" "" 0 false zero_time;
  enc s := obj ([("version", enc s.(su_Version)); ("fromVersion", enc s.(FromVersion));
    ("setupPath", enc s.(su_SetupPath)); ("sha256", enc s.(su_SHA256));
    ("attempts", enc s.(Attempts));
    ("launchedAt", @enc _ time_codec s.(LaunchedAt))] ++
    if s.(GaveUp) then [("gaveUp", JBool true)] else []);
  dec := dec_struct (mkSelfUpdate "" "" "" "" 0 false zero_time) (fun m =>
    a ← field m "version"; b ← field m "fromVersion"; c ← field m "setupPath";
    d ← field m "sha256"; e ← @field _ int_codec m "attempts"; f ← field m "gaveUp";
    g ← @field _ time_codec m "launchedAt"; Some (mkSelfUpdate a b c d e f g)) |}.

#[local] Instance PendingCommand_codec : Codec PendingCommand := {|
  zero := mkPendingCommand "" "" zero_time;
  enc c := obj [("id", enc c.(pc_ID)); ("name", enc c.(pc_Name));
    ("acceptedAt", @enc _ time_codec c.(AcceptedAt))];
  dec := dec_struct (mkPendingCommand "" "" zero_time) (fun m =>
    a ← field m "id"; b ← field m "name"; c ← @field _ time_codec m "acceptedAt";
    Some (mkPendingCommand a b c)) |}.

#[local] Instance commands_codec : Codec (slice PendingCommand) := slice_codec PendingCommand.

(** Absent members are left out ([omitempty]); a nil and an empty list of
    commands are the same to every reader of the list. *)
Definition state_members (s : State) : jobject :=
  list_to_map (
    match s.(st_Pending) with Some p => [("pending", enc p)] | None => [] end ++
    match s.(st_SelfUpdate) with Some u => [("selfUpdate", enc u)] | None => [] end ++
    match s.(PendingCommands) with
    | [] => []
    | c :: l => [("pendingCommands", enc (Some (c :: l) : slice PendingCommand))]
    end).

Definition enc_state (s : State) : json := JObj (state_members s).

Definition dec_state (j : json) : option State :=
  dec_struct empty_state (fun m =>
    a ← field m "pending"; b ← field m "selfUpdate";
    c ← @field (slice PendingCommand) _ m "pendingCommands";
    Some (mkState a b (sl c))) j.

(** * The store *)

Definition statePath : string := "state.json".
Definition backupPath : string := "state.json.corrupt".

(** What the environment does to one method: a failed read, a failed rename of
    a corrupt file, a failed save, and the random part of the temporary name. *)
Record faults := mkFaults {
  f_read : bool;
  f_backup : bool;
  f_save : option save_fault;
  f_rand : string
}.

Definition tmp_name (f : faults) : string := "state-" +:+ f.(f_rand) +:+ ".tmp".

Inductive load_error := ErrCorrupt | ErrRead.

(** [Store.loadLocked]. *)
Definition loadLocked (f : faults) (d : dir) : result load_error State :=
  if f.(f_read) then Err ErrRead
  else match d !! statePath with
       | None => Ok empty_state
       | Some c => match j ← c; dec_state j with
                   | Some st => Ok st
                   | None => Err ErrCorrupt
                   end
       end.

(** [Store.Load]. *)
Definition Load := loadLocked.

(** [Store.saveLocked]: the error and the directory. *)
Definition saveLocked (f : faults) (st : State) (d : dir) : option string * dir :=
  (save_result f.(f_save), save f.(f_save) (tmp_name f) statePath (Some (enc_state st)) d).

(** [Store.Save]. *)
Definition Save := saveLocked.

(** [Store.update]: the error and the directory. *)
Definition update (f : faults) (mutate : State -> State) (d : dir) : option string * dir :=
  match loadLocked f d with
  | Ok st => saveLocked f (mutate st) d
  | Err ErrRead => (Some "read", d)
  | Err ErrCorrupt =>
      match rename f.(f_backup) statePath backupPath d with
      | (Some e, d') => (Some e, d')
      | (None, d') => saveLocked f (mutate empty_state) d'
      end
  end.

(** ** The methods *)

Definition with_pending (p : option Pending) (s : State) : State :=
  mkState p s.(st_SelfUpdate) s.(PendingCommands).
Definition with_selfupdate (u : option SelfUpdate) (s : State) : State :=
  mkState s.(st_Pending) u s.(PendingCommands).
Definition with_commands (l : list PendingCommand) (s : State) : State :=
  mkState s.(st_Pending) s.(st_SelfUpdate) l.

Definition SetPending f (p : Pending) := update f (with_pending (Some p)).
Definition ClearPending f := update f (with_pending None).
Definition SetSelfUpdate f (u : SelfUpdate) := update f (with_selfupdate (Some u)).
Definition ClearSelfUpdate f := update f (with_selfupdate None).
Definition AddPendingCommand f (c : PendingCommand) :=
  update f (fun s => with_commands (s.(PendingCommands) ++ [c]) s).
Definition RemovePendingCommand f (id : string) :=
  update f (fun s => with_commands
    (bfilter (fun c => negb (c.(pc_ID) =s id)) s.(PendingCommands)) s).

(** [TakePendingCommands] returns the commands it cleared even when the save
    failed. *)
Definition TakePendingCommands f (d : dir) : list PendingCommand * (option string * dir) :=
  (match loadLocked f d with Ok st => st.(PendingCommands) | Err _ => [] end,
   update f (with_commands []) d).

(** * The contract: three independent registers *)

Inductive op :=
| OSetPending (p : Pending)
| OClearPending
| OSetSelfUpdate (u : SelfUpdate)
| OClearSelfUpdate
| OAddCommand (c : PendingCommand)
| ORemoveCommand (id : string)
| OTakeCommands.

Definition spec_step (o : op) (s : State) : State :=
  match o with
  | OSetPending p => with_pending (Some p) s
  | OClearPending => with_pending None s
  | OSetSelfUpdate u => with_selfupdate (Some u) s
  | OClearSelfUpdate => with_selfupdate None s
  | OAddCommand c => with_commands (s.(PendingCommands) ++ [c]) s
  | ORemoveCommand id =>
      with_commands (bfilter (fun c => negb (c.(pc_ID) =s id)) s.(PendingCommands)) s
  | OTakeCommands => with_commands [] s
  end.

Definition run_op (f : faults) (o : op) (d : dir) : option string * dir :=
  match o with
  | OSetPending p => SetPending f p d
  | OClearPending => ClearPending f d
  | OSetSelfUpdate u => SetSelfUpdate f u d
  | OClearSelfUpdate => ClearSelfUpdate f d
  | OAddCommand c => AddPendingCommand f c d
  | ORemoveCommand id => RemovePendingCommand f id d
  | OTakeCommands => (TakePendingCommands f d).2
  end.

(** Methods of any goroutines, in the order they take the mutex. *)
Fixpoint run_ops (l : list (faults * op)) (d : dir) : dir :=
  match l with
  | [] => d
  | (f, o) :: rest => run_ops rest (run_op f o d).2
  end.

(** The operations among them that reported success. *)
Fixpoint done_ops (l : list (faults * op)) (d : dir) : list op :=
  match l with
  | [] => []
  | (f, o) :: rest =>
      let '(e, d') := run_op f o d in
      match e with None => o :: done_ops rest d' | Some _ => done_ops rest d' end
  end.

(** What a state can hold and still be written: times with a four-digit year,
    a 64-bit attempt count. *)
Definition pending_fits (p : Pending) : Prop := 0 <= p.(DownloadedAt) < max_time.
Definition selfupdate_fits (u : SelfUpdate) : Prop :=
  0 <= u.(LaunchedAt) < max_time /\ in_int64 u.(Attempts).
Definition command_fits (c : PendingCommand) : Prop := 0 <= c.(AcceptedAt) < max_time.

Definition state_fits (s : State) : Prop :=
  (forall p, s.(st_Pending) = Some p -> pending_fits p) /\
  (forall u, s.(st_SelfUpdate) = Some u -> selfupdate_fits u) /\
  Forall command_fits s.(PendingCommands).

Definition op_fits (o : op) : Prop :=
  match o with
  | OSetPending p => pending_fits p
  | OSetSelfUpdate u => selfupdate_fits u
  | OAddCommand c => command_fits c
  | _ => True
  end.

(** The directory between two methods: the state file, when it is there,
    holds a state that reads back; no temporary file is left. *)
Definition holds (d : dir) (s : State) : Prop :=
  state_fits s /\
  (d !! statePath = None /\ s = empty_state \/ d !! statePath = Some (Some (enc_state s))).

Definition no_tmp (d : dir) : Prop := forall r, d !! ("state-" +:+ r +:+ ".tmp") = None.

(** * Round trip of the document *)

#[local] Instance Pending_ok : CodecOk Pending.
Proof.
  refine {| fits := pending_fits |}; [|done].
  intros p Hp. cbn [dec enc Pending_codec dec_struct obj].
  repeat (erewrite field_enc; [|reflexivity|first [exact I|exact Hp]]; cbn [mbind option_bind]).
  by destruct p.
Defined.

#[local] Instance Pending_nn : EncNotNull Pending.
Proof. done. Qed.

#[local] Instance SelfUpdate_ok : CodecOk SelfUpdate.
Proof.
  refine {| fits := selfupdate_fits |}; [|done].
  intros u [H1 H2]. cbn [dec enc SelfUpdate_codec dec_struct obj].
  destruct u as [v fv sp sha n g at']. cbn in H1, H2.
  destruct g; cbn [GaveUp su_Version FromVersion su_SetupPath su_SHA256 Attempts LaunchedAt app];
    try rewrite (field_absent (list_to_map _) "gaveUp") by done;
    repeat (erewrite field_enc; [|reflexivity|first [exact I|exact H1|exact H2]];
            cbn [mbind option_bind]); done.
Defined.

#[local] Instance SelfUpdate_nn : EncNotNull SelfUpdate.
Proof. done. Qed.

#[local] Instance PendingCommand_ok : CodecOk PendingCommand.
Proof.
  refine {| fits := command_fits |}; [|done].
  intros c Hc. cbn [dec enc PendingCommand_codec dec_struct obj].
  repeat (erewrite field_enc; [|reflexivity|first [exact I|exact Hc]]; cbn [mbind option_bind]).
  by destruct c.
Defined.

Lemma dec_enc_state s : state_fits s -> dec_state (enc_state s) = Some s.
Proof.
  intros (Hp & Hu & Hc). unfold dec_state, enc_state, dec_struct.
  assert (E1 : @field (option Pending) _ (state_members s) "pending" = Some s.(st_Pending)).
  { unfold state_members. destruct s as [[p|] [u|] [|c l]]; try done;
      (apply (field_enc _ "pending" (Some p)); [done|by apply Hp]). }
  assert (E2 : @field (option SelfUpdate) _ (state_members s) "selfUpdate" = Some s.(st_SelfUpdate)).
  { unfold state_members. destruct s as [[p|] [u|] [|c l]]; try done;
      (apply (field_enc _ "selfUpdate" (Some u)); [done|by apply Hu]). }
  assert (E3 : sl <$> @field (slice PendingCommand) _ (state_members s) "pendingCommands"
               = Some s.(PendingCommands)).
  { unfold state_members. destruct s as [[p|] [u|] [|c l]]; try done;
      (rewrite (field_enc _ "pendingCommands" (Some (c :: l) : slice PendingCommand));
       [done|done|exact Hc]). }
  rewrite E1. cbn [mbind option_bind]. rewrite E2. cbn [mbind option_bind].
  destruct (@field (slice PendingCommand) _ _ _) as [c|]; [|done].
  destruct s. cbn in *. by injection E3 as ->.
Qed.

(** * The store refines the registers *)

Definition lifecycle (o : op) : nat :=
  match o with
  | OSetPending _ | OClearPending => 0
  | OSetSelfUpdate _ | OClearSelfUpdate => 1
  | OAddCommand _ | ORemoveCommand _ | OTakeCommands => 2
  end.

Definition run_spec (l : list op) (s : State) : State := foldl (fun s o => spec_step o s) s l.

Lemma run_op_update f o d : run_op f o d = update f (spec_step o) d.
Proof. by destruct o. Qed.

Lemma spec_step_fits o s : op_fits o -> state_fits s -> state_fits (spec_step o s).
Proof.
  intros Ho (Hp & Hu & Hc).
  destruct o; cbn in *; unfold state_fits; cbn; split_and!; try done; try naive_solver.
  - apply Forall_app. by split; [|constructor].
  - apply Forall_forall. intros c Hin. rewrite Forall_forall in Hc. apply Hc.
    unfold bfilter in Hin. by apply list_elem_of_In, filter_In in Hin as [Hin%list_elem_of_In _].
Qed.

Lemma tmp_ne f : tmp_name f <> statePath.
Proof. done. Qed.

Lemma tmp_ne_backup f : tmp_name f <> backupPath.
Proof. done. Qed.

Lemma holds_load f d s : holds d s -> f.(f_read) = false -> loadLocked f d = Ok s.
Proof.
  intros [Hf H] Hr. unfold loadLocked. rewrite Hr.
  destruct H as [[-> ->]| ->]; [done|]. cbn [mbind option_bind]. by rewrite dec_enc_state.
Qed.

Lemma no_tmp_save f d s : no_tmp d -> no_tmp (saveLocked f s d).2.
Proof.
  intros Hn r. unfold saveLocked. cbn [snd]. rewrite save_spec by (done || apply Hn).
  destruct (f_save f); [apply Hn|]. rewrite lookup_insert_ne by done. apply Hn.
Qed.

Lemma save_holds f d s t : holds d s -> no_tmp d -> state_fits t ->
  (saveLocked f t d).1 = None /\ holds (saveLocked f t d).2 t \/
  (saveLocked f t d).1 <> None /\ (saveLocked f t d).2 = d.
Proof.
  intros Hh Hn Ht. unfold saveLocked. cbn [fst snd].
  rewrite save_spec by (done || apply Hn).
  destruct (f_save f); cbn; [by right|left]. split; [done|]. split; [done|]. right.
  by rewrite lookup_insert_eq.
Qed.

(** One method: it succeeds and the file holds the register's new value, or it
    reports an error and the directory is untouched. *)
Lemma run_op_refines f o d s : holds d s -> no_tmp d -> op_fits o ->
  no_tmp (run_op f o d).2 /\
  ((run_op f o d).1 = None /\ holds (run_op f o d).2 (spec_step o s) \/
   (run_op f o d).1 <> None /\ (run_op f o d).2 = d).
Proof.
  intros Hh Hn Ho. rewrite run_op_update. unfold update.
  destruct (f_read f) eqn:Er.
  - unfold loadLocked. rewrite Er. split; [done|]. by right.
  - rewrite (holds_load f d s Hh Er). split; [by apply no_tmp_save|].
    eapply save_holds; [done..|]. apply spec_step_fits; [done|]. by destruct Hh.
Qed.

(** C6: the state file behaves as three independent registers: whatever the
    interleaving of store calls from the poll loop, the command handlers and
    the welcome burst, and whichever of them fail, the file afterwards holds
    exactly the calls that reported success, in order; no call loses what
    another wrote. The value of each lifecycle depends only on the successful
    calls of that lifecycle. *)
Theorem store_refines_registers (l : list (faults * op)) (d : dir) (s : State) :
  holds d s -> no_tmp d -> Forall (fun fo => op_fits fo.2) l ->
  holds (run_ops l d) (run_spec (done_ops l d) s) /\
  (forall ops, let own n := bfilter (fun o => (lifecycle o =? n)%nat) ops in
     (run_spec ops s).(st_Pending) = (run_spec (own 0%nat) s).(st_Pending) /\
     (run_spec ops s).(st_SelfUpdate) = (run_spec (own 1%nat) s).(st_SelfUpdate) /\
     (run_spec ops s).(PendingCommands) = (run_spec (own 2%nat) s).(PendingCommands)).
Proof.
  intros Hh Hn Hf. split.
  - revert d s Hh Hn. induction Hf as [|[f o] l Ho Hf IH]; intros d s Hh Hn; [done|].
    cbn [run_ops done_ops]. destruct (run_op_refines f o d s Hh Hn Ho) as [Hn' Hr].
    destruct (run_op f o d) as [e d']. cbn [fst snd] in *.
    destruct Hr as [[-> Hh']|[He ->]]; [by apply IH|].
    destruct e; [|done]. by apply IH.
  - cbv zeta. unfold run_spec, bfilter. intros ops.
    assert (H : forall s s0 s1 s2,
      s.(st_Pending) = s0.(st_Pending) -> s.(st_SelfUpdate) = s1.(st_SelfUpdate) ->
      s.(PendingCommands) = s2.(PendingCommands) ->
      (foldl (fun s o => spec_step o s) s ops).(st_Pending) =
        (foldl (fun s o => spec_step o s) s0 (List.filter (fun o => (lifecycle o =? 0)%nat) ops)).(st_Pending) /\
      (foldl (fun s o => spec_step o s) s ops).(st_SelfUpdate) =
        (foldl (fun s o => spec_step o s) s1 (List.filter (fun o => (lifecycle o =? 1)%nat) ops)).(st_SelfUpdate) /\
      (foldl (fun s o => spec_step o s) s ops).(PendingCommands) =
        (foldl (fun s o => spec_step o s) s2 (List.filter (fun o => (lifecycle o =? 2)%nat) ops)).(PendingCommands)).
    { induction ops as [|o ops IH]; intros; [done|].
      destruct o; cbn [List.filter lifecycle Nat.eqb foldl]; apply IH; cbn; congruence. }
    by apply H.
Qed.

(** C9: a crash in the middle of a store call loses nothing: after any number
    of the save's file-system calls the state file is either the one before
    the call or the complete new one, and both read back. *)
Theorem store_crash_safe (f : faults) (o : op) (d : dir) (s : State) (n : nat) :
  holds d s -> no_tmp d -> op_fits o -> f.(f_read) = false ->
  let d' := run_prims d (take n (save_plan f.(f_save) (tmp_name f) statePath
                                   (Some (enc_state (spec_step o s))))) in
  holds d' s \/ holds d' (spec_step o s).
Proof.
  intros Hh Hn Ho Hr. cbv zeta.
  destruct (save_crash_safe f.(f_save) (tmp_name f) statePath
              (Some (enc_state (spec_step o s))) d n statePath) as [E|(_ & _ & E)]; [done..| |].
  - left. destruct Hh as [Hs H]. split; [done|]. by rewrite E.
  - right. split; [|by right]. apply spec_step_fits; [done|]. by destruct Hh.
Qed.

(** C39: a state file that no longer parses does not block the store: the next
    write moves the file aside with its bytes intact and goes on from an
    empty state, and only a read error that may be transient is reported
    without touching the directory. *)
Theorem store_recovers (f : faults) (o : op) (d : dir) :
  no_tmp d -> op_fits o -> loadLocked f d = Err ErrCorrupt ->
  f.(f_backup) = false -> f.(f_save) = None ->
  (run_op f o d).1 = None /\ holds (run_op f o d).2 (spec_step o empty_state) /\
  (run_op f o d).2 !! backupPath = d !! statePath /\
  (forall g, g.(f_read) = true -> run_op g o d = (Some "read", d)).
Proof.
  intros Hn Ho Hl Hb Hs. rewrite run_op_update. unfold update. rewrite Hl, Hb.
  unfold loadLocked in Hl. destruct (f_read f); [done|]. unfold rename.
  destruct (d !! statePath) as [c|] eqn:Ec; [|done].
  unfold saveLocked. cbn [fst snd]. rewrite save_spec, Hs.
  - split_and!.
    + done.
    + split; [apply spec_step_fits; [done|]; split_and!; done|]. right. by rewrite lookup_insert_eq.
    + rewrite lookup_insert_ne by done. by rewrite lookup_insert_eq.
    + intros g Hg. rewrite run_op_update. unfold update, loadLocked. by rewrite Hg.
  - done.
  - rewrite lookup_insert_ne, lookup_delete_ne by done. apply Hn.
Qed.

(** * Witnesses *)

Definition ok_faults : faults := mkFaults false false None "1".
Definition ex_pending : Pending := mkPending "1.8.0" "C:\s.exe" "ab" false (hour * 24).
Definition ex_update : SelfUpdate := mkSelfUpdate "1.8.0" "1.7.2" "C:\u.exe" "cd" 1 false hour.

Lemma no_tmp_empty : no_tmp ∅.
Proof. intros r. apply lookup_empty. Qed.

Lemma holds_empty : holds ∅ empty_state.
Proof. split; [split_and!; done|]. left. split; [apply lookup_empty|done]. Qed.

Lemma store_refines_registers_witness :
  holds (run_ops [(ok_faults, OSetPending ex_pending);
                  (mkFaults false false (Some FRename) "2", OClearPending);
                  (ok_faults, OSetSelfUpdate ex_update)] ∅)
    (mkState (Some ex_pending) (Some ex_update) []).
Proof.
  refine (proj1 (store_refines_registers [(ok_faults, OSetPending ex_pending);
    (mkFaults false false (Some FRename) "2", OClearPending);
    (ok_faults, OSetSelfUpdate ex_update)] ∅ empty_state holds_empty no_tmp_empty _)).
  repeat apply Forall_cons_2; [..|apply Forall_nil_2]; vm_compute; repeat split; discriminate.
Defined.

Lemma store_crash_safe_witness :
  holds (run_prims ∅ (take 2 (save_plan None (tmp_name ok_faults) statePath
     (Some (enc_state (spec_step (OSetPending ex_pending) empty_state)))))) empty_state \/
  holds (run_prims ∅ (take 2 (save_plan None (tmp_name ok_faults) statePath
     (Some (enc_state (spec_step (OSetPending ex_pending) empty_state))))))
    (spec_step (OSetPending ex_pending) empty_state).
Proof.
  apply (store_crash_safe ok_faults (OSetPending ex_pending) ∅ empty_state 2);
    [apply holds_empty|apply no_tmp_empty| |reflexivity].
  vm_compute. by repeat split.
Defined.

Lemma store_recovers_witness :
  (run_op ok_faults OClearPending {[statePath := None]}).2 !! backupPath = Some None.
Proof.
  refine (proj1 (proj2 (proj2 (store_recovers ok_faults OClearPending {[statePath := None]}
    _ I eq_refl eq_refl eq_refl)))).
  intros r. by rewrite lookup_singleton_ne.
Defined.
