(* ===== verification/SelfUpdate.v ===== *)
(** internal/selfupdate: when the updater updates itself. [Reconcile] reads the
    outcome of an earlier launch off the version now running, [Decide] applies
    the rules to a fetched manifest. The log text of a decision is kept as a
    [reason]; what starting the setup answers is given to [Launch], and to the
    cycle model. What the rules amount to over the cycles of a machine is
    Attempts.v's. *)
From S2P Require Import Prelude Json Versions Manifest State.

Definition MaxAttempts : Z := 3.
Definition Cooldown : duration := 10 * minute.

Inductive Outcome := OutcomeNone | OutcomeLanded | OutcomeMissed.

Inductive reason :=
| NotPublished | AlreadyRunning | NewRelease | Abandoned | GivingUp | CoolingDown | Retrying.

(** [Decision]. *)
Record Decision := mkDecision {
  Install : bool;
  Attempt : Z;
  GiveUp : bool;
  Reason : reason
}.

(** [Launch]: the command line the setup is started with, detached; the
    process is not waited for. [start] and [release] are how
    [exec.Cmd.Start] and [Process.Release] end. *)
Definition Launch_argv (setupPath logPath : string) : list string :=
  [setupPath; "/VERYSILENT"; "/SUPPRESSMSGBOXES"; "/NORESTART"; "/LOG=" +:+ logPath].
Definition Launch (start : list string -> option string) (release : option string)
    (setupPath logPath : string) : option string :=
  match start (Launch_argv setupPath logPath) with
  | Some e => Some ("failed to start " +:+ setupPath +:+ ": " +:+ e)
  | None => release
  end.

Section Rules.
Context `{VersionLib}.

(** [Reconcile]; the outcome beside an error is [OutcomeNone]. *)
Definition Reconcile (running : string) (rec : option SelfUpdate) : result string Outcome :=
  match rec with
  | None => Ok OutcomeNone
  | Some r =>
      if r.(su_Version) =s "" then Ok OutcomeNone
      else behind ← Less running r.(su_Version);
           Ok (if behind : bool then OutcomeMissed else OutcomeLanded)
  end.

(** [Decide]. *)
Definition Decide (running : string) (m : option UpdaterManifest) (rec : option SelfUpdate)
    (now : time) : result string Decision :=
  match m with
  | Some um =>
      if negb (Offered m) then Ok (mkDecision false 0 false NotPublished)
      else
        newer ← Less running um.(um_Version);
        if negb newer then Ok (mkDecision false 0 false AlreadyRunning)
        else match rec with
        | None => Ok (mkDecision true 1 false NewRelease)
        | Some r =>
            if negb (r.(su_Version) =s um.(um_Version))
            then Ok (mkDecision true 1 false NewRelease)
            else if r.(GaveUp) then Ok (mkDecision false 0 false Abandoned)
            else if MaxAttempts <=? r.(Attempts) then Ok (mkDecision false 0 true GivingUp)
            else if t_sub now r.(LaunchedAt) <? Cooldown
            then Ok (mkDecision false 0 false CoolingDown)
            else Ok (mkDecision true (r.(Attempts) + 1) false Retrying)
        end
  | None => Ok (mkDecision false 0 false NotPublished)
  end.

(** ** Inversion of a decision to install *)

Lemma Decide_install running m rec now d :
  Decide running m rec now = Ok d -> d.(Install) = true ->
  exists um, m = Some um /\ um.(um_Version) <> "" /\ Less running um.(um_Version) = Ok true /\
    d.(GiveUp) = false /\
    ((forall r, rec = Some r -> r.(su_Version) <> um.(um_Version)) /\ d.(Attempt) = 1 \/
     exists r, rec = Some r /\ r.(su_Version) = um.(um_Version) /\ r.(GaveUp) = false /\
       r.(Attempts) < MaxAttempts /\ Cooldown <= t_sub now r.(LaunchedAt) /\
       d.(Attempt) = r.(Attempts) + 1).
Proof.
  unfold Decide, Offered. destruct m as [um|]; [|by intros [= <-]].
  destruct (um_Version um =s "") eqn:E; [by intros [= <-]|]. apply str_eqb_neq in E.
  cbn [negb]. destruct (Less running (um_Version um)) as [newer|] eqn:EL; [|done].
  cbn [mbind result_bind]. destruct newer; [|by intros [= <-]]. cbn [negb].
  destruct rec as [r|].
  - destruct (su_Version r =s um_Version um) eqn:Ev; cbn [negb].
    + apply str_eqb_eq in Ev. destruct (GaveUp r) eqn:Eg; [by intros [= <-]|].
      destruct (MaxAttempts <=? Attempts r) eqn:Em; [by intros [= <-]|].
      destruct (_ <? Cooldown) eqn:Ec; [by intros [= <-]|]. bool_to_prop.
      intros [= <-] _. exists um. split_and!; try done. right. by exists r.
    + apply str_eqb_neq in Ev. intros [= <-] _. exists um. split_and!; try done.
      left. split; [|done]. by intros ? [= ->].
  - intros [= <-] _. exists um. split_and!; try done. left. by split.
Qed.

Lemma Decide_giveup running m rec now d :
  Decide running m rec now = Ok d -> d.(GiveUp) = true ->
  exists um r, m = Some um /\ rec = Some r /\ r.(su_Version) = um.(um_Version) /\
    r.(GaveUp) = false /\ MaxAttempts <= r.(Attempts) /\ d.(Install) = false.
Proof.
  unfold Decide, Offered. destruct m as [um|]; [|by intros [= <-]].
  destruct (um_Version um =s ""); [by intros [= <-]|]. cbn [negb].
  destruct (Less running (um_Version um)) as [[]|]; cbn [mbind result_bind negb];
    [|by intros [= <-]|done].
  destruct rec as [r|]; [|by intros [= <-]].
  destruct (su_Version r =s um_Version um) eqn:Ev; cbn [negb]; [|by intros [= <-]].
  destruct (GaveUp r) eqn:Eg; [by intros [= <-]|].
  destruct (MaxAttempts <=? Attempts r) eqn:Em.
  - intros [= <-] _. bool_to_prop. apply str_eqb_eq in Ev. by exists um, r.
  - destruct (_ <? Cooldown); by intros [= <-].
Qed.

(** the self-update rules, branch by branch: a setup is only ever started
    for an offered version newer than the running one, never for a downgrade;
    a version never tried starts at attempt one; a tried one is retried only
    when it was not given up, has launches left and its cooldown is over, and
    the attempt number grows by one; giving up happens once, on a target with
    no launches left. *)
Theorem Decide_rules (running : string) (m : option UpdaterManifest) (rec : option SelfUpdate)
    (now : time) (d : Decision) :
  Decide running m rec now = Ok d ->
  (d.(Install) = true -> exists um, m = Some um /\ um.(um_Version) <> "" /\
     Less running um.(um_Version) = Ok true /\
     (d.(Attempt) = 1 /\ (forall r, rec = Some r -> r.(su_Version) <> um.(um_Version)) \/
      exists r, rec = Some r /\ r.(su_Version) = um.(um_Version) /\ r.(GaveUp) = false /\
        r.(Attempts) < MaxAttempts /\ Cooldown <= t_sub now r.(LaunchedAt) /\
        d.(Attempt) = r.(Attempts) + 1)) /\
  (d.(GiveUp) = true -> d.(Install) = false /\
     exists r, rec = Some r /\ r.(GaveUp) = false /\ MaxAttempts <= r.(Attempts)).
Proof.
  intros HD. split.
  - intros HI. destruct (Decide_install _ _ _ _ _ HD HI) as (um & -> & ? & ? & _ & Hc).
    exists um. split_and!; try done. destruct Hc as [[? ?]|?]; [by left|by right].
  - intros HG. destruct (Decide_giveup _ _ _ _ _ HD HG) as (um & r & _ & ? & _ & ? & ? & ?).
    split; [done|]. by exists r.
Qed.
End Rules.

(** * Witnesses *)

#[local] Existing Instance Dotted.lib.

Definition ex_manifest : UpdaterManifest :=
  mkUpdaterManifest "1.8.0" "https://api.example.com/u.exe" "cd" 0 "" ∅.

Lemma Decide_rules_witness :
  Decide "1.7.2" (Some ex_manifest) (Some ex_update) (hour * 2) = Ok (mkDecision true 2 false Retrying)
  /\ Less "1.7.2" "1.8.0" = Ok true.
Proof.
  split; [vm_compute; reflexivity|].
  assert (E : Decide "1.7.2" (Some ex_manifest) (Some ex_update) (hour * 2)
              = Ok (mkDecision true 2 false Retrying)) by (vm_compute; reflexivity).
  destruct (Decide_rules _ _ _ _ _ E) as [HI _].
  destruct (HI eq_refl) as (um & [= <-] & _ & HL & _). exact HL.
Defined.
