(* ===== verification/Source.v ===== *)
(** internal/source: the HTTP update source and the resolver over a chain of
    them.

    The network is an oracle of type [Network]: what the [n]-th request of the
    run gets back. [resolveWith] is generic in the state it runs in and in the
    fetch it is given, as in the source; its retry loop recurses on the
    attempts left. [Resolver] properties are proved on the recording state
    [calls], the requests in the order they were made. *)
From S2P Require Import Prelude Rfc3339 Json Versions Manifest.

(** * Requests and replies *)

Record Request := mkRequest { rq_url : string; rq_headers : list (string * string) }.

(** A response body: its bytes, and what the JSON decoder makes of them. *)
Record payload := mkPayload { pl_bytes : string; pl_doc : raw_bytes }.

Inductive reply :=
| NoReply (err : string)
| Reply (status : Z) (etag : string) (body : option payload).

(** Why a fetch failed: a 404 anywhere on the chain is told apart. *)
Inductive fetch_error := ErrNotFound (what : string) | ErrTooLarge | ErrFetch (what : string) | ErrCanceled.

Definition is_not_found (e : fetch_error) : bool :=
  match e with ErrNotFound _ => true | _ => false end.

Class Network (S : Type) := do_request : Request -> M S reply.

(** * The HTTP source *)

(** [HTTPSource]. *)
Record HTTPSource := mkHTTPSource {
  src_ManifestURL : string;
  UserAgent : string;
  APIKey : string;
  src_Hostname : string;
  src_HWID : string;
  ADDomain : string;
  InternalIP : string;
  OSVersion : string;
  Serial : string;
  Product : string;
  EMLyVersion : string;
  LoggedUser : string;
  LoggedUserState : string;
  LoggedUserDisconnectedAt : time
}.

(** [NewHTTPSource]. *)
Definition NewHTTPSource (url : string) : HTTPSource :=
  mkHTTPSource url "" "" "" "" "" "" "" "" "" "" "" "" zero_time.

(** [HTTPSource.Name]. *)
Definition source_Name (s : HTTPSource) : string := "http(" +:+ s.(src_ManifestURL) +:+ ")".

Definition header (name value : string) : list (string * string) :=
  if value =s "" then [] else [(name, value)].

(** [HTTPSource.applyHeaders]: the headers it sets on a request. *)
Definition applyHeaders (s : HTTPSource) : list (string * string) :=
  header "User-Agent" s.(UserAgent) ++
  header "X-Api-Key" s.(APIKey) ++
  header "X-EMLy-Hostname" s.(src_Hostname) ++
  header "X-EMLy-HWID" s.(src_HWID) ++
  header "X-EMLy-ADDomain" s.(ADDomain) ++
  header "X-EMLy-IntIP" s.(InternalIP) ++
  header "X-EMLy-OSVersion" s.(OSVersion) ++
  header "X-EMLy-Serial" s.(Serial) ++
  header "X-EMLy-Product" s.(Product) ++
  header "X-EMLy-AppVersion" s.(EMLyVersion) ++
  header "X-EMLy-LoggedUser" s.(LoggedUser) ++
  header "X-EMLy-LoggedUserState" s.(LoggedUserState) ++
  (if is_zero_time s.(LoggedUserDisconnectedAt) then []
   else [("X-EMLy-LoggedUserDisconnectedAt", format_rfc3339 s.(LoggedUserDisconnectedAt))]).

Definition manifestLimit : Z := 4 * 2 ^ 20.

(** [io.LimitReader]: a longer body is cut, and cut JSON does not parse. *)
Definition limit_body (n : Z) (p : payload) : payload :=
  if (pl_doc p).(rb_blob).(blob_len) <=? n then p
  else mkPayload (take_str (Z.to_nat n) p.(pl_bytes))
         (RawBytes p.(pl_doc).(rb_bom) (Blob n None)).

(** [ConfigResponse]. *)
Record ConfigResponse := mkConfigResponse {
  Status : Z;
  Body : option blob;
  cr_ETag : string
}.

Section HTTP.
Context {S : Type} `{!Network S}.

(** [HTTPSource.getJSON]. *)
Definition getJSON (s : HTTPSource) (url : string) : M S (result fetch_error raw_bytes) :=
  r ← do_request (mkRequest url (applyHeaders s));
  mret match r with
       | NoReply e => Err (ErrFetch ("manifest request failed: " +:+ e))
       | Reply status _ body =>
           if status =? 404 then Err (ErrNotFound url)
           else if negb (status =? 200) then Err (ErrFetch "manifest endpoint returned HTTP")
           else match body with
                | None => Err (ErrFetch "failed to read manifest body")
                | Some p => Ok (limit_body manifestLimit p).(pl_doc)
                end
       end.

Definition lift_error {A} (r : result string A) : result fetch_error A :=
  match r with Ok a => Ok a | Err e => Err (ErrFetch e) end.

(** [HTTPSource.FetchManifest]. *)
Definition FetchManifest (s : HTTPSource) : M S (result fetch_error Manifest) :=
  r ← getJSON s s.(src_ManifestURL);
  mret (data ← r; lift_error (Manifest.Parse data)).

(** [HTTPSource.FetchUpdaterManifest]. *)
Definition FetchUpdaterManifest (s : HTTPSource) (url : string) :
    M S (result fetch_error UpdaterManifest) :=
  r ← getJSON s url;
  mret (data ← r; lift_error (ParseUpdater data)).

(** [HTTPSource.FetchConfig]. A body is read up to one byte past the limit. *)
Definition FetchConfig (s : HTTPSource) (url etag : string) (maxBody : Z) :
    M S (result fetch_error ConfigResponse) :=
  r ← do_request (mkRequest url (applyHeaders s ++ [("Accept", "application/json")] ++
                                 header "If-None-Match" etag));
  mret match r with
       | NoReply e => Err (ErrFetch ("config request failed: " +:+ e))
       | Reply status et body =>
           if (status =? 304) || (status =? 204) then Ok (mkConfigResponse status None et)
           else if status =? 200 then
             match body with
             | None => Err (ErrFetch "failed to read config body")
             | Some p =>
                 let d := p.(pl_doc) in
                 if maxBody <? d.(rb_blob).(blob_len) then Err ErrTooLarge
                 else Ok (mkConfigResponse status
                       (Some (if d.(rb_bom) then Blob d.(rb_blob).(blob_len) None
                              else d.(rb_blob))) et)
             end
           else if status =? 404 then Err (ErrNotFound url)
           else Err (ErrFetch "config endpoint returned HTTP")
       end.
End HTTP.

(** [HTTPSource.ResolveTarget]. *)
Definition ResolveTarget `{VersionLib} (m : Manifest) (channel : string) : result string Target :=
  vd ← ChannelVersion m channel;
  let '(version, downloadURL) := vd in
  match m.(SHA256Checksums) !! version with
  | None | Some "" => Err ("manifest carries no SHA256 checksum for version " +:+ version)
  | Some sha => Ok (mkTarget version downloadURL sha)
  end.

(** * The resolver *)

(** [Resolver]; the log sink and the name of the document it logs are left
    out, [PrimaryErr] is a result of [resolveWith]. *)
Record Resolver := mkResolver {
  Primary : HTTPSource;
  Fallbacks : list HTTPSource;
  r_Attempts : Z;
  r_BaseBackoff : duration
}.

Section Resolve.
Context {S T : Type}.
(** The wait between attempts ([true]: the context ended first), the context's
    state, and the fetch. *)
Variable wait : duration -> M S bool.
Variable ctx_done : M S bool.
Variable fetch : HTTPSource -> M S (result fetch_error T).

(** The retry loop on the primary: what it resolved to, and [PrimaryErr]. *)
Fixpoint primary_loop (r : Resolver) (left : nat) (backoff : duration) (first : bool)
    (lastErr : option fetch_error) :
    M S (result (option fetch_error) (HTTPSource * T) * option fetch_error) :=
  match left with
  | O => mret (Err None, lastErr)
  | Datatypes.S left' =>
      stop ← (if first then mret (M:=M S) false else wait backoff);
      if (stop : bool) then mret (Err (Some ErrCanceled), lastErr)
      else
        let backoff := if first then backoff else wrap64 (backoff * 2) in
        doc ← fetch r.(Primary);
        match doc with
        | Ok doc => mret (Ok (r.(Primary), doc), lastErr)
        | Err err =>
            done ← ctx_done;
            if (done : bool) then mret (Err (Some ErrCanceled), Some err)
            else if is_not_found err then mret (Err None, Some err)
            else primary_loop r left' backoff false (Some err)
        end
  end.

(** The loop over the fallbacks. *)
Fixpoint fallback_loop (fbs : list HTTPSource) (lastErr : option fetch_error) :
    M S (result (option fetch_error) (HTTPSource * T)) :=
  match fbs with
  | [] => mret (Err lastErr)
  | fb :: rest =>
      done ← ctx_done;
      if (done : bool) then mret (Err (Some ErrCanceled))
      else
        doc ← fetch fb;
        match doc with
        | Ok doc => mret (Ok (fb, doc))
        | Err err => fallback_loop rest (if is_not_found err then Some err else lastErr)
        end
  end.

(** [resolveWith]: the source that answered with its document, and
    [Resolver.PrimaryErr]. *)
Definition resolveWith (r : Resolver) :
    M S (result (option fetch_error) (HTTPSource * T) * option fetch_error) :=
  let attempts := if r.(r_Attempts) <? 1 then 3 else r.(r_Attempts) in
  let backoff := if r.(r_BaseBackoff) <=? 0 then 5 * second else r.(r_BaseBackoff) in
  p ← primary_loop r (Z.to_nat attempts) backoff true None;
  let '(res, primaryErr) := p in
  match res with
  | Ok x => mret (Ok x, primaryErr)
  | Err (Some e) => mret (Err (Some e), primaryErr)
  | Err None =>
      f ← fallback_loop r.(Fallbacks) primaryErr;
      mret (f, primaryErr)
  end.
End Resolve.

(** [Resolver.Resolve]. *)
Definition Resolve {S} `{!Network S} (wait : duration -> M S bool) (ctx_done : M S bool)
    (r : Resolver) := resolveWith wait ctx_done FetchManifest r.

(** [ResolveUpdater]: the manifest comes with the URL that served it. *)
Definition ResolveUpdater {S} `{!Network S} (wait : duration -> M S bool) (ctx_done : M S bool)
    (urlFor : HTTPSource -> result string string) (r : Resolver) :=
  resolveWith wait ctx_done (fun s =>
    match urlFor s with
    | Err e => mret (Err (ErrFetch e))
    | Ok url =>
        m ← FetchUpdaterManifest s url;
        mret match m with Ok m => Ok (m, url) | Err e => Err e end
    end) r.

(** * What the resolver asks, and in which order *)

Section Recorded.
Context {T : Type}.
(** What the [n]-th request of a resolution gets, when it goes to a source. *)
Variable answers : nat -> HTTPSource -> result fetch_error T.

Abbreviation calls := (list HTTPSource).

Definition rec_fetch (s : HTTPSource) : M calls (result fetch_error T) :=
  fun c => (answers (length c) s, c ++ [s]).
Definition rec_wait (d : duration) : M calls bool := mret false.
Definition rec_done : M calls bool := mret false.

Definition run_resolver (r : Resolver) :
    (result (option fetch_error) (HTTPSource * T) * option fetch_error) * calls :=
  resolveWith rec_wait rec_done rec_fetch r [].

(** The [i]-th request failed with [e]. *)
Definition failed (c : calls) (i : nat) (e : fetch_error) : Prop :=
  exists s, c !! i = Some s /\ answers i s = Err e.

Lemma failed_app c c' i e : failed c i e -> failed (c ++ c') i e.
Proof. intros (s & Hs & He). exists s. split; [by apply lookup_app_l_Some|done]. Qed.

Lemma failed_snoc c s e : answers (length c) s = Err e -> failed (c ++ [s]) (length c) e.
Proof. intros He. exists s. split; [by apply list_lookup_middle|done]. Qed.

(** How the requests on the primary ended. *)
Definition primary_outcome (r : Resolver) (left : nat) (c : calls) (k : nat)
    (res : result (option fetch_error) (HTTPSource * T)) (pe : option fetch_error) : Prop :=
  match res with
  | Ok (s, doc) => s = r.(Primary) /\ answers (length c + k) s = Ok doc
  | Err None => exists e, pe = Some e /\ answers (length c + k) r.(Primary) = Err e /\
                  (S k = left \/ is_not_found e = true)
  | Err (Some _) => False
  end.

Lemma primary_loop_calls r left : forall backoff first lastErr c res pe c',
  (0 < left)%nat ->
  primary_loop rec_wait rec_done rec_fetch r left backoff first lastErr c = ((res, pe), c') ->
  exists k, (k < left)%nat /\ c' = c ++ replicate (S k) r.(Primary) /\
    (forall i, (i < k)%nat -> exists e, answers (length c + i) r.(Primary) = Err e /\ is_not_found e = false) /\
    primary_outcome r left c k res pe.
Proof.
  induction left as [|left IH]; intros backoff first lastErr c res pe c' Hl; [lia|].
  cbn [primary_loop]. intros H.
  assert (E : (match answers (length c) (Primary r) with
     | Ok doc => mret (M:=M calls) (Ok (Primary r, doc), lastErr)
     | Err err => if is_not_found err then mret (Err None, Some err)
         else primary_loop rec_wait rec_done rec_fetch r left
                (if first then backoff else wrap64 (backoff * 2)) false (Some err)
     end) (c ++ [Primary r]) = ((res, pe), c')).
  { rewrite <-H. unfold rec_done, rec_wait, rec_fetch, mbind, M_bind, mret, M_ret.
    destruct first; destruct (answers (length c) (Primary r)) as [|e]; try done;
      by destruct (is_not_found e). }
  clear H. destruct (answers (length c) (Primary r)) as [doc|err] eqn:Ea.
  - injection E as <- <- <-. exists O. split; [lia|]. split; [done|]. split; [lia|].
    cbn. by rewrite Nat.add_0_r.
  - destruct (is_not_found err) eqn:En.
    + injection E as <- <- <-. exists O. split; [lia|]. split; [done|]. split; [lia|].
      exists err. rewrite Nat.add_0_r. split_and!; [done..|by right].
    + destruct left as [|left].
      * injection E as <- <- <-. exists O. split; [lia|]. split; [done|]. split; [lia|].
        exists err. rewrite Nat.add_0_r. split_and!; [done..|by left].
      * apply IH in E as (k & Hk & -> & Hf & Ho); [|lia].
        exists (S k). split; [lia|]. split; [by rewrite <-app_assoc|]. split.
        -- intros [|i] Hi; [rewrite Nat.add_0_r; by exists err|].
           destruct (Hf i ltac:(lia)) as (e & He). exists e.
           rewrite length_app in He. simpl in He. by replace (length c + S i)%nat with (length c + 1 + i)%nat by lia.
        -- unfold primary_outcome in *. rewrite !length_app in Ho. cbn [length] in Ho.
           replace (length c + S k)%nat with (length c + 1 + k)%nat by lia.
           destruct res as [[s doc]|[e|]]; [done..|].
           destruct Ho as (e & ? & ? & [?|?]); exists e; split_and!; try done; [left; lia|by right].
Qed.

Lemma fallback_loop_calls fbs : forall lastErr c res c',
  fallback_loop rec_done rec_fetch fbs lastErr c = (res, c') ->
  exists j, (j <= length fbs)%nat /\ c' = c ++ take j fbs /\
    match res with
    | Ok (s, doc) => exists j', j = S j' /\ fbs !! j' = Some s /\ answers (length c + j') s = Ok doc /\
        forall i, (i < j')%nat -> exists s e, fbs !! i = Some s /\ answers (length c + i) s = Err e
    | Err _ => j = length fbs /\
        forall i, (i < j)%nat -> exists s e, fbs !! i = Some s /\ answers (length c + i) s = Err e
    end.
Proof.
  induction fbs as [|fb rest IH]; intros lastErr c res c' H.
  - injection H as <- <-. exists O. split; [done|]. split; [by rewrite app_nil_r|]. split; [done|]. lia.
  - assert (E : match answers (length c) fb with
      | Ok doc => (Ok (fb, doc), c ++ [fb])
      | Err err => fallback_loop rec_done rec_fetch rest
                     (if is_not_found err then Some err else lastErr) (c ++ [fb])
      end = (res, c')).
    { rewrite <-H. cbn [fallback_loop].
      unfold rec_fetch, rec_done, mbind, M_bind, mret, M_ret.
      by destruct (answers (length c) fb). }
    clear H. destruct (answers (length c) fb) as [doc|err] eqn:Ea.
    + injection E as <- <-. exists 1%nat. split; [simpl; lia|]. split; [done|].
      exists O. rewrite Nat.add_0_r. split_and!; try done. lia.
    + apply IH in E as (j & Hj & -> & Hres). exists (S j). split; [simpl; lia|].
      split; [by rewrite <-app_assoc|]. rewrite length_app in Hres. simpl in Hres.
      assert (Hshift : forall i, (length c + S i = length c + 1 + i)%nat) by lia.
      assert (Hext : forall n, (forall i, (i < n)%nat -> exists s e, rest !! i = Some s /\
                 answers (length c + 1 + i) s = Err e) ->
               forall i, (i < S n)%nat -> exists s e, (fb :: rest) !! i = Some s /\
                 answers (length c + i) s = Err e).
      { intros n Hn [|i] Hi; [exists fb, err; by rewrite Nat.add_0_r|].
        destruct (Hn i ltac:(lia)) as (s & e & ? & ?). exists s, e. by rewrite Hshift. }
      destruct res as [[s doc]|e].
      * destruct Hres as (j' & -> & Hs & Ha & Hf). exists (S j').
        split_and!; [done|done|by rewrite Hshift|by apply Hext].
      * destruct Hres as [-> Hf]. split; [done|]. by apply Hext.
Qed.

(** The attempts a resolver makes on its primary. *)
Definition max_attempts (r : Resolver) : nat :=
  Z.to_nat (if r.(r_Attempts) <? 1 then 3 else r.(r_Attempts)).

(** The requests of a resolution that asked the primary [S k] times: which
    failed, and how. *)
Lemma failed_primary (r : Resolver) k d i e : (i < S k)%nat -> answers i (Primary r) = Err e ->
  failed (replicate (S k) (Primary r) ++ d) i e.
Proof.
  intros Hi He. exists (Primary r). split; [|done].
  rewrite lookup_app_l by (by rewrite length_replicate). by apply lookup_replicate_2.
Qed.

Lemma failed_before (r : Resolver) k j n :
  (forall i, (i < S k)%nat -> exists e, answers i (Primary r) = Err e) -> (n <= j)%nat ->
  (forall i, (i < n)%nat -> exists s e, Fallbacks r !! i = Some s /\ answers (S k + i) s = Err e) ->
  forall i, (i < S k + n)%nat -> exists e, failed (replicate (S k) (Primary r) ++ take j (Fallbacks r)) i e.
Proof.
  intros Hp Hn Hfb i Hi. destruct (decide (i < S k)%nat) as [Hik|Hik].
  - destruct (Hp i Hik) as [e He]. exists e. by apply failed_primary.
  - destruct (Hfb (i - S k)%nat ltac:(lia)) as (s & e & Hs & He). exists e.
    replace (S k + (i - S k))%nat with i in He by lia.
    exists s. split; [|done]. rewrite lookup_app_r by (rewrite length_replicate; lia).
    rewrite length_replicate, lookup_take_lt by lia. done.
Qed.

Lemma max_attempts_pos (r : Resolver) : (0 < max_attempts r)%nat.
Proof. unfold max_attempts. destruct (r_Attempts r <? 1) eqn:E; bool_to_prop; lia. Qed.

(** C36: a resolution asks the primary first, at most [Attempts] times and only
    once more after nothing but failures that are not 404s; then each fallback
    once, in order, until one answers. The document it returns is the first
    answer anyone gave, with the source that gave it, so no source is asked
    after an answer; it fails only after every fallback has failed. *)
Theorem resolve_order (r : Resolver) res pe c :
  run_resolver r = ((res, pe), c) ->
  exists k j, (1 <= k <= max_attempts r)%nat /\
    c = replicate k r.(Primary) ++ take j r.(Fallbacks) /\ (j <= length r.(Fallbacks))%nat /\
    (forall i, (i < k - 1)%nat -> exists e, failed c i e /\ is_not_found e = false) /\
    ((0 < j)%nat -> exists e, failed c (k - 1) e /\ (k = max_attempts r \/ is_not_found e = true)) /\
    match res with
    | Ok (s, doc) => exists pre, c = pre ++ [s] /\ answers (length pre) s = Ok doc /\
        forall i, (i < length pre)%nat -> exists e, failed c i e
    | Err _ => j = length r.(Fallbacks) /\ forall i, (i < length c)%nat -> exists e, failed c i e
    end.
Proof.
  unfold run_resolver, resolveWith. cbv zeta. fold (max_attempts r).
  set (b := if _ <=? 0 then _ else _). intros H. unfold mbind at 1, M_bind at 1 in H.
  destruct (primary_loop rec_wait rec_done rec_fetch r (max_attempts r) b true None [])
    as [[res1 pe1] c1] eqn:E1.
  apply primary_loop_calls in E1 as (k & Hk & -> & Hf & Ho); [|apply max_attempts_pos].
  rewrite app_nil_l in H. cbn [length Nat.add] in Hf, Ho.
  assert (HF : forall d i, (i < k)%nat ->
      exists e, failed (replicate (S k) (Primary r) ++ d) i e /\ is_not_found e = false).
  { intros d i Hi. destruct (Hf i Hi) as (e & He & Hn). exists e. split; [|done].
    apply failed_primary; [lia|done]. }
  exists (S k). destruct res1 as [[s doc]|[e|]]; [| done |].
  - injection H as <- <- <-. destruct Ho as [-> Ha]. exists O. rewrite take_0.
    split; [lia|]. split; [by rewrite app_nil_r|]. split; [lia|]. rewrite <-(app_nil_r (replicate _ _)).
    split; [intros i Hi; apply HF; lia|]. split; [lia|]. exists (replicate k (Primary r)).
    rewrite length_replicate. split; [rewrite app_nil_r; by rewrite <-replicate_cons_app|]. split; [done|].
    intros i Hi. destruct (HF [] i Hi) as (e & He & _). by exists e.
  - destruct Ho as (e & -> & Ha & Hke).
    destruct (fallback_loop rec_done rec_fetch (Fallbacks r) (Some e) (replicate (S k) (Primary r)))
      as [res2 c2] eqn:E2.
    assert (res2 = res /\ Some e = pe /\ c2 = c) as (<- & <- & <-).
    { revert H. unfold mbind, M_bind. rewrite E2. by intros [= <- <- <-]. }
    clear H. apply fallback_loop_calls in E2 as (j & Hj & -> & Hres).
    rewrite length_replicate in Hres.
    assert (Hp : forall i, (i < S k)%nat -> exists e', answers i (Primary r) = Err e').
    { intros i Hi. destruct (decide (i = k)) as [->|]; [by exists e|].
      destruct (Hf i ltac:(lia)) as (e' & ? & _). by exists e'. }
    exists j. split; [lia|]. split; [done|]. split; [done|]. split; [intros i Hi; apply HF; lia|].
    replace (S k - 1)%nat with k by lia.
    split; [intros _; exists e; split; [apply failed_primary; [lia|done]|tauto]|].
    assert (Hlen : forall i, (i <= length (Fallbacks r))%nat ->
      length (replicate (S k) (Primary r) ++ take i (Fallbacks r)) = (S k + i)%nat).
    { intros i Hi. rewrite length_app, length_replicate, length_take. lia. }
    destruct res2 as [[s doc]|e2].
    + destruct Hres as (j' & -> & Hs & Hd & Hfb).
      exists (replicate (S k) (Primary r) ++ take j' (Fallbacks r)). rewrite Hlen by lia. split_and!.
      * rewrite <-app_assoc. f_equal. by apply take_S_r.
      * done.
      * apply (failed_before r k (S j') j'); [done|lia|done].
    + destruct Hres as [-> Hfb]. split; [done|]. rewrite Hlen by done. by apply failed_before.
Qed.
End Recorded.

(** A primary that fails twice and a fallback that answers. *)
Definition ex_resolver : Resolver :=
  mkResolver (NewHTTPSource "http://lan/v2/updates/manifest")
    [NewHTTPSource "http://backup"; NewHTTPSource "http://cloud"] 2 second.

Definition ex_answers (n : nat) (s : HTTPSource) : result fetch_error Z :=
  if s.(src_ManifestURL) =s "http://cloud" then Ok 7 else Err (ErrFetch "refused").

Lemma resolve_order_witness :
  (run_resolver ex_answers ex_resolver).2 =
    [NewHTTPSource "http://lan/v2/updates/manifest"; NewHTTPSource "http://lan/v2/updates/manifest";
     NewHTTPSource "http://backup"; NewHTTPSource "http://cloud"] /\
  exists k j, (1 <= k <= max_attempts ex_resolver)%nat /\
    (run_resolver ex_answers ex_resolver).2 =
      replicate k ex_resolver.(Primary) ++ take j ex_resolver.(Fallbacks).
Proof.
  split; [reflexivity|].
  destruct (resolve_order ex_answers ex_resolver (Ok (NewHTTPSource "http://cloud", 7))
    (Some (ErrFetch "refused")) (run_resolver ex_answers ex_resolver).2 eq_refl)
    as (k & j & Hk & Hc & _).
  exists k, j. by split.
Defined.

(** A target that can be installed always carries a checksum: resolving a
    channel succeeds only with the manifest's own checksum of that very
    version, never an empty one. *)
Theorem ResolveTarget_checksum `{VersionLib} (m : Manifest) (channel : string) (t : Target) :
  ResolveTarget m channel = Ok t ->
  t.(tg_SHA256) <> "" /\ m.(SHA256Checksums) !! t.(tg_Version) = Some t.(tg_SHA256) /\
  ChannelVersion m channel = Ok (t.(tg_Version), t.(DownloadRef)).
Proof.
  unfold ResolveTarget. destruct (ChannelVersion m channel) as [[v d]|] eqn:E; [|done].
  cbn. destruct (SHA256Checksums m !! v) as [[|c sha]|] eqn:Es; try done.
  by intros [= <-].
Qed.

#[local] Existing Instance Dotted.lib.

Definition ex_emly_manifest : Manifest :=
  mkManifest "1.8.0" "1.9.0" "https://x/s" "https://x/b" false "" {["1.8.0" := "ab"; "1.9.0" := "cd"]} ∅ ∅.

Lemma ResolveTarget_checksum_witness :
  ResolveTarget ex_emly_manifest "beta" = Ok (mkTarget "1.9.0" "https://x/b" "cd") /\ "cd" <> "".
Proof.
  split; [vm_compute; reflexivity|].
  apply (ResolveTarget_checksum ex_emly_manifest "beta" (mkTarget "1.9.0" "https://x/b" "cd")).
  vm_compute. reflexivity.
Defined.
