(* ===== verification/Config.v ===== *)
(** internal/config: the updater's own config.ini ([Load], [validate], the
    domain-controller subnet map, the reset to defaults) and EMLy's config.ini
    ([ReadEMLyConfig], [ResolveEMLyWithChannel]).

    The INI parser is a third-party library: [IniLib] is its interface - the
    text of a key, and its reading of a text as a boolean or an integer. A Go
    map built by a loop is a [gmap]; the URL of the updater manifest is built
    with [url.URL.JoinPath], modelled on paths without dot segments. *)
From S2P Require Import Prelude Json Files Net.

(** [gopkg.in/ini.v1]. [key f section name] is the empty string when absent. *)
Class IniLib := {
  ini : Type;
  parse_ini : string -> option ini;
  key : ini -> string -> string -> string;
  ini_bool : string -> option bool;
  ini_int : string -> option Z
}.

(** [Config]. *)
Record Config := mkConfig {
  EMLyInstallDir : string;
  EMLyExeName : string;
  EMLyConfigFile : string;
  cfg_PollInterval : duration;
  cfg_ChannelOverride : string;
  cfg_Primary : string;
  ExternalManifestURL : string;
  InternalManifestURL : string;
  BackupInternalManifestURL : string;
  cfg_UserAgent : string;
  cfg_APIKey : string;
  DCSubnetMap : gmap string (list IPNet);
  DCLookupRetryAttempts : Z;
  DCLookupRetryDelay : duration;
  ProgIDEml : string;
  ProgIDMsg : string;
  CriticalWarningEnabled : bool;
  CriticalWarningSeconds : Z;
  SelfUpdateEnabled : bool;
  SelfUpdateManifestURL : string;
  IPCEnabled : bool;
  IPCPipeName : string;
  CertificateEnabled : bool;
  RemoteConfigEnabled : bool;
  RemoteConfigEndpoints : list string;
  RemoteConfigRoute : string;
  RemoteConfigTimeout : duration
}.

Definition SourceExternal : string := "external".
Definition SourceInternal : string := "internal".

(** [PrimaryManifestURL]. *)
Definition PrimaryManifestURL (c : Config) : string :=
  if c.(cfg_Primary) =s SourceInternal then c.(InternalManifestURL) else c.(ExternalManifestURL).

Definition is_char (a b : ascii) : bool := Ascii.eqb a b.

(** [strings.TrimRight(s, "/")]. *)
Definition trim_slashes (s : string) : string := trim_right (is_char "/") s.

(** The query or fragment of a URL text, with its separator. *)
Fixpoint split_suffix (s : string) : string * string :=
  match s with
  | EmptyString => ("", "")
  | String c r =>
      if is_char c "?" || is_char c "#" then ("", s)
      else let '(a, b) := split_suffix r in (String c a, b)
  end.

(** [UpdaterManifestURL]. *)
Definition UpdaterManifestURL (c : Config) (manifestURL : string) : result string string :=
  if negb (c.(SelfUpdateManifestURL) =s "") then Ok c.(SelfUpdateManifestURL)
  else if manifestURL =s "" then
    Err "cannot derive the updater manifest URL from an empty manifest URL"
  else match url_Parse manifestURL with
       | None => Err ("cannot derive the updater manifest URL from " +:+ manifestURL)
       | Some _ => let '(base, suffix) := split_suffix manifestURL in
                   Ok (trim_slashes base +:+ "/updater" +:+ suffix)
       end.

(** * The subnet map *)

(** [ParseSubnets]. *)
Fixpoint parse_fields (fields : list string) : result string (list IPNet) :=
  match fields with
  | [] => Ok []
  | f :: rest =>
      let f := trim_space f in
      if f =s "" then parse_fields rest
      else match ParseCIDR f with
           | None => Err (f +:+ " is not a valid CIDR block")
           | Some (_, n) => l ← parse_fields rest; Ok (n :: l)
           end
  end.

Definition ParseSubnets (raw : string) : result string (list IPNet) :=
  parse_fields (split_byte "," raw).

Definition semicolon_to_bar (c : ascii) : ascii := if is_char c ";" then "|"%char else c.

(** The loop of [ParseDCSubnetMap]. *)
Fixpoint dc_entries (out : gmap string (list IPNet)) (seen : gset string) (entries : list string) :
    result string (gmap string (list IPNet)) :=
  match entries with
  | [] => Ok out
  | e :: rest =>
      let entry := trim_space e in
      if entry =s "" then dc_entries out seen rest
      else
        let '(dc, cidrs, ok) := cut_byte ":" entry in
        let dc := trim_space dc in
        if negb ok || (dc =s "") || (trim_space cidrs =s "") then
          Err ("defaultMappingDCSubnets: " +:+ entry +:+ " is not in dc:cidr form")
        else
          let lower := to_lower dc in
          if bool_decide (lower ∈ seen) then
            Err ("defaultMappingDCSubnets: domain controller " +:+ dc +:+ " is listed more than once")
          else match ParseSubnets cidrs with
               | Err e => Err ("defaultMappingDCSubnets: domain controller " +:+ dc +:+ ": " +:+ e)
               | Ok subnets => dc_entries (<[dc := subnets]> out) ({[ lower ]} ∪ seen) rest
               end
  end.

(** [ParseDCSubnetMap]; nil is the empty map. *)
Definition ParseDCSubnetMap (raw : string) : result string (gmap string (list IPNet)) :=
  let raw := trim_space raw in
  if raw =s "" then Ok ∅
  else dc_entries ∅ ∅ (split_byte "|" (string_map semicolon_to_bar raw)).

(** [SubnetsContain]. *)
Definition SubnetsContain (subnets : list IPNet) (ip : string) : bool :=
  match ParseIP (trim_space ip) with
  | None => false
  | Some p => existsb (fun n => Contains n p) subnets
  end.

(** * config.ini *)

(** [splitEndpoints]. *)
Definition splitEndpoints (raw : string) : list string :=
  bfilter (fun f => negb (f =s ""))
    ((fun f => trim_slashes (trim_space f)) <$> split_byte "|" raw).

Definition bad_pipe (s : string) : bool :=
  (s =s "") || negb (string_forallb (fun c => negb (is_char c "\" || is_char c "/")) s).

Definition bad_endpoint (ep : string) : bool :=
  match url_Parse ep with
  | None => true
  | Some u => (negb (u.(Scheme) =s "http") && negb (u.(Scheme) =s "https")) || (u.(url_Host) =s "")
  end.

(** The first switch of [Config.validate]; [None] is the nil error. *)
Definition validate_primary (c : Config) : option string :=
  if c.(cfg_Primary) =s SourceExternal then
    if c.(ExternalManifestURL) =s "" then Some "primary is external but externalManifestURL is empty"
    else None
  else if c.(cfg_Primary) =s SourceInternal then
    if c.(InternalManifestURL) =s "" then Some "primary is internal but internalManifestURL is empty"
    else None
  else Some "primary must be external or internal".

Definition validate_rest (c : Config) : option string :=
  if negb ((c.(cfg_ChannelOverride) =s "") || (c.(cfg_ChannelOverride) =s "stable")
           || (c.(cfg_ChannelOverride) =s "beta"))
  then Some "channelOverride must be empty, stable or beta"
  else if (c.(EMLyInstallDir) =s "") || (c.(EMLyExeName) =s "") || (c.(EMLyConfigFile) =s "")
  then Some "emlyInstallDir, emlyExeName and emlyConfigFile must not be empty"
  else if c.(CriticalWarningSeconds) <? 1 then Some "criticalWarningSeconds must be >= 1"
  else if c.(IPCEnabled) && bad_pipe c.(IPCPipeName) then Some "ipc.pipeName"
  else if c.(RemoteConfigEnabled) &&
          ((len c.(RemoteConfigEndpoints) =? 0) || existsb bad_endpoint c.(RemoteConfigEndpoints)
           || negb (has_prefix c.(RemoteConfigRoute) "/"))
  then Some "remoteConfig"
  else None.

(** [Config.validate]. *)
Definition validate (c : Config) : option string :=
  match validate_primary c with Some e => Some e | None => validate_rest c end.

(** [strings.ReplaceAll] of a non-empty [old]. *)
Fixpoint replace_all_fuel (fuel : nat) (s old new : string) : string :=
  match fuel with
  | O => s
  | S fuel' =>
      match s with
      | EmptyString => ""
      | String c r =>
          if has_prefix s old then new +:+ replace_all_fuel fuel' (drop_str (String.length old) s) old new
          else String c (replace_all_fuel fuel' r old new)
      end
  end.
Definition replace_all (s old new : string) : string :=
  replace_all_fuel (String.length s) s old new.

(** [BuildUserAgent]. *)
Definition BuildUserAgent (rawUAString ver : string) : string := replace_all rawUAString "{{VERSION}}" ver.

Definition Version : string := "1.7.2".

Section Load.
Context `{IniLib}.

Definition must_string (f : ini) (sec k d : string) : string :=
  if key f sec k =s "" then d else key f sec k.
Definition must_bool (f : ini) (sec k : string) (d : bool) : bool :=
  from_opt d (ini_bool (key f sec k)).
Definition must_int (f : ini) (sec k : string) (d : Z) : Z :=
  from_opt d (ini_int (key f sec k)).

(** The body of [Load], once the file is parsed. *)
Definition load_ini (f : ini) : result string Config :=
  let rcTimeout := must_int f "remoteConfig" "timeoutSeconds" 10 in
  if (rcTimeout <? 1) || (120 <? rcTimeout)
  then Err "remoteConfig.timeoutSeconds must be between 1 and 120"
  else
  let retryAttempts := must_int f "source" "dcLookupRetryAttempts" 6 in
  if (retryAttempts <? 0) || (60 <? retryAttempts)
  then Err "dcLookupRetryAttempts must be between 0 and 60"
  else
  let retrySeconds := must_int f "source" "dcLookupRetryDelaySeconds" 5 in
  if (retrySeconds <? 0) || (300 <? retrySeconds)
  then Err "dcLookupRetryDelaySeconds must be between 0 and 300"
  else
  let minutes := must_int f "updater" "pollIntervalMinutes" 30 in
  if minutes <? 1 then Err "pollIntervalMinutes must be >= 1"
  else
  match ParseDCSubnetMap (key f "source" "defaultMappingDCSubnets") with
  | Err e => Err e
  | Ok dcSubnets =>
      let cfg := mkConfig
        (must_string f "updater" "emlyInstallDir" "C:\3gIT\EMLy")
        (must_string f "updater" "emlyExeName" "EMLy.exe")
        (must_string f "updater" "emlyConfigFile" "C:\3gIT\EMLy\config.ini")
        (d_mul minutes minute)
        (to_lower (trim_space (key f "updater" "channelOverride")))
        (to_lower (trim_space (must_string f "source" "primary" SourceExternal)))
        (trim_space (key f "source" "externalManifestURL"))
        (trim_space (key f "source" "internalManifestURL"))
        (trim_space (key f "source" "bkInternManifestURL"))
        (BuildUserAgent (trim_space (key f "source" "userAgent")) Version)
        (trim_space (key f "source" "xApiKey"))
        dcSubnets retryAttempts (d_mul retrySeconds second)
        (must_string f "fileAssociations" "progIdEml" "EMLy.EML")
        (must_string f "fileAssociations" "progIdMsg" "EMLy.MSG")
        (must_bool f "criticalUpdate" "criticalWarningEnabled" true)
        (must_int f "criticalUpdate" "criticalWarningSeconds" 30)
        (must_bool f "selfUpdate" "enabled" true)
        (trim_space (key f "selfUpdate" "manifestURL"))
        (must_bool f "ipc" "enabled" true)
        (trim_space (must_string f "ipc" "pipeName" "EMLyUpdater"))
        (must_bool f "certificate" "enabled" true)
        (must_bool f "remoteConfig" "enabled" true)
        (splitEndpoints (must_string f "remoteConfig" "endpoints" "https://api.emly.ffois.it"))
        (trim_space (must_string f "remoteConfig" "configPath" "/v2/config"))
        (d_mul rcTimeout second) in
      match validate cfg with
      | Some e => Err e
      | None => Ok cfg
      end
  end.

(** * EMLy's config.ini *)

Definition FreshInstallVersion : string := "0.0.0".

(** [EMLyInfo]. *)
Record EMLyInfo := mkEMLyInfo {
  InstalledVersion : string;
  ei_Channel : string;
  Language : string;
  FreshInstall : bool
}.

(** [ReadEMLyConfig]; [None] text is the missing file, [None] result the error. *)
Definition ReadEMLyConfig (text : option string) : option EMLyInfo :=
  text ← text; f ← parse_ini text;
  let v := trim_space (key f "EMLy" "GUI_SEMVER") in
  let ch := to_lower (trim_space (key f "EMLy" "GUI_RELEASE_CHANNEL")) in
  let lang := to_lower (trim_space (key f "EMLy" "LANGUAGE")) in
  if v =s "" then None
  else Some (mkEMLyInfo v (if negb (ch =s "beta") then "stable" else ch)
               (if lang =s "" then "en" else lang) false).

(** [Config.ResolveEMLyWithChannel]. *)
Definition ResolveEMLyWithChannel (text : option string) (channelOverride : string) : EMLyInfo :=
  let info := from_opt (mkEMLyInfo FreshInstallVersion "stable" "en" true) (ReadEMLyConfig text) in
  if channelOverride =s "" then info
  else mkEMLyInfo info.(InstalledVersion) channelOverride info.(Language) info.(FreshInstall).

(** [Config.ResolveEMLy]. *)
Definition ResolveEMLy (c : Config) (text : option string) : EMLyInfo :=
  ResolveEMLyWithChannel text c.(cfg_ChannelOverride).
End Load.

(** * Writing the defaults *)

(** The data directory seen by this package: base names and texts. *)
Abbreviation texts := (gmap string string).

Definition configName : string := "config.ini".
Definition configBackup : string := "config.prev.ini".

(** [WriteDefault]: whether a file was written. *)
Definition WriteDefault (fails : bool) (defaultINI : string) (d : texts) : result string bool * texts :=
  match d !! configName with
  | Some _ => (Ok false, d)
  | None => if fails then (Err "failed to write default config", d)
            else (Ok true, <[configName := defaultINI]> d)
  end.

(** [writeAtomic], run to its end; see [Files.save] for its steps. *)
Definition writeAtomic (fails : bool) (text : string) (d : texts) : option string * texts :=
  if fails then (Some "write", d) else (None, <[configName := text]> d).

(** [Reset]. *)
Definition Reset (read_fails backup_fails write_fails : bool) (defaultINI : string) (d : texts) :
    result string bool * texts :=
  match d !! configName with
  | None => WriteDefault write_fails defaultINI d
  | Some old =>
      if read_fails then (Err "read", d)
      else if old =s defaultINI then (Ok false, d)
      else if backup_fails then (Err "failed to back up", d)
      else
        let d := <[configBackup := old]> d in
        match writeAtomic write_fails defaultINI d with
        | (Some e, d) => (Err e, d)
        | (None, d) => (Ok true, d)
        end
  end.

(** * Lemmas *)

(** Endpoints never end in a slash and are never empty. *)
Lemma trim_right_end f s : trim_right f s = "" \/
  exists p c, trim_right f s = p +:+ String c "" /\ f c = false.
Proof.
  induction s as [|c s IH]; cbn [trim_right]; [by left|].
  destruct (trim_right f s) as [|c' s'] eqn:E.
  - destruct (f c) eqn:Ec; [by left|right]. by exists "", c.
  - right. destruct IH as [?|(p & c'' & Hp & Hf)]; [done|].
    exists (String c p), c''. split; [|done]. by rewrite Hp.
Qed.

Lemma splitEndpoints_clean raw ep : ep ∈ splitEndpoints raw ->
  exists p c, ep = p +:+ String c "" /\ is_char "/" c = false.
Proof.
  unfold splitEndpoints, bfilter. intros H. apply list_elem_of_In, filter_In in H as [H Hne].
  apply list_elem_of_In, list_elem_of_fmap in H as (f & -> & _).
  apply negb_true_iff, str_eqb_neq in Hne.
  by destruct (trim_right_end (is_char "/") (trim_space f)) as [?|?].
Qed.

(** The subnet map keeps every site it was given, under distinct names. *)
Lemma dc_entries_grows entries : forall out seen out',
  dc_entries out seen entries = Ok out' ->
  (forall dc v, out !! dc = Some v -> to_lower dc ∈ seen) ->
  (forall d1 d2, is_Some (out !! d1) -> is_Some (out !! d2) -> to_lower d1 = to_lower d2 -> d1 = d2) ->
  (forall dc v, out !! dc = Some v -> out' !! dc = Some v) /\
  (forall d1 d2, is_Some (out' !! d1) -> is_Some (out' !! d2) -> to_lower d1 = to_lower d2 -> d1 = d2).
Proof.
  induction entries as [|e rest IH]; intros out seen out' H Hseen Hinj.
  - injection H as <-. by split.
  - cbn [dc_entries] in H. cbv zeta in H. destruct (trim_space e =s ""); [by eapply IH|].
    destruct (cut_byte ":" (trim_space e)) as [[dc cidrs] ok].
    destruct (_ || _); [done|]. case_bool_decide as Hin; [done|].
    destruct (ParseSubnets cidrs) as [subnets|]; [|done].
    set (dc' := trim_space dc) in *.
    assert (Hfresh : out !! dc' = None).
    { destruct (out !! dc') eqn:E; [|done]. by apply Hseen in E. }
    assert (Hkey : forall d, is_Some (<[dc' := subnets]> out !! d) -> d = dc' \/ is_Some (out !! d)).
    { intros d Hd. destruct (decide (d = dc')) as [->|Hn]; [by left|].
      rewrite lookup_insert_ne in Hd by done. by right. }
    apply IH in H as [Hk Hi].
    + split; [|done]. intros d v Hd. apply Hk. rewrite lookup_insert_ne; [done|]. congruence.
    + intros d v Hd. destruct (Hkey d (mk_is_Some _ _ Hd)) as [->|[w Hw]]; [set_solver|].
      apply Hseen in Hw. set_solver.
    + intros d1 d2 H1 H2 E.
      destruct (Hkey d1 H1) as [->|[w1 Hw1]], (Hkey d2 H2) as [->|[w2 Hw2]]; try done.
      * apply Hseen in Hw2. congruence.
      * apply Hseen in Hw1. congruence.
      * by apply Hinj.
Qed.
