(* ===== verification/PolicyStore.v ===== *)
(** internal/policy's store, on-disk cache and default policy: [Snapshot] and
    [Store] (store.go), [LoadCache] / [SaveCache] / [QuarantineCache]
    (cache.go), [DefaultsFromConfig] and [FromLegacy] (legacy.go).

    The cache file is an object in the data directory ([Files]); the document
    inside it is kept raw. The order of the default policy's sites is that of
    the configuration's map. *)
From S2P Require Import Prelude Rfc3339 Json Files Versions Net PolicyDoc PolicyValidate.
From S2P Require Import PolicyParse PolicyMatch Config State.

#[local] Existing Instance slice_codec.

(** * Snapshots *)

Inductive Source := SourceDefault | SourceCache | SourceRemote.

#[export] Instance source_eq_dec : EqDecision Source.
Proof. solve_decision. Defined.

(** [Source.String]. *)
Definition Source_String (s : Source) : string :=
  match s with SourceCache => "cache" | SourceRemote => "remote" | SourceDefault => "default" end.

(** [Snapshot]. *)
Record Snapshot := mkSnapshot {
  sn_Parsed : Parsed;
  sn_Source : Source;
  FetchedAt : time;
  FetchedFrom : string;
  ETag : string
}.

(** [Snapshot.Revision], [Snapshot.GeneratedAt]. *)
Definition sn_Revision (s : Snapshot) : Z := s.(sn_Parsed).(Global).(Revision).
Definition sn_GeneratedAt (s : Snapshot) : string := s.(sn_Parsed).(Global).(GeneratedAt).

(** [Snapshot.Stale]. *)
Definition Stale (s : Snapshot) (now : time) : bool :=
  if bool_decide (s.(sn_Source) = SourceDefault) || is_zero_time s.(FetchedAt) then false
  else
    let after := StaleAfter s.(sn_Parsed).(Global).(doc_Refresh) in
    if after <=? 0 then false else after <? t_sub now s.(FetchedAt).

(** [Store]: the snapshot behind the atomic pointer. *)
Record Store := mkStore { st_cur : Snapshot }.
Definition NewStore (initial : Snapshot) : Store := mkStore initial.
Definition Current (s : Store) : Snapshot := s.(st_cur).
Definition Set_ (snap : Snapshot) (s : Store) : Store := mkStore snap.

(** * The cache file *)

(** [CacheFile]; the document is kept as raw JSON. *)
Record CacheFile := mkCacheFile {
  cf_FetchedAt : time;
  cf_FetchedFrom : string;
  cf_ETag : string;
  cf_Document : option json
}.

Definition enc_cache (c : CacheFile) : json :=
  obj ([("fetchedAt", @enc _ time_codec c.(cf_FetchedAt)); ("fetchedFrom", enc c.(cf_FetchedFrom))] ++
       (if c.(cf_ETag) =s "" then [] else [("etag", JStr c.(cf_ETag))]) ++
       [("document", from_opt JNull c.(cf_Document))]).

Definition dec_cache (j : json) : option CacheFile :=
  dec_struct (mkCacheFile zero_time "" "" None) (fun m =>
    a ← @field _ time_codec m "fetchedAt"; b ← field m "fetchedFrom"; c ← field m "etag";
    Some (mkCacheFile a b c (m !! "document"))) j.

(** [CacheFile.Revision]. *)
Definition cf_Revision (c : CacheFile) : Z :=
  match c.(cf_Document) with
  | Some (JObj m) => from_opt 0 (field m "revision")
  | _ => 0
  end.

(** [LoadCache]; [Ok None] is a missing file. *)
Definition LoadCache (read_fails : bool) (path : string) (d : dir) : result string (option CacheFile) :=
  if read_fails then Err "read"
  else match d !! path with
       | None => Ok None
       | Some c =>
           match j ← c; dec_cache j with
           | None => Err ("corrupt cache file " +:+ path)
           | Some f => match f.(cf_Document) with
                       | None => Err ("corrupt cache file " +:+ path +:+ ": no document")
                       | Some _ => Ok (Some f)
                       end
           end
       end.

(** [SaveCache]. *)
Definition SaveCache (fault : option save_fault) (rand path : string) (c : CacheFile) (d : dir) :
    option string * dir :=
  (save_result fault,
   save fault ("remote-config-" +:+ rand +:+ ".tmp") path (Some (enc_cache c)) d).

(** [QuarantineCache]: the old copy is removed first. *)
Definition QuarantineCache (fails : bool) (path badPath : string) (d : dir) : option string * dir :=
  let d := delete badPath d in
  match rename fails path badPath d with
  | (Some "not exist", d) => (None, d)
  | r => r
  end.

(** The raw bytes of the cached document, for [Parse]. *)
Definition document_blob (size : Z) (j : json) : blob := Blob size (Some j).

(** * The default policy *)

Definition LegacyExternal : string := "external".
Definition LegacyInternal : string := "internal".
Definition LegacyInternalBackup : string := "internalBackup".

(** [DefaultsFromConfig]. *)
Definition DefaultsFromConfig (cfg : Config) (ipc : IPCProtocol) (consoleDebug : bool) : Defaults :=
  let pollMinutes := Z.max (Z.quot cfg.(cfg_PollInterval) minute) 1 in
  mkDefaults (mkRefresh pollMinutes 7)
    (mkControl (mkControlUpdater true None None) (mkControlApp true AppModeNormal None None))
    (mkUpdaterSettings pollMinutes
       (if cfg.(cfg_ChannelOverride) =s "" then None else Some cfg.(cfg_ChannelOverride))
       (mkCriticalWarning cfg.(CriticalWarningEnabled) cfg.(CriticalWarningSeconds))
       (mkDCLookupRetry cfg.(DCLookupRetryAttempts) (Z.quot cfg.(DCLookupRetryDelay) second))
       (mkResolverSettings 3 5) (mkToggle cfg.(SelfUpdateEnabled))
       (mkToggle cfg.(CertificateEnabled)))
    (mkLoggingSettings (if consoleDebug then "debug" else "info") 2 5 true true)
    (mkClientWSSettings false (Some DefaultClientWSCommands))
    ipc.

(** The closure [addServer] of [FromLegacy]: servers and pinned URLs. *)
Definition addServer (name manifestURL : string)
    (acc : gmap string string * gmap string string) : gmap string string * gmap string string :=
  let '(servers, legacyURLs) := acc in
  if manifestURL =s "" then acc
  else if has_suffix manifestURL ManifestPath
       then (<[name := trim_suffix manifestURL ManifestPath]> servers, legacyURLs)
       else (<[name := manifestURL]> servers, <[name := manifestURL]> legacyURLs).

Definition legacy_servers (cfg : Config) : gmap string string * gmap string string :=
  addServer LegacyInternalBackup cfg.(BackupInternalManifestURL)
    (addServer LegacyInternal cfg.(InternalManifestURL)
      (addServer LegacyExternal cfg.(ExternalManifestURL) (∅, ∅))).

Definition legacy_default_server (cfg : Config) (servers : gmap string string) : string :=
  let d := if is_some (servers !! LegacyExternal) then LegacyExternal else LegacyInternal in
  if is_some (servers !! LegacyInternal) && bool_decide (cfg.(DCSubnetMap) = ∅)
     && (cfg.(cfg_Primary) =s SourceInternal)
  then LegacyInternal else d.

Definition legacy_backups (servers : gmap string string) : list string :=
  (if is_some (servers !! LegacyInternalBackup) then [LegacyInternalBackup] else []) ++
  (if is_some (servers !! LegacyExternal) then [LegacyExternal] else []).

Definition legacy_sites (cfg : Config) (servers : gmap string string) : gmap string Site :=
  if is_some (servers !! LegacyInternal) then
    (fun subnets => mkSite (Some (IPNet_String <$> subnets)) LegacyInternal
       (match legacy_backups servers with [] => None | l => Some l end) None)
      <$> cfg.(DCSubnetMap)
  else ∅.

(** [FromLegacy]. *)
Definition FromLegacy (cfg : Config) (d : Defaults) : Parsed :=
  let '(servers, legacyURLs) := legacy_servers cfg in
  let doc := mkDocument SchemaVersion 0 "" d.(df_Refresh) servers
    (legacy_default_server cfg servers) d.(df_IPCProtocol) (legacy_sites cfg servers)
    (mkHostIntegrity false (mkWhitelist None None)) d.(df_Control) d.(df_Updater) d.(df_Logging)
    d.(df_ClientWS) None in
  mkParsed doc (delete "overrides" (document_map doc)) (defaults_map d) legacyURLs.

(** * Lemmas *)

Lemma addServer_lookup name url acc k :
  (addServer name url acc).1 !! k =
    (if (k =s name) && negb (url =s "") then
       Some (if has_suffix url ManifestPath then trim_suffix url ManifestPath else url)
     else acc.1 !! k) /\
  (addServer name url acc).2 !! k =
    (if (k =s name) && negb (url =s "") && negb (has_suffix url ManifestPath) then Some url
     else acc.2 !! k).
Proof.
  unfold addServer. destruct acc as [s l]. destruct (url =s "") eqn:Eu.
  { by rewrite !andb_false_r. }
  rewrite andb_true_r. destruct (has_suffix url ManifestPath); cbn [negb fst snd];
    rewrite ?andb_false_r, ?andb_true_r; destruct (k =s name) eqn:Ek;
    (apply str_eqb_eq in Ek; subst) || apply str_eqb_neq in Ek;
    rewrite ?lookup_insert_eq, ?lookup_insert_ne by congruence; done.
Qed.

Lemma legacy_server_known cfg name :
  is_Some ((legacy_servers cfg).1 !! name) <->
  name = LegacyInternalBackup /\ cfg.(BackupInternalManifestURL) <> "" \/
  name = LegacyInternal /\ cfg.(InternalManifestURL) <> "" \/
  name = LegacyExternal /\ cfg.(ExternalManifestURL) <> "".
Proof.
  unfold legacy_servers. rewrite (proj1 (addServer_lookup _ _ _ _)),
    (proj1 (addServer_lookup _ _ _ _)), (proj1 (addServer_lookup _ _ _ _)).
  cbn [fst]. rewrite lookup_empty. rewrite <-!str_eqb_neq, <-!str_eqb_eq.
  destruct (name =s LegacyInternalBackup), (name =s LegacyInternal), (name =s LegacyExternal),
    (BackupInternalManifestURL cfg =s ""), (InternalManifestURL cfg =s ""),
    (ExternalManifestURL cfg =s ""); cbn [andb negb];
    (split; [intros [? ?]|intros ?]; naive_solver).
Qed.

Lemma FromLegacy_doc cfg d :
  (FromLegacy cfg d).(Global).(Servers) = (legacy_servers cfg).1 /\
  (FromLegacy cfg d).(Global).(DefaultServer) = legacy_default_server cfg (legacy_servers cfg).1 /\
  (FromLegacy cfg d).(Global).(DCLookupMap) = legacy_sites cfg (legacy_servers cfg).1 /\
  (FromLegacy cfg d).(Global).(Revision) = 0 /\ sl (FromLegacy cfg d).(Global).(Overrides) = [].
Proof. unfold FromLegacy. by destruct (legacy_servers cfg). Qed.

Lemma legacy_effective `{VersionLib} cfg d h :
  effective (FromLegacy cfg d) h =
    (mkEffective (FromLegacy cfg d).(Global) [] (FromLegacy cfg d), None).
Proof.
  unfold effective. destruct (FromLegacy_doc cfg d) as (_ & _ & _ & _ & ->). done.
Qed.

Definition listed (name url : string) : list string := if url =s "" then [] else [name].

Lemma legacy_known_bool cfg :
  let servers := (legacy_servers cfg).1 in
  is_some (servers !! LegacyExternal) = negb (cfg.(ExternalManifestURL) =s "") /\
  is_some (servers !! LegacyInternal) = negb (cfg.(InternalManifestURL) =s "") /\
  is_some (servers !! LegacyInternalBackup) = negb (cfg.(BackupInternalManifestURL) =s "").
Proof.
  assert (H : forall name url, (is_Some ((legacy_servers cfg).1 !! name) <-> url <> "") ->
    is_some ((legacy_servers cfg).1 !! name) = negb (url =s "")).
  { intros name url Hk. destruct ((legacy_servers cfg).1 !! name) eqn:E, (url =s "") eqn:Eu;
      cbn; try done.
    - apply str_eqb_eq in Eu. by destruct (proj1 Hk ltac:(eauto)).
    - apply str_eqb_neq in Eu. by destruct (proj2 Hk Eu). }
  cbv zeta. split_and!; apply H; rewrite legacy_server_known;
    unfold LegacyInternalBackup, LegacyInternal, LegacyExternal; naive_solver.
Qed.

Lemma legacy_backups_eq cfg : legacy_backups (legacy_servers cfg).1 =
  listed LegacyInternalBackup cfg.(BackupInternalManifestURL) ++
  listed LegacyExternal cfg.(ExternalManifestURL).
Proof.
  unfold legacy_backups, listed. destruct (legacy_known_bool cfg) as (-> & _ & ->).
  by destruct (_ =s ""), (_ =s "").
Qed.

Lemma is_some_true {A} (o : option A) : is_some o = true <-> is_Some o.
Proof. by destruct o. Qed.

Lemma legacy_site_inv cfg name s :
  legacy_sites cfg (legacy_servers cfg).1 !! name = Some s ->
  cfg.(InternalManifestURL) <> "" /\ s.(BaseServer) = LegacyInternal /\
  sl s.(BackupServer) = legacy_backups (legacy_servers cfg).1.
Proof.
  unfold legacy_sites. destruct (legacy_known_bool cfg) as (_ & -> & _).
  destruct (InternalManifestURL cfg =s "") eqn:E; cbn [negb]; [by rewrite lookup_empty|].
  rewrite lookup_fmap. destruct (DCSubnetMap cfg !! name); [|done]. cbn. intros [= <-].
  apply str_eqb_neq in E. cbn. by destruct (legacy_backups _).
Qed.

Lemma legacy_default_eq cfg : validate cfg = None ->
  let d := legacy_default_server cfg (legacy_servers cfg).1 in
  is_Some ((legacy_servers cfg).1 !! d) /\
  d = if negb (cfg.(ExternalManifestURL) =s "") &&
         negb (bool_decide (cfg.(DCSubnetMap) = ∅) && (cfg.(cfg_Primary) =s SourceInternal))
      then LegacyExternal else LegacyInternal.
Proof.
  intros Hv. cbv zeta. unfold legacy_default_server.
  destruct (legacy_known_bool cfg) as (HE & HI & _). rewrite HE, HI.
  unfold validate, validate_primary in Hv.
  destruct (ExternalManifestURL cfg =s "") eqn:E1, (InternalManifestURL cfg =s "") eqn:E2,
    (cfg_Primary cfg =s SourceInternal) eqn:E3, (bool_decide _); cbn [negb andb];
    rewrite <-is_some_true, ?HE, ?HI; try done;
    (destruct (cfg_Primary cfg =s SourceExternal) eqn:E4; [|done]); try done;
    apply str_eqb_eq in E4; apply str_eqb_eq in E3; rewrite E4 in E3; done.
Qed.

(** * Properties *)

(** without a remote document a machine goes where config.ini always sent
    it: every name on its chain is a configured server; at a mapped site it
    asks the internal endpoint, then the backup internal one when it is
    configured, then the external one when it is configured, in that order;
    everywhere else the default server alone, which is the external endpoint
    when there is one - unless the configuration maps no site and names
    the internal endpoint primary. *)
Theorem legacy_chain `{VersionLib} (cfg : Config) (d : Defaults) (h : Host) :
  validate cfg = None ->
  let e := (effective (FromLegacy cfg d) h).1 in
  Forall (fun name => is_Some (e.(Doc).(Servers) !! name)) (Chain e h).2 /\
  (site_of e h = None -> (Chain e h).2 =
     [if negb (cfg.(ExternalManifestURL) =s "") &&
         negb (bool_decide (cfg.(DCSubnetMap) = ∅) && (cfg.(cfg_Primary) =s SourceInternal))
      then LegacyExternal else LegacyInternal]) /\
  (site_of e h <> None -> (Chain e h).2 = LegacyInternal ::
     listed LegacyInternalBackup cfg.(BackupInternalManifestURL) ++
     listed LegacyExternal cfg.(ExternalManifestURL)).
Proof.
  intros Hv. cbv zeta. rewrite legacy_effective. cbn [fst].
  destruct (FromLegacy_doc cfg d) as (Hs & Hd & Hm & _ & _).
  destruct (legacy_default_eq cfg Hv) as [Hk He]. unfold Chain.
  destruct (site_of _ h) as [[name s]|] eqn:Esite; cbn [snd Doc]; rewrite Hs.
  - apply site_of_inv in Esite as (Hl & _). cbn [Doc] in Hl. rewrite Hm in Hl.
    apply legacy_site_inv in Hl as (Hi & -> & ->). rewrite legacy_backups_eq.
    destruct (legacy_known_bool cfg) as (HE & HI & HB).
    split_and!; [|done..]. constructor.
    + apply is_some_true. rewrite HI. by apply negb_true_iff, str_eqb_neq.
    + unfold listed. apply Forall_app. split.
      * destruct (BackupInternalManifestURL cfg =s "") eqn:E; [constructor|].
        constructor; [|constructor]. apply is_some_true. by rewrite HB.
      * destruct (ExternalManifestURL cfg =s "") eqn:E; [constructor|].
        constructor; [|constructor]. apply is_some_true. by rewrite HE.
  - rewrite Hd. split_and!; [by constructor|by rewrite <-He|done].
Qed.

(** A configuration as shipped, with one mapped site. *)
Definition ex_config : Config :=
  mkConfig "C:\3gIT\EMLy" "EMLy.exe" "C:\3gIT\EMLy\config.ini" (30 * minute) "" "external"
    "https://api.emly.ffois.it/v2/updates/manifest" "http://172.16.96.5/v2/updates/manifest" ""
    "EMLyUpdater/1.7.2" "" {["DC-RM2" := [mkIPNet (v4 (172 * 2^24 + 16 * 2^16 + 96 * 2^8)) 120]]}
    6 (5 * second) "EMLy.EML" "EMLy.MSG" true 30 true "" true "EMLyUpdater" true true
    ["https://api.emly.ffois.it"] "/v2/config" (10 * second).

Definition ex_ipc : IPCProtocol :=
  mkIPCProtocol {["1" := mkIPCVersion (mkVersionRange None None) (mkVersionRange None None) None]} 1.

#[local] Existing Instance Dotted.lib.

Lemma legacy_chain_witness :
  (Chain (effective (FromLegacy ex_config (DefaultsFromConfig ex_config ex_ipc false))
            (mkHost "" "" "" "" [] 0)).1 (mkHost "" "" "" "" [] 0)).2 = [LegacyExternal].
Proof.
  rewrite (proj1 (proj2 (legacy_chain ex_config (DefaultsFromConfig ex_config ex_ipc false)
             (mkHost "" "" "" "" [] 0) ltac:(vm_compute; reflexivity))));
    vm_compute; reflexivity.
Defined.

(** Staleness is a report, never a policy change by itself: the default
    policy and a document with no limit are never stale, a document is not
    stale within its limit, and one left unconfirmed stays stale. *)
Theorem Stale_spec (s : Snapshot) (now later : time) :
  (s.(sn_Source) = SourceDefault \/ s.(FetchedAt) = zero_time \/
   StaleAfter s.(sn_Parsed).(Global).(doc_Refresh) <= 0 -> Stale s now = false) /\
  (now <= s.(FetchedAt) + StaleAfter s.(sn_Parsed).(Global).(doc_Refresh) -> Stale s now = false) /\
  (now <= later -> Stale s now = true -> Stale s later = true).
Proof.
  unfold Stale, is_zero_time, zero_time, t_sub, sat64, int64_min, int64_max. split_and!.
  - intros [-> | [-> | Ha]]; [by rewrite bool_decide_true|by rewrite orb_true_r|].
    destruct (_ || _); [done|]. by rewrite (proj2 (Z.leb_le _ _) Ha).
  - intros Hn. destruct (_ || _); [done|]. destruct (_ <=? 0) eqn:E; [done|].
    bool_to_prop. apply Z.ltb_ge. lia.
  - intros Hn. destruct (_ || _); [done|]. destruct (_ <=? 0); [done|].
    rewrite !Z.ltb_lt. lia.
Qed.

Lemma Stale_spec_witness :
  Stale (mkSnapshot (FromLegacy ex_config (DefaultsFromConfig ex_config ex_ipc false))
           SourceRemote 1 "" "") (9 * 24 * hour) = true.
Proof.
  apply (Stale_spec (mkSnapshot (FromLegacy ex_config (DefaultsFromConfig ex_config ex_ipc false))
           SourceRemote 1 "" "") (8 * 24 * hour) (9 * 24 * hour)); vm_compute; [discriminate|reflexivity].
Defined.
