(* ===== verification/RemoteConfig.v ===== *)
(** internal/service/remoteconfig.go: how the running service gets its policy.
    [initPolicy] reads the cache or falls back to the default policy,
    [refreshConfig] asks the candidate servers and swaps the snapshot,
    [saveCache] writes the last-known-good document, [retireCache] and
    [restoreCache] move it around a self-update, [warnIfStale] and
    [applyControlGate] report, [policyView] builds what EMLy reads over IPC.

    [RC] is the part of [Updater] these methods own, with the events they log;
    it is threaded through every method. The network answers, the clock and
    the file-system faults of one refresh are a [refresh_env]. *)
From S2P Require Import Prelude Rfc3339 Json Merge Files Versions Net PolicyDoc PolicyValidate.
From S2P Require Import PolicyParse PolicyMatch PolicyProps Manifest Source Config State PolicyStore.

(** [cycleState]: what one poll cycle decided about this machine. *)
Record cycleState := mkCycle {
  cyc_snap : Snapshot;
  cyc_host : Host;
  cyc_eff : Effective;
  cyc_site : string;
  cyc_chain : list string
}.

(** Event-log entries written by these methods. *)
Inductive log_event :=
| EvRejected
| EvApplied (revision : Z)
| EvUnreachable
| EvStale
| EvGate (paused : bool)
| EvSourcePolicy (key : string)
| EvSourcePolicyFailed
| EvLogging (l : LoggingSettings).

#[export] Instance LoggingSettings_eq_dec : EqDecision LoggingSettings.
Proof. solve_decision. Defined.

(** The fields of [Updater] for the remote configuration. *)
Record RC := mkRC {
  Policy : option Store;
  rc_dir : dir;
  rc_cur : option cycleState;
  lastConfigAttempt : time;
  lastStaleWarn : time;
  configUnreachable : bool;
  paused : bool;
  appliedLogging : option LoggingSettings;
  rc_log : list log_event
}.

Definition set_policy (p : Store) (s : RC) : RC :=
  mkRC (Some p) s.(rc_dir) s.(rc_cur) s.(lastConfigAttempt) s.(lastStaleWarn)
    s.(configUnreachable) s.(paused) s.(appliedLogging) s.(rc_log).
Definition set_dir (d : dir) (s : RC) : RC :=
  mkRC s.(Policy) d s.(rc_cur) s.(lastConfigAttempt) s.(lastStaleWarn)
    s.(configUnreachable) s.(paused) s.(appliedLogging) s.(rc_log).
Definition set_cur (c : cycleState) (s : RC) : RC :=
  mkRC s.(Policy) s.(rc_dir) (Some c) s.(lastConfigAttempt) s.(lastStaleWarn)
    s.(configUnreachable) s.(paused) s.(appliedLogging) s.(rc_log).
Definition set_attempt (t : time) (s : RC) : RC :=
  mkRC s.(Policy) s.(rc_dir) s.(rc_cur) t s.(lastStaleWarn)
    s.(configUnreachable) s.(paused) s.(appliedLogging) s.(rc_log).
Definition set_stalewarn (t : time) (s : RC) : RC :=
  mkRC s.(Policy) s.(rc_dir) s.(rc_cur) s.(lastConfigAttempt) t
    s.(configUnreachable) s.(paused) s.(appliedLogging) s.(rc_log).
Definition set_unreachable (b : bool) (s : RC) : RC :=
  mkRC s.(Policy) s.(rc_dir) s.(rc_cur) s.(lastConfigAttempt) s.(lastStaleWarn)
    b s.(paused) s.(appliedLogging) s.(rc_log).
Definition set_paused (b : bool) (s : RC) : RC :=
  mkRC s.(Policy) s.(rc_dir) s.(rc_cur) s.(lastConfigAttempt) s.(lastStaleWarn)
    s.(configUnreachable) b s.(appliedLogging) s.(rc_log).
Definition set_logging (l : LoggingSettings) (s : RC) : RC :=
  mkRC s.(Policy) s.(rc_dir) s.(rc_cur) s.(lastConfigAttempt) s.(lastStaleWarn)
    s.(configUnreachable) s.(paused) (Some l) s.(rc_log).
Definition log (e : log_event) (s : RC) : RC :=
  mkRC s.(Policy) s.(rc_dir) s.(rc_cur) s.(lastConfigAttempt) s.(lastStaleWarn)
    s.(configUnreachable) s.(paused) s.(appliedLogging) (s.(rc_log) ++ [e]).

Definition cachePath : string := "remote-config.json".
Definition cacheBadPath : string := "remote-config.bad.json".
Definition cachePrevPath : string := "remote-config.prev.json".

Definition staleWarnEvery : duration := 24 * hour.

(** [configCandidate]. *)
Record configCandidate := mkCandidate { cand_name : string; cand_base : string }.

(** What one refresh meets: the clock, whether the service is stopping when
    the [n]-th candidate is about to be asked, the answer it gives, and the
    outcome of writing the cache. *)
Record refresh_env := mkRefreshEnv {
  re_now : time;
  re_cancelled : nat -> bool;
  re_answer : nat -> string -> string -> result fetch_error ConfigResponse;
  re_fault : option save_fault;
  re_rand : string
}.

Section Service.
Context `{VersionLib}.
Variable cfg : Config.
Variable Defaults_ : Defaults.
(** The number of bytes [json.Marshal] writes for a value. *)
Variable json_size : json -> Z.

Definition fallback : Snapshot :=
  mkSnapshot (FromLegacy cfg Defaults_) SourceDefault zero_time "" "".

(** [initPolicy]. *)
Definition initPolicy (read_fails quarantine_fails : bool) (s : RC) : RC :=
  match s.(Policy) with
  | Some _ => s
  | None =>
      if negb cfg.(RemoteConfigEnabled) then set_policy (NewStore fallback) s
      else match LoadCache read_fails cachePath s.(rc_dir) with
      | Err _ => set_policy (NewStore fallback)
                   (set_dir (QuarantineCache quarantine_fails cachePath cacheBadPath s.(rc_dir)).2 s)
      | Ok None => set_policy (NewStore fallback) s
      | Ok (Some cache) =>
          let document := from_opt JNull cache.(cf_Document) in
          match PolicyParse.Parse (Blob (json_size document) (Some document)) Defaults_ with
          | Err _ => set_policy (NewStore fallback)
                       (set_dir (QuarantineCache quarantine_fails cachePath cacheBadPath s.(rc_dir)).2
                          (log EvRejected s))
          | Ok parsed =>
              let snap := mkSnapshot parsed SourceCache cache.(cf_FetchedAt)
                            cache.(cf_FetchedFrom) cache.(cf_ETag) in
              log (EvApplied (sn_Revision snap)) (set_policy (NewStore snap) s)
          end
      end
  end.

(** The current snapshot; [initPolicy] runs before every other method. *)
Definition current_snapshot (s : RC) : Snapshot := from_opt fallback (Current <$> s.(Policy)).

(** The closure [add] of [configCandidates]. *)
Definition add_candidate (name base : string) (acc : list configCandidate * gset string) :
    list configCandidate * gset string :=
  let '(out, seen) := acc in
  let base := trim_slashes base in
  if (base =s "") || bool_decide (base ∈ seen) then acc
  else (out ++ [mkCandidate name base], {[ base ]} ∪ seen).

(** The part of [configCandidates] the policy names: the host's chain, then
    the default server; nothing when the policy cannot be evaluated. *)
Definition policy_candidates (now : time) (s : RC) : list configCandidate * gset string :=
  let host := match s.(rc_cur) with
              | Some c => c.(cyc_host)
              | None => mkHost "" "" "" "" [] now
              end in
  match effective (current_snapshot s).(sn_Parsed) host with
  | (e, None) =>
      let acc := foldl (fun acc name => add_candidate name (BaseURL e name) acc) ([], ∅)
                   (Chain e host).2 in
      if e.(Doc).(DefaultServer) =s "" then acc
      else add_candidate e.(Doc).(DefaultServer) (BaseURL e e.(Doc).(DefaultServer)) acc
  | (_, Some _) => ([], ∅)
  end.

(** [configCandidates]: then the endpoints of config.ini. *)
Definition configCandidates (now : time) (s : RC) : list configCandidate :=
  (foldl (fun acc ep => add_candidate ep ep acc) (policy_candidates now s)
     cfg.(RemoteConfigEndpoints)).1.

(** [saveCache]. *)
Definition saveCache (env : refresh_env) (snap : Snapshot) (s : RC) : RC :=
  if bool_decide (snap.(sn_Source) = SourceDefault) then s
  else
    let raw := enc snap.(sn_Parsed).(Global) in
    set_dir (SaveCache env.(re_fault) env.(re_rand) cachePath
               (mkCacheFile snap.(FetchedAt) snap.(FetchedFrom) snap.(ETag) (Some raw))
               s.(rc_dir)).2 s.

(** [confirmSnapshot]. *)
Definition confirmSnapshot (env : refresh_env) (snap : Snapshot) (from : string) (s : RC) : RC :=
  let fresh := mkSnapshot snap.(sn_Parsed) SourceRemote env.(re_now) from snap.(ETag) in
  saveCache env fresh (set_policy (NewStore fresh) s).

(** [acceptDocument]. *)
Definition acceptDocument (env : refresh_env) (resp : ConfigResponse) (from : string) (s : RC) : RC :=
  let cur := current_snapshot s in
  match PolicyParse.Parse (from_opt (Blob 0 None) resp.(Body)) Defaults_ with
  | Err _ => log EvRejected s
  | Ok parsed =>
      if negb (bool_decide (cur.(sn_Source) = SourceDefault)) &&
         (parsed.(Global).(Revision) <? sn_Revision cur)
      then s
      else
        let snap := mkSnapshot parsed SourceRemote env.(re_now) from resp.(cr_ETag) in
        log (EvApplied (sn_Revision snap)) (saveCache env snap (set_policy (NewStore snap) s))
  end.

(** The loop of [refreshConfig] over the candidates. *)
Fixpoint refresh_loop (env : refresh_env) (snap : Snapshot) (etag : string) (n : nat)
    (cands : list configCandidate) (s : RC) : RC :=
  match cands with
  | [] => if s.(configUnreachable) then s else set_unreachable true (log EvUnreachable s)
  | c :: rest =>
      if env.(re_cancelled) n then s
      else match env.(re_answer) n (c.(cand_base) +:+ cfg.(RemoteConfigRoute)) etag with
      | Err _ => refresh_loop env snap etag (S n) rest s
      | Ok resp =>
          let s := set_unreachable false s in
          if resp.(Status) =? 304 then confirmSnapshot env snap c.(cand_name) s
          else if resp.(Status) =? 204 then s
          else acceptDocument env resp c.(cand_name) s
      end
  end.

(** [refreshConfig]. *)
Definition refreshConfig (env : refresh_env) (force : bool) (s : RC) : RC :=
  if negb cfg.(RemoteConfigEnabled) then s
  else
    let snap := current_snapshot s in
    if negb force && negb (is_zero_time s.(lastConfigAttempt)) &&
       (t_sub env.(re_now) s.(lastConfigAttempt) <?
          Refresh_Interval snap.(sn_Parsed).(Global).(doc_Refresh))
    then s
    else
      let s := set_attempt env.(re_now) s in
      let etag := if bool_decide (snap.(sn_Source) = SourceDefault) then "" else snap.(ETag) in
      refresh_loop env snap etag 0 (configCandidates env.(re_now) s) s.

(** [retireCache]: the error and the directory. *)
Definition retireCache (fails : bool) (s : RC) : option string * RC :=
  match rename fails cachePath cachePrevPath s.(rc_dir) with
  | (Some "not exist", d) => (None, set_dir d s)
  | (e, d) => (e, set_dir d s)
  end.

(** [restoreCache]. *)
Definition restoreCache (fails : bool) (s : RC) : option string * RC :=
  match s.(rc_dir) !! cachePath with
  | Some _ => (None, s)
  | None =>
      match rename fails cachePrevPath cachePath s.(rc_dir) with
      | (Some "not exist", d) => (None, set_dir d s)
      | (e, d) => (e, set_dir d s)
      end
  end.

(** [applyLogging]. *)
Definition applyLogging (lg : LoggingSettings) (s : RC) : RC :=
  if bool_decide (s.(appliedLogging) = Some lg) then s
  else set_logging lg (log (EvLogging lg) s).

(** [warnIfStale]. *)
Definition warnIfStale (snap : Snapshot) (now : time) (s : RC) : RC :=
  if negb (Stale snap now) then set_stalewarn zero_time s
  else if negb (is_zero_time s.(lastStaleWarn)) &&
          (t_sub now s.(lastStaleWarn) <? staleWarnEvery) then s
  else log EvStale (set_stalewarn now s).

(** [applyControlGate]: whether the update machinery may run. *)
Definition applyControlGate (cyc : cycleState) (s : RC) : bool * RC :=
  let '(enabled, _) := UpdaterEnabled cyc.(cyc_eff) cyc.(cyc_host).(h_Now) in
  let s := if negb enabled && negb s.(paused) then log (EvGate true) s
           else if enabled && s.(paused) then log (EvGate false) s
           else s in
  (enabled, set_paused (negb enabled) s).

(** [describeChain]. *)
Definition describeChain (eff : Effective) (chain : list string) : string :=
  join ", " ((fun name => name +:+ "(" +:+ ManifestURL eff name +:+ ")") <$> chain).

(** [ipc.PolicyView]; the source is the wire enumeration's. *)
Record PolicyView := mkPolicyView {
  DocumentJSON : json;
  pv_Revision : Z;
  pv_GeneratedAt : string;
  pv_FetchedAt : time;
  pv_Source : Source;
  pv_Stale : bool;
  HostWhitelisted : bool;
  pv_IPC : IPCProtocol
}.

(** The document EMLy gets: expiring blocks resolved, overrides dropped. *)
Definition view_document (eff : Effective) (now : time) : Document :=
  let d := eff.(Doc) in
  let c := mkControl (if (UpdaterEnabled eff now).1 then mkControlUpdater true None None
                      else d.(doc_Control).(ctl_Updater)) (AppControl eff now) in
  mkDocument d.(doc_SchemaVersion) d.(Revision) d.(GeneratedAt) d.(doc_Refresh) d.(Servers)
    d.(DefaultServer) d.(doc_IPCProtocol) d.(DCLookupMap) d.(doc_HostIntegrity) c d.(doc_Updater)
    d.(doc_Logging) d.(ClientWS) None.

(** [policyView]. *)
Definition policyView (hwid hostname : string) (now : time) (s : RC) : option PolicyView :=
  match s.(Policy) with
  | None => None
  | Some store =>
      let '(snap, eff, host) :=
        match s.(rc_cur) with
        | Some c => (c.(cyc_snap), c.(cyc_eff), c.(cyc_host))
        | None =>
            let snap := Current store in
            let host := mkHost hwid hostname "" "" [] now in
            (snap, (effective snap.(sn_Parsed) host).1, host)
        end in
      Some (mkPolicyView (enc (view_document eff now)) (sn_Revision snap) (sn_GeneratedAt snap)
              snap.(FetchedAt) snap.(sn_Source) (Stale snap now) (IsWhitelisted eff host)
              eff.(Doc).(doc_IPCProtocol))
  end.
End Service.

(** * What a refresh can do to the policy *)

Section Refresh.
Context `{VersionLib}.
Variable cfg : Config.
Variable D : Defaults.

(** The only two ways a snapshot is replaced. *)
Inductive snap_next (env : refresh_env) (cur : Snapshot) : Snapshot -> Prop :=
| SnapSame : snap_next env cur cur
| SnapConfirmed from :
    snap_next env cur (mkSnapshot cur.(sn_Parsed) SourceRemote env.(re_now) from cur.(ETag))
| SnapAccepted body parsed from etag :
    PolicyParse.Parse body D = Ok parsed ->
    (cur.(sn_Source) <> SourceDefault -> sn_Revision cur <= parsed.(Global).(Revision)) ->
    snap_next env cur (mkSnapshot parsed SourceRemote env.(re_now) from etag).

Lemma saveCache_policy env snap s :
  current_snapshot cfg D (saveCache env snap s) = current_snapshot cfg D s.
Proof. unfold saveCache. by case_bool_decide. Qed.

Lemma acceptDocument_next env resp from s :
  snap_next env (current_snapshot cfg D s)
    (current_snapshot cfg D (acceptDocument cfg D env resp from s)).
Proof.
  unfold acceptDocument. destruct (PolicyParse.Parse _ D) as [parsed|ps] eqn:E; [|constructor].
  destruct (negb _ && _) eqn:Eold; [constructor|].
  change (snap_next env (current_snapshot cfg D s) (current_snapshot cfg D
    (saveCache env (mkSnapshot parsed SourceRemote env.(re_now) from resp.(cr_ETag))
       (set_policy (NewStore (mkSnapshot parsed SourceRemote env.(re_now) from resp.(cr_ETag))) s)))).
  rewrite saveCache_policy. eapply SnapAccepted; [exact E|]. intros Hs.
  rewrite bool_decide_false in Eold by done. by apply Z.ltb_ge in Eold.
Qed.

Lemma refresh_loop_next env snap etag cands : forall n s,
  current_snapshot cfg D s = snap ->
  snap_next env snap (current_snapshot cfg D (refresh_loop cfg D env snap etag n cands s)).
Proof.
  induction cands as [|c rest IH]; intros n s Hs; cbn [refresh_loop].
  - destruct (configUnreachable s); rewrite <-Hs; constructor.
  - destruct (re_cancelled env n); [rewrite <-Hs; constructor|].
    destruct (re_answer env n _ etag) as [resp|]; [|by apply IH].
    cbv zeta. destruct (Status resp =? 304).
    + unfold confirmSnapshot. rewrite saveCache_policy. apply SnapConfirmed.
    + destruct (Status resp =? 204); [rewrite <-Hs; constructor|].
      rewrite <-Hs. apply (acceptDocument_next env resp (cand_name c) (set_unreachable false s)).
Qed.

Lemma refreshConfig_next env force s :
  snap_next env (current_snapshot cfg D s)
    (current_snapshot cfg D (refreshConfig cfg D env force s)).
Proof.
  unfold refreshConfig. destruct (negb _); [constructor|]. cbv zeta.
  destruct (_ && _); [constructor|]. by apply refresh_loop_next.
Qed.

(** A policy is the default one or a validated document. *)
Definition policy_ok (p : Parsed) : Prop := p = FromLegacy cfg D \/ ParsedOk D p.

Lemma policy_revision p : policy_ok p -> 0 <= p.(Global).(Revision).
Proof.
  intros [->|HP].
  - by destruct (FromLegacy_doc cfg D) as (_ & _ & _ & -> & _).
  - destruct HP as [HG _ _ _ _ _ _ _]. by destruct (ok_revision _ _ HG eq_refl).
Qed.

(** What holds of the policy in force from the start on. *)
Definition policy_good (s : RC) : Prop :=
  policy_ok (current_snapshot cfg D s).(sn_Parsed) /\
  ((current_snapshot cfg D s).(sn_Source) = SourceDefault ->
     sn_Revision (current_snapshot cfg D s) = 0).

Lemma refreshConfig_good env force s : policy_good s ->
  let s1 := refreshConfig cfg D env force s in
  policy_good s1 /\
  sn_Revision (current_snapshot cfg D s) <= sn_Revision (current_snapshot cfg D s1) /\
  ((current_snapshot cfg D s).(sn_Source) <> SourceDefault ->
     (current_snapshot cfg D s1).(sn_Source) <> SourceDefault).
Proof.
  intros [Hok Hdef]. cbv zeta. unfold policy_good.
  destruct (refreshConfig_next env force s) as [|from|body parsed from etag Hp Hr]; [done|done|].
  apply Parse_ok in Hp. cbn. split_and!; try done; [by right|].
  destruct (decide ((current_snapshot cfg D s).(sn_Source) = SourceDefault)) as [E|E].
  - rewrite (Hdef E). apply (policy_revision parsed). by right.
  - by apply Hr.
Qed.

(** A service run: refreshes one after the other. *)
Fixpoint refreshes (l : list (refresh_env * bool)) (s : RC) : RC :=
  match l with
  | [] => s
  | (env, force) :: rest => refreshes rest (refreshConfig cfg D env force s)
  end.

(** C12: however the servers answer - old documents, invalid documents,
    unreachable hosts, revalidations - the policy of a running service is the
    default one or a document that passed validation, its revision never goes
    back, and once a remote or cached document is in force no refresh returns
    to the default policy. *)
Theorem refresh_monotone (l : list (refresh_env * bool)) (s : RC) :
  policy_ok (current_snapshot cfg D s).(sn_Parsed) ->
  ((current_snapshot cfg D s).(sn_Source) = SourceDefault ->
     sn_Revision (current_snapshot cfg D s) = 0) ->
  let before := current_snapshot cfg D s in
  let after := current_snapshot cfg D (refreshes l s) in
  policy_ok after.(sn_Parsed) /\ sn_Revision before <= sn_Revision after /\
  (before.(sn_Source) <> SourceDefault -> after.(sn_Source) <> SourceDefault).
Proof.
  cbv zeta. revert s. induction l as [|[env force] l IH]; intros s Hok Hdef; [done|].
  cbn [refreshes]. destruct (refreshConfig_good env force s) as ([Hok1 Hd1] & Hr1 & Hs1); [done|].
  destruct (IH _ Hok1 Hd1) as (Hok2 & Hr2 & Hs2). split_and!; [done|lia|tauto].
Qed.

(** The start: the cached document, validated again, or the default policy. *)
Lemma initPolicy_good size read_fails quarantine_fails s : s.(Policy) = None ->
  policy_good (initPolicy cfg D size read_fails quarantine_fails s).
Proof.
  intros Hs. unfold initPolicy. rewrite Hs.
  assert (Hf : forall s', policy_good (set_policy (NewStore (fallback cfg D)) s')).
  { intros s'. unfold policy_good. cbn. split; [by left|]. intros _.
    change (Revision (Global (FromLegacy cfg D)) = 0). by destruct (FromLegacy_doc cfg D) as (_ & _ & _ & -> & _). }
  destruct (negb _); [apply Hf|]. destruct (LoadCache _ _ _) as [[cache|]|]; try apply Hf.
  destruct (PolicyParse.Parse _ D) as [parsed|] eqn:E; [|apply Hf].
  unfold policy_good. cbn. split; [|done]. right. by eapply Parse_ok.
Qed.

(** ** Candidates *)

Lemma add_candidate_inv name base acc :
  NoDup (cand_base <$> acc.1) -> (forall b, b ∈ cand_base <$> acc.1 -> b ∈ acc.2) ->
  Forall (fun c => c.(cand_base) <> "") acc.1 ->
  let acc' := add_candidate name base acc in
  NoDup (cand_base <$> acc'.1) /\ (forall b, b ∈ cand_base <$> acc'.1 -> b ∈ acc'.2) /\
  Forall (fun c => c.(cand_base) <> "") acc'.1.
Proof.
  unfold add_candidate. destruct acc as [out seen]. cbn [fst snd]. intros Hn Hs Hf.
  destruct (trim_slashes base =s "") eqn:E; [done|]. cbn [orb]. case_bool_decide as Hin; [done|].
  apply str_eqb_neq in E. cbn [fst snd]. rewrite fmap_app. split_and!.
  - apply NoDup_app. split_and!; [done| |apply NoDup_singleton].
    intros b Hb Hb'. apply list_elem_of_singleton in Hb' as ->. by apply Hin, Hs.
  - intros b [Hb|Hb]%elem_of_app; [set_solver|]. apply list_elem_of_singleton in Hb as ->. set_solver.
  - apply Forall_app. by split; [|constructor].
Qed.

Lemma add_candidates_inv {A} (f g : A -> string) (l : list A) acc :
  NoDup (cand_base <$> acc.1) -> (forall b, b ∈ cand_base <$> acc.1 -> b ∈ acc.2) ->
  Forall (fun c => c.(cand_base) <> "") acc.1 ->
  let acc' := foldl (fun acc x => add_candidate (f x) (g x) acc) acc l in
  NoDup (cand_base <$> acc'.1) /\ (forall b, b ∈ cand_base <$> acc'.1 -> b ∈ acc'.2) /\
  Forall (fun c => c.(cand_base) <> "") acc'.1.
Proof.
  revert acc. induction l as [|x l IH]; intros acc Hn Hs Hf; [done|]. cbn [foldl].
  destruct (add_candidate_inv (f x) (g x) acc Hn Hs Hf) as (? & ? & ?). by apply IH.
Qed.

Lemma policy_candidates_inv now s :
  NoDup (cand_base <$> (policy_candidates cfg D now s).1) /\
  (forall b, b ∈ cand_base <$> (policy_candidates cfg D now s).1 ->
     b ∈ (policy_candidates cfg D now s).2) /\
  Forall (fun c => c.(cand_base) <> "") (policy_candidates cfg D now s).1.
Proof.
  assert (H0 : NoDup (cand_base <$> ([] : list configCandidate)) /\
    (forall b, b ∈ cand_base <$> ([] : list configCandidate) -> b ∈ (∅ : gset string)) /\
    Forall (fun c => c.(cand_base) <> "") []).
  { split_and!; [constructor|set_solver|constructor]. }
  unfold policy_candidates. destruct (effective _ _) as [e [err|]]; [done|]. cbv zeta.
  destruct H0 as (? & ? & ?).
  destruct (add_candidates_inv (fun n => n) (BaseURL e) (Chain e
    match s.(rc_cur) with Some c => c.(cyc_host) | None => mkHost "" "" "" "" [] now end).2
    ([], ∅)) as (? & ? & ?); [done..|].
  destruct (DefaultServer (Doc e) =s ""); [done|]. by apply add_candidate_inv.
Qed.

(** The list of servers asked for the document never repeats a base URL
    and never holds an empty one, so a refresh asks each server at most
    once. *)
Theorem candidates_distinct (now : time) (s : RC) :
  NoDup (cand_base <$> configCandidates cfg D now s) /\
  Forall (fun c => c.(cand_base) <> "") (configCandidates cfg D now s).
Proof.
  destruct (policy_candidates_inv now s) as (? & ? & ?).
  by destruct (add_candidates_inv (fun ep => ep) (fun ep => ep) (RemoteConfigEndpoints cfg)
    (policy_candidates cfg D now s)) as (? & _ & ?).
Qed.

(** ** The control gate *)

(** The transitions logged, newest last. *)
Definition gate_events (l : list log_event) : list bool :=
  omap (fun e => match e with EvGate b => Some b | _ => None end) l.

(** Alternating, the last one being the current state. *)
Fixpoint alternates (last : bool) (l : list bool) : Prop :=
  match l with
  | [] => True
  | b :: r => b = negb last /\ alternates b r
  end.

Fixpoint gates (l : list cycleState) (s : RC) : list bool * RC :=
  match l with
  | [] => ([], s)
  | c :: rest => let '(b, s) := applyControlGate c s in
                 let '(bs, s) := gates rest s in (b :: bs, s)
  end.

Lemma gate_events_app a b : gate_events (a ++ b) = gate_events a ++ gate_events b.
Proof. apply omap_app. Qed.

(** the control gate lets the update machinery run exactly in the cycles
    whose policy has it enabled, and reports the changes only: over any run of
    cycles the pause and resume events strictly alternate, and the last one
    tells the state the service is in. *)
Theorem gate_transitions (l : list cycleState) (s : RC) :
  (gates l s).1 = (fun c => (UpdaterEnabled c.(cyc_eff) c.(cyc_host).(h_Now)).1) <$> l /\
  exists evs, (gates l s).2.(rc_log) = s.(rc_log) ++ (EvGate <$> evs) /\
    alternates s.(paused) evs /\
    (gates l s).2.(paused) = from_opt s.(paused) (last evs).
Proof.
  revert s. induction l as [|c l IH]; intros s.
  - split; [done|]. exists []. by rewrite app_nil_r.
  - cbn [gates]. unfold applyControlGate.
    destruct (UpdaterEnabled _ _) as [en reason] eqn:E.
    set (s1 := set_paused (negb en) _).
    destruct (gates l s1) as [bs s2] eqn:Eg. destruct (IH s1) as (H1 & evs & Hl & Ha & Hp).
    rewrite Eg in *. cbn [fst snd] in *. split; [by rewrite fmap_cons, E, H1|].
    destruct (decide (paused s = negb en)) as [Es|Es].
    + exists evs. assert (s1 = set_paused (negb en) s) as Hs1.
      { unfold s1. rewrite Es. by destruct en. }
      rewrite Hs1 in *. cbn in *. rewrite Es. by split_and!.
    + exists (negb en :: evs).
      assert (s1 = set_paused (negb en) (log (EvGate (negb en)) s)) as Hs1.
      { unfold s1. by destruct en, (paused s). }
      rewrite Hs1 in *. cbn [set_paused log rc_log paused] in *.
      rewrite Hl, <-app_assoc. split; [done|]. split.
      * cbn [alternates]. split; [by destruct en, (paused s)|done].
      * rewrite Hp. clear. destruct evs as [|x evs]; [done|]. cbn [last from_opt].
        by destruct (last_is_Some (x :: evs)) as [_ [y ->]].
Qed.
End Refresh.

(** * The cache across a restart *)

(** What a selector's encoding says under the "all" key. *)
Lemma enc_selector_all (x : Selector) :
  exists m, enc x = JObj m /\ m !! "all" = Some (JBool x.(sel_All)).
Proof. eexists. split; [reflexivity|]. reflexivity. Qed.

(** A selector written back by the encoder with [all] false is refused. *)
Lemma encoded_selector_rejected (s x : Selector) path allowAll :
  (allowAll = true -> x.(sel_All) = false) -> validateSelector s (enc x) path allowAll <> [].
Proof.
  intros Ha. destruct (enc_selector_all x) as (m & -> & Hm). unfold validateSelector. cbv zeta.
  erewrite (map_lookup_filter_Some_2 _ m "all"); [|exact Hm|reflexivity].
  destruct allowAll; cbn [negb]; [|done]. by rewrite Ha.
Qed.

Lemma override_except m (o : Override) (x : Selector) :
  dec (JObj m) = Some o -> m !! "except" = Some (enc x) -> exists x', o.(Except) = Some x'.
Proof.
  cbn [dec Override_codec dec_struct]. intros Hd Hx.
  destruct (field m "id") as [v0|]; [|done]. cbn [mbind option_bind] in Hd.
  destruct (field m "match") as [v1|]; [|done]. cbn [mbind option_bind] in Hd.
  destruct (field m "except") as [e|] eqn:E; [|done]. cbn [mbind option_bind] in Hd.
  assert (Hj : exists j, enc x = JObj j) by (eexists; reflexivity). destruct Hj as [j Hj].
  unfold field in E. rewrite Hx, Hj in E. cbn [dec pointer_codec] in E.
  destruct (dec (JObj j)) as [x'|]; [|done]. injection E as <-.
  destruct (field m "until"); [|done]. cbn [mbind option_bind] in Hd.
  destruct (match m !! "patch" with None => _ | Some j => _ end); [|done].
  injection Hd as <-. by exists x'.
Qed.

Lemma encoded_override_rejected seen i (o : Override) :
  o.(Match).(sel_All) = false \/ o.(Except) <> None -> (parseOverride seen i (enc o)).1.2 <> [].
Proof.
  intros Ho.
  assert (H : exists m, enc o = JObj m /\ m !! "match" = Some (enc o.(Match)) /\
                        m !! "except" = Some (enc o.(Except))) by (eexists; split_and!; reflexivity).
  destruct H as (m & -> & Hmatch & Hexc).
  unfold parseOverride. destruct (dec (JObj m)) as [o'|] eqn:Hd; [|done].
  cbn [fst snd]. rewrite Hmatch, Hexc. intros H.
  apply app_nil in H as [_ H]. apply app_nil in H as [H1 H]. apply app_nil in H as [H2 _].
  destruct Ho as [Ha|Hx].
  - exact (encoded_selector_rejected o'.(Match) o.(Match) _ true (fun _ => Ha) H1).
  - destruct (Except o) as [x|]; [|exact (Hx eq_refl)]. cbn [enc pointer_codec] in Hexc, H2.
    destruct (override_except m o' x Hd Hexc) as [x' Hx']. rewrite Hx' in H2.
    assert (Hj : exists j, enc x = JObj j) by (eexists; reflexivity).
    destruct Hj as [j Hj].
    apply (encoded_selector_rejected x' x (("/overrides/" +:+ itoa i) +:+ "/except") false); [done|].
    rewrite Hj in *. exact H2.
Qed.

Lemma encoded_overrides_rejected (os : list Override) o : o ∈ os ->
  o.(Match).(sel_All) = false \/ o.(Except) <> None ->
  forall seen i, (parseOverrideList seen i (enc <$> os)).2 <> [].
Proof.
  intros Hin. induction Hin as [o os|o o' os Hin IH]; intros Ho seen i; cbn [fmap list_fmap parseOverrideList].
  - pose proof (encoded_override_rejected seen i o Ho) as H.
    destruct (parseOverride seen i (enc o)) as [[r ps] seen'].
    destruct (parseOverrideList seen' _ _) as [l ps']. cbn [fst snd] in *.
    intros E. apply app_nil in E as [E _]. exact (H E).
  - destruct (parseOverride seen i (enc o')) as [[r ps] seen'].
    specialize (IH Ho seen' (i + 1)). destruct (parseOverrideList seen' _ _) as [l ps'].
    cbn [fst snd] in *. intros E. apply app_nil in E as [_ E]. exact (IH E).
Qed.

Lemma encoded_document_rejected `{VersionLib} (D : Defaults) (d : Document) (o : Override) size :
  o ∈ sl d.(Overrides) -> o.(Match).(sel_All) = false \/ o.(Except) <> None ->
  exists ps, PolicyParse.Parse (Blob size (Some (enc d))) D = Err ps.
Proof.
  intros Hin Ho. destruct (PolicyParse.Parse _ D) as [p|ps] eqn:E; [exfalso|by eexists].
  apply Parse_inv in E as (_ & raw & doc & os & Hr & _ & _ & _ & Hp & _).
  cbn [blob_json] in Hr.
  assert (H1 : exists m, enc d = JObj m /\ m !! "overrides" = Some (@enc _ (slice_codec _) d.(Overrides)))
    by (eexists; split; reflexivity).
  destruct H1 as (m & Hm & Hov). rewrite Hm in Hr. injection Hr as <-. rewrite Hov in Hp.
  destruct (Overrides d) as [l|]; cbn [sl from_opt] in Hin; [|by apply elem_of_nil in Hin].
  cbn [enc slice_codec parseOverrides] in Hp.
  pose proof (encoded_overrides_rejected l o Hin Ho ∅ 0) as Hne.
  destruct (parseOverrideList ∅ 0 (enc <$> l)) as [l' ps]. injection Hp as _ Hps. exact (Hne Hps).
Qed.

Lemma LoadCache_encoded (d : dir) (c : CacheFile) doc :
  d !! cachePath = Some (Some (enc_cache c)) -> c.(cf_Document) = Some doc ->
  (exists e, LoadCache false cachePath d = Err e) \/
  (exists f, LoadCache false cachePath d = Ok (Some f) /\ f.(cf_Document) = Some doc).
Proof.
  intros Hd Hc. unfold LoadCache. rewrite Hd. cbn [mbind option_bind].
  assert (Hm : exists m, enc_cache c = JObj m /\ m !! "document" = Some doc).
  { unfold enc_cache. rewrite Hc. destruct (cf_ETag c =s ""); eexists; (split; reflexivity). }
  destruct Hm as (m & -> & Hm). unfold dec_cache, dec_struct.
  destruct (@field _ time_codec m "fetchedAt") as [a|]; [|left; by eexists].
  destruct (field m "fetchedFrom") as [b|]; [|left; by eexists].
  destruct (field m "etag") as [t|]; [|left; by eexists].
  right. cbn [mbind option_bind cf_Document]. rewrite Hm. eexists. split; [reflexivity|done].
Qed.

(** The service stopped and started again on the same directory. *)
Definition restarted (s : RC) : RC :=
  mkRC None s.(rc_dir) None zero_time zero_time false false None [].

(** the last-known-good document does not survive a restart when it has an
    override that is not an [all] one: the writer spells the selector's [all]
    field out as [false], the reader refuses a selector whose [all] is not
    [true], and the next start quarantines the file and runs on the default
    policy - although the document was accepted and in force. *)
Theorem cache_loses_overrides `{VersionLib} (cfg : Config) (D : Defaults) (size : json -> Z)
    (env : refresh_env) (snap : Snapshot) (s : RC) (o : Override) :
  cfg.(RemoteConfigEnabled) = true -> snap.(sn_Source) <> SourceDefault ->
  env.(re_fault) = None -> s.(rc_dir) !! ("remote-config-" +:+ env.(re_rand) +:+ ".tmp") = None ->
  o ∈ sl snap.(sn_Parsed).(Global).(Overrides) ->
  o.(Match).(sel_All) = false \/ o.(Except) <> None ->
  let s' := initPolicy cfg D size false false (restarted (saveCache env snap s)) in
  current_snapshot cfg D s' = fallback cfg D /\ s'.(rc_dir) !! cachePath = None /\
  is_Some (s'.(rc_dir) !! cacheBadPath).
Proof.
  intros Hen Hsrc Hf Htmp Hin Ho. unfold saveCache. rewrite bool_decide_false by done. cbv zeta.
  set (c := mkCacheFile _ _ _ _). unfold SaveCache. cbn [snd]. rewrite Hf, save_spec; [|done..].
  set (d1 := <[cachePath := Some (enc_cache c)]> (rc_dir s)).
  change (restarted _) with (mkRC None d1 None zero_time zero_time false false None []).
  assert (Hquar : (QuarantineCache false cachePath cacheBadPath d1).2 =
    <[cacheBadPath := Some (enc_cache c)]> (delete cachePath (delete cacheBadPath d1))).
  { unfold QuarantineCache, rename. rewrite lookup_delete_ne by done. unfold d1 at 1.
    by rewrite lookup_insert_eq. }
  assert (Hend : forall l, let s' := set_policy (NewStore (fallback cfg D)) (set_dir
     (QuarantineCache false cachePath cacheBadPath d1).2
     (mkRC None d1 None zero_time zero_time false false None l)) in
    current_snapshot cfg D s' = fallback cfg D /\ s'.(rc_dir) !! cachePath = None /\
    is_Some (s'.(rc_dir) !! cacheBadPath)).
  { intros l. rewrite Hquar. cbn [set_policy set_dir rc_dir]. split_and!; [done| |].
    - by rewrite lookup_insert_ne, lookup_delete_eq.
    - by rewrite lookup_insert_eq. }
  unfold initPolicy. cbn [Policy rc_dir]. rewrite Hen. cbn [negb].
  destruct (LoadCache_encoded d1 c (enc snap.(sn_Parsed).(Global))) as [[e ->]|(f & -> & Hdoc)];
    [by apply lookup_insert_eq|done|apply (Hend [])|].
  rewrite Hdoc. cbn [from_opt].
  destruct (encoded_document_rejected D _ o (size (enc snap.(sn_Parsed).(Global))) Hin Ho) as [ps ->].
  apply (Hend [EvRejected]).
Qed.

(** undoing a retirement gives the cache back whenever there was one to
    move. With nothing to move the retirement succeeds too, and undoing it
    then promotes whatever an earlier retirement left behind: a document of
    any age becomes the last-known-good one. *)
Theorem retire_restore (s : RC) :
  let '(e1, s1) := retireCache false s in
  let '(e2, s2) := restoreCache false s1 in
  e1 = None /\ e2 = None /\
  s2.(rc_dir) !! cachePath =
    match s.(rc_dir) !! cachePath with
    | Some c => Some c
    | None => s.(rc_dir) !! cachePrevPath
    end.
Proof.
  unfold retireCache, restoreCache, rename. cbn [negb].
  destruct (rc_dir s !! cachePath) as [c|] eqn:E; cbn [set_dir rc_dir].
  - rewrite lookup_insert_ne, lookup_delete_eq, lookup_insert_eq by done. cbn [set_dir rc_dir].
    by rewrite lookup_insert_eq.
  - rewrite E. destruct (rc_dir s !! cachePrevPath) as [c|] eqn:Ep; cbn [set_dir rc_dir].
    + by rewrite lookup_insert_eq.
    + by rewrite E.
Qed.

(** * Witnesses, on the fixture document of [PolicyProps] *)

#[local] Existing Instance Dotted.lib.

Module Run.
Definition D : Defaults := Fixture.defaults.
Definition cfg : Config := ex_config.
(** A service that has just started without a cache. *)
Definition s0 : RC := restarted (mkRC None ∅ None 0 0 false false None []).
(** Every server answers the fixture document. *)
Definition env : refresh_env := mkRefreshEnv Fixture.now (fun _ => false)
  (fun _ _ _ => Ok (mkConfigResponse 200 (Some Fixture.data) "tag-1")) None "1".
Definition snap : Snapshot := mkSnapshot Fixture.parsed SourceRemote Fixture.now "main" "tag-1".
End Run.

Lemma refresh_monotone_witness :
  sn_Revision (current_snapshot Run.cfg Run.D
    (refreshes Run.cfg Run.D [(Run.env, false); (Run.env, true)] Run.s0)) = 7 /\
  sn_Revision (current_snapshot Run.cfg Run.D Run.s0) <=
  sn_Revision (current_snapshot Run.cfg Run.D
    (refreshes Run.cfg Run.D [(Run.env, false); (Run.env, true)] Run.s0)).
Proof.
  split; [vm_compute; reflexivity|].
  apply (refresh_monotone Run.cfg Run.D [(Run.env, false); (Run.env, true)] Run.s0).
  - left. reflexivity.
  - intros _. vm_compute. reflexivity.
Defined.

Lemma cache_loses_overrides_witness :
  current_snapshot Run.cfg Run.D (initPolicy Run.cfg Run.D (fun _ => 900) false false
    (restarted (saveCache Run.env Run.snap Run.s0))) = fallback Run.cfg Run.D.
Proof.
  apply (cache_loses_overrides Run.cfg Run.D (fun _ => 900) Run.env Run.snap Run.s0
    (from_opt zero (head (sl Run.snap.(sn_Parsed).(Global).(Overrides))))).
  - reflexivity.
  - discriminate.
  - reflexivity.
  - reflexivity.
  - vm_compute. left.
  - left. vm_compute. reflexivity.
Defined.
