(* ===== verification/MachineInfo.v ===== *)
(** internal/machineinfo: what the machine says about itself. The facts that
    come from Windows (WMI, SMBIOS, the registry, WTS, the network stack) are
    arguments; modelled here is everything the package does with them:
    normalising firmware strings and hardware ids, deciding whether the
    machine is domain-joined, choosing the session that answers "who is at
    this machine", decoding WTS records and session notifications.

    Upper-casing is ASCII. *)
From S2P Require Import Prelude Net.

Definition ascii_upper (c : ascii) : ascii :=
  let n := nat_of_ascii c in
  if (97 <=? n)%nat && (n <=? 122)%nat then ascii_of_nat (n - 32) else c.

(** [strings.ToUpper] on ASCII. *)
Definition to_upper (s : string) : string := string_map ascii_upper s.

(** Bytes a header field cannot carry. *)
Definition is_control (c : ascii) : bool :=
  let n := nat_of_ascii c in (n <? 32)%nat || (n =? 127)%nat.

(** [sanitizeHeaderValue]. *)
Fixpoint sanitizeHeaderValue (s : string) : string :=
  match s with
  | EmptyString => EmptyString
  | String c s' => if is_control c then sanitizeHeaderValue s' else String c (sanitizeHeaderValue s')
  end.

Definition newline : ascii := "010"%char.

(** * Machine facts *)

(** [Info]. *)
Record Info := mkInfo {
  i_Hostname : string;
  i_HWID : string;
  i_ADDomain : string;
  i_InternalIP : string;
  i_OSVersion : string;
  i_Serial : string;
  i_Product : string
}.

(** [DomainJoined]. *)
Definition DomainJoined (adDomain hostname : string) : bool :=
  let d := trim_space adDomain in
  if (d =s "") || equal_fold d "WORKGROUP" then false
  else negb (equal_fold d hostname).

(** [normalizeUUID]. *)
Definition normalizeUUID (s : string) : string :=
  let u := to_upper (trim_space s) in
  if (u =s "") || (u =s "00000000-0000-0000-0000-000000000000")
     || (u =s "FFFFFFFF-FFFF-FFFF-FFFF-FFFFFFFFFFFF")
  then "" else u.

(** The loop of [parseWMICUUID] over the lines. *)
Fixpoint wmic_lines (lines : list string) : string :=
  match lines with
  | [] => ""
  | line :: rest =>
      let line := trim_space line in
      if (line =s "") || equal_fold line "UUID" then wmic_lines rest else normalizeUUID line
  end.

(** [parseWMICUUID]. *)
Definition parseWMICUUID (out : string) : string := wmic_lines (split_byte newline out).

(** [smbiosUUID]: the outputs of wmic and of PowerShell, [None] when the
    command failed. *)
Definition smbiosUUID (wmic powershell : option string) : string :=
  let u := match wmic with Some out => parseWMICUUID out | None => "" end in
  if negb (u =s "") then u
  else match powershell with Some out => normalizeUUID out | None => "" end.

(** [hardwareID]; [protected] is the answer of [machineid.ProtectedID]. *)
Definition hardwareID (wmic powershell protected : option string) : option string :=
  let uuid := smbiosUUID wmic powershell in
  if negb (uuid =s "") then Some uuid else protected.

Definition firmwarePlaceholders : list string :=
  [""; "0"; "N/A"; "NA"; "NONE"; "NULL"; "INVALID"; "DEFAULT STRING"; "NOT SPECIFIED";
   "NOT APPLICABLE"; "NOT AVAILABLE"; "UNKNOWN"; "SYSTEM SERIAL NUMBER";
   "CHASSIS SERIAL NUMBER"; "BASE BOARD SERIAL NUMBER"; "TO BE FILLED BY O.E.M.";
   "TO BE FILLED BY O.E.M"; "SYSTEM SKU NUMBER"; "SKU"; "SKUNUMBER"; "OEM"; "O.E.M.";
   "OEM SERIAL NUMBER"; "SERIAL NUMBER"; "PRODUCT NUMBER"; "FILLED BY O.E.M.";
   "DEFAULT STRING SKU NUMBER"].

(** [normalizeFirmwareValue]. *)
Definition normalizeFirmwareValue (s : string) : string :=
  let v := trim_space (sanitizeHeaderValue s) in
  if bool_decide (to_upper v ∈ firmwarePlaceholders) then "" else v.

(** One line of the PowerShell answer: serial, SKU and system SKU so far. *)
Definition firmware_line (acc : string * string * string) (line : string) : string * string * string :=
  let '(serial, sku, sysSKU) := acc in
  let line := trim_space line in
  if has_prefix line "SERIAL=" then (normalizeFirmwareValue (trim_prefix line "SERIAL="), sku, sysSKU)
  else if has_prefix line "SKU=" then (serial, normalizeFirmwareValue (trim_prefix line "SKU="), sysSKU)
  else if has_prefix line "SYSSKU=" then (serial, sku, normalizeFirmwareValue (trim_prefix line "SYSSKU="))
  else acc.

(** [firmwareIdentifiers]: serial and product. *)
Definition firmwareIdentifiers (out : option string) : string * string :=
  match out with
  | None => ("", "")
  | Some out =>
      let '(serial, sku, sysSKU) := foldl firmware_line ("", "", "") (split_byte newline out) in
      if negb (sku =s "") then (serial, sku) else (serial, sysSKU)
  end.

(** [adDomain]. *)
Definition adDomain (out : option string) : option string := trim_space <$> out.

(** [getWindowsVersionInfo]; a registry value that cannot be read is empty or
    zero. *)
Definition getWindowsVersionInfo (product build display edition : string) (ubr : Z) : string :=
  let product := if negb (edition =s "") then product +:+ " " +:+ edition else product in
  let product :=
    if has_prefix display "2" then
      if String.leb "23" (trim_space (cut_byte "H"%char display).1.1) then "Windows 11" else product
    else product in
  product +:+ " " +:+ display +:+ " " +:+ edition +:+ " (Build " +:+ build +:+ "." +:+ pretty ubr +:+ ")".

(** * Network interfaces *)

(** [net.IP]: four bytes, or sixteen that are no IPv4 address, as text. *)
Inductive netip := IP4 (a : Z) | IP6 (text : string).

Inductive netaddr := AIPNet (ip : netip) | AIPAddr (ip : netip) | AOther.

Record netiface := mkIface {
  if_name : string;
  if_mac : string;
  if_up : bool;
  if_loopback : bool;
  if_addrs : option (list netaddr)
}.

Definition ip4_loopback (a : Z) : bool := Z.shiftr a 24 =? 127.

Definition iface_v4 (i : netiface) : list string :=
  if i.(if_loopback) || negb i.(if_up) then []
  else omap (fun a => match a with
                      | AIPNet (IP4 a) | AIPAddr (IP4 a) =>
                          if ip4_loopback a then None else Some (ip_string a)
                      | _ => None
                      end) (from_opt [] i.(if_addrs)).

(** [LocalIPv4Addresses]; [None] when the interfaces cannot be listed. *)
Definition LocalIPv4Addresses (ifs : option (list netiface)) : option (list string) :=
  (fun l => concat (iface_v4 <$> l)) <$> ifs.

(** [internalIP]. *)
Definition internalIP (ifs : option (list netiface)) : option string :=
  (fun ips => from_opt "" (head ips)) <$> LocalIPv4Addresses ifs.

(** [NetInterface]. *)
Record NetInterface := mkNetInterface {
  ni_Name : string;
  MAC : string;
  IPv4 : list string;
  IPv6 : list string
}.

(** [interfacesFrom]. *)
Definition interfacesFrom (ifs : list netiface) : list NetInterface :=
  omap (fun i =>
    if negb i.(if_up) || i.(if_loopback) then None
    else
      let l := from_opt [] i.(if_addrs) in
      Some (mkNetInterface i.(if_name) (to_upper i.(if_mac))
        (omap (fun a => match a with AIPNet (IP4 a) => Some (ip_string a) | _ => None end) l)
        (omap (fun a => match a with AIPNet (IP6 t) => Some t | _ => None end) l))) ifs.

(** [NetworkInterfaces]. *)
Definition NetworkInterfaces (ifs : option (list netiface)) : list NetInterface :=
  from_opt [] (interfacesFrom <$> ifs).

(** What [Collect] asks of the machine. *)
Record probes := mkProbes {
  p_hostname : option string;
  p_wmic : option string;
  p_powershell : option string;
  p_protected : option string;
  p_domain : option string;
  p_ifaces : option (list netiface);
  p_product : string;
  p_build : string;
  p_display : string;
  p_edition : string;
  p_ubr : Z;
  p_firmware : option string
}.

(** [Collect]: a fact that cannot be read is left empty. *)
Definition Collect (p : probes) : Info :=
  let '(serial, product) := firmwareIdentifiers p.(p_firmware) in
  mkInfo (from_opt "" p.(p_hostname))
    (from_opt "" (hardwareID p.(p_wmic) p.(p_powershell) p.(p_protected)))
    (from_opt "" (adDomain p.(p_domain)))
    (from_opt "" (internalIP p.(p_ifaces)))
    (sanitizeHeaderValue (getWindowsVersionInfo p.(p_product) p.(p_build) p.(p_display)
                            p.(p_edition) p.(p_ubr)))
    serial product.

(** [DomainControllerInfo], the UNC prefix already trimmed. *)
Record DomainControllerInfo := mkDC {
  dc_Name : string;
  dc_Site : string;
  dc_Address : string;
  AddressIsIP : bool
}.

(** [trimUNCPrefix]. *)
Definition trimUNCPrefix (name : string) : string := trim_prefix name "\\".

(** * Sessions *)

Definition WTSActive : Z := 0.
Definition WTSDisconnected : Z := 4.
Definition noActiveConsole : Z := 4294967295.

(** [SessionState]; the empty string is [NoSession]. *)
Inductive SessionState := NoSession | SessionActiveConsole | SessionActiveRDP | SessionDisconnected.

Definition SessionState_text (s : SessionState) : string :=
  match s with
  | NoSession => "" | SessionActiveConsole => "active-console"
  | SessionActiveRDP => "active-rdp" | SessionDisconnected => "disconnected"
  end.

(** [UserSession]. *)
Record UserSession := mkUserSession {
  us_User : string;
  us_State : SessionState;
  DisconnectedAt : time
}.

Definition no_session : UserSession := mkUserSession "" NoSession zero_time.

#[export] Instance SessionState_eq_dec : EqDecision SessionState.
Proof. solve_decision. Defined.
#[export] Instance UserSession_eq_dec : EqDecision UserSession.
Proof. solve_decision. Defined.

(** [sessionEntry]. *)
Record sessionEntry := mkEntry { se_ID : Z; se_State : Z; se_User : string }.

Definition on_console (console : Z) (e : sessionEntry) : bool :=
  (e.(se_State) =? WTSActive) && negb (console =? noActiveConsole) && (e.(se_ID) =? console).

(** One iteration of [pickSession]'s loop. *)
Definition pick_step (console : Z)
    (acc : option sessionEntry * option sessionEntry * option sessionEntry) (e : sessionEntry) :
    option sessionEntry * option sessionEntry * option sessionEntry :=
  let '(activeConsole, active, disconnected) := acc in
  if e.(se_User) =s "" then acc
  else if on_console console e then (Some e, active, disconnected)
  else if e.(se_State) =? WTSActive then
    (activeConsole, match active with None => Some e | _ => active end, disconnected)
  else if e.(se_State) =? WTSDisconnected then
    (activeConsole, active, match disconnected with None => Some e | _ => disconnected end)
  else acc.

(** [pickSession]. *)
Definition pickSession (entries : list sessionEntry) (console : Z) :
    option (sessionEntry * SessionState) :=
  match foldl (pick_step console) (None, None, None) entries with
  | (Some e, _, _) => Some (e, SessionActiveConsole)
  | (None, Some e, _) => Some (e, SessionActiveRDP)
  | (None, None, Some e) => Some (e, SessionDisconnected)
  | (None, None, None) => None
  end.

(** ** The WTS queries *)

(** [WTSINFOEXW] as bytes, little-endian. *)
Fixpoint le_val (l : list Z) : Z :=
  match l with [] => 0 | b :: r => b + 256 * le_val r end.

Definition uint32_at (buf : list Z) (off : nat) : Z := le_val (take 4 (drop off buf)).
Definition uint64_at (buf : list Z) (off : nat) : Z := le_val (take 8 (drop off buf)).

Definition wtsInfoExDisconnectOff : nat := 184.
Definition wtsInfoExCurrentOff : nat := 200.
Definition wtsInfoExMinSize : nat := 208.

(** 1970-01-01T00:00:00Z, from Go's zero time. *)
Definition unix_epoch : time := 62135596800 * second.

Section WTS.
(** [windows.Filetime.Nanoseconds] on the low and high halves. *)
Variable filetime_ns : Z -> Z -> Z.
(** [querySession] on a string class, before trimming, and on
    [WTSSessionInfoEx]. *)
Variable query_string : Z -> Z -> option string.
Variable query_info : Z -> option (list Z).

Definition wtsUserName : Z := 5.
Definition wtsDomainName : Z := 7.

(** [querySessionString]. *)
Definition querySessionString (id class : Z) : string :=
  match query_string id class with Some s => trim_space s | None => "" end.

(** [sessionUser]. *)
Definition sessionUser (id : Z) : string :=
  let user := sanitizeHeaderValue (querySessionString id wtsUserName) in
  if user =s "" then ""
  else
    let domain := sanitizeHeaderValue (querySessionString id wtsDomainName) in
    if (domain =s "") || equal_fold domain user then user
    else domain +:+ "\" +:+ user.

(** [fileTimeToTime]. *)
Definition fileTimeToTime (ticks : Z) : time :=
  if ticks <=? 0 then zero_time
  else unix_epoch + filetime_ns (ticks mod 2 ^ 32) ((Z.shiftr ticks 32) mod 2 ^ 32).

(** [parseSessionInfoEx]: the disconnection and the current time. *)
Definition parseSessionInfoEx (buf : list Z) : option (time * time) :=
  if (length buf <? wtsInfoExMinSize)%nat || negb (uint32_at buf 0 =? 1) then None
  else Some (fileTimeToTime (wrap64 (uint64_at buf wtsInfoExDisconnectOff)),
             fileTimeToTime (wrap64 (uint64_at buf wtsInfoExCurrentOff))).

(** [sessionDisconnectTime], [querySessionTimes]. *)
Definition sessionDisconnectTime (id : Z) : time :=
  match buf ← query_info id; parseSessionInfoEx buf with
  | Some (disconnect, _) => disconnect
  | None => zero_time
  end.

(** [InteractiveSession]; [None] when nobody is logged on. The sessions are
    the ids and connect states of [WTSEnumerateSessions]. *)
Definition InteractiveSession (sessions : option (list (Z * Z))) (console : Z) :
    option (Z * UserSession) :=
  l ← sessions;
  match pickSession ((fun s => mkEntry s.1 s.2 (sessionUser s.1)) <$> l) console with
  | None => None
  | Some (picked, state) =>
      Some (picked.(se_ID), mkUserSession picked.(se_User) state
        (if bool_decide (state = SessionDisconnected) then sessionDisconnectTime picked.(se_ID)
         else zero_time))
  end.

(** [LoggedUser]. *)
Definition LoggedUser (sessions : option (list (Z * Z))) (console : Z) : UserSession :=
  match InteractiveSession sessions console with Some (_, us) => us | None => no_session end.
End WTS.

(** ** Session notifications *)

Inductive SessionChangeKind :=
| ConsoleConnect | ConsoleDisconnect | RemoteConnect | RemoteDisconnect
| Logon | Logoff | Lock | Unlock | RemoteControl | Create | Terminate.

(** The wire names. *)
Definition SessionChangeKind_text (k : SessionChangeKind) : string :=
  match k with
  | ConsoleConnect => "console-connect" | ConsoleDisconnect => "console-disconnect"
  | RemoteConnect => "remote-connect" | RemoteDisconnect => "remote-disconnect"
  | Logon => "logon" | Logoff => "logoff" | Lock => "lock" | Unlock => "unlock"
  | RemoteControl => "remote-control" | Create => "create" | Terminate => "terminate"
  end.

Definition sessionChangeKinds : gmap Z SessionChangeKind :=
  list_to_map [(1, ConsoleConnect); (2, ConsoleDisconnect); (3, RemoteConnect);
    (4, RemoteDisconnect); (5, Logon); (6, Logoff); (7, Lock); (8, Unlock);
    (9, RemoteControl); (10, Create); (11, Terminate)].

(** [SessionChange]. *)
Record SessionChange := mkSessionChange {
  sc_Kind : SessionChangeKind;
  sc_SessionID : Z;
  sc_At : time;
  SessionUser : string;
  sc_LoggedUser : UserSession
}.

(** [ParseSessionChange]; [eventData] is the session id the record holds. *)
Definition ParseSessionChange (eventType : Z) (eventData : option Z) (at_ : time) :
    option SessionChange :=
  kind ← sessionChangeKinds !! eventType;
  Some (mkSessionChange kind (from_opt 0 eventData) at_ "" no_session).

(** [SessionChange.Resolve], given the two answers of WTS. *)
Definition SessionChange_Resolve (user : Z -> string) (logged : UserSession) (c : SessionChange) :
    SessionChange :=
  mkSessionChange c.(sc_Kind) c.(sc_SessionID) c.(sc_At) (user c.(sc_SessionID)) logged.

(** * Lemmas *)

Definition header_safe (s : string) : Prop := string_forallb (fun c => negb (is_control c)) s = true.

Lemma sanitize_safe s : header_safe (sanitizeHeaderValue s).
Proof.
  unfold header_safe. induction s as [|c s IH]; [done|]. cbn.
  destruct (is_control c) eqn:E; [done|]. cbn. by rewrite E.
Qed.

Lemma forallb_trim_left g f s : string_forallb f s = true -> string_forallb f (trim_left g s) = true.
Proof.
  induction s as [|c s IH]; [done|]. cbn. intros H. destruct (g c); [|done].
  apply IH. by apply andb_true_iff in H as [_ H].
Qed.

Lemma forallb_trim_right g f s : string_forallb f s = true -> string_forallb f (trim_right g s) = true.
Proof.
  induction s as [|c s IH]; [done|]. cbn. intros H. apply andb_true_iff in H as [Hc H].
  specialize (IH H). destruct (trim_right g s); cbn in *; [destruct (g c); cbn; by rewrite ?Hc|].
  by rewrite Hc.
Qed.

Lemma trim_space_safe s : header_safe s -> header_safe (trim_space s).
Proof. intros H. apply forallb_trim_left, forallb_trim_right, H. Qed.

Lemma sapp_safe a b : header_safe a -> header_safe b -> header_safe (a +:+ b).
Proof. unfold header_safe. rewrite forallb_sapp. by intros -> ->. Qed.

#[export] Hint Resolve sanitize_safe trim_space_safe sapp_safe : emly.

Lemma firmware_value_ok s : header_safe (normalizeFirmwareValue s) /\
  (normalizeFirmwareValue s = "" \/ to_upper (normalizeFirmwareValue s) ∉ firmwarePlaceholders).
Proof.
  unfold normalizeFirmwareValue. case_bool_decide; [by split; [|left]|].
  split; [eauto with emly|by right].
Qed.

(** A firmware value that came through [normalizeFirmwareValue]. *)
Definition firmware_ok (s : string) : Prop :=
  header_safe s /\ (s = "" \/ to_upper s ∉ firmwarePlaceholders).

Lemma firmware_line_ok acc line :
  firmware_ok acc.1.1 -> firmware_ok acc.1.2 -> firmware_ok acc.2 ->
  let acc' := firmware_line acc line in
  firmware_ok acc'.1.1 /\ firmware_ok acc'.1.2 /\ firmware_ok acc'.2.
Proof.
  destruct acc as [[a b] c]. cbn [fst snd]. intros. unfold firmware_line.
  destruct (has_prefix _ _); [split_and!; try done; apply firmware_value_ok|].
  destruct (has_prefix _ _); [split_and!; try done; apply firmware_value_ok|].
  destruct (has_prefix _ _); [split_and!; try done; apply firmware_value_ok|done].
Qed.

Lemma firmware_lines_ok lines : forall acc,
  firmware_ok acc.1.1 -> firmware_ok acc.1.2 -> firmware_ok acc.2 ->
  let acc' := foldl firmware_line acc lines in
  firmware_ok acc'.1.1 /\ firmware_ok acc'.1.2 /\ firmware_ok acc'.2.
Proof.
  induction lines as [|line lines IH]; intros acc Ha Hb Hc; [done|]. cbn [foldl].
  destruct (firmware_line_ok acc line Ha Hb Hc) as (? & ? & ?). by apply IH.
Qed.

Lemma firmwareIdentifiers_ok out :
  firmware_ok (firmwareIdentifiers out).1 /\ firmware_ok (firmwareIdentifiers out).2.
Proof.
  destruct out as [out|]; [|by split; split; [| left| |left]].
  unfold firmwareIdentifiers.
  destruct (firmware_lines_ok (split_byte newline out) ("", "", "")) as (H1 & H2 & H3);
    try (by split; [|left]).
  destruct (foldl _ _ _) as [[a b] c]. cbn [fst snd] in *. by destruct (negb (b =s "")).
Qed.

Lemma find_first_split {A} (f : A -> bool) l x : find_first f l = Some x ->
  exists l1 l2, l = l1 ++ x :: l2 /\ f x = true /\ forall y, y ∈ l1 -> f y = false.
Proof.
  induction l as [|y l IH]; [done|]. cbn. destruct (f y) eqn:E.
  - intros [= ->]. exists [], l. split_and!; [done..|]. by intros y' ?%elem_of_nil.
  - intros H. destruct (IH H) as (l1 & l2 & -> & Hx & Hl). exists (y :: l1), l2.
    split_and!; [done..|]. intros y' [-> |?]%elem_of_cons; [done|by apply Hl].
Qed.

(** ** Which session is picked *)

Section Pick.
Variable console : Z.

Definition present (e : sessionEntry) : bool := negb (e.(se_User) =s "").
Definition at_console (e : sessionEntry) : bool := present e && on_console console e.
Definition active (e : sessionEntry) : bool :=
  present e && negb (on_console console e) && (e.(se_State) =? WTSActive).
Definition detached (e : sessionEntry) : bool := present e && (e.(se_State) =? WTSDisconnected).

Lemma pick_fold entries : forall c a d,
  foldl (pick_step console) (c, a, d) entries =
  (match last (bfilter at_console entries) with Some e => Some e | None => c end,
   match a with Some _ => a | None => find_first active entries end,
   match d with Some _ => d | None => find_first detached entries end).
Proof.
  induction entries as [|e l IH]; intros c a d; [by destruct a, d|].
  cbn [foldl pick_step bfilter List.filter find_first].
  unfold at_console at 1, active at 1, detached at 1, present.
  destruct (se_User e =s ""); cbn [negb andb]; [apply IH|].
  assert (Hd : on_console console e = true -> (se_State e =? WTSDisconnected) = false).
  { unfold on_console, WTSActive, WTSDisconnected. rewrite !andb_true_iff. lia. }
  destruct (on_console console e) eqn:Ec; cbn [negb andb].
  - rewrite Hd, IH by done. rewrite last_cons. by destruct (last _).
  - destruct (se_State e =? WTSActive) eqn:Ea.
    + assert ((se_State e =? WTSDisconnected) = false) as ->
        by (unfold WTSActive, WTSDisconnected in *; lia).
      rewrite IH. by destruct a.
    + destruct (se_State e =? WTSDisconnected); rewrite IH; by destruct d.
Qed.
End Pick.

(** The session reported for the machine is the one whose user is most
    present: an active console session with an account, else the first
    enumerated session with an attached client, else the first disconnected
    session with an account; none exactly when no session of these kinds has
    an account. *)
Theorem pickSession_spec (entries : list sessionEntry) (console : Z) :
  match pickSession entries console with
  | Some (e, SessionActiveConsole) => e ∈ entries /\ at_console console e = true
  | Some (e, SessionActiveRDP) =>
      (forall x, x ∈ entries -> at_console console x = false) /\
      exists l1 l2, entries = l1 ++ e :: l2 /\ active console e = true /\
        forall x, x ∈ l1 -> active console x = false
  | Some (e, SessionDisconnected) =>
      (forall x, x ∈ entries -> at_console console x = false /\ active console x = false) /\
      exists l1 l2, entries = l1 ++ e :: l2 /\ detached e = true /\
        forall x, x ∈ l1 -> detached x = false
  | Some (e, NoSession) => False
  | None => forall x, x ∈ entries -> at_console console x = false /\ active console x = false /\
                                     detached x = false
  end.
Proof.
  unfold pickSession. rewrite pick_fold.
  assert (Hc : last (bfilter (at_console console) entries) = None ->
    forall x, x ∈ entries -> at_console console x = false).
  { intros Hn%last_None x Hx. destruct (at_console console x) eqn:E; [|done].
    assert (Hin : In x (bfilter (at_console console) entries))
      by (apply filter_In; by rewrite <-list_elem_of_In). by rewrite Hn in Hin. }
  destruct (last (bfilter _ _)) as [e|] eqn:El.
  - apply last_Some in El as (l & El).
    assert (Hin : In e (bfilter (at_console console) entries))
      by (rewrite El; apply in_or_app; right; by left).
    apply filter_In in Hin as [Hin ?]. by rewrite list_elem_of_In.
  - specialize (Hc eq_refl). destruct (find_first (active console) entries) as [e|] eqn:Ea.
    + split; [done|]. by apply find_first_split in Ea.
    + rewrite find_first_none in Ea. destruct (find_first detached entries) as [e|] eqn:Ed.
      * split; [by split; [apply Hc|apply Ea]|]. by apply find_first_split in Ed.
      * rewrite find_first_none in Ed. intros x Hx. split_and!; [by apply Hc|by apply Ea|by apply Ed].
Qed.

Lemma pickSession_present entries console e st : pickSession entries console = Some (e, st) ->
  e ∈ entries /\ se_User e <> "" /\ st <> NoSession.
Proof.
  intros H. pose proof (pickSession_spec entries console) as Hs. rewrite H in Hs.
  assert (Hp : forall b c, negb (se_User e =s "") && b && c = true -> se_User e <> "").
  { intros b c. rewrite !andb_true_iff, negb_true_iff, str_eqb_neq. tauto. }
  destruct st; [done|..].
  - destruct Hs as [Hin Ha]. unfold at_console, present in Ha. split_and!; [done| |done].
    apply (Hp true (on_console console e)). by rewrite andb_true_r.
  - destruct Hs as (_ & l1 & l2 & -> & Ha & _). unfold active, present in Ha.
    split_and!; [set_solver|by eapply Hp|done].
  - destruct Hs as (_ & l1 & l2 & -> & Ha & _). unfold detached, present in Ha.
    split_and!; [set_solver| |done].
    apply (Hp true (se_State e =? WTSDisconnected)). by rewrite andb_true_r.
Qed.

Lemma sessionUser_safe q id : header_safe (sessionUser q id).
Proof.
  unfold sessionUser. destruct (_ =s ""); [done|]. destruct (_ || _); [eauto with emly|].
  apply sapp_safe; [eauto with emly|]. apply sapp_safe; [done|eauto with emly].
Qed.

(** what the session headers carry is consistent and can always be sent:
    the account name holds no control character, there is a state exactly when
    there is an account, and a disconnection time only for a disconnected
    session. *)
Theorem LoggedUser_wf (ft : Z -> Z -> Z) (qs : Z -> Z -> option string)
    (qi : Z -> option (list Z)) (sessions : option (list (Z * Z))) (console : Z) :
  let us := LoggedUser ft qs qi sessions console in
  header_safe us.(us_User) /\ (us.(us_State) = NoSession <-> us.(us_User) = "") /\
  (us.(us_State) <> SessionDisconnected -> us.(DisconnectedAt) = zero_time).
Proof.
  cbv zeta. unfold LoggedUser, InteractiveSession. destruct sessions as [l|]; [|done].
  cbn [mbind option_bind]. destruct (pickSession _ console) as [[e st]|] eqn:E; [|done].
  apply pickSession_present in E as (Hin & Hu & Hst).
  apply list_elem_of_fmap in Hin as (x & -> & _). cbn [us_User us_State DisconnectedAt se_User] in *.
  split_and!; [apply sessionUser_safe|tauto|]. intros Hd. by rewrite bool_decide_false.
Qed.

(** the firmware identities reported are identities: serial and product
    are no OEM placeholder, a hardware id read from SMBIOS is neither empty nor
    the all-zero or all-F pattern, and the serial, product and Windows version
    hold no character a header cannot carry. *)
Theorem Collect_ok (p : probes) :
  let i := Collect p in
  firmware_ok i.(i_Serial) /\ firmware_ok i.(i_Product) /\ header_safe i.(i_OSVersion) /\
  (p.(p_protected) = None -> i.(i_HWID) = "" \/
     (i.(i_HWID) <> "00000000-0000-0000-0000-000000000000" /\
      i.(i_HWID) <> "FFFFFFFF-FFFF-FFFF-FFFF-FFFFFFFFFFFF")).
Proof.
  cbv zeta. unfold Collect. destruct (firmwareIdentifiers_ok (p_firmware p)) as [Hs Hp].
  destruct (firmwareIdentifiers (p_firmware p)) as [serial product].
  cbn [i_Serial i_Product i_OSVersion i_HWID fst snd] in *. split_and!; [done..|apply sanitize_safe|].
  intros Hn. rewrite Hn. unfold hardwareID.
  assert (Hu : forall s, normalizeUUID s = "" \/
     (normalizeUUID s <> "00000000-0000-0000-0000-000000000000" /\
      normalizeUUID s <> "FFFFFFFF-FFFF-FFFF-FFFF-FFFFFFFFFFFF")).
  { intros s. unfold normalizeUUID. destruct (_ || _) eqn:E; [by left|right].
    by apply orb_false_iff in E as [[_ ?%str_eqb_neq]%orb_false_iff ?%str_eqb_neq]. }
  assert (Hl : forall lines, wmic_lines lines = "" \/ exists s, wmic_lines lines = normalizeUUID s).
  { induction lines as [|line lines IH]; [by left|]. cbn. destruct (_ || _); [done|right; eauto]. }
  assert (Hx : smbiosUUID (p_wmic p) (p_powershell p) = "" \/
     exists s, smbiosUUID (p_wmic p) (p_powershell p) = normalizeUUID s).
  { unfold smbiosUUID. destruct (negb _) eqn:E.
    - destruct (p_wmic p) as [out|]; [apply Hl|done].
    - destruct (p_powershell p); [right; eauto|by left]. }
  destruct Hx as [-> | [s ->]]; [by left|].
  destruct (Hu s) as [Hz|Hz].
  - rewrite Hz. by left.
  - destruct (negb (normalizeUUID s =s "")); [by right|by left].
Qed.

Lemma Collect_ok_witness :
  i_HWID (Collect (mkProbes None (Some "UUID  
4c4c4544-0042-3510-8050-b4c04f4e3533  
") None None None None "" "" "" "" 0 None)) = "4C4C4544-0042-3510-8050-B4C04F4E3533" /\
  (i_HWID (Collect (mkProbes None (Some "UUID") None None None None "" "" "" "" 0 None)) = "" \/
   (i_HWID (Collect (mkProbes None (Some "UUID") None None None None "" "" "" "" 0 None)) <>
      "00000000-0000-0000-0000-000000000000" /\
    i_HWID (Collect (mkProbes None (Some "UUID") None None None None "" "" "" "" 0 None)) <>
      "FFFFFFFF-FFFF-FFFF-FFFF-FFFFFFFFFFFF")).
Proof.
  split; [vm_compute; reflexivity|].
  apply (Collect_ok (mkProbes None (Some "UUID") None None None None "" "" "" "" 0 None)).
  reflexivity.
Defined.
