(* ===== verification/SourcePolicy.v ===== *)
(** internal/service/sourcepolicy.go and preferred.go: which servers this
    machine asks, cycle after cycle. [resolveDC] and [resolveHost] gather the
    facts, [beginCycle] evaluates the policy on them and logs what changed,
    [preferredChain] and [notePreferredServer] move a backup that answered to
    the head of the chain, [newResolver] builds the resolver of the cycle.

    A domain-controller lookup is an oracle by call number within the cycle;
    [host_env] is the rest of what one [resolveHost] meets. Go passes the
    preference as a pointer swapped atomically: here it is the value, and the
    functions return the new one. *)
From S2P Require Import Prelude Rfc3339 Json Versions Net PolicyDoc PolicyValidate PolicyParse.
From S2P Require Import PolicyMatch Source Config PolicyStore RemoteConfig MachineInfo.

(** * The site *)

Definition dcCacheTTL : duration := hour.

(** [siteState]; [ss_dc] holds the answer or the error of the last lookup,
    [None] before the first one. *)
Record siteState := mkSite_ {
  ss_dc : option (result string DomainControllerInfo);
  dcAt : time;
  ss_ips : list string;
  lastKey : string;
  dcFailedLogged : bool
}.

Definition new_site : siteState := mkSite_ None zero_time [] "" false.

Section ResolveDC.
Variable dcFn : nat -> result string DomainControllerInfo.
(** The context ended during the wait before the [n]-th lookup. *)
Variable stopped : nat -> bool.

(** The retry loop of [resolveDC]: [n] lookups made, [r] the last answer. *)
Fixpoint retry_loop (k n : nat) (r : result string DomainControllerInfo) :
    result string DomainControllerInfo * nat :=
  match k with
  | O => (r, n)
  | S k =>
      if stopped n then (r, n)
      else match dcFn n with
           | Ok dc => (Ok dc, S n)
           | Err e => retry_loop k (S n) (Err e)
           end
  end.

(** [resolveDC]: the answer and the number of lookups made. *)
Definition resolveDC (retry : DCLookupRetry) (domainJoined : bool) :
    result string DomainControllerInfo * nat :=
  match dcFn 0 with
  | Ok dc => (Ok dc, 1%nat)
  | Err e =>
      if (retry.(dc_Attempts) <=? 0) || (Delay retry <=? 0) then (Err e, 1%nat)
      else if negb domainJoined then (Err e, 1%nat)
      else retry_loop (Z.to_nat retry.(dc_Attempts)) 1 (Err e)
  end.
End ResolveDC.

(** What one [resolveHost] meets. *)
Record host_env := mkHostEnv {
  he_now : time;
  he_ips : option (list string);
  he_dc : nat -> result string DomainControllerInfo;
  he_stopped : nat -> bool
}.

Definition needs_dc (env : host_env) (first : bool) (s : siteState) : bool :=
  first || negb (bool_decide (from_opt [] env.(he_ips) = s.(ss_ips)))
  || (dcCacheTTL <? t_sub env.(he_now) s.(dcAt)).

(** [resolveHost]; [retry] is the global document's lookup cadence. *)
Definition resolveHost (machine : Info) (retry : DCLookupRetry) (env : host_env) (first : bool)
    (s : siteState) : Host * siteState :=
  let ips := from_opt [] env.(he_ips) in
  let joined := DomainJoined machine.(i_ADDomain) machine.(i_Hostname) in
  let s :=
    if needs_dc env first s then
      mkSite_ (Some (resolveDC env.(he_dc) env.(he_stopped)
                       (if first then retry else mkDCLookupRetry 0 0) joined).1)
        env.(he_now) ips s.(lastKey) s.(dcFailedLogged)
    else s in
  (mkHost machine.(i_HWID) machine.(i_Hostname)
     (match s.(ss_dc) with Some (Ok dc) => dc.(dc_Name) | _ => "" end)
     (if joined then machine.(i_ADDomain) else "") ips env.(he_now), s).

(** * The cycle's decision *)

Definition lookup_failed (s : siteState) : bool :=
  match s.(ss_dc) with Some (Err _) => true | _ => false end.

Definition source_key (cyc : cycleState) : string :=
  cyc.(cyc_site) +:+ "|" +:+ join "," cyc.(cyc_chain) +:+ "|" +:+ join "," cyc.(cyc_eff).(Applied).

Section Begin.
Context `{VersionLib}.
Variable cfg : Config.
Variable Defaults_ : Defaults.
Variable machine : Info.

(** The state of a cycle on this host. *)
Definition make_cycle (snap : Snapshot) (host : Host) : cycleState :=
  let eff := (effective snap.(sn_Parsed) host).1 in
  let '(site, chain) := Chain eff host in
  mkCycle snap host eff site chain.

(** The events of [beginCycle] about the source: the failure of the lookup,
    once per streak, and the decision, when it changed. *)
Definition log_source (cyc : cycleState) (s : siteState) (rc : RC) : siteState * RC :=
  let joined := DomainJoined machine.(i_ADDomain) machine.(i_Hostname) in
  let rc := if lookup_failed s && joined && negb s.(dcFailedLogged)
            then log EvSourcePolicyFailed rc else rc in
  let failed := lookup_failed s && joined in
  let key := source_key cyc in
  let rc := if key =s s.(lastKey) then rc else log (EvSourcePolicy key) rc in
  (mkSite_ s.(ss_dc) s.(dcAt) s.(ss_ips) key failed, rc).

(** [beginCycle]. *)
Definition beginCycle (env : host_env) (first : bool) (s : siteState) (rc : RC) :
    cycleState * siteState * RC :=
  let snap := current_snapshot cfg Defaults_ rc in
  let '(host, s) := resolveHost machine snap.(sn_Parsed).(Global).(doc_Updater).(us_DCLookupRetry)
                      env first s in
  let cyc := make_cycle snap host in
  let rc := set_cur cyc rc in
  let rc := applyLogging cyc.(cyc_eff).(Doc).(doc_Logging) rc in
  let rc := warnIfStale snap host.(h_Now) rc in
  let '(s, rc) := log_source cyc s rc in
  (cyc, s, rc).

(** [current]. *)
Definition current (now : time) (rc : RC) : cycleState :=
  match rc.(rc_cur) with
  | Some cyc => cyc
  | None => make_cycle (current_snapshot cfg Defaults_ rc)
              (mkHost machine.(i_HWID) machine.(i_Hostname) "" "" [] now)
  end.
End Begin.

(** * The preferred server *)

Fixpoint index_of (x : string) (l : list string) : option nat :=
  match l with
  | [] => None
  | y :: r => if y =s x then Some O else S <$> index_of x r
  end.

(** [preferredChain]: the chain, and the preference, forgotten when the chain
    no longer lists it. *)
Definition preferredChain (cyc : cycleState) (preferred : option string) :
    list string * option string :=
  match preferred, cyc.(cyc_chain) with
  | None, c => (c, None)
  | Some p, [] => ([], Some p)
  | Some p, h :: _ =>
      if p =s h then (cyc.(cyc_chain), Some p)
      else match index_of p cyc.(cyc_chain) with
           | None => (cyc.(cyc_chain), None)
           | Some i => (p :: take i cyc.(cyc_chain) ++ drop (S i) cyc.(cyc_chain), Some p)
           end
  end.

(** [serverFor]; the empty string is no server. *)
Definition serverFor (cyc : cycleState) (url : string) : string :=
  from_opt "" (find_first (fun name => ManifestURL cyc.(cyc_eff) name =s url) cyc.(cyc_chain)).

(** [notePreferredServer]: the preference, and whether the presence channel is
    woken. *)
Definition notePreferredServer (cyc : cycleState) (primaryErr : option fetch_error) (url : string)
    (preferred : option string) : option string * bool :=
  match cyc.(cyc_chain) with
  | [] => (preferred, false)
  | head :: _ =>
      if match primaryErr with Some e => is_not_found e | None => false end then (preferred, false)
      else
        let served := serverFor cyc url in
        if served =s "" then (preferred, false)
        else if served =s head then
          match preferred with
          | Some p => if p =s "" then (preferred, false) else (None, true)
          | None => (None, false)
          end
        else if served =s from_opt "" preferred then (preferred, false)
        else (Some served, true)
  end.

(** The manifest URLs a resolver asks, in order. *)
Definition resolver_urls (cyc : cycleState) (chain : list string) : list string :=
  match omap (fun name => let url := ManifestURL cyc.(cyc_eff) name in
                          if url =s "" then None else Some url) chain with
  | [] => [""]
  | urls => urls
  end.

(** [newHTTPSource]: the identity headers of this machine. *)
Definition newHTTPSource (cfg : Config) (machine : Info) (emlyVersion : string) (session : UserSession)
    (manifestURL : string) : HTTPSource :=
  mkHTTPSource manifestURL cfg.(cfg_UserAgent) cfg.(cfg_APIKey) machine.(i_Hostname)
    machine.(i_HWID) machine.(i_ADDomain) machine.(i_InternalIP) machine.(i_OSVersion)
    machine.(i_Serial) machine.(i_Product) emlyVersion session.(us_User)
    (SessionState_text session.(us_State)) session.(DisconnectedAt).

(** [emlyVersion]; [text] is EMLy's config.ini. *)
Definition emlyVersion `{IniLib} (cfg : Config) (text : option string) : string :=
  let info := ResolveEMLy cfg text in
  if info.(FreshInstall) then "" else info.(InstalledVersion).

(** [newResolver]: the resolver and the preference left by [preferredChain].
    [mk] builds a source for a URL; each asks who is logged on. *)
Definition newResolver {S} (mk : string -> M S HTTPSource) (cyc : cycleState)
    (preferred : option string) : M S (Resolver * option string) :=
  let '(chain, preferred) := preferredChain cyc preferred in
  let settings := cyc.(cyc_eff).(Doc).(doc_Updater).(us_Resolver) in
  let urls := resolver_urls cyc chain in
  primary ← mk (from_opt "" (head urls));
  fallbacks ← mapM (M:=M S) mk (tail urls);
  mret (mkResolver primary fallbacks settings.(rs_Attempts) (PolicyDoc.BaseBackoff settings), preferred).

(** * Properties: the lookup *)

Lemma retry_loop_spec dcFn stopped k : forall n r, (0 < n)%nat ->
  r = dcFn (n - 1)%nat -> (exists e, r = Err e) ->
  let '(r', n') := retry_loop dcFn stopped k n r in
  (n <= n' <= n + k)%nat /\ r' = dcFn (n' - 1)%nat /\
  (forall i, (n - 1 <= i < n' - 1)%nat -> exists e, dcFn i = Err e) /\
  (r' = dcFn (n' - 1)%nat -> is_ok r' = false -> n' = (n + k)%nat \/ stopped n' = true).
Proof.
  induction k as [|k IH]; intros n r Hn Hr [e He]; cbn [retry_loop].
  - split_and!; [lia|lia|done| |]; [intros i Hi; lia|left; lia].
  - destruct (stopped n) eqn:Es; [split_and!; [lia|lia|done|intros; lia|by right]|].
    destruct (dcFn n) as [dc|e'] eqn:Ed.
    + split_and!; [lia|lia| | |done].
      * by replace (S n - 1)%nat with n by lia.
      * intros i Hi. replace i with (n - 1)%nat by lia. rewrite <-Hr. by exists e.
    + specialize (IH (S n) (Err e') ltac:(lia)). replace (S n - 1)%nat with n in IH by lia.
      specialize (IH (eq_sym Ed) ltac:(by exists e')).
      destruct (retry_loop _ _ _ _ _) as [r' n']. destruct IH as ([? ?] & Hr' & Hf & Hend).
      split_and!; [lia|lia|done| |].
      * intros i Hi. destruct (decide (i = (n - 1)%nat)) as [->|]; [rewrite <-Hr; by exists e|].
        apply Hf. lia.
      * intros H1 H2. destruct (Hend H1 H2) as [->|]; [left; lia|by right].
Qed.

(** C40: the domain-controller lookup ends: it makes at least one call and at
    most one more than the configured attempts, returns the answer of its last
    call, and stops at the first success. A machine that is not domain-joined,
    and a policy with no retry, make exactly one call; a failure on a joined
    machine is returned only after every configured attempt, unless the
    service is stopping. *)
Theorem resolveDC_spec (dcFn : nat -> result string DomainControllerInfo) (stopped : nat -> bool)
    (retry : DCLookupRetry) (joined : bool) :
  let '(r, n) := resolveDC dcFn stopped retry joined in
  (1 <= n)%nat /\ Z.of_nat n <= 1 + Z.max 0 retry.(dc_Attempts) /\ r = dcFn (n - 1)%nat /\
  (forall i, (i < n - 1)%nat -> exists e, dcFn i = Err e) /\
  (joined = false \/ Delay retry <= 0 -> n = 1%nat) /\
  (joined = true -> 0 < Delay retry -> is_ok r = false ->
     Z.of_nat n = 1 + Z.max 0 retry.(dc_Attempts) \/ stopped n = true).
Proof.
  unfold resolveDC. destruct (dcFn 0%nat) as [dc|e] eqn:E0.
  { split_and!; [lia|lia|exact (eq_sym E0)|intros; lia|done|done]. }
  destruct (_ || _) eqn:Eb.
  { split_and!; [lia|lia|exact (eq_sym E0)|intros; lia|done|].
    apply orb_true_iff in Eb as [Eb|Eb]; apply Z.leb_le in Eb; [left; lia|lia]. }
  bool_to_prop. destruct joined; cbn [negb].
  - pose proof (retry_loop_spec dcFn stopped (Z.to_nat retry.(dc_Attempts)) 1 (Err e) ltac:(lia)
      (eq_sym E0) ltac:(by exists e)) as Hspec.
    destruct (retry_loop _ _ _ _ _) as [r n]. destruct Hspec as ([? ?] & Hr & Hf & Hend).
    split_and!; [lia|lia|done| | |].
    + intros i Hi. apply Hf. lia.
    + intros [?|?]; [done|lia].
    + intros _ _ Ho. destruct (Hend Hr Ho) as [->|]; [left; lia|by right].
  - split_and!; [lia|lia|exact (eq_sym E0)|intros; lia|done|done].
Qed.

(** * Properties: the preference *)

Lemma index_of_spec x l i : index_of x l = Some i ->
  exists l1 l2, l = l1 ++ x :: l2 /\ length l1 = i.
Proof.
  revert i. induction l as [|y l IH]; intros i; [done|]. cbn.
  destruct (y =s x) eqn:E.
  - apply str_eqb_eq in E as ->. intros [= <-]. by exists [], l.
  - destruct (index_of x l) as [j|]; [|done]. intros [= <-].
    destruct (IH j eq_refl) as (l1 & l2 & -> & <-). by exists (y :: l1), l2.
Qed.

Lemma index_of_none x l : index_of x l = None <-> x ∉ l.
Proof.
  induction l as [|y l IH]; cbn; [split; [intros _ ?%elem_of_nil; done|done]|].
  rewrite elem_of_cons. destruct (y =s x) eqn:E.
  - apply str_eqb_eq in E as ->. split; [done|tauto].
  - apply str_eqb_neq in E. rewrite fmap_None, IH. naive_solver.
Qed.

Definition preference_ok (cyc : cycleState) (p : option string) : Prop :=
  forall s, p = Some s -> s ∈ cyc.(cyc_chain).

(** the preference only reorders the chain the policy assigned: the chain
    asked is a permutation of it, the preferred server leads it exactly when
    the chain still lists it and the others keep their order; a server the
    chain no longer lists is forgotten. *)
Theorem preferredChain_spec (cyc : cycleState) (p : option string) :
  cyc.(cyc_chain) <> [] ->
  let '(chain, p') := preferredChain cyc p in
  chain ≡ₚ cyc.(cyc_chain) /\ preference_ok cyc p' /\
  match p with
  | Some s => if bool_decide (s ∈ cyc.(cyc_chain)) then
                p' = Some s /\ exists l1 l2, cyc.(cyc_chain) = l1 ++ s :: l2 /\ chain = s :: l1 ++ l2
              else p' = None /\ chain = cyc.(cyc_chain)
  | None => p' = None /\ chain = cyc.(cyc_chain)
  end.
Proof.
  unfold preferredChain. destruct p as [s|]; [|by intros _; destruct (cyc_chain cyc)].
  destruct (cyc_chain cyc) as [|h t] eqn:Ec; [done|]. intros _.
  destruct (s =s h) eqn:E.
  { apply str_eqb_eq in E as ->. rewrite bool_decide_true by left.
    split_and!; [done|intros ? [= <-]; rewrite Ec; by left|done|]. by exists [], t. }
  destruct (index_of s (h :: t)) as [i|] eqn:Ei.
  - apply index_of_spec in Ei as (l1 & l2 & El & <-). rewrite El.
    rewrite bool_decide_true by set_solver.
    replace (take (length l1) (l1 ++ s :: l2)) with l1 by (by rewrite take_app_length).
    replace (drop (S (length l1)) (l1 ++ s :: l2)) with l2
      by (by rewrite <-(Nat.add_1_r (length l1)), drop_app_add).
    split_and!; [by rewrite Permutation_middle|intros ? [= <-]; rewrite Ec, El; set_solver|done|].
    by exists l1, l2.
  - apply index_of_none in Ei. by rewrite bool_decide_false by done.
Qed.

Lemma serverFor_spec cyc url : serverFor cyc url <> "" ->
  serverFor cyc url ∈ cyc.(cyc_chain) /\ ManifestURL cyc.(cyc_eff) (serverFor cyc url) = url.
Proof.
  unfold serverFor. destruct (find_first _ _) as [n|] eqn:E; [|done]. intros _.
  apply find_first_some in E as [? ?%str_eqb_eq]. done.
Qed.

(** after a resolution the preference is a backup of this machine's chain
    that just served the document, or nothing, unless it is left as it was;
    the presence channel is woken exactly when the preference changes, and a
    404 of the first server asked never changes it. *)
Theorem notePreferredServer_spec (cyc : cycleState) (pe : option fetch_error) (url : string)
    (p : option string) :
  p <> Some "" ->
  let '(p', woken) := notePreferredServer cyc pe url p in
  (woken = false <-> p' = p) /\
  (p' <> p -> p' = None \/ exists s, p' = Some s /\ s ∈ cyc.(cyc_chain) /\
     ManifestURL cyc.(cyc_eff) s = url /\ head cyc.(cyc_chain) <> Some s) /\
  (forall e, pe = Some e -> is_not_found e = true -> p' = p) /\
  (preference_ok cyc p -> preference_ok cyc p').
Proof.
  intros Hp. unfold notePreferredServer. destruct (cyc_chain cyc) as [|h t] eqn:Ec; [done|].
  destruct (match pe with Some e => is_not_found e | None => false end) eqn:Enf; [done|].
  assert (Hnf : forall (q : option string) e, pe = Some e -> is_not_found e = true -> q = p).
  { intros q e -> ?. congruence. }
  destruct (serverFor cyc url =s "") eqn:Es.
  { by split_and!; [|done|intros; by eapply Hnf|]. }
  apply str_eqb_neq in Es. destruct (serverFor_spec cyc url Es) as [Hin Hurl].
  destruct (serverFor cyc url =s h) eqn:Eh.
  { destruct p as [p|]; [|by split_and!; [|done|intros; by eapply Hnf|]].
    destruct (p =s "") eqn:Ep; [apply str_eqb_eq in Ep as ->; done|].
    split_and!; [done|by left|intros; by eapply Hnf|]. by intros _ ? ?. }
  apply str_eqb_neq in Eh.
  destruct (serverFor cyc url =s from_opt "" p) eqn:Ep.
  { by split_and!; [|done|intros; by eapply Hnf|]. }
  apply str_eqb_neq in Ep. assert (Hne : Some (serverFor cyc url) <> p).
  { intros <-. done. }
  split_and!; [by split|right|intros; by eapply Hnf|].
  - exists (serverFor cyc url). split_and!; [done|by rewrite <-Ec|done|]. cbn. congruence.
  - intros _ s [= <-]. done.
Qed.

(** * Properties: what a run of cycles reports *)

Section Events.
Context `{VersionLib}.
Variable cfg : Config.
Variable D : Defaults.
Variable machine : Info.

(** A run of cycles: the decisions, and whether each lookup left this
    domain-joined machine without an answer. *)
Fixpoint begins (l : list (host_env * bool)) (s : siteState) (rc : RC) :
    list (cycleState * bool) * siteState * RC :=
  match l with
  | [] => ([], s, rc)
  | (env, first) :: rest =>
      let '(cyc, s, rc) := beginCycle cfg D machine env first s rc in
      let '(cycs, s', rc) := begins rest s rc in
      ((cyc, s.(dcFailedLogged)) :: cycs, s', rc)
  end.

Definition key_events (l : list log_event) : list string :=
  omap (fun e => match e with EvSourcePolicy k => Some k | _ => None end) l.
Definition failure_events (l : list log_event) : nat :=
  length (bfilter (fun e => match e with EvSourcePolicyFailed => true | _ => false end) l).

(** A list with the repetitions of the preceding element left out. *)
Fixpoint changes (last : string) (l : list string) : list string :=
  match l with
  | [] => []
  | k :: r => if k =s last then changes k r else k :: changes k r
  end.

(** How often a flag rises. *)
Fixpoint rises (last : bool) (l : list bool) : nat :=
  match l with
  | [] => 0
  | b :: r => (if b && negb last then 1 else 0) + rises b r
  end.

Lemma key_events_app a b : key_events (a ++ b) = key_events a ++ key_events b.
Proof. apply omap_app. Qed.
Lemma failure_events_app a b : failure_events (a ++ b) = (failure_events a + failure_events b)%nat.
Proof. unfold failure_events, bfilter. by rewrite List.filter_app, length_app. Qed.

(** The other reports of a cycle are about something else. *)
Lemma begin_reports lg snap now rc : exists evs,
  (warnIfStale snap now (applyLogging lg rc)).(rc_log) = rc.(rc_log) ++ evs /\
  key_events evs = [] /\ failure_events evs = 0%nat.
Proof.
  unfold warnIfStale, applyLogging.
  repeat case_goal; cbn [rc_log log set_logging set_stalewarn]; rewrite <-?app_assoc; eexists;
    try (split; [reflexivity|done]); (split; [by rewrite app_nil_r|done]).
Qed.

Lemma beginCycle_events env first s rc :
  let '(cyc, s', rc') := beginCycle cfg D machine env first s rc in
  key_events rc'.(rc_log) = key_events rc.(rc_log) ++ changes s.(lastKey) [source_key cyc] /\
  s'.(lastKey) = source_key cyc /\
  failure_events rc'.(rc_log) =
    (failure_events rc.(rc_log) + rises s.(dcFailedLogged) [s'.(dcFailedLogged)])%nat.
Proof.
  unfold beginCycle. destruct (resolveHost _ _ _ _ _) as [host s1] eqn:Eh.
  assert (Hs1 : s1.(lastKey) = s.(lastKey) /\ s1.(dcFailedLogged) = s.(dcFailedLogged)).
  { unfold resolveHost in Eh. injection Eh as _ <-. by destruct (needs_dc _ _ _). }
  destruct Hs1 as [Hk Hf]. set (cyc := make_cycle _ host). unfold log_source. cbv zeta.
  rewrite Hk, Hf.
  destruct (begin_reports (doc_Logging (Doc (cyc_eff cyc))) (current_snapshot cfg D rc) (h_Now host)
    (set_cur cyc rc)) as (evs & He & Hke & Hfe). cbn [changes rises].
  destruct (lookup_failed s1 && DomainJoined _ _) eqn:Ef, (dcFailedLogged s),
    (source_key cyc =s lastKey s); cbn [negb andb rc_log log lastKey dcFailedLogged];
    rewrite He, ?key_events_app, ?failure_events_app, ?Hke, ?Hfe; cbn;
    unfold failure_events, bfilter in *; cbn; rewrite ?app_nil_r; split_and!; try done; try lia.
Qed.

(** the event log tells what changed and nothing else: over any run of
    cycles the source decisions reported are exactly the decisions with
    consecutive repetitions left out, and a failed domain-controller lookup is
    reported once per streak of failures. *)
Theorem source_events (l : list (host_env * bool)) (s : siteState) (rc : RC) :
  let '(cycs, s', rc') := begins l s rc in
  key_events rc'.(rc_log) =
    key_events rc.(rc_log) ++ changes s.(lastKey) ((fun c => source_key c.1) <$> cycs) /\
  failure_events rc'.(rc_log) =
    (failure_events rc.(rc_log) + rises s.(dcFailedLogged) (snd <$> cycs))%nat.
Proof.
  revert s rc. induction l as [|[env first] l IH]; intros s rc.
  - cbn. by rewrite app_nil_r, Nat.add_0_r.
  - cbn [begins]. pose proof (beginCycle_events env first s rc) as Hb.
    destruct (beginCycle cfg D machine env first s rc) as [[cyc s1] rc1].
    destruct Hb as (Hk & Hl & Hf). specialize (IH s1 rc1).
    destruct (begins l s1 rc1) as [[cycs s2] rc2]. destruct IH as [IHk IHf].
    rewrite IHk, IHf, Hk, Hf, Hl, !fmap_cons. cbn [fst snd changes rises].
    split; [|lia]. rewrite <-app_assoc. f_equal. by destruct (source_key cyc =s lastKey s).
Qed.
End Events.

(** * Witnesses *)

#[local] Existing Instance Dotted.lib.

Module Chained.
Definition cyc : cycleState := make_cycle Run.snap PolicyProps.Fixture.pc1.
End Chained.

Lemma preferredChain_spec_witness :
  Chained.cyc.(cyc_chain) = ["lan"; "main"] /\
  preferredChain Chained.cyc (Some "main") = (["main"; "lan"], Some "main") /\
  (preferredChain Chained.cyc (Some "main")).1 ≡ₚ Chained.cyc.(cyc_chain).
Proof.
  split; [vm_compute; reflexivity|]. split; [vm_compute; reflexivity|].
  pose proof (preferredChain_spec Chained.cyc (Some "main") ltac:(vm_compute; discriminate)) as H.
  destruct (preferredChain Chained.cyc (Some "main")) as [chain p']. exact (proj1 H).
Defined.

Lemma notePreferredServer_spec_witness :
  (notePreferredServer Chained.cyc (Some (ErrFetch "timeout"))
     (ManifestURL Chained.cyc.(cyc_eff) "main") None) = (Some "main", true) /\
  (true = false <-> Some "main" = None).
Proof.
  split; [vm_compute; reflexivity|].
  pose proof (notePreferredServer_spec Chained.cyc (Some (ErrFetch "timeout"))
    (ManifestURL Chained.cyc.(cyc_eff) "main") None ltac:(discriminate)) as H.
  assert (E : notePreferredServer Chained.cyc (Some (ErrFetch "timeout"))
     (ManifestURL Chained.cyc.(cyc_eff) "main") None = (Some "main", true)) by (vm_compute; reflexivity).
  rewrite E in H. exact (proj1 H).
Defined.
