(* ===== verification/Download.v ===== *)
(** internal/download: the cache of setups. A path maps to the bytes of the
    file; [Dir\name] is the path of a name in a directory (version texts hold
    no separator). SHA-256 is the interface [Sha256]: the lower-case hex
    digest of some bytes.

    The operations run in any state [S] that gives access to the files and to
    two oracles, which operating-system calls fail and what a broken transfer
    leaves in the file being written ([FileSystem]); the service's instance is
    in [World]. A directory is swept in the order of the path map, which only
    decides which calls the oracle makes fail. *)
From S2P Require Import Prelude Json Versions Manifest Source.

Class Sha256 := sha256_hex : string -> string.

(** Path to contents. *)
Abbreviation files := (gmap string string).

(** What the file operations need of the state they run in: its files, and
    oracles that leave the files alone. *)
Class FileSystem (S : Type) `{!Network S} := {
  os_fails : M S bool;
  broken_transfer : M S string;
  get_files : S -> files;
  set_files : files -> S -> S;
  files_set : forall x s, get_files (set_files x s) = x;
  files_fails : forall s, get_files (os_fails s).2 = get_files s;
  files_broken : forall s, get_files (broken_transfer s).2 = get_files s;
  files_net : forall rq s, get_files (do_request rq s).2 = get_files s
}.

(** [Manager]. *)
Record Manager := mkManager { Dir : string; m_Prefix : string }.

Definition DefaultPrefix : string := "EMLy-".

(** [Manager.prefix]. *)
Definition Manager_prefix (m : Manager) : string :=
  if m.(m_Prefix) =s "" then DefaultPrefix else m.(m_Prefix).

(** [filepath.Join] of a directory and a name. *)
Definition in_dir (d name : string) : string := d +:+ "\" +:+ name.

Definition setup_name (m : Manager) (version : string) : string :=
  Manager_prefix m +:+ version +:+ "-setup.exe".

(** [Manager.SetupPath]. *)
Definition SetupPath (m : Manager) (version : string) : string := in_dir m.(Dir) (setup_name m version).

(** The name of an entry of a directory: what follows [Dir\], when nothing
    deeper follows. *)
Definition entry_of (d path : string) : option string :=
  if has_prefix path (d +:+ "\") then
    let name := drop_str (String.length d + 1) path in
    if is_some (index_byte name "\"%char) then None else Some name
  else None.

Section Ops.
Context {S : Type} {net : Network S} {filesystem : FileSystem S} {digest : Sha256}.

Definition on_files (f : files -> files) : M S unit :=
  modify (fun s => set_files (f (get_files s)) s).

(** [os.Remove], the error dropped. *)
Definition remove (path : string) : M S bool :=
  fails ← os_fails;
  if (fails : bool) then mret true else on_files (delete path) ;; mret false.

(** [os.Rename]. *)
Definition rename_file (from to : string) : M S bool :=
  fails ← os_fails;
  d ← gets get_files;
  match d !! from with
  | Some c => if (fails : bool) then mret true
              else on_files (fun d => <[to := c]> (delete from d)) ;; mret false
  | None => mret true
  end.

(** [VerifyFile]: [None] when the file's digest is the expected one. *)
Definition VerifyFile (path expected : string) : M S (option string) :=
  if expected =s "" then mret (Some ("no expected checksum for " +:+ path))
  else
    fails ← os_fails;
    d ← gets get_files;
    mret match d !! path with
         | None => Some ("open " +:+ path)
         | Some bytes =>
             if (fails : bool) then Some ("open " +:+ path)
             else if equal_fold (sha256_hex bytes) expected then None
             else Some ("checksum mismatch for " +:+ path)
         end.

(** [HTTPSource.FetchSetup]: the error, the destination is written. A transfer
    that breaks, or a file that cannot be completed, leaves some part of it. *)
Definition FetchSetup (src : HTTPSource) (t : Target) (dest : string) : M S (option string) :=
  r ← do_request (mkRequest t.(DownloadRef) (applyHeaders src));
  match r with
  | NoReply e => mret (Some ("setup download failed: " +:+ e))
  | Reply status _ body =>
      if negb (status =? 200) then mret (Some "setup download returned HTTP")
      else
        create ← os_fails;
        if (create : bool) then mret (Some ("failed to create " +:+ dest))
        else
          copy ← os_fails;
          match body, (copy : bool) with
          | Some p, false => on_files <[dest := p.(pl_bytes)]> ;; mret None
          | _, _ => part ← broken_transfer;
                    on_files <[dest := part]> ;; mret (Some "setup download interrupted")
          end
  end.

(** [Manager.Ensure]. *)
Definition Ensure (m : Manager) (src : HTTPSource) (t : Target) : M S (result string string) :=
  mkdir ← os_fails;
  if (mkdir : bool) then mret (Err "failed to create downloads dir") else
  let dest := SetupPath m t.(tg_Version) in
  v ← VerifyFile dest t.(tg_SHA256);
  match v with
  | None => mret (Ok dest)
  | Some _ =>
      remove dest ;;
      let partial := dest +:+ ".partial" in
      f ← FetchSetup src t partial;
      r ← match f with
          | Some e => mret (Err ("fetch from " +:+ source_Name src +:+ " failed: " +:+ e))
          | None =>
              v ← VerifyFile partial t.(tg_SHA256);
              match v with
              | Some e => mret (Err e)
              | None =>
                  bad ← rename_file partial dest;
                  mret (if (bad : bool) then Err "failed to finalize download" else Ok dest)
              end
          end;
      remove partial ;;
      mret r
  end.

(** The loop of [CleanupExcept] over the directory entries. *)
Definition sweep_loop (m : Manager) (keep : string) : list string -> bool -> M S bool :=
  fix sweep (l : list string) (err : bool) : M S bool :=
     match l with
     | [] => mret err
     | name :: rest =>
         if (name =s keep) || negb (has_prefix name (Manager_prefix m)) then sweep rest err
         else bad ← remove (in_dir m.(Dir) name); sweep rest (err || bad)
     end.

(** [Manager.CleanupExcept]: whether an error is returned. The entries are
    those of the directory when it is listed. *)
Definition CleanupExcept (m : Manager) (keepVersion : string) : M S bool :=
  fails ← os_fails;
  if (fails : bool) then mret true else
  d ← gets get_files;
  let keep := if keepVersion =s "" then "" else setup_name m keepVersion in
  let names := omap (fun p => entry_of m.(Dir) p) (map_to_list d).*1 in
  sweep_loop m keep names false.
End Ops.

(** * What the operations do to the files *)

Section Specs.
Context {S : Type} {net : Network S} {filesystem : FileSystem S} {digest : Sha256}.

(** From files [d], [m] ends in files related to its result by [Q]. *)
Definition files_to {A} (d : files) (m : M S A) (Q : A -> files -> Prop) : Prop :=
  triple (fun s => get_files s = d) m (fun a s => Q a (get_files s)).

Lemma files_to_bind {A B} (m : M S A) (f : A -> M S B) d (R : A -> files -> Prop) Q :
  files_to d m R -> (forall a d', R a d' -> files_to d' (f a) Q) -> files_to d (m ≫= f) Q.
Proof.
  intros Hm Hf. eapply triple_bind; [exact Hm|]. intros a s Hs. by apply (Hf a (get_files s)).
Qed.

Lemma files_to_ret {A} (a : A) d (Q : A -> files -> Prop) : Q a d -> files_to d (mret a) Q.
Proof. intros H s Hs. unfold mret, M_ret. cbn. by rewrite Hs. Qed.

Lemma files_to_weaken {A} (m : M S A) d (Q Q' : A -> files -> Prop) :
  files_to d m Q -> (forall a d', Q a d' -> Q' a d') -> files_to d m Q'.
Proof. intros H HQ s Hs. apply HQ, H, Hs. Qed.

Lemma files_to_fails d : files_to d os_fails (fun _ d' => d' = d).
Proof. intros s Hs. by rewrite files_fails. Qed.

Lemma files_to_get d : files_to d (gets get_files) (fun a d' => a = d /\ d' = d).
Proof. by intros s Hs. Qed.

Lemma files_to_on f d : files_to d (on_files f) (fun _ d' => d' = f d).
Proof. intros s Hs. unfold on_files, modify. cbn. by rewrite files_set, Hs. Qed.

Lemma remove_to path d :
  files_to d (remove path) (fun bad d' => d' = if bad then d else delete path d).
Proof.
  eapply files_to_bind; [apply files_to_fails|]. intros [|] d' ->.
  - by apply files_to_ret.
  - eapply files_to_bind; [apply files_to_on|]. intros _ d'' ->. by apply files_to_ret.
Qed.

Lemma rename_to from to d : files_to d (rename_file from to) (fun bad d' =>
  if bad then d' = d else exists c, d !! from = Some c /\ d' = <[to := c]> (delete from d)).
Proof.
  eapply files_to_bind; [apply files_to_fails|]. intros b d' ->.
  eapply files_to_bind; [apply files_to_get|]. intros x d' [-> ->].
  destruct (d !! from) as [c|] eqn:E; [|by apply files_to_ret]. destruct b; [by apply files_to_ret|].
  eapply files_to_bind; [apply files_to_on|]. intros _ d'' ->. apply files_to_ret. by exists c.
Qed.

(** The file at [path] has the digest [sha]. *)
Definition verified (path sha : string) (d : files) : Prop :=
  exists bytes, d !! path = Some bytes /\ equal_fold (sha256_hex bytes) sha = true /\ sha <> "".

Lemma VerifyFile_to path sha d :
  files_to d (VerifyFile path sha) (fun r d' => d' = d /\ (r = None -> verified path sha d)).
Proof.
  unfold VerifyFile. destruct (sha =s "") eqn:E; [by apply files_to_ret|]. apply str_eqb_neq in E.
  eapply files_to_bind; [apply files_to_fails|]. intros b d' ->.
  eapply files_to_bind; [apply files_to_get|]. intros x d' [-> ->].
  apply files_to_ret. split; [done|]. destruct (d !! path) as [bytes|] eqn:Ed; [|done].
  destruct b; [done|]. destruct (equal_fold _ _) eqn:Ef; [|done]. intros _. by exists bytes.
Qed.

Lemma FetchSetup_to src t dest d : files_to d (FetchSetup src t dest) (fun r d' =>
  match r with
  | None => exists bytes, d' = <[dest := bytes]> d
  | Some _ => d' = d \/ exists bytes, d' = <[dest := bytes]> d
  end).
Proof.
  unfold FetchSetup.
  eapply (files_to_bind _ _ _ (fun _ d' => d' = d)); [intros s Hs; by rewrite files_net|].
  intros r d' ->. destruct r as [e|status et body]; [apply files_to_ret; by left|].
  destruct (negb _); [apply files_to_ret; by left|].
  eapply files_to_bind; [apply files_to_fails|]. intros [|] d' ->; [apply files_to_ret; by left|].
  eapply files_to_bind; [apply files_to_fails|]. intros b d' ->.
  assert (Hbroken : files_to d (part ← broken_transfer; on_files <[dest := part]> ;;
      mret (Some "setup download interrupted")) (fun r d' =>
    match r with
    | None => exists bytes, d' = <[dest := bytes]> d
    | Some _ => d' = d \/ exists bytes, d' = <[dest := bytes]> d
    end)).
  { eapply (files_to_bind _ _ _ (fun _ d' => d' = d)); [intros s Hs; by rewrite files_broken|].
    intros part d' ->. eapply files_to_bind; [apply files_to_on|]. intros _ d' ->.
    apply files_to_ret. right. by exists part. }
  destruct body as [p|], b; try done.
  eapply files_to_bind; [apply files_to_on|]. intros _ d' ->. apply files_to_ret. by exists (pl_bytes p).
Qed.

(** Everything [Ensure] may do to the files: a path other than the setup's and
    its partial download is left alone; the setup is left alone, removed, or
    replaced by a verified file, and it is verified when the call succeeds. *)
Definition ensured (m : Manager) (t : Target) (d : files) (r : result string string) (d' : files) : Prop :=
  let dest := SetupPath m t.(tg_Version) in
  (forall q, q <> dest -> q <> dest +:+ ".partial" -> d' !! q = d !! q) /\
  (forall e, r = Err e -> d' !! dest = d !! dest \/ d' !! dest = None) /\
  (forall p, r = Ok p -> p = dest /\ verified dest t.(tg_SHA256) d').

Lemma partial_ne (s : string) : s +:+ ".partial" <> s.
Proof.
  induction s as [|c s IH]; [done|]. cbn. intros [= H]. by apply IH.
Qed.

(** The tail of [Ensure] once the partial file is dealt with. *)
Lemma Ensure_tail m t d0 d r : ensured m t d0 r d ->
  files_to d (remove (SetupPath m t.(tg_Version) +:+ ".partial") ;; mret r) (ensured m t d0).
Proof.
  intros (H1 & H2 & H3). pose proof (partial_ne (SetupPath m t.(tg_Version))) as Hne.
  eapply files_to_bind; [apply remove_to|]. intros [|] d' ->; apply files_to_ret; [done|].
  assert (Hv : verified (SetupPath m t.(tg_Version)) t.(tg_SHA256) d ->
    verified (SetupPath m t.(tg_Version)) t.(tg_SHA256)
      (delete (SetupPath m t.(tg_Version) +:+ ".partial") d)).
  { intros (bytes & Hb & Hx). exists bytes. by rewrite lookup_delete_ne. }
  unfold ensured. split_and!.
  - intros q Hq Hqp. rewrite lookup_delete_ne by done. by apply H1.
  - rewrite lookup_delete_ne by done. done.
  - intros p Hp. destruct (H3 p Hp) as [-> ?]. split; [done|by apply Hv].
Qed.

Lemma ensured_removed m t d : ensured m t d (Err "") (delete (SetupPath m t.(tg_Version)) d).
Proof.
  split_and!; [|right; by rewrite lookup_delete_eq|done].
  intros q Hq _. by rewrite lookup_delete_ne.
Qed.

(** Writing the partial file, and failing, keeps the relation. *)
Lemma ensured_partial m t d0 d e e' bytes : ensured m t d0 (Err e) d ->
  ensured m t d0 (Err e') (<[SetupPath m t.(tg_Version) +:+ ".partial" := bytes]> d).
Proof.
  intros (H1 & H2 & _). pose proof (partial_ne (SetupPath m t.(tg_Version))) as Hne. split_and!.
  - intros q Hq Hqp. rewrite lookup_insert_ne by done. by apply H1.
  - intros e0 _. rewrite lookup_insert_ne by done. by apply (H2 e).
  - done.
Qed.

Lemma ensured_err m t d0 d e e' : ensured m t d0 (Err e) d -> ensured m t d0 (Err e') d.
Proof. intros (H1 & H2 & _). split_and!; [done| |done]. intros e0 _. by apply (H2 e). Qed.

Lemma Ensure_to m src t d : files_to d (Ensure m src t) (ensured m t d).
Proof.
  unfold Ensure. set (dest := SetupPath m (tg_Version t)). set (sha := tg_SHA256 t).
  assert (Hrefl : forall e, ensured m t d (Err e) d) by (intros e; split_and!; [done|by left|done]).
  eapply files_to_bind; [apply files_to_fails|]. intros [|] d1 ->; [by apply files_to_ret|].
  eapply files_to_bind; [apply VerifyFile_to|]. intros v d1 [-> Hv].
  destruct v as [ev|].
  2: { apply files_to_ret. split_and!; [done|done|]. intros p [= <-]. split; [done|by apply Hv]. }
  eapply files_to_bind; [apply remove_to|]. intros bad d1 Hd1.
  assert (E1 : ensured m t d (Err "") d1).
  { destruct bad; subst d1; [by apply Hrefl|apply ensured_removed]. }
  clear Hd1 bad Hv. eapply files_to_bind; [apply FetchSetup_to|]. intros f d2 Hd2.
  assert (E2 : ensured m t d (Err "") d2).
  { destruct f as [e|]; [destruct Hd2 as [->|[b ->]]|destruct Hd2 as [b ->]];
      try done; by eapply ensured_partial. }
  eapply files_to_bind; [|intros r d3 Hr; by apply Ensure_tail, Hr].
  destruct f as [e|]; [apply files_to_ret; by eapply ensured_err|].
  eapply files_to_bind; [apply VerifyFile_to|]. intros v d3 [-> Hv].
  destruct v as [e|]; [apply files_to_ret; by eapply ensured_err|].
  destruct (Hv eq_refl) as (bytes & Hb & Hok & Hne). clear Hv Hd2 E1.
  eapply files_to_bind; [apply rename_to|]. intros [|] d3 Hd3; apply files_to_ret.
  { subst d3. by eapply ensured_err. }
  destruct Hd3 as (c & Hc & ->). assert (c = bytes) as -> by congruence.
  assert (Hver : verified dest sha (<[dest := bytes]> (delete (dest +:+ ".partial") d2))).
  { exists bytes. by rewrite lookup_insert_eq. }
  destruct E2 as (H1 & _ & _). split_and!; [|done|by intros p [= <-]].
  intros q Hq Hqp. rewrite lookup_insert_ne, lookup_delete_ne by done. by apply H1.
Qed.

(** A path as it was, or gone. *)
Definition swept (d d' : files) : Prop := forall q, d' !! q = d !! q \/ d' !! q = None.

Lemma swept_refl d : swept d d.
Proof. by left. Qed.

Lemma swept_delete d d' p : swept d d' -> swept d (delete p d').
Proof.
  intros H q. destruct (decide (p = q)) as [->|]; [right; by rewrite lookup_delete_eq|].
  rewrite lookup_delete_ne by done. apply H.
Qed.

(** What a sweep leaves: every file as it was or gone, the kept one and those
    of other managers as they were, and, when no error is returned, no other
    file of this manager that was listed. *)
Definition swept_list (m : Manager) (keep : string) (l : list string) (d : files) (err : bool)
    (d' : files) : Prop :=
  swept d d' /\
  (forall q, (forall n, n ∈ l -> q = in_dir m.(Dir) n -> n = keep \/
                has_prefix n (Manager_prefix m) = false) -> d' !! q = d !! q) /\
  (err = false -> forall n, n ∈ l -> n <> keep -> has_prefix n (Manager_prefix m) = true ->
     d' !! in_dir m.(Dir) n = None).

Lemma sweep_to m keep l : forall err d, files_to d (sweep_loop m keep l err)
  (fun r d' => (r = false -> err = false) /\ swept_list m keep l d r d').
Proof.
  induction l as [|name l IH]; intros err d; cbn [sweep_loop].
  { apply files_to_ret. unfold swept_list. split_and!; [done|apply swept_refl|done|]. by intros _ n ?%elem_of_nil. }
  destruct ((name =s keep) || negb (has_prefix name (Manager_prefix m))) eqn:E.
  - eapply files_to_weaken; [apply IH|]. intros r d' (He & Hs & Hf & Hg).
    unfold swept_list. split_and!; try done.
    + intros q Hq. apply Hf. intros n Hn. apply Hq. by right.
    + intros Hr n [->|Hn]%elem_of_cons Hk Hp; [|by apply Hg].
      apply orb_true_iff in E as [?%str_eqb_eq|?%negb_true_iff]; [done|congruence].
  - apply orb_false_iff in E as [Ek%str_eqb_neq Ep%negb_false_iff].
    eapply files_to_bind; [apply remove_to|]. intros bad d1 Hd1.
    eapply files_to_weaken; [apply IH|]. intros r d' (He & Hs & Hf & Hg).
    assert (Hsw : swept d d').
    { intros q. destruct (Hs q) as [->|]; [|by right]. destruct bad; subst d1; [by left|].
      apply swept_delete, swept_refl. }
    unfold swept_list. split_and!.
    + intros Hr. destruct (orb_false_elim _ _ (He Hr)). done.
    + done.
    + intros q Hq. rewrite Hf.
      * destruct bad; subst d1; [done|]. apply lookup_delete_ne. intros <-.
        destruct (Hq name ltac:(by left) eq_refl); congruence.
      * intros n Hn. apply Hq. by right.
    + intros Hr n [->|Hn]%elem_of_cons Hk Hp; [|by apply Hg].
      destruct (orb_false_elim _ _ (He Hr)) as [_ ->]. subst d1.
      destruct (Hs (in_dir (Dir m) name)) as [->|]; [|done]. by rewrite lookup_delete_eq.
Qed.
Lemma CleanupExcept_to m keep d : files_to d (CleanupExcept m keep) (fun err d' =>
  swept_list m (if keep =s "" then "" else setup_name m keep)
    (omap (fun p => entry_of m.(Dir) p) (map_to_list d).*1) d err d').
Proof.
  unfold CleanupExcept. eapply files_to_bind; [apply files_to_fails|]. intros [|] d1 ->.
  - apply files_to_ret. unfold swept_list. split_and!; [apply swept_refl|done|done].
  - eapply files_to_bind; [apply files_to_get|]. intros x d1 [-> ->].
    eapply files_to_weaken; [apply sweep_to|]. by intros r d' [_ ?].
Qed.
End Specs.

(** * Directory entries *)

Lemma entry_of_path d path n : entry_of d path = Some n ->
  path = in_dir d n /\ index_byte n "\"%char = None.
Proof.
  unfold entry_of, in_dir. destruct (has_prefix path (d +:+ "\")) eqn:E; [|done].
  apply prefix_split in E. rewrite length_sapp in E. cbn [String.length] in E.
  destruct (index_byte _ _) eqn:Ei; [done|]. intros [= <-]. split; [|done].
  by rewrite <-sapp_assoc3.
Qed.

Lemma entry_of_in_dir d n : index_byte n "\"%char = None -> entry_of d (in_dir d n) = Some n.
Proof.
  intros Hn. unfold entry_of, in_dir. rewrite <-sapp_assoc3, prefix_app.
  replace (String.length d + 1)%nat with (String.length (d +:+ "\")) by apply length_sapp.
  by rewrite drop_str_app, Hn.
Qed.

(** A file directly in the directory is listed. *)
Lemma listed_entry d (fs : files) n bytes : index_byte n "\"%char = None ->
  fs !! in_dir d n = Some bytes -> n ∈ omap (fun p => entry_of d p) (map_to_list fs).*1.
Proof.
  intros Hi Hb. apply list_elem_of_omap. exists (in_dir d n). split; [|by apply entry_of_in_dir].
  apply list_elem_of_fmap. exists (in_dir d n, bytes). split; [done|].
  by apply elem_of_map_to_list.
Qed.

Section Props.
Context {S : Type} {net : Network S} {filesystem : FileSystem S} {digest : Sha256}.

(** C14: whatever the network, the disk and the cached files do, [Ensure]
    returns only the path of a file whose SHA-256 digest is the manifest's; a
    failure leaves the setup of that version as it was or gone, and no file but
    it and its partial download is ever touched. *)
Theorem Ensure_verified (m : Manager) (src : HTTPSource) (t : Target) (s : S) :
  let '(r, s') := Ensure m src t s in
  ensured m t (get_files s) r (get_files s').
Proof.
  pose proof (Ensure_to m src t (get_files s) s eq_refl) as H.
  by destruct (Ensure m src t s) as [r s'].
Qed.

Lemma changed_entry m keep (names : list string) (d d' : files) q :
  (forall q, (forall n, n ∈ names -> q = in_dir m.(Dir) n -> n = keep \/
     has_prefix n (Manager_prefix m) = false) -> d' !! q = d !! q) ->
  d' !! q <> d !! q ->
  exists n, n ∈ names /\ q = in_dir m.(Dir) n /\ has_prefix n (Manager_prefix m) = true /\ n <> keep.
Proof.
  intros Hf Hq.
  destruct (decide (Exists (fun n => q = in_dir m.(Dir) n /\
    has_prefix n (Manager_prefix m) = true /\ n <> keep) names)) as [He|He].
  - apply Exists_exists in He as (n & Hn & ? & ? & ?). by exists n.
  - destruct Hq. apply Hf. intros n Hn Heq. destruct (decide (n = keep)); [by left|right].
    destruct (has_prefix n (Manager_prefix m)) eqn:E; [|done]. destruct He.
    apply Exists_exists. by exists n.
Qed.

(** a sweep only removes, and only files of its own: every file whose
    contents change was directly in the manager's directory, carried its
    prefix, was not the kept version's, and is gone; and a sweep that returns
    no error has removed all of those. *)
Theorem CleanupExcept_spec (m : Manager) (keep : string) (s : S) :
  let '(err, s') := CleanupExcept m keep s in
  let kept := if keep =s "" then "" else setup_name m keep in
  let mine q := exists n, q = in_dir m.(Dir) n /\ index_byte n "\"%char = None /\
                          has_prefix n (Manager_prefix m) = true /\ n <> kept in
  (forall q, get_files s' !! q <> get_files s !! q -> mine q /\ get_files s' !! q = None) /\
  (err = false -> forall q, mine q -> get_files s' !! q = None).
Proof.
  set (d := get_files s).
  set (names := omap (fun p => entry_of m.(Dir) p) (map_to_list d).*1).
  pose proof (CleanupExcept_to m keep d s eq_refl) as H.
  destruct (CleanupExcept m keep s) as [err s'].
  destruct H as (Hs & Hf & Hg). cbn [fst snd] in *. cbv zeta. split.
  - intros q Hq. destruct (Hs q) as [?|Hn]; [done|]. split; [|done].
    destruct (changed_entry m (if keep =s "" then "" else setup_name m keep) names d
      (get_files s') q Hf Hq) as (n & Hin & -> & Hp & Hk).
    exists n. split_and!; try done.
    apply list_elem_of_omap in Hin as (p & _ & Hp').
    exact (proj2 (entry_of_path _ _ _ Hp')).
  - intros He q (n & -> & Hi & Hp & Hk). destruct (Hs (in_dir (Dir m) n)) as [Heq|]; [|done].
    destruct (d !! in_dir (Dir m) n) as [bytes|] eqn:Ed; [|done]. apply Hg; [done| |done|done].
    by eapply listed_entry.
Qed.
End Props.
