(* ===== verification/Layout.v ===== *)
(** internal/config/paths.go and the caches of [service.New]: where the updater
    keeps its files. The environment variable and the path of the executable
    are arguments.

    A directory of the form [drive c es] - a drive and plain names - is what
    %ProgramData% is; on those [filepath.Join] with a plain name appends it
    ([Join_drive]), so that the [in_dir] of Download.v is the code's [Join]. *)
From S2P Require Import Prelude Json Versions Paths Manifest Source Download.

(** [DataDir]; [pd] is %ProgramData%, empty when unset. *)
Definition DataDir (pd : string) : string :=
  filepath_Join (if pd =s "" then "C:\ProgramData" else pd) "EMLyUpdater".

Definition ConfigPath (pd : string) : string := filepath_Join (DataDir pd) "config.ini".
Definition StatePath (pd : string) : string := filepath_Join (DataDir pd) "state.json".
Definition RemoteConfigPath (pd : string) : string := filepath_Join (DataDir pd) "remote-config.json".
Definition RemoteConfigBadPath (pd : string) : string :=
  filepath_Join (DataDir pd) "remote-config.bad.json".
Definition RemoteConfigPrevPath (pd : string) : string :=
  filepath_Join (DataDir pd) "remote-config.prev.json".
Definition DownloadsDir (pd : string) : string := filepath_Join (DataDir pd) "downloads".
Definition SelfDownloadsDir (pd : string) : string := filepath_Join (DownloadsDir pd) "selfupdate".
Definition LogsDir (pd : string) : string := filepath_Join (DataDir pd) "logs".

(** [EnsureDirs]: the first error of [os.MkdirAll]. *)
Definition EnsureDirs (mkdirAll : string -> option string) (pd : string) : option string :=
  foldl (fun err d => match err with Some e => Some e | None => mkdirAll d end) None
    [DataDir pd; DownloadsDir pd; SelfDownloadsDir pd; LogsDir pd].

(** The two caches of [New]. *)
Definition Downloads_of (pd : string) : Manager := mkManager (DownloadsDir pd) "".
Definition SelfDownloads_of (pd : string) : Manager := mkManager (SelfDownloadsDir pd) "EMLyUpdater-".

(** * Plain paths *)

Definition plain_char (c : ascii) : bool := negb (is_sep c) && negb (Ascii.eqb c ":").
Definition plain_name (e : string) : bool :=
  string_forallb plain_char e && negb (e =s "") && negb (e =s ".") && negb (e =s "..").

Definition drive (c : ascii) (es : list string) : string :=
  String c (String ":" ("\" +:+ join "\" es)).

Definition drive_path (s : string) : Prop :=
  exists c es, s = drive c es /\ is_sep c = false /\ es <> [] /\ forallb plain_name es = true.

Lemma join_snoc l x : l <> [] -> join "\" (l ++ [x]) = join "\" l +:+ "\" +:+ x.
Proof.
  induction l as [|y l IH]; [done|]. intros _. destruct l as [|z l]; [done|].
  change (y +:+ "\" +:+ join "\" ((z :: l) ++ [x]) = (y +:+ "\" +:+ join "\" (z :: l)) +:+ "\" +:+ x).
  rewrite IH by done. by rewrite !sapp_assoc3.
Qed.

Lemma join_app l k : l <> [] -> k <> [] -> join "\" (l ++ k) = join "\" l +:+ "\" +:+ join "\" k.
Proof.
  induction l as [|y l IH]; [done|]. intros _ Hk. destruct l as [|z l].
  - destruct k as [|a k]; done.
  - change (y +:+ "\" +:+ join "\" ((z :: l) ++ k) = (y +:+ "\" +:+ join "\" (z :: l)) +:+ "\" +:+ join "\" k).
    rewrite IH by done. by rewrite !sapp_assoc3.
Qed.

Lemma plain_name_spec e : plain_name e = true ->
  string_forallb plain_char e = true /\ e <> "" /\ e <> "." /\ e <> "..".
Proof.
  unfold plain_name. intros H. apply andb_true_iff in H as [H H4%negb_true_iff].
  apply andb_true_iff in H as [H H3%negb_true_iff]. apply andb_true_iff in H as [H1 H2%negb_true_iff].
  split; [done|]. split_and!; by apply str_eqb_neq.
Qed.

Lemma elements_word e : string_forallb plain_char e = true -> elements e = [e].
Proof.
  induction e as [|c e IH]; [done|]. cbn. intros [Hc He]%andb_true_iff.
  apply andb_true_iff in Hc as [Hc _]. apply negb_true_iff in Hc. rewrite Hc. by rewrite IH.
Qed.

Lemma elements_sep e s : string_forallb plain_char e = true ->
  elements (e +:+ "\" +:+ s) = e :: elements s.
Proof.
  change ("\" +:+ s) with (String "\" s). induction e as [|c e IH]; [done|]. cbn.
  intros [Hc He]%andb_true_iff.
  apply andb_true_iff in Hc as [Hc _]. apply negb_true_iff in Hc. rewrite Hc. by rewrite IH.
Qed.

Lemma elements_join es : es <> [] -> forallb plain_name es = true -> elements (join "\" es) = es.
Proof.
  induction es as [|e es IH]; [done|]. intros _ H. apply andb_true_iff in H as [He Hes].
  apply plain_name_spec in He as (He & _). destruct es as [|e' es]; [by apply elements_word|].
  change (join "\" (e :: e' :: es)) with (e +:+ "\" +:+ join "\" (e' :: es)).
  by rewrite elements_sep, IH.
Qed.

(** * [Clean] and [Join] on them *)

Lemma has_prefix_rendered l k : l <> [] ->
  has_prefix ("\" +:+ join "\" (l ++ k)) (rendered true (rev l)) = true.
Proof.
  intros Hl. unfold rendered. rewrite rev_involutive. destruct k as [|x k].
  - rewrite app_nil_r. rewrite <-(append_nil ("\" +:+ join "\" l)) at 1. apply prefix_app.
  - rewrite join_app by done. rewrite <-sapp_assoc3. apply prefix_app.
Qed.

Lemma clean_plain path es : forall done, path = "\" +:+ join "\" (done ++ es) ->
  forallb plain_name es = true ->
  foldl (clean_step path true) (mkCleaned (rev done) None) es = mkCleaned (rev (done ++ es)) None.
Proof.
  induction es as [|e es IH]; intros done Hp H; [by rewrite app_nil_r|].
  apply andb_true_iff in H as [He Hes]. pose proof (plain_name_spec e He) as (_ & H1 & H2 & H3).
  apply str_eqb_neq in H1, H2, H3. cbn [foldl]. unfold clean_step at 2. rewrite H1, H2, H3. cbn [orb].
  unfold clean_push. cbn [cl_stack cl_buf write_buf].
  assert (Hr : e :: rev done = rev (done ++ [e])) by by rewrite rev_app_distr.
  rewrite Hr. assert (E : path = "\" +:+ join "\" ((done ++ [e]) ++ es)) by by rewrite <-app_assoc.
  rewrite E at 2. rewrite has_prefix_rendered by by destruct done.
  rewrite (IH (done ++ [e])) by done. by rewrite <-app_assoc.
Qed.

Lemma from_slash_plain s : string_forallb (fun c => negb (Ascii.eqb c "/")) s = true -> from_slash s = s.
Proof.
  unfold from_slash. induction s as [|c s IH]; [done|]. cbn. intros [Hc Hs]%andb_true_iff.
  apply negb_true_iff in Hc. rewrite Hc, IH; done.
Qed.

Lemma join_no_slash es : forallb plain_name es = true ->
  string_forallb (fun c => negb (Ascii.eqb c "/")) (join "\" es) = true.
Proof.
  induction es as [|e es IH]; [done|]. intros H. apply andb_true_iff in H as [He Hes].
  apply plain_name_spec in He as (He & _).
  assert (H1 : string_forallb (fun c => negb (Ascii.eqb c "/")) e = true).
  { clear -He. induction e as [|c e IH]; [done|]. cbn in *. apply andb_true_iff in He as [Hc He].
    apply andb_true_iff. split; [|by apply IH]. unfold plain_char, is_sep, backslash in Hc.
    by destruct (Ascii.eqb c "/"). }
  destruct es as [|e' es]; [done|].
  change (join "\" (e :: e' :: es)) with (e +:+ "\" +:+ join "\" (e' :: es)).
  rewrite !forallb_sapp, H1, IH by done. done.
Qed.

(** A drive and plain names are clean. *)
Lemma Clean_drive c es : is_sep c = false -> es <> [] -> forallb plain_name es = true ->
  filepath_Clean (drive c es) = drive c es.
Proof.
  intros Hc Hne Hes. unfold filepath_Clean, drive.
  change (volumeNameLen (String c (String ":" ("\" +:+ join "\" es)))) with 2%nat.
  cbn [drop_str]. set (path := "\" +:+ join "\" es).
  change (path =s "") with false. cbv iota.
  change (match path with String c0 _ => is_sep c0 | EmptyString => false end) with true. cbv zeta.
  assert (Hw : write_buf path "\" None = None).
  { unfold write_buf, path. by rewrite prefix_app. }
  rewrite Hw. change (elements path) with ("" :: elements (join "\" es)).
  rewrite elements_join by done. cbn [foldl].
  change (clean_step path true (mkCleaned [] None) "") with (mkCleaned (rev []) None).
  rewrite (clean_plain path es []) by done. cbn [cl_stack cl_buf app].
  unfold rendered. rewrite rev_involutive. cbn [String.eqb str_eqb].
  change ("\" +:+ join "\" es =s "") with false. cbv iota. cbn [post_clean].
  change (take_str 2 (String c (String ":" path))) with (String c (String ":" "")).
  apply from_slash_plain. cbn. unfold is_sep in Hc. apply orb_false_iff in Hc as [Hc _]. rewrite Hc.
  by apply join_no_slash.
Qed.

Lemma last_char f b : b <> "" -> string_forallb f b = true -> forall a,
  exists d, String.get (String.length (a +:+ b) - 1) (a +:+ b) = Some d /\ f d = true.
Proof.
  intros Hb Hf a. induction a as [|c a (d & Hd & Hfd)].
  - induction b as [|c b IH]; [done|]. cbn in Hf. apply andb_true_iff in Hf as [Hc Hf].
    destruct b as [|c' b]; [by exists c|]. destruct (IH ltac:(done) Hf) as (d & Hd & Hfd).
    exists d. split; [|done]. rewrite <-Hd. cbn. by rewrite Nat.sub_0_r.
  - exists d. split; [|done]. rewrite <-Hd. change (String c a +:+ b) with (String c (a +:+ b)).
    cbn [String.length]. destruct (a +:+ b) as [|x y] eqn:E; [by destruct a, b|].
    cbn [String.length]. by rewrite !Nat.sub_succ, !Nat.sub_0_r.
Qed.

Lemma drive_last c es : es <> [] -> forallb plain_name es = true ->
  exists d, String.get (String.length (drive c es) - 1) (drive c es) = Some d /\ plain_char d = true.
Proof.
  intros Hne Hes. destruct es as [|x l _] using rev_ind; [done|].
  rewrite forallb_app in Hes. apply andb_true_iff in Hes as [_ Hx]. cbn in Hx.
  rewrite andb_true_r in Hx. apply plain_name_spec in Hx as (Hx & Hx0 & _).
  assert (E : exists a, drive c (l ++ [x]) = a +:+ x).
  { destruct l as [|y l]; [by exists (String c ":\")|]. unfold drive. rewrite join_snoc by done.
    exists (String c (":\" +:+ join "\" (y :: l) +:+ "\")). cbn. by rewrite !sapp_assoc3. }
  destruct E as [a ->]. by apply last_char.
Qed.

Lemma join_step_drive c es e : is_sep c = false -> es <> [] -> forallb plain_name es = true ->
  join_step (drive c es) e = drive c (es ++ [e]).
Proof.
  intros Hc Hne Hes. destruct (drive_last c es Hne Hes) as (d & Hd & Hpd).
  apply andb_true_iff in Hpd as [H1%negb_true_iff H2%negb_true_iff].
  unfold join_step. rewrite Hd, H1, H2. change (drive c es =s "") with false. cbv iota.
  unfold drive. by rewrite join_snoc.
Qed.

(** [Join] of a plain directory and plain names appends the names. *)
Lemma JoinAll_drive c es names : is_sep c = false -> es <> [] -> forallb plain_name es = true ->
  forallb plain_name names = true -> filepath_JoinAll (drive c es :: names) = drive c (es ++ names).
Proof.
  intros Hc Hne Hes Hn. unfold filepath_JoinAll. cbn [foldl]. change (join_step "" (drive c es)) with (drive c es).
  assert (E : foldl join_step (drive c es) names = drive c (es ++ names)).
  { revert es Hne Hes. induction names as [|e names IH]; intros es Hne Hes; [by rewrite app_nil_r|].
    apply andb_true_iff in Hn as [He Hn]. cbn [foldl]. rewrite join_step_drive by done.
    rewrite (IH Hn) by (first [by destruct es|by rewrite forallb_app, Hes; cbn; rewrite He]). by rewrite <-app_assoc. }
  rewrite E. unfold joined. change (drive c (es ++ names) =s "") with false. cbv iota.
  apply Clean_drive; [done|by destruct es|]. by rewrite forallb_app, Hes.
Qed.

Lemma Join_drive c es e : is_sep c = false -> es <> [] -> forallb plain_name es = true ->
  plain_name e = true -> filepath_Join (drive c es) e = drive c (es ++ [e]).
Proof. intros Hc Hne Hes He. apply (JoinAll_drive c es [e]); [done..|]. cbn. by rewrite He. Qed.

Lemma Join_path d e : drive_path d -> plain_name e = true ->
  filepath_Join d e = in_dir d e /\ drive_path (filepath_Join d e).
Proof.
  intros (c & es & -> & Hc & Hne & Hes) He. rewrite Join_drive by done. split.
  - unfold drive, in_dir. by rewrite join_snoc.
  - exists c, (es ++ [e]). split_and!; [done|done|by destruct es|]. rewrite forallb_app, Hes. cbn. by rewrite He.
Qed.

Lemma DataDir_path pd : pd = "" \/ drive_path pd -> drive_path (DataDir pd).
Proof.
  intros H. unfold DataDir. apply Join_path; [|done]. destruct H as [->|H].
  - by exists "C"%char, ["ProgramData"].
  - destruct (pd =s "") eqn:E; [|done]. apply str_eqb_eq in E as ->. by destruct H as (c & es & ? & _).
Qed.

Lemma dirs_nested pd : pd = "" \/ drive_path pd ->
  DownloadsDir pd = in_dir (DataDir pd) "downloads" /\
  SelfDownloadsDir pd = in_dir (DownloadsDir pd) "selfupdate".
Proof.
  intros H. destruct (Join_path _ "downloads" (DataDir_path pd H) eq_refl) as [E1 H1].
  destruct (Join_path _ "selfupdate" H1 eq_refl) as [E2 _]. done.
Qed.

Lemma dirs_paths pd : pd = "" \/ drive_path pd ->
  drive_path (DownloadsDir pd) /\ drive_path (SelfDownloadsDir pd).
Proof.
  intros H. destruct (Join_path _ "downloads" (DataDir_path pd H) eq_refl) as [_ H1].
  split; [exact H1|exact (proj2 (Join_path _ "selfupdate" H1 eq_refl))].
Qed.

(** * The two caches *)

Section Caches.
Context {S : Type} {net : Network S} {filesystem : FileSystem S} {digest : Sha256}.
Variable pd : string.
Hypothesis program_data : pd = "" \/ drive_path pd.

Lemma sapp_inj a b c : a +:+ b = a +:+ c -> b = c.
Proof. induction a as [|x a IH]; [done|]. cbn. intros [= H]. by apply IH. Qed.

(** A name with a separator in it is not a name. *)
Lemma nested_name a b : index_byte (a +:+ "\" +:+ b) "\"%char <> None.
Proof.
  change ("\" +:+ b) with (String "\" b). induction a as [|c a IH]; [done|]. cbn.
  destruct (Ascii.eqb c "\"); [done|]. by rewrite fmap_None.
Qed.

(** A file of the updater's cache is no entry of EMLy's, nor one of EMLy's a
    file of the updater's. *)
Lemma caches_apart n n' : index_byte n "\"%char = None ->
  in_dir (DownloadsDir pd) n <> in_dir (SelfDownloadsDir pd) n'.
Proof.
  intros Hn. rewrite (proj2 (dirs_nested pd program_data)). unfold in_dir.
  rewrite !sapp_assoc3. intros H. do 2 apply sapp_inj in H. subst n.
  exact (nested_name "selfupdate" n' Hn).
Qed.

Lemma no_byte_app a b c : index_byte a c = None -> index_byte b c = None -> index_byte (a +:+ b) c = None.
Proof.
  induction a as [|x a IH]; [done|]. cbn. destruct (Ascii.eqb x c); [done|].
  rewrite !fmap_None. done.
Qed.

(** What a download of a version writes is directly in its cache. *)
Lemma setup_name_plain prefix v : index_byte (if prefix =s "" then DefaultPrefix else prefix) "\"%char = None ->
  index_byte v "\"%char = None -> forall d,
  index_byte (setup_name (mkManager d prefix) v) "\"%char = None /\
  index_byte (setup_name (mkManager d prefix) v +:+ ".partial") "\"%char = None.
Proof.
  intros Hp Hv d. assert (H : index_byte (setup_name (mkManager d prefix) v) "\"%char = None).
  { unfold setup_name, Manager_prefix. cbn [m_Prefix]. by apply no_byte_app; [|apply no_byte_app]. }
  split; [done|]. by apply no_byte_app.
Qed.

Lemma partial_in_dir d n : in_dir d n +:+ ".partial" = in_dir d (n +:+ ".partial").
Proof. unfold in_dir. by rewrite !sapp_assoc3. Qed.

(** A sweep changes entries of its directory only. *)
Lemma sweep_outside m keep (s : S) q :
  (forall n, index_byte n "\"%char = None -> q <> in_dir m.(Dir) n) ->
  get_files (CleanupExcept m keep s).2 !! q = get_files s !! q.
Proof.
  intros Hq. destruct (CleanupExcept_to m keep (get_files s) s eq_refl) as (_ & Hf & _).
  apply Hf. intros n (p & _ & He)%list_elem_of_omap ->. apply entry_of_path in He as [_ Hn].
  by destruct (Hq n Hn).
Qed.

Lemma plain_no_sep s : string_forallb plain_char s = true -> index_byte s "\"%char = None.
Proof.
  induction s as [|c s IH]; [done|]. cbn. intros [Hc Hs]%andb_true_iff. unfold plain_char, is_sep, backslash in Hc.
  rewrite (IH Hs). destruct (Ascii.eqb c "\") eqn:E; [|done]. apply Ascii.eqb_eq in E as ->. discriminate Hc.
Qed.

(** The setup of a plain version is where [filepath.Join] puts it. *)
Lemma SetupPath_join m v : drive_path m.(Dir) -> m.(m_Prefix) = "" \/ m.(m_Prefix) = "EMLyUpdater-" ->
  string_forallb plain_char v = true -> SetupPath m v = filepath_Join m.(Dir) (setup_name m v).
Proof.
  intros Hd Hp Hv. assert (Hn : plain_name (setup_name m v) = true).
  { unfold setup_name, Manager_prefix, plain_name. destruct Hp as [-> | ->]; cbn [str_eqb String.eqb];
      (rewrite !forallb_sapp, Hv; reflexivity). }
  symmetry. exact (proj1 (Join_path _ _ Hd Hn)).
Qed.

(** C38: neither cache reaches the other's files. In the directories the
    service uses, below any %ProgramData% that is a drive and plain names,
    sweeping EMLy's cache or downloading a release of EMLy into it leaves every
    file of the updater's cache as it is, although that one is a subdirectory
    of it, and sweeping or filling the updater's leaves every setup of EMLy;
    versions and file names hold no separator or colon, so that a setup is
    where [filepath.Join] puts it. *)
Theorem caches_disjoint (keep : string) (src : HTTPSource) (t : Target) (s : S) (n : string) :
  string_forallb plain_char t.(tg_Version) = true -> string_forallb plain_char n = true ->
  let emly := Downloads_of pd in
  let own := SelfDownloads_of pd in
  let theirs := in_dir emly.(Dir) n in
  let ours := in_dir own.(Dir) n in
  (SetupPath emly t.(tg_Version) = filepath_Join (DownloadsDir pd) (setup_name emly t.(tg_Version)) /\
   SetupPath own t.(tg_Version) = filepath_Join (SelfDownloadsDir pd) (setup_name own t.(tg_Version))) /\
  get_files (CleanupExcept emly keep s).2 !! ours = get_files s !! ours /\
  get_files (Ensure emly src t s).2 !! ours = get_files s !! ours /\
  get_files (CleanupExcept own keep s).2 !! theirs = get_files s !! theirs /\
  get_files (Ensure own src t s).2 !! theirs = get_files s !! theirs.
Proof.
  intros Hpv Hpn. pose proof (plain_no_sep _ Hpv) as Hv. pose proof (plain_no_sep _ Hpn) as Hn. cbv zeta.
  destruct (setup_name_plain "" (tg_Version t) eq_refl Hv (DownloadsDir pd)) as [N1 P1].
  destruct (Ensure_to (Downloads_of pd) src t (get_files s) s eq_refl) as (H1 & _).
  destruct (Ensure_to (SelfDownloads_of pd) src t (get_files s) s eq_refl) as (H2 & _).
  destruct (dirs_paths pd program_data) as [D1 D2].
  split_and!; [by apply SetupPath_join; [|left|]|by apply SetupPath_join; [|right|]| | | |].
  - apply sweep_outside. intros n' Hn' E. by apply (caches_apart n' n Hn').
  - apply H1; unfold SetupPath; [|rewrite partial_in_dir]; intros E; symmetry in E; by eapply caches_apart, E.
  - apply sweep_outside. intros n' _. by apply caches_apart.
  - apply H2; unfold SetupPath; [|rewrite partial_in_dir]; by apply caches_apart.
Qed.
End Caches.

(** * An example: a disk without a network *)

Module Disk.
#[local] Instance offline : Network files := fun _ => mret (NoReply "no route").
#[local] Instance disk : FileSystem files.
Proof.
  refine {| os_fails := mret false; broken_transfer := mret ""; get_files := fun d => d;
            set_files := fun d _ => d |}; done.
Defined.
#[local] Instance plain_digest : Sha256 := fun s => s.

Definition ours : string := "C:\ProgramData\EMLyUpdater\downloads\selfupdate\EMLyUpdater-1.8.0-setup.exe".
Definition theirs : string := "C:\ProgramData\EMLyUpdater\downloads\EMLy-2.0.0-setup.exe".
Definition files0 : files := {[ours := "a"; theirs := "b"]}.

(** A sweep of EMLy's cache takes EMLy's setup and leaves the updater's. *)
Lemma caches_disjoint_witness :
  (CleanupExcept (Downloads_of "") "" files0).2 !! theirs = None /\
  (CleanupExcept (Downloads_of "") "" files0).2 !! ours = Some "a".
Proof.
  split; [vm_compute; reflexivity|].
  exact (proj1 (proj2 (caches_disjoint "" (or_introl eq_refl) "" (NewHTTPSource "http://lan")
    (mkTarget "2.0.0" "https://dl" "b") files0 "EMLyUpdater-1.8.0-setup.exe" eq_refl eq_refl))).
Defined.
End Disk.
