(* ===== verification/Installer.v ===== *)
(** internal/installer: running EMLy's setup and uninstaller, and confirming
    the result off EMLy's config.ini. A child process is an oracle: what
    became of it ([run_outcome]). The arguments are those of the code; the log
    directory and the clock of the log name are arguments. *)
From S2P Require Import Prelude Json Versions Net Config Download.

Inductive run_outcome :=
| NotStarted (err : string)
| Exited (code : Z)
| WaitFailed (err : string)
| TimedOut.

Fixpoint last_segment (l : list string) : string :=
  match l with [] => "" | [x] => x | _ :: r => last_segment r end.

(** [filepath.Base]. *)
Definition path_base (p : string) : string := last_segment (split_byte "\"%char p).

(** [runSilent]: the error. *)
Definition runSilent (exePath : string) (o : run_outcome) (logPath : string) : option string :=
  match o with
  | NotStarted e => Some ("failed to start " +:+ exePath +:+ ": " +:+ e)
  | Exited 0 => None
  | Exited code => Some (path_base exePath +:+ " exited with code " +:+ pretty code +:+
                         " (see " +:+ logPath +:+ ")")
  | WaitFailed e => Some (path_base exePath +:+ " failed: " +:+ e)
  | TimedOut => Some (path_base exePath +:+ " did not finish within 15m0s, killed (see " +:+
                      logPath +:+ ")")
  end.

Definition run_log (version logsDir : string) : string :=
  in_dir logsDir ("emly-install-" +:+ version +:+ ".log").

(** The arguments [Run] passes. *)
Definition run_args (version logsDir : string) : list string :=
  ["/VERYSILENT"; "/SUPPRESSMSGBOXES"; "/NORESTART"; "/FORCEUPGRADE";
   "/LOG=" +:+ run_log version logsDir].

(** [Run]. *)
Definition Run (spawn : string -> list string -> run_outcome) (setupPath version logsDir : string) :
    option string :=
  runSilent setupPath (spawn setupPath (run_args version logsDir)) (run_log version logsDir).

(** [Uninstall]: the uninstallers [Glob] finds, and the Unix time of the log. *)
Definition Uninstall (spawn : string -> list string -> run_outcome)
    (matches : result string (list string)) (now : Z) (logsDir : string) : option string :=
  match matches with
  | Err e => Some ("failed to look for EMLy's uninstaller: " +:+ e)
  | Ok [] => None
  | Ok (exe :: _) =>
      let logPath := in_dir logsDir ("emly-uninstall-" +:+ pretty now +:+ ".log") in
      runSilent exe (spawn exe ["/VERYSILENT"; "/SUPPRESSMSGBOXES"; "/NORESTART"; "/LOG=" +:+ logPath])
        logPath
  end.

Definition verification_failed : string := "post-install verification failed".

Section Verify.
Context {versions : VersionLib} {inilib : IniLib}.

(** [VerifyInstalled]; [text] is EMLy's config.ini. *)
Definition VerifyInstalled (text : option string) (expected : string) : option string :=
  match ReadEMLyConfig text with
  | None => Some (verification_failed +:+ ": unreadable")
  | Some info =>
      match Less info.(InstalledVersion) expected with
      | Err e => Some (verification_failed +:+ ": " +:+ e)
      | Ok true => Some (verification_failed +:+ ": config.ini reports " +:+
                         info.(InstalledVersion) +:+ ", expected " +:+ expected)
      | Ok false => None
      end
  end.

(** An installation is confirmed exactly when EMLy's config.ini can be read
    and reports a version that is not older than the expected one - a newer
    one is confirmed as well. *)
Theorem VerifyInstalled_spec (text : option string) (expected : string) :
  VerifyInstalled text expected = None <->
  exists info, ReadEMLyConfig text = Some info /\ Less info.(InstalledVersion) expected = Ok false.
Proof.
  unfold VerifyInstalled. destruct (ReadEMLyConfig text) as [info|]; [|split; [done|by intros (?&?&_)]].
  destruct (Less (InstalledVersion info) expected) as [[]|e] eqn:E.
  - split; [done|]. intros (i & [= <-] & Hi). congruence.
  - split; [|done]. intros _. by exists info.
  - split; [done|]. intros (i & [= <-] & Hi). congruence.
Qed.
End Verify.

(** [installFailureCode] (service/clientupdates.go). *)
Definition installFailureCode (err : string) : string :=
  if str_contains err verification_failed then "version_mismatch" else "setup_exit_code".
