(* ===== verification/Wire.v ===== *)
(** internal/wsclient/protocol.go, id.go and backoff.go: protocol v2 of the
    client channel - names, message bodies, the checks on a command's
    arguments -, the message ids and the reconnection schedule.

    A command's arguments are raw JSON inside a decoded message: [None] when
    absent. Fields match their exact names. Randomness (the id's entropy, the
    jitter of a delay) is an argument. *)
From S2P Require Import Prelude Rfc3339 Json PolicyDoc MachineInfo.

#[local] Existing Instance slice_codec.

Definition ProtocolV2 : Z := 2.

Definition CmdMachineInfo : string := "machine.info".
Definition CmdEMLyManifestCheck : string := "emly.manifest.check".
Definition CmdUpdaterManifestCheck : string := "updater.manifest.check".
Definition CmdAppsListUpgradable : string := "apps.list_upgradable".
Definition CmdServiceRestart : string := "service.restart".
Definition CmdMachineReboot : string := "machine.reboot".

Definition EvtMachineInfo : string := "machine.info".
Definition EvtSessionChanged : string := "session.changed".
Definition EvtUpdateAvailable : string := "update.available".
Definition EvtUpdateStarted : string := "update.started".
Definition EvtUpdateApplied : string := "update.applied".
Definition EvtUpdateFailed : string := "update.failed".
Definition EvtServiceStarted : string := "service.started".

Definition TopicReleasePublished : string := "release.published".
Definition TopicConfigPublished : string := "config.published".

Definition ErrUnsupportedCommand : string := "unsupported_command".
Definition ErrInvalidArgs : string := "invalid_args".
Definition ErrExpired : string := "expired".
Definition ErrBusy : string := "busy".
Definition ErrDisabledByPolicy : string := "disabled_by_policy".
Definition ErrInsecureTransport : string := "insecure_transport".
Definition ErrUserActive : string := "user_active".
Definition ErrWingetModuleMissing : string := "winget_module_missing".
Definition ErrPowerShellNotFound : string := "powershell_not_found".
Definition ErrSourcesUnreachable : string := "sources_unreachable".
Definition ErrNotFound_code : string := "not_found".
Definition ErrManifestInvalid : string := "manifest_invalid".
Definition ErrTimeout : string := "timeout".
Definition ErrInternal : string := "internal".

Definition CommandNames : list string :=
  [CmdMachineInfo; CmdEMLyManifestCheck; CmdUpdaterManifestCheck; CmdAppsListUpgradable;
   CmdServiceRestart; CmdMachineReboot].
Definition EventNames : list string :=
  [EvtMachineInfo; EvtSessionChanged; EvtUpdateAvailable; EvtUpdateStarted; EvtUpdateApplied;
   EvtUpdateFailed; EvtServiceStarted].
Definition TopicNames : list string := [TopicReleasePublished; TopicConfigPublished].

(** [Destructive]. *)
Definition Destructive (name : string) : bool :=
  (name =s CmdServiceRestart) || (name =s CmdMachineReboot).

(** * Message bodies *)

(** [Limits], [DefaultLimits]. *)
Record Limits := mkLimits {
  MaxMessageBytes : Z;
  MaxEventsPerMinute : Z;
  AckTimeoutSeconds : Z
}.
Definition DefaultLimits : Limits := mkLimits 65536 60 5.

(** [Welcome]. *)
Record Welcome := mkWelcome {
  wl_Protocol : Z;
  AcceptedCapabilities : list string;
  wl_Limits : Limits
}.

(** [ErrorBody]. *)
Record ErrorBody := mkError { Code : string; em_Message : string }.

(** [Command]. *)
Record Command := mkCommand {
  cmd_Name : string;
  cmd_Args : option json;
  ExpiresAt : string;
  IssuedBy : string
}.

(** [Ack]. *)
Record Ack := mkAck { Accepted : bool; ack_Error : option ErrorBody; Duplicate : bool }.

(** [ServiceStarted]. *)
Record ServiceStarted := mkServiceStarted {
  sv_Reason : string;
  sv_BootTime : string;
  sv_StartedAt : string;
  UpdaterVersion : string;
  PreviousVersion : string;
  CompletedCommands : list string
}.

(** [UserSession] on the wire. *)
Record WireSession := mkWireSession {
  wu_User : string;
  wu_State : string;
  wu_DisconnectedAt : string
}.

(** [SessionChanged]. *)
Record SessionChanged := mkSessionChanged {
  sd_Events : list string;
  sd_SessionID : Z;
  sd_SessionUser : string;
  sd_LoggedUser : option WireSession;
  sd_Changed : bool;
  sd_At : string
}.

(** [ServerRef]. *)
Record ServerRef := mkServerRef { sref_URL : string; Role : string }.

(** [PendingInfo]. *)
Record PendingInfo := mkPendingInfo {
  pi_Version : string;
  pi_Forced : bool;
  pi_DownloadedAt : string
}.

(** [ManifestCheck]. *)
Record ManifestCheck := mkManifestCheck {
  mc_Target : string;
  mc_InstalledVersion : string;
  mc_Channel : string;
  AvailableVersion : string;
  UpdateAvailable : bool;
  Critical : bool;
  mc_MinRequiredVersion : string;
  mc_Decision : string;
  mc_Pending : option PendingInfo;
  mc_Source : option ServerRef;
  CheckedAt : string;
  mc_Error : option ErrorBody
}.

(** [updateEvent] (service/clientupdates.go). *)
Record updateEvent := mkUpdateEvent {
  ue_Target : string;
  ue_FromVersion : string;
  ToVersion : string;
  ue_Forced : bool;
  ue_Attempt : Z;
  Trigger : string;
  DurationMS : Z;
  Reinstalled : bool;
  WillRetry : bool;
  ue_Error : option ErrorBody
}.

(** [UpgradablePackage]. *)
Record UpgradablePackage := mkUpgradable {
  up_Name : string;
  up_ID : string;
  up_Installed : string;
  up_Available : string;
  up_Source : string;
  Scope_ : string
}.
Definition ScopeMachine : string := "machine".
Definition ScopeUser : string := "user".

#[export] Instance ErrorBody_eq_dec : EqDecision ErrorBody.
Proof. solve_decision. Defined.
#[export] Instance updateEvent_eq_dec : EqDecision updateEvent.
Proof. solve_decision. Defined.

(** * Arguments *)

Definition RebootDefaultDelaySeconds : Z := 300.
Definition RebootMaxDelaySeconds : Z := 3600.
Definition WhenUserActiveWarn : string := "warn".
Definition WhenUserActiveSkip : string := "skip".

Definition MachineInfoSections : list string :=
  ["identity"; "logged_user"; "network"; "site"; "config"; "hardware"; "emly"; "update"].

(** [RebootArgs]. *)
Record RebootArgs := mkRebootArgs { DelaySeconds_ : option Z; WhenUserActive : string }.

(** [RebootArgs.Delay], [RebootArgs.Mode]. *)
Definition reboot_Delay (a : RebootArgs) : Z := from_opt RebootDefaultDelaySeconds a.(DelaySeconds_).
Definition reboot_Mode (a : RebootArgs) : string :=
  if a.(WhenUserActive) =s "" then WhenUserActiveWarn else a.(WhenUserActive).

(** A decoder that rejects unknown fields. *)
Definition strict {A} (z : A) (known : list string) (f : jobject -> option A) (raw : option json) :
    option A :=
  match raw with
  | None | Some JNull => Some z
  | Some (JObj m) => if forallb (contains known) (map_to_list m).*1 then f m else None
  | Some _ => None
  end.

(** [DecodeArgs] at the three argument types. *)
Definition decode_sections (raw : option json) : option (list string) :=
  strict [] ["sections"] (fun m => sl <$> (field m "sections" : option (slice string))) raw.
Definition decode_reboot (raw : option json) : option RebootArgs :=
  strict (mkRebootArgs None "") ["delay_seconds"; "when_user_active"] (fun m =>
    d ← @field _ (@pointer_codec _ int_codec) m "delay_seconds"; w ← field m "when_user_active";
    Some (mkRebootArgs d w)) raw.
Definition decode_none (raw : option json) : option unit := strict tt [] (fun _ => Some tt) raw.

Definition invalidArgs (msg : string) : option ErrorBody := Some (mkError ErrInvalidArgs msg).

(** [ValidateArgs]. *)
Definition ValidateArgs (name : string) (raw : option json) : option ErrorBody :=
  if name =s CmdMachineInfo then
    match decode_sections raw with
    | None => invalidArgs "machine.info: invalid arguments"
    | Some sections =>
        match find_first (fun s => negb (contains MachineInfoSections s)) sections with
        | Some s => invalidArgs ("machine.info: unknown section " +:+ s)
        | None => None
        end
    end
  else if name =s CmdMachineReboot then
    match decode_reboot raw with
    | None => invalidArgs "machine.reboot: invalid arguments"
    | Some a =>
        if (reboot_Delay a <? 0) || (RebootMaxDelaySeconds <? reboot_Delay a)
        then invalidArgs "machine.reboot: delay_seconds must be between 0 and 3600"
        else if negb (reboot_Mode a =s WhenUserActiveWarn) && negb (reboot_Mode a =s WhenUserActiveSkip)
        then invalidArgs "machine.reboot: when_user_active must be warn or skip"
        else None
    end
  else if contains [CmdEMLyManifestCheck; CmdUpdaterManifestCheck; CmdAppsListUpgradable;
                    CmdServiceRestart] name then
    match decode_none raw with
    | None => invalidArgs (name +:+ " takes no arguments")
    | Some _ => None
    end
  else Some (mkError ErrUnsupportedCommand ("unknown command " +:+ name)).

(** * Message ids *)

Definition crockford : string := "0123456789ABCDEFGHJKMNPQRSTVWXYZ".

Fixpoint nth_char (n : nat) (s : string) : ascii :=
  match s, n with
  | EmptyString, _ => "0"%char
  | String c _, O => c
  | String _ s, S n => nth_char n s
  end.

(** The sixteen bytes: the low 48 bits of the Unix milliseconds, then ten
    random bytes, zeros when they cannot be read. *)
Definition id_bytes (ms : Z) (entropy : option (list Z)) : list Z :=
  ((fun i => Z.shiftr ms (40 - 8 * Z.of_nat i) mod 256) <$> seq 0 6) ++
  match entropy with
  | Some e => take 10 e
  | None => replicate 10 0
  end.

(** Bit [p] from the left. *)
Definition id_bit (b : list Z) (p : Z) : bool :=
  (0 <=? p) && Z.testbit (from_opt 0 (b !! Z.to_nat (p / 8))) (7 - p mod 8).

Definition id_digit (b : list Z) (i : nat) : Z :=
  foldl (fun v j => 2 * v + Z.b2z (id_bit b (Z.of_nat i * 5 + Z.of_nat j - 2))) 0 (seq 0 5).

Fixpoint of_chars (l : list ascii) : string :=
  match l with [] => "" | c :: r => String c (of_chars r) end.

(** [newIDAt]. *)
Definition newIDAt (t : time) (entropy : option (list Z)) : string :=
  let ms := ((t - unix_epoch) / millisecond) mod 2 ^ 64 in
  let b := id_bytes ms entropy in
  of_chars ((fun i => nth_char (Z.to_nat (id_digit b i)) crockford) <$> seq 0 26).

(** * The reconnection schedule *)

Definition DefaultBackoffBase : duration := 5 * second.
Definition DefaultBackoffMax : duration := 5 * minute.
Definition DefaultStableFor : duration := 60 * second.

(** [Backoff]. *)
Record Backoff := mkBackoff { bo_Base : duration; bo_Max : duration; StableFor : duration; bo_cur : duration }.

Definition positive_or (d z : duration) : duration := if 0 <? z then z else d.

(** [base], [max], [stableFor]. *)
Definition bo_base (b : Backoff) : duration := positive_or DefaultBackoffBase b.(bo_Base).
Definition bo_max (b : Backoff) : duration := positive_or DefaultBackoffMax b.(bo_Max).
Definition bo_stableFor (b : Backoff) : duration := positive_or DefaultStableFor b.(StableFor).

(** [jitter]; [r] is the random number, below [d + 1]. *)
Definition jitter (r : Z -> Z) (d : duration) : duration := if d <=? 0 then 0 else r (d + 1).

(** [Next]: the delay and the schedule. *)
Definition Next (r : Z -> Z) (b : Backoff) : duration * Backoff :=
  let cur := if b.(bo_cur) <=? 0 then bo_base b else wrap64 (b.(bo_cur) * 2) in
  let cur := if bo_max b <? cur then bo_max b else cur in
  (jitter r cur, mkBackoff b.(bo_Base) b.(bo_Max) b.(StableFor) cur).

(** [Reset], [Settle]. *)
Definition bo_Reset (b : Backoff) : Backoff := mkBackoff b.(bo_Base) b.(bo_Max) b.(StableFor) 0.
Definition Settle (connectedFor : duration) (b : Backoff) : Backoff :=
  if bo_stableFor b <=? connectedFor then bo_Reset b else b.
