(* ===== verification/World.v ===== *)
(** The world of a poll cycle: what [Updater] remembers between cycles, the
    files it works on, and everything outside it, as oracles.

    Every interaction with the outside - a clock reading, a request, a file
    operation, a question about the machine, a state-file access - consumes
    one tick; the answer is the [Env]ironment's at that tick, so an [Env] is
    an arbitrary behaviour of the rest of the system, client-channel commands
    included. What the service does is recorded in [w_trace], newest last.

    The cycle runs on one goroutine, and the caches of setups change only
    through it. The state file it shares with the command handlers and the
    welcome burst: their store methods are [Env]'s to choose, and whichever of
    them take the store's mutex before this goroutine's next access are run
    then ([others]); the trace keeps those that succeeded. *)
From S2P Require Import Prelude Json Files Versions Manifest PolicyDoc PolicyMatch State Source.
From S2P Require Import Config PolicyStore RemoteConfig MachineInfo Wire Download Installer.

(** What the service does, as seen from outside. [ASetup] records the bytes of
    the file at the moment it is started and the digest it was recorded with;
    [ALaunch] those of the updater's own setup, with what state.json holds at
    that moment. *)
Inductive action :=
| ARequest (url : string)
| ASetup (path : string) (bytes : option string) (version sha : string)
| AUninstall
| ALaunch (path : string) (bytes : option string) (version sha : string) (attempt : Z)
    (record : option content)
| AWarn (seconds : Z)
| ANotify
| AKill
| AWaitExit
| AToast
| ACertificates
| AAssociations
| AOther (o : op)
| AEmit (name : string) (ev : updateEvent)
| AAnnounce (mc : ManifestCheck).

(** [updateFailedKey]. *)
Abbreviation updateFailedKey := (string * string * Z * string)%type.

(** The store methods of the other goroutines (clientpower.go,
    clientevents.go). *)
Inductive command_op :=
| CAdd (c : PendingCommand)
| CRemove (id : string)
| CTake.

Definition store_op (o : command_op) : op :=
  match o with
  | CAdd c => OAddCommand c
  | CRemove id => ORemoveCommand id
  | CTake => OTakeCommands
  end.

(** The outside. [e_setup] is a run of EMLy's setup: what became of the
    process, and EMLy's config.ini afterwards. *)
Record Env := mkEnv {
  e_now : nat -> time;
  e_fails : nat -> bool;
  e_part : nat -> string;
  e_store : nat -> faults;
  e_others : nat -> list (faults * command_op);
  e_net : nat -> Request -> reply;
  e_cancelled : nat -> bool;
  e_running : nat -> bool;
  e_warned : nat -> bool;
  e_exited : nat -> option string;
  e_destructive : nat -> bool;
  e_setup : nat -> string -> option string -> run_outcome * option string;
  e_uninstall : nat -> result string (list string) * run_outcome * option string;
  e_toast : nat -> bool;
  e_signed : nat -> option string -> option string;
  e_launch : nat -> option string;
  e_session : nat -> UserSession
}.

Record World := mkWorld {
  w_tick : nat;
  w_fs : files;
  w_ini : option string;
  w_rc : RC;
  w_preferred : option string;
  w_wakes : nat;
  w_announced : gmap string string;
  w_failed : gset (string * string * Z * string);
  w_notified : bool;
  w_trigger : string;
  w_wakeReason : string;
  w_landed : option SelfUpdate;
  w_installing : Z;
  w_skiplogged : bool;
  w_trace : list action
}.

Definition put_tick (x : nat) (w : World) : World :=
  mkWorld x w.(w_fs) w.(w_ini) w.(w_rc) w.(w_preferred) w.(w_wakes) w.(w_announced)
    w.(w_failed) w.(w_notified) w.(w_trigger) w.(w_wakeReason) w.(w_landed) w.(w_installing)
    w.(w_skiplogged) w.(w_trace).
Definition put_fs (x : files) (w : World) : World :=
  mkWorld w.(w_tick) x w.(w_ini) w.(w_rc) w.(w_preferred) w.(w_wakes) w.(w_announced)
    w.(w_failed) w.(w_notified) w.(w_trigger) w.(w_wakeReason) w.(w_landed) w.(w_installing)
    w.(w_skiplogged) w.(w_trace).
Definition put_ini (x : option string) (w : World) : World :=
  mkWorld w.(w_tick) w.(w_fs) x w.(w_rc) w.(w_preferred) w.(w_wakes) w.(w_announced)
    w.(w_failed) w.(w_notified) w.(w_trigger) w.(w_wakeReason) w.(w_landed) w.(w_installing)
    w.(w_skiplogged) w.(w_trace).
Definition put_rc (x : RC) (w : World) : World :=
  mkWorld w.(w_tick) w.(w_fs) w.(w_ini) x w.(w_preferred) w.(w_wakes) w.(w_announced)
    w.(w_failed) w.(w_notified) w.(w_trigger) w.(w_wakeReason) w.(w_landed) w.(w_installing)
    w.(w_skiplogged) w.(w_trace).
Definition put_preferred (x : option string) (w : World) : World :=
  mkWorld w.(w_tick) w.(w_fs) w.(w_ini) w.(w_rc) x w.(w_wakes) w.(w_announced) w.(w_failed)
    w.(w_notified) w.(w_trigger) w.(w_wakeReason) w.(w_landed) w.(w_installing)
    w.(w_skiplogged) w.(w_trace).
Definition put_wakes (x : nat) (w : World) : World :=
  mkWorld w.(w_tick) w.(w_fs) w.(w_ini) w.(w_rc) w.(w_preferred) x w.(w_announced)
    w.(w_failed) w.(w_notified) w.(w_trigger) w.(w_wakeReason) w.(w_landed) w.(w_installing)
    w.(w_skiplogged) w.(w_trace).
Definition put_announced (x : gmap string string) (w : World) : World :=
  mkWorld w.(w_tick) w.(w_fs) w.(w_ini) w.(w_rc) w.(w_preferred) w.(w_wakes) x w.(w_failed)
    w.(w_notified) w.(w_trigger) w.(w_wakeReason) w.(w_landed) w.(w_installing)
    w.(w_skiplogged) w.(w_trace).
Definition put_failed (x : gset (string * string * Z * string)) (w : World) : World :=
  mkWorld w.(w_tick) w.(w_fs) w.(w_ini) w.(w_rc) w.(w_preferred) w.(w_wakes) w.(w_announced)
    x w.(w_notified) w.(w_trigger) w.(w_wakeReason) w.(w_landed) w.(w_installing)
    w.(w_skiplogged) w.(w_trace).
Definition put_notified (x : bool) (w : World) : World :=
  mkWorld w.(w_tick) w.(w_fs) w.(w_ini) w.(w_rc) w.(w_preferred) w.(w_wakes) w.(w_announced)
    w.(w_failed) x w.(w_trigger) w.(w_wakeReason) w.(w_landed) w.(w_installing)
    w.(w_skiplogged) w.(w_trace).
Definition put_trigger (x : string) (w : World) : World :=
  mkWorld w.(w_tick) w.(w_fs) w.(w_ini) w.(w_rc) w.(w_preferred) w.(w_wakes) w.(w_announced)
    w.(w_failed) w.(w_notified) x w.(w_wakeReason) w.(w_landed) w.(w_installing)
    w.(w_skiplogged) w.(w_trace).
Definition put_wakeReason (x : string) (w : World) : World :=
  mkWorld w.(w_tick) w.(w_fs) w.(w_ini) w.(w_rc) w.(w_preferred) w.(w_wakes) w.(w_announced)
    w.(w_failed) w.(w_notified) w.(w_trigger) x w.(w_landed) w.(w_installing) w.(w_skiplogged)
    w.(w_trace).
Definition put_landed (x : option SelfUpdate) (w : World) : World :=
  mkWorld w.(w_tick) w.(w_fs) w.(w_ini) w.(w_rc) w.(w_preferred) w.(w_wakes) w.(w_announced)
    w.(w_failed) w.(w_notified) w.(w_trigger) w.(w_wakeReason) x w.(w_installing)
    w.(w_skiplogged) w.(w_trace).
Definition put_installing (x : Z) (w : World) : World :=
  mkWorld w.(w_tick) w.(w_fs) w.(w_ini) w.(w_rc) w.(w_preferred) w.(w_wakes) w.(w_announced)
    w.(w_failed) w.(w_notified) w.(w_trigger) w.(w_wakeReason) w.(w_landed) x w.(w_skiplogged)
    w.(w_trace).
Definition put_skiplogged (x : bool) (w : World) : World :=
  mkWorld w.(w_tick) w.(w_fs) w.(w_ini) w.(w_rc) w.(w_preferred) w.(w_wakes) w.(w_announced)
    w.(w_failed) w.(w_notified) w.(w_trigger) w.(w_wakeReason) w.(w_landed) w.(w_installing) x
    w.(w_trace).
Definition put_trace (x : list action) (w : World) : World :=
  mkWorld w.(w_tick) w.(w_fs) w.(w_ini) w.(w_rc) w.(w_preferred) w.(w_wakes) w.(w_announced)
    w.(w_failed) w.(w_notified) w.(w_trigger) w.(w_wakeReason) w.(w_landed) w.(w_installing)
    w.(w_skiplogged) x.

Definition tick : M World nat := fun w => (w.(w_tick), put_tick (S w.(w_tick)) w).

Definition act (a : action) : M World unit := modify (fun w => put_trace (w.(w_trace) ++ [a]) w).

Section Primitives.
Variable env : Env.

(** One question to the outside. *)
Definition ask {A} (f : nat -> A) : M World A := n ← tick; mret (f n).

#[export] Instance world_network : Network World := fun rq =>
  act (ARequest rq.(rq_url)) ;; n ← tick; mret (env.(e_net) n rq).

#[export] Instance world_fs : FileSystem World.
Proof.
  refine {| os_fails := ask env.(e_fails); broken_transfer := ask env.(e_part);
            get_files := w_fs; set_files := put_fs |}; done.
Defined.

Definition clock : M World time := ask env.(e_now).
Definition ctx_done : M World bool := ask env.(e_cancelled).
Definition wait (d : duration) : M World bool := ask env.(e_cancelled).

(** An operation on the data directory, and a method of the state store. *)
Definition on_rc (f : RC -> RC) : M World unit := modify (fun w => put_rc (f w.(w_rc)) w).

(** The methods of the other goroutines since the last access. *)
Definition others : M World unit :=
  l ← ask env.(e_others);
  d ← gets (fun w => w.(w_rc).(rc_dir));
  let ops := (fun fo => (fo.1, store_op fo.2)) <$> l in
  on_rc (set_dir (run_ops ops d)) ;;
  modify (fun w => put_trace (w.(w_trace) ++ (AOther <$> done_ops ops d)) w).

(** One method, holding the mutex. *)
Definition access (method : faults -> dir -> option string * dir) : M World (option string) :=
  f ← ask env.(e_store);
  d ← gets (fun w => w.(w_rc).(rc_dir));
  let '(e, d') := method f d in
  on_rc (set_dir d') ;; mret e.

Definition store (method : faults -> dir -> option string * dir) : M World (option string) :=
  others ;; access method.

Definition read_state : M World (result load_error State) :=
  f ← ask env.(e_store);
  d ← gets (fun w => w.(w_rc).(rc_dir));
  mret (Load f d).

Definition load_state : M World (result load_error State) := others ;; read_state.

(** Another goroutine's answer: a destructive command is committed. *)
Definition destructivePendingNow : M World bool := ask env.(e_destructive).

(** [beginInstall] and [endInstall] (clientpower.go), as this goroutine sees
    them. *)
Definition beginInstall : M World bool :=
  pending ← ask env.(e_destructive);
  if (pending : bool) then mret false
  else modify (fun w => put_installing (w.(w_installing) + 1) w) ;; mret true.
Definition endInstall : M World unit := modify (fun w => put_installing (w.(w_installing) - 1) w).

(** [logDestructiveSkipOnce]. *)
Definition logDestructiveSkipOnce : M World unit := modify (put_skiplogged true).
End Primitives.
