(* ===== verification/Cycle.v ===== *)
(** internal/service/service.go, selfupdate.go and clientupdates.go: one poll
    cycle. [Cycle] runs in [World]; every method it calls is a definition here,
    in the order the code calls them, or in the component's own file.

    An error is [Some] text, abridged; log lines are left out. The certificate
    and association self-heals, the toasts and the message boxes are actions of
    the trace. *)
From S2P Require Import Prelude Rfc3339 Json Files Versions Manifest PolicyDoc PolicyMatch State.
From S2P Require Import SelfUpdate Source Config PolicyStore RemoteConfig MachineInfo SourcePolicy.
From S2P Require Import Wire Download Installer World.

(** [emlyDecision] (clientcmd.go). *)
Definition emlyDecision (newer forced running paused : bool) : string :=
  if negb newer then "up_to_date"
  else if paused then "paused"
  else if forced then "forced"
  else if running then "waiting_for_emly_exit"
  else "install_next_cycle".

(** [serverRef] (clientevents.go). *)
Definition serverRef (cyc : cycleState) (url : string) : option ServerRef :=
  if url =s "" then None
  else Some (mkServerRef url
    (if cyc.(cyc_site) =s "" then "default"
     else match cyc.(cyc_chain) with
          | h :: _ => if url =s ManifestURL cyc.(cyc_eff) h then "primary" else "backup"
          | [] => "backup"
          end)).

Section Cycle.
Context {versions : VersionLib} {inilib : IniLib} {digest : Sha256}.
Variable env : Env.
Variable cfg : Config.
Variable machine : Info.
Variables downloadsDir selfDownloadsDir logsDir : string.

#[local] Instance cycle_network : Network World := world_network env.
#[local] Instance cycle_fs : FileSystem World := world_fs env.

(** The two caches of [New]. *)
Definition Downloads : Manager := mkManager downloadsDir "".
Definition SelfDownloads : Manager := mkManager selfDownloadsDir "EMLyUpdater-".

(** * Events *)

Definition emit (name : string) (ev : updateEvent) : M World unit := act (AEmit name ev).

(** [announceUpdate]. *)
Definition announceUpdate (mc : ManifestCheck) : M World unit :=
  announced ← gets w_announced;
  if from_opt "" (announced !! mc.(mc_Target)) =s mc.(AvailableVersion) then mret tt
  else modify (put_announced (<[mc.(mc_Target) := mc.(AvailableVersion)]> announced)) ;;
       act (AAnnounce mc).

(** [markUpdateFailed]. *)
Definition markUpdateFailed (target toVersion : string) (attempt : Z) (code : string) :
    M World bool :=
  failed ← gets w_failed;
  let key : updateFailedKey := (target, toVersion, attempt, code) in
  if bool_decide (key ∈ failed) then mret false
  else modify (put_failed ({[ key ]} ∪ failed)) ;; mret true.

(** [emitUpdateFailed]. *)
Definition emitUpdateFailed (ev : updateEvent) : M World unit :=
  let code := match ev.(ue_Error) with Some e => e.(Code) | None => "" end in
  fresh ← markUpdateFailed ev.(ue_Target) ev.(ToVersion) ev.(ue_Attempt) code;
  when fresh (emit EvtUpdateFailed ev).

(** * Resolving *)

Definition newSource (url : string) : M World HTTPSource :=
  ini ← gets w_ini;
  session ← ask env.(e_session);
  mret (newHTTPSource cfg machine (emlyVersion cfg ini) session url).

Definition cycle_resolver (cyc : cycleState) : M World Resolver :=
  preferred ← gets w_preferred;
  r ← newResolver newSource cyc preferred;
  modify (put_preferred r.2) ;; mret r.1.

Definition note (cyc : cycleState) (primaryErr : option fetch_error) (src : HTTPSource) : M World unit :=
  preferred ← gets w_preferred;
  let '(p, woken) := notePreferredServer cyc primaryErr src.(src_ManifestURL) preferred in
  modify (put_preferred p) ;;
  when woken (modify (fun w => put_wakes (S w.(w_wakes)) w)).

(** [resolveTargetWith]. *)
Definition resolveTargetWith (cyc : cycleState) (channel : string) (notePreferred : bool) :
    M World (result (option fetch_error) (HTTPSource * Manifest * Target)) :=
  resolver ← cycle_resolver cyc;
  res ← Resolve (wait env) (ctx_done env) resolver;
  match res with
  | (Err e, _) => mret (Err e)
  | (Ok (src, m), primaryErr) =>
      when notePreferred (note cyc primaryErr src) ;;
      mret match ResolveTarget m channel with
           | Ok target => Ok (src, m, target)
           | Err e => Err (Some (ErrFetch e))
           end
  end.

(** [resolveTarget]. *)
Definition resolveTarget (cyc : cycleState) (channel : string) := resolveTargetWith cyc channel true.

(** [resolveUpdaterManifestWith]. *)
Definition resolveUpdaterManifestWith (cyc : cycleState) (notePreferred : bool) :
    M World (result (option fetch_error) (HTTPSource * (UpdaterManifest * string))) :=
  resolver ← cycle_resolver cyc;
  res ← ResolveUpdater (wait env) (ctx_done env)
          (fun s => UpdaterManifestURL cfg s.(src_ManifestURL)) resolver;
  match res with
  | (Err e, _) => mret (Err e)
  | (Ok (src, m), primaryErr) => when notePreferred (note cyc primaryErr src) ;; mret (Ok (src, m))
  end.

(** * The updater's own update *)

Definition failed_event (target from to : string) (attempt : Z) (retry : bool) (code msg : string) :
    updateEvent :=
  mkUpdateEvent target from to false attempt "" 0 false retry (Some (mkError code msg)).

(** [reconcileSelfUpdate]. *)
Definition reconcileSelfUpdate : M World (option SelfUpdate) :=
  st ← load_state env;
  match st with
  | Err _ => mret None
  | Ok st =>
      match st.(st_SelfUpdate) with
      | None => mret None
      | Some rec =>
          match Reconcile Version (Some rec) with
          | Err _ => store env ClearSelfUpdate ;; mret None
          | Ok OutcomeLanded =>
              emit EvtUpdateApplied (mkUpdateEvent "updater" rec.(FromVersion) Version false
                rec.(Attempts) "" 0 false false None) ;;
              modify (put_landed (Some rec)) ;;
              store env ClearSelfUpdate ;;
              CleanupExcept SelfDownloads "" ;;
              mret None
          | Ok OutcomeMissed =>
              emitUpdateFailed (failed_event "updater" Version rec.(su_Version) rec.(Attempts)
                (rec.(Attempts) <? MaxAttempts) "version_mismatch"
                "the launched setup did not leave the new version running") ;;
              mret (Some rec)
          | Ok OutcomeNone => mret (Some rec)
          end
      end
  end.

(** [applySelfUpdate], from the launch on. *)
Definition launchSetup (setupPath : string) (m : UpdaterManifest) (attempt : Z) : M World bool :=
  fs ← gets w_fs;
  data ← gets (fun w => w.(w_rc).(rc_dir));
  act (ALaunch setupPath (fs !! setupPath) m.(um_Version) m.(um_SHA256) attempt (data !! statePath)) ;;
  launched ← ask env.(e_launch);
  match launched with
  | None => mret true
  | Some err =>
      endInstall ;;
      fails ← ask env.(e_fails);
      on_rc (fun rc => (restoreCache fails rc).2) ;;
      emitUpdateFailed (failed_event "updater" Version m.(um_Version) attempt true
        "launch_failed" err) ;;
      markUpdateFailed "updater" m.(um_Version) attempt "version_mismatch" ;;
      mret false
  end.

(** [applySelfUpdate], once the setup is verified and signed. *)
Definition claimAndLaunch (setupPath : string) (m : UpdaterManifest) (attempt : Z) : M World bool :=
  claimed ← beginInstall env;
  if negb claimed then mret false else
  now ← clock env;
  saved ← store env (fun f => SetSelfUpdate f
    (mkSelfUpdate m.(um_Version) Version setupPath m.(um_SHA256) attempt false now));
  match saved with
  | Some _ => endInstall ;; mret false
  | None =>
      fails ← ask env.(e_fails);
      on_rc (fun rc => (retireCache fails rc).2) ;;
      trigger ← gets w_trigger;
      emit EvtUpdateStarted (mkUpdateEvent "updater" Version m.(um_Version) false attempt
        trigger 0 false false None) ;;
      launchSetup setupPath m attempt
  end.

(** [applySelfUpdate]: whether the setup was launched. *)
Definition applySelfUpdate (src : HTTPSource) (m : UpdaterManifest) (attempt : Z) : M World bool :=
  e ← Ensure SelfDownloads src (um_Target m);
  match e with
  | Err err =>
      emitUpdateFailed (failed_event "updater" Version m.(um_Version) attempt true
        "download_failed" err) ;; mret false
  | Ok setupPath =>
      fs ← gets w_fs;
      v ← ask (fun n => env.(e_signed) n (fs !! setupPath));
      match v with
      | Some err =>
          remove setupPath ;;
          emitUpdateFailed (failed_event "updater" Version m.(um_Version) attempt true
            "signature_invalid" err) ;; mret false
      | None => claimAndLaunch setupPath m attempt
      end
  end.

Definition gave_up (rec : SelfUpdate) : SelfUpdate :=
  mkSelfUpdate rec.(su_Version) rec.(FromVersion) rec.(su_SetupPath) rec.(su_SHA256)
    rec.(Attempts) true rec.(LaunchedAt).

(** The give-up branch of [selfUpdate]. *)
Definition giveUp (m : UpdaterManifest) (rec : option SelfUpdate) (attempt : Z) : M World unit :=
  let attempts := match rec with Some r => r.(Attempts) | None => attempt end in
  match rec with
  | Some r => store env (fun f => SetSelfUpdate f (gave_up r)) ;; mret tt
  | None => mret tt
  end ;;
  emitUpdateFailed (failed_event "updater" Version m.(um_Version) attempts false "gave_up"
    "giving up on an updater release") ;;
  markUpdateFailed "updater" m.(um_Version) attempts "version_mismatch" ;;
  mret tt.

(** [selfUpdate]: whether a setup has been launched. *)
Definition selfUpdate (cyc : cycleState) : M World bool :=
  if negb cyc.(cyc_eff).(Doc).(doc_Updater).(us_SelfUpdate).(tg_Enabled) then mret false else
  rec ← reconcileSelfUpdate;
  r ← resolveUpdaterManifestWith cyc true;
  match r with
  | Err e =>
      when (match e with Some e => is_not_found e | None => false end)
        (modify (fun w => put_preferred (preferredChain cyc w.(w_preferred)).2 w)) ;;
      mret false
  | Ok (src, (m, _)) =>
      now ← clock env;
      match Decide Version (Some m) rec now with
      | Err _ => mret false
      | Ok d =>
          if d.(GiveUp) then giveUp m rec d.(Attempt) ;; mret false
          else if negb d.(Install) then mret false
          else
            now ← clock env;
            announceUpdate (mkManifestCheck "updater" Version "" m.(um_Version) true false ""
              "install_next_cycle" None None (format_rfc3339 now) None) ;;
            applySelfUpdate src m d.(Attempt)
      end
  end.

(** * EMLy's update *)

(** [showUpdateToast]. *)
Definition showUpdateToast : M World unit :=
  shown ← ask env.(e_toast);
  when shown (act AToast).

(** [notifySourcesUnreachable]. *)
Definition notifySourcesUnreachable : M World unit :=
  notified ← gets w_notified;
  if (notified : bool) then mret tt
  else shown ← ask env.(e_toast);
       when shown (act AToast ;; modify (put_notified true)).

(** [runSetupAndVerify]: the error. *)
Definition runSetupAndVerify (p : Pending) : M World (option string) :=
  fs ← gets w_fs;
  act (ASetup p.(pd_SetupPath) (fs !! p.(pd_SetupPath)) p.(pd_Version) p.(pd_SHA256)) ;;
  n ← tick;
  let '(o, ini) := env.(e_setup) n p.(pd_SetupPath) (fs !! p.(pd_SetupPath)) in
  modify (put_ini ini) ;;
  mret match Run (fun _ _ => o) p.(pd_SetupPath) p.(pd_Version) logsDir with
       | Some e => Some e
       | None => VerifyInstalled ini p.(pd_Version)
       end.

(** [installer.Uninstall] as [install] calls it: its error is only logged. *)
Definition runUninstall : M World unit :=
  n ← tick;
  let '(matches, _, ini) := env.(e_uninstall) n in
  when (match matches with Ok (_ :: _) => true | _ => false end) (act AUninstall) ;;
  modify (put_ini ini).

(** [forceRedownload]. *)
Definition forceRedownload (cyc : cycleState) (p : Pending) (channel : string) :
    M World (result string Pending) :=
  CleanupExcept Downloads "" ;;
  store env ClearPending ;;
  r ← resolveTarget cyc channel;
  match r with
  | Err _ => mret (Err "no update source reachable")
  | Ok (src, _, target) =>
      e ← Ensure Downloads src target;
      match e with
      | Err err => mret (Err ("re-download failed: " +:+ err))
      | Ok setupPath =>
          now ← clock env;
          let fresh := mkPending target.(tg_Version) setupPath target.(tg_SHA256) p.(pd_Forced) now in
          store env (fun f => SetPending f fresh) ;;
          mret (Ok fresh)
      end
  end.

(** The second attempt of [install]: the pending entry it ends with and the
    error. *)
Definition cleanReinstall (cyc : cycleState) (p : Pending) (channel : string) :
    M World (Pending * option string) :=
  r ← forceRedownload cyc p channel;
  let p := match r with Ok fresh => fresh | Err _ => p end in
  runUninstall ;;
  e ← runSetupAndVerify p;
  mret (p, e).

(** What [install] does once EMLy is at the target version. *)
Definition finishInstall (p : Pending) (from : string) (started : time) (reinstalled : bool) :
    M World unit :=
  trigger_now ← clock env;
  emit EvtUpdateApplied (mkUpdateEvent "emly" from p.(pd_Version) p.(pd_Forced)
    (if reinstalled then 2 else 1) "" (Z.quot (t_sub trigger_now started) millisecond) reinstalled
    false None) ;;
  showUpdateToast ;;
  store env ClearPending ;;
  CleanupExcept Downloads p.(pd_Version) ;;
  act AAssociations.

(** [install], between [beginInstall] and [endInstall]: the error. *)
Definition installBody (cyc : cycleState) (p : Pending) (emly : EMLyInfo) : M World (option string) :=
  let from := if emly.(FreshInstall) then "" else emly.(InstalledVersion) in
  v ← VerifyFile p.(pd_SetupPath) p.(pd_SHA256);
  match v with
  | Some err =>
      remove p.(pd_SetupPath) ;;
      store env ClearPending ;;
      emitUpdateFailed (failed_event "emly" from p.(pd_Version) 0 true "checksum_mismatch" err) ;;
      mret (Some ("refusing to install: " +:+ err))
  | None =>
      started ← clock env;
      trigger ← gets w_trigger;
      emit EvtUpdateStarted (mkUpdateEvent "emly" from p.(pd_Version) p.(pd_Forced) 1 trigger 0
        false false None) ;;
      e ← runSetupAndVerify p;
      match e with
      | None => finishInstall p from started false ;; mret None
      | Some _ =>
          r ← cleanReinstall cyc p emly.(ei_Channel);
          match r with
          | (p, None) => finishInstall p from started true ;; mret None
          | (p, Some err) =>
              emitUpdateFailed (failed_event "emly" from p.(pd_Version) 2 true
                (installFailureCode err) err) ;;
              mret (Some err)
          end
      end
  end.

(** [install]. *)
Definition install (cyc : cycleState) (p : Pending) (emly : EMLyInfo) : M World (option string) :=
  claimed ← beginInstall env;
  if negb claimed then mret (Some "EMLy install skipped: a destructive client command is pending")
  else r ← installBody cyc p emly; endInstall ;; mret r.

(** The countdown of a forced update: whether the service is stopping. *)
Definition countdown (cyc : cycleState) : M World bool :=
  let warning := cyc.(cyc_eff).(Doc).(doc_Updater).(us_CriticalWarning) in
  if negb warning.(cw_Enabled) then mret false
  else shown ← ask env.(e_warned);
       if (shown : bool) then act (AWarn warning.(Seconds)) ;; wait env (d_mul warning.(Seconds) second)
       else mret false.

(** [apply]. *)
Definition apply_ (cyc : cycleState) (p : Pending) (emly : EMLyInfo) : M World (option string) :=
  pending ← destructivePendingNow env;
  if (pending : bool) then logDestructiveSkipOnce ;; mret None else
  running ← ask env.(e_running);
  if negb running then install cyc p emly
  else if p.(pd_Forced) then
    stop ← countdown cyc;
    if (stop : bool) then mret (Some "context canceled") else
    pending ← destructivePendingNow env;
    if (pending : bool) then logDestructiveSkipOnce ;; mret None else
    act AKill ;; install cyc p emly
  else
    act ANotify ;;
    act AWaitExit ;;
    e ← ask env.(e_exited);
    match e with
    | Some err => mret (Some err)
    | None => install cyc p emly
    end.

(** The pending entry at the top of the EMLy half of a cycle: [Some] the
    result of resuming it, [None] when the cycle goes on to poll. *)
Definition resumePending (cyc : cycleState) (emly : EMLyInfo) : M World (option (option string)) :=
  st ← load_state env;
  match match st with Ok st => st.(st_Pending) | Err _ => None end with
  | None => mret None
  | Some p =>
      match Less emly.(InstalledVersion) p.(pd_Version) with
      | Err _ => store env ClearPending ;; mret None
      | Ok false => store env ClearPending ;; CleanupExcept Downloads "" ;; mret None
      | Ok true =>
          v ← VerifyFile p.(pd_SetupPath) p.(pd_SHA256);
          match v with
          | Some _ => remove p.(pd_SetupPath) ;; store env ClearPending ;; mret None
          | None =>
              modify (put_trigger "resume") ;;
              r ← apply_ cyc p emly;
              mret (Some r)
          end
      end
  end.

(** The poll: manifest, decision, download, apply. *)
Definition poll (cyc : cycleState) (emly : EMLyInfo) : M World (option string) :=
  r ← resolveTarget cyc emly.(ei_Channel);
  match r with
  | Err _ => notifySourcesUnreachable ;; mret (Some "no update source reachable")
  | Ok (src, m, target) =>
      modify (put_notified false) ;;
      match Less emly.(InstalledVersion) target.(tg_Version) with
      | Err e => mret (Some e)
      | Ok false => CleanupExcept Downloads "" ;; mret None
      | Ok true =>
          match Manifest.Forced m emly.(InstalledVersion) with
          | Err e => mret (Some e)
          | Ok forced =>
              running ← ask env.(e_running);
              now ← clock env;
              announceUpdate (mkManifestCheck "emly"
                (if emly.(FreshInstall) then "" else emly.(InstalledVersion)) emly.(ei_Channel)
                target.(tg_Version) true forced m.(MinRequiredVersion)
                (emlyDecision true forced running
                   (negb (UpdaterEnabled cyc.(cyc_eff) cyc.(cyc_host).(h_Now)).1))
                None (serverRef cyc src.(src_ManifestURL)) (format_rfc3339 now) None) ;;
              e ← Ensure Downloads src target;
              match e with
              | Err err => mret (Some ("download/verification failed: " +:+ err))
              | Ok setupPath =>
                  now ← clock env;
                  let p := mkPending target.(tg_Version) setupPath target.(tg_SHA256) forced now in
                  store env (fun f => SetPending f p) ;;
                  apply_ cyc p emly
              end
          end
      end
  end.

(** [Cycle]. *)
Definition Cycle_ (cyc : cycleState) : M World (option string) :=
  reason ← gets w_wakeReason;
  modify (put_trigger (if reason =s "" then "cycle" else reason)) ;;
  when cyc.(cyc_eff).(Doc).(doc_Updater).(InstallCertificate).(tg_Enabled) (act ACertificates) ;;
  rc ← gets w_rc;
  let '(enabled, rc) := applyControlGate cyc rc in
  modify (put_rc rc) ;;
  if negb enabled then mret None else
  pending ← destructivePendingNow env;
  if (pending : bool) then logDestructiveSkipOnce ;; mret None else
  launched ← selfUpdate cyc;
  if (launched : bool) then mret None else
  ini ← gets w_ini;
  let emly := ResolveEMLyWithChannel ini (Channel cyc.(cyc_eff).(Doc).(doc_Updater)) in
  r ← resumePending cyc emly;
  match r with
  | Some err => mret err
  | None => poll cyc emly
  end.
End Cycle.
