(* ===== verification/CycleInv.v ===== *)
(** What every step of a cycle keeps. [CycleInv] lists, for a predicate on
    [World], the few facts that make the whole of [Cycle_] preserve it: it
    depends on the trace, the reported failures and the files only, harmless
    actions keep it, and the two places where a setup is executed keep it.
    [Cycle_preserves] is then proved once; the properties of [CycleProps] are
    its instances.

    [path_safe] is the fact about the files that holds from the moment a
    pending setup is verified to the moment it is started. *)
From S2P Require Import Prelude Rfc3339 Json Files Versions Manifest PolicyDoc PolicyMatch State.
From S2P Require Import SelfUpdate Source Config PolicyStore RemoteConfig MachineInfo SourcePolicy.
From S2P Require Import Wire Download Installer World Cycle.

(** Actions of this goroutine that run nothing and report no failure. *)
Definition plain (a : action) : Prop :=
  match a with
  | ASetup _ _ _ _ | ALaunch _ _ _ _ _ _ | AOther _ => False
  | AEmit name _ => name <> EvtUpdateFailed
  | _ => True
  end.

(** ** The records [claimAndLaunch] relies on *)

Lemma save_target tmp path c d : tmp <> path -> save None tmp path c d !! path = Some c.
Proof.
  intros Hne. unfold save, run_prims. cbn [save_plan foldl run_prim].
  rewrite ?insert_insert_eq, lookup_insert_eq. apply lookup_insert_eq.
Qed.

Lemma tmp_name_ne f : tmp_name f <> statePath.
Proof. unfold tmp_name, statePath. destruct (f_rand f); cbn; congruence. Qed.

(** A method that reports no error has written the mutated state. *)
Lemma update_saves f mutate d d' : update f mutate d = (None, d') ->
  exists st, d' !! statePath = Some (Some (enc_state (mutate st))).
Proof.
  assert (H : forall st d0 d1, saveLocked f st d0 = (None, d1) ->
    d1 !! statePath = Some (Some (enc_state st))).
  { intros st d0 d1. unfold saveLocked, save_result. destruct (f_save f) as [flt|] eqn:E; [done|].
    cbn. intros [= <-]. apply save_target, tmp_name_ne. }
  unfold update. destruct (loadLocked f d) as [st|[]]; [| |done].
  - intros Hs. exists st. by eapply H.
  - destruct (rename _ _ _ _) as [[e|] d1]; [done|]. intros Hs. exists empty_state. by eapply H.
Qed.

Lemma retire_other fails rc : (retireCache fails rc).2.(rc_dir) !! statePath = rc.(rc_dir) !! statePath.
Proof.
  unfold retireCache, rename. destruct fails; [done|].
  destruct (rc_dir rc !! cachePath) as [c|]; [|done]. cbn.
  by rewrite lookup_insert_ne, lookup_delete_ne.
Qed.

(** The policy in force is none of their business. *)
Lemma retire_policy fails rc : (retireCache fails rc).2.(Policy) = rc.(Policy).
Proof. unfold retireCache. by destruct (rename _ _ _ _) as [[e|] d]; repeat case_match. Qed.
Lemma restore_policy fails rc : (restoreCache fails rc).2.(Policy) = rc.(Policy).
Proof. unfold restoreCache. destruct (_ !! cachePath); [done|].
  by destruct (rename _ _ _ _) as [[e|] d]; repeat case_match. Qed.
Lemma gate_policy cyc rc : (applyControlGate cyc rc).2.(Policy) = rc.(Policy).
Proof. unfold applyControlGate. destruct (UpdaterEnabled _ _) as [[] ?], (paused rc); done. Qed.

Section Inv.
Context {versions : VersionLib} {inilib : IniLib} {digest : Sha256}.
Variable env : Env.
Variable cfg : Config.
Variable machine : Info.
Variables downloadsDir selfDownloadsDir logsDir : string.

#[local] Instance inv_network : Network World := cycle_network env.
#[local] Instance inv_fs : FileSystem World := cycle_fs env.

Abbreviation newSource := (newSource env cfg machine).
Abbreviation cycle_resolver := (cycle_resolver env cfg machine).
Abbreviation Downloads := (Downloads downloadsDir).
Abbreviation SelfDownloads := (SelfDownloads selfDownloadsDir).

(** [I] reads the trace, the reported failures, the files and the policy in
    force only. *)
Record Stable (I : World -> Prop) : Prop := {
  st_other : forall w w', w'.(w_trace) = w.(w_trace) -> w'.(w_failed) = w.(w_failed) ->
    w'.(w_fs) = w.(w_fs) -> w'.(w_rc).(Policy) = w.(w_rc).(Policy) -> I w -> I w';
  st_plain : forall a w, plain a -> I w -> I (put_trace (w.(w_trace) ++ [a]) w);
  st_shared : forall o w, I w -> I (put_trace (w.(w_trace) ++ [AOther o]) w);
  st_mark : forall t v a c, preserves I (markUpdateFailed t v a c);
  st_failed : forall ev, preserves I (emitUpdateFailed ev)
}.

(** [I] may also read EMLy's config.ini and the data directory: enough for
    the steps that touch neither. *)
Record Quiet (I : World -> Prop) : Prop := {
  qt_other : forall w w', w'.(w_trace) = w.(w_trace) -> w'.(w_failed) = w.(w_failed) ->
    w'.(w_fs) = w.(w_fs) -> w'.(w_rc) = w.(w_rc) -> w'.(w_ini) = w.(w_ini) -> I w -> I w';
  qt_plain : forall a w, plain a -> I w -> I (put_trace (w.(w_trace) ++ [a]) w);
  qt_mark : forall t v a c, preserves I (markUpdateFailed t v a c);
  qt_failed : forall ev, preserves I (emitUpdateFailed ev)
}.

Lemma stable_quiet I : Stable I -> Quiet I.
Proof.
  intros []. split; [|done..]. intros w w' ? ? ? Hrc _ Hw. eapply st_other0; [..|exact Hw]; congruence.
Qed.
#[local] Coercion stable_quiet : Stable >-> Quiet.
#[local] Hint Extern 0 (Quiet _) => apply stable_quiet; assumption : core.

(** [I] does not read the files either. *)
Definition fs_free (I : World -> Prop) : Prop := forall d w, I w -> I (put_fs d w).

Lemma stable_modify I f : Stable I ->
  (forall w, (f w).(w_trace) = w.(w_trace) /\ (f w).(w_failed) = w.(w_failed) /\
             (f w).(w_fs) = w.(w_fs) /\ (f w).(w_rc).(Policy) = w.(w_rc).(Policy)) ->
  preserves I (modify f).
Proof.
  intros HS Hf. apply preserves_modify. intros w Hw.
  destruct (Hf w) as (? & ? & ? & ?). by apply (st_other I HS w).
Qed.

Lemma stable_act I a : Stable I -> plain a -> preserves I (act a).
Proof. intros HS Ha. apply preserves_modify. intros w Hw. by apply st_plain. Qed.

Lemma quiet_change I f : Quiet I ->
  (forall w, (f w).(w_trace) = w.(w_trace) /\ (f w).(w_failed) = w.(w_failed) /\
             (f w).(w_fs) = w.(w_fs) /\ (f w).(w_rc) = w.(w_rc) /\ (f w).(w_ini) = w.(w_ini)) ->
  preserves I (modify f).
Proof.
  intros HQ Hf. apply preserves_modify. intros w Hw.
  destruct (Hf w) as (? & ? & ? & ? & ?). by apply (qt_other I HQ w).
Qed.

Lemma quiet_act I a : Quiet I -> plain a -> preserves I (act a).
Proof. intros HQ Ha. apply preserves_modify. intros w Hw. by apply qt_plain. Qed.

Lemma quiet_tick I : Quiet I -> preserves I tick.
Proof. intros HQ w Hw. by apply (qt_other I HQ w). Qed.

Lemma stable_tick I : Stable I -> preserves I tick.
Proof. intros HS. by apply quiet_tick, stable_quiet. Qed.

(** The conjunction of two stable predicates. *)
Lemma preserves_and {A} (I J : World -> Prop) (m : M World A) :
  preserves I m -> preserves J m -> preserves (fun w => I w /\ J w) m.
Proof. intros HI HJ w [? ?]. split; [by apply HI|by apply HJ]. Qed.

Lemma quiet_and I J : Quiet I -> Quiet J -> Quiet (fun w => I w /\ J w).
Proof.
  intros HI HJ. split.
  - intros w w' ? ? ? ? ? [? ?]. split; [by eapply (qt_other I)|by eapply (qt_other J)].
  - intros a w Ha [? ?]. split; by apply qt_plain.
  - intros. apply preserves_and; by apply qt_mark.
  - intros. apply preserves_and; by apply qt_failed.
Qed.

Lemma stable_and I J : Stable I -> Stable J -> Stable (fun w => I w /\ J w).
Proof.
  intros HI HJ. split.
  - intros w w' ? ? ? ? [? ?]. split; [by eapply (st_other I)|by eapply (st_other J)].
  - intros a w Ha [? ?]. split; by apply st_plain.
  - intros o w [? ?]. split; by apply st_shared.
  - intros. apply preserves_and; by apply st_mark.
  - intros. apply preserves_and; by apply st_failed.
Qed.

(** ** The parts that leave the files alone *)

Section Parts.
Variable I : World -> Prop.
Hypothesis HQ : Quiet I.

Ltac keep :=
  repeat first
    [ assumption
    | progress cbv zeta
    | apply quiet_tick; exact HQ
    | apply quiet_change; [exact HQ | intros ?; done]
    | apply quiet_act; [exact HQ | done]
    | apply (qt_mark I HQ) | apply (qt_failed I HQ)
    | preserve_step ].

Lemma ask_keeps {A} (f : nat -> A) : preserves I (ask f).
Proof. unfold ask. keep. Qed.
#[local] Hint Resolve ask_keeps : preserves.

Lemma read_keeps : preserves I (read_state env).
Proof. unfold read_state. keep. Qed.
Lemma begin_keeps : preserves I (beginInstall env).
Proof. unfold beginInstall. keep. Qed.
Lemma end_keeps : preserves I endInstall.
Proof. unfold endInstall. keep. Qed.
Lemma skip_keeps : preserves I logDestructiveSkipOnce.
Proof. unfold logDestructiveSkipOnce. keep. Qed.
Lemma request_keeps rq : preserves I (do_request rq).
Proof. unfold do_request, inv_network, cycle_network, world_network. keep. Qed.
Lemma emit_keeps name ev : name <> EvtUpdateFailed -> preserves I (emit name ev).
Proof. intros. unfold emit. by apply quiet_act. Qed.
Lemma announce_keeps mc : preserves I (announceUpdate mc).
Proof. unfold announceUpdate. keep. Qed.
#[local] Hint Resolve read_keeps begin_keeps end_keeps skip_keeps request_keeps
  announce_keeps : preserves.

Lemma source_keeps url : preserves I (newSource url).
Proof. unfold Cycle.newSource. keep. Qed.
#[local] Hint Resolve source_keeps : preserves.

Lemma mapM_keeps {A B} (f : A -> M World B) l :
  (forall a, preserves I (f a)) -> preserves I (mapM (M:=M World) f l).
Proof.
  intros Hf. induction l as [|x l IH]; [apply preserves_ret|].
  apply preserves_bind; [apply Hf|]. intros b. apply preserves_bind; [apply IH|].
  intros bs. apply preserves_ret.
Qed.

Lemma resolver_keeps cyc : preserves I (cycle_resolver cyc).
Proof.
  unfold Cycle.cycle_resolver, newResolver. apply preserves_bind; [apply preserves_gets|]. intros p.
  destruct (preferredChain cyc p) as [chain p']. keep. apply mapM_keeps. apply source_keeps.
Qed.
Lemma note_keeps cyc e src : preserves I (note cyc e src).
Proof. unfold note. keep. Qed.
#[local] Hint Resolve resolver_keeps note_keeps : preserves.

Lemma primary_loop_keeps {T} w d (f : HTTPSource -> M World (result fetch_error T)) r n :
  (forall x, preserves I (w x)) -> preserves I d -> (forall s, preserves I (f s)) ->
  forall b first e, preserves I (primary_loop w d f r n b first e).
Proof.
  intros Hw Hd Hf. induction n as [|n IH]; intros b first e; cbn [primary_loop]; [apply preserves_ret|].
  apply preserves_bind; [destruct first; [apply preserves_ret|apply Hw]|]. intros stop. cbv zeta.
  destruct stop; [apply preserves_ret|]. apply preserves_bind; [apply Hf|]. intros doc.
  destruct doc; [apply preserves_ret|]. apply preserves_bind; [apply Hd|]. intros done.
  destruct done; [apply preserves_ret|]. destruct (is_not_found _); [apply preserves_ret|apply IH].
Qed.

Lemma fallback_loop_keeps {T} d (f : HTTPSource -> M World (result fetch_error T)) :
  preserves I d -> (forall s, preserves I (f s)) ->
  forall l e, preserves I (fallback_loop d f l e).
Proof.
  intros Hd Hf. induction l as [|x l IH]; intros e; cbn [fallback_loop]; [apply preserves_ret|].
  apply preserves_bind; [apply Hd|]. intros done. destruct done; [apply preserves_ret|].
  apply preserves_bind; [apply Hf|]. intros doc. destruct doc; [apply preserves_ret|apply IH].
Qed.

Lemma resolveWith_keeps {T} (f : HTTPSource -> M World (result fetch_error T)) r :
  (forall s, preserves I (f s)) -> preserves I (resolveWith (wait env) (ctx_done env) f r).
Proof.
  intros Hf. unfold resolveWith. cbv zeta.
  apply preserves_bind; [apply primary_loop_keeps; [intros; apply ask_keeps|apply ask_keeps|done]|].
  intros [[x|[e|]] pe]; try apply preserves_ret.
  apply preserves_bind; [apply fallback_loop_keeps; [apply ask_keeps|done]|].
  intros. apply preserves_ret.
Qed.

Lemma getJSON_keeps s url : preserves I (getJSON s url).
Proof. unfold getJSON. keep. Qed.
#[local] Hint Resolve getJSON_keeps : preserves.

Lemma resolveTargetWith_keeps cyc ch n :
  preserves I (resolveTargetWith env cfg machine cyc ch n).
Proof.
  unfold resolveTargetWith. apply preserves_bind; [apply resolver_keeps|]. intros r.
  apply preserves_bind; [apply resolveWith_keeps; intros; unfold FetchManifest; keep|].
  intros [[[src m]|e] pe]; keep.
Qed.

Lemma resolveUpdaterManifestWith_keeps cyc n :
  preserves I (resolveUpdaterManifestWith env cfg machine cyc n).
Proof.
  unfold resolveUpdaterManifestWith. apply preserves_bind; [apply resolver_keeps|]. intros r.
  apply preserves_bind.
  - apply resolveWith_keeps. intros s. unfold FetchUpdaterManifest. keep.
  - intros [[[src m]|e] pe]; keep.
Qed.

Lemma toast_keeps : preserves I (showUpdateToast env).
Proof. unfold showUpdateToast. keep. Qed.
Lemma unreachable_keeps : preserves I (notifySourcesUnreachable env).
Proof. unfold notifySourcesUnreachable. keep. Qed.
Lemma countdown_keeps cyc : preserves I (countdown env cyc).
Proof. unfold countdown, wait. keep. Qed.
End Parts.

(** The steps that write the data directory or leave EMLy at another version. *)
Lemma shared_trace I (HS : Stable I) l : forall w, I w -> I (put_trace (w.(w_trace) ++ (AOther <$> l)) w).
Proof.
  induction l as [|o l IH]; intros w Hw; cbn.
  - eapply (st_other I HS w); [|done..]. cbn. by rewrite app_nil_r.
  - replace (w_trace w ++ AOther o :: (AOther <$> l)) with ((w_trace w ++ [AOther o]) ++ (AOther <$> l))
      by by rewrite <-app_assoc.
    by apply (IH (put_trace (w_trace w ++ [AOther o]) w)), st_shared.
Qed.

Lemma others_keeps I (HS : Stable I) : preserves I (others env).
Proof.
  unfold others, on_rc. apply preserves_bind; [by apply ask_keeps, stable_quiet|]. intros l.
  apply preserves_bind; [apply preserves_gets|]. intros d. cbv zeta.
  apply preserves_bind; [by apply stable_modify|]. intros _.
  apply preserves_modify. intros w. by apply shared_trace.
Qed.

Lemma load_keeps I (HS : Stable I) : preserves I (load_state env).
Proof.
  unfold load_state. apply preserves_bind; [by apply others_keeps|]. intros _.
  by apply read_keeps, stable_quiet.
Qed.

Lemma store_keeps I (HS : Stable I) method : preserves I (store env method).
Proof.
  unfold store, access, on_rc. preserve; [by apply others_keeps|by apply ask_keeps, stable_quiet|].
  by apply stable_modify.
Qed.

Lemma uninstall_keeps I (HS : Stable I) : preserves I (runUninstall env).
Proof.
  unfold runUninstall. apply preserves_bind; [by apply stable_tick|]. intros n.
  destruct (e_uninstall env n) as [[matches o] ini]. preserve; [by apply stable_act|].
  by apply stable_modify.
Qed.

(** ** The file operations *)

Section FileParts.
Variable I : World -> Prop.
Hypothesis HQ : Quiet I.
Hypothesis HF : fs_free I.

Ltac keep_files :=
  repeat first
    [ assumption
    | progress cbv zeta
    | apply ask_keeps; exact HQ
    | apply request_keeps; exact HQ
    | preserve_step ].

Lemma on_files_keeps f : preserves I (on_files f).
Proof. unfold on_files. apply preserves_modify. intros w Hw. by apply HF. Qed.
Lemma fails_keeps : preserves I os_fails.
Proof. by apply ask_keeps. Qed.
Lemma broken_keeps : preserves I broken_transfer.
Proof. by apply ask_keeps. Qed.
#[local] Hint Resolve on_files_keeps fails_keeps broken_keeps : preserves.

Lemma remove_keeps path : preserves I (remove path).
Proof. unfold remove. keep_files. Qed.
Lemma rename_keeps a b : preserves I (rename_file a b).
Proof. unfold rename_file. keep_files. Qed.
Lemma verify_keeps path sha : preserves I (VerifyFile path sha).
Proof. unfold VerifyFile. keep_files. Qed.
Lemma fetch_keeps src t dest : preserves I (FetchSetup src t dest).
Proof. unfold FetchSetup. keep_files. Qed.
#[local] Hint Resolve remove_keeps rename_keeps verify_keeps fetch_keeps : preserves.

Lemma Ensure_keeps m src t : preserves I (Ensure m src t).
Proof. unfold Ensure. keep_files. Qed.

Lemma sweep_keeps m k l : forall err, preserves I (sweep_loop m k l err).
Proof. induction l as [|x l IH]; intros err; cbn [sweep_loop]; keep_files. all: apply IH. Qed.

Lemma Cleanup_keeps m k : preserves I (CleanupExcept m k).
Proof. unfold CleanupExcept. keep_files. apply sweep_keeps. Qed.
End FileParts.

(** ** A pending setup stays what it was *)

(** The file at [path] has the recorded digest, if it is there at all - or the
    path is that of a partial download, which no download of this service is
    ever recorded under. *)
Definition path_safe (path sha : string) (d : files) : Prop :=
  (exists x, path = x +:+ ".partial") \/
  forall bytes, d !! path = Some bytes -> equal_fold (sha256_hex bytes) sha = true.

Lemma verified_safe path sha d : verified path sha d -> path_safe path sha d.
Proof. intros (bytes & Hb & Hv & _). right. intros b Hb'. congruence. Qed.

(** A predicate on the files. *)
Lemma fs_stable (P : files -> Prop) : Stable (fun w => P w.(w_fs)).
Proof.
  assert (HM : forall t v a c, preserves (fun w => P w.(w_fs)) (markUpdateFailed t v a c)).
  { intros t v a c. unfold markUpdateFailed. preserve. }
  split.
  - intros w w' _ _ -> Hw. done.
  - done.
  - done.
  - done.
  - intros ev. unfold emitUpdateFailed. apply preserves_bind; [apply HM|].
    intros [|]; [intros w Hw; done|apply preserves_ret].
Qed.

Lemma path_safe_stable path sha : Stable (fun w => path_safe path sha w.(w_fs)).
Proof. apply (fs_stable (path_safe path sha)). Qed.

Lemma path_safe_swept path sha d d' : swept d d' -> path_safe path sha d -> path_safe path sha d'.
Proof.
  intros Hs [?|H]; [by left|right]. intros bytes Hb. destruct (Hs path) as [He|He]; [|congruence].
  apply H. congruence.
Qed.

Lemma path_safe_ensured m t path sha d r d' : ensured m t d r d' -> path_safe path sha d ->
  match r with Ok p => path_safe p t.(tg_SHA256) d' | Err _ => path_safe path sha d' end.
Proof.
  intros (H1 & H2 & H3) Hd. destruct r as [p|e].
  - destruct (H3 p eq_refl) as [-> Hv]. by apply verified_safe.
  - destruct Hd as [?|Hd]; [by left|].
    destruct (decide (path = SetupPath m (tg_Version t) +:+ ".partial")) as [->|Hp];
      [left; by eexists|]. right. intros bytes Hb.
    destruct (decide (path = SetupPath m (tg_Version t))) as [->|Hn].
    + destruct (H2 e eq_refl) as [He|He]; [|congruence]. apply Hd. congruence.
    + apply Hd. by rewrite <-H1.
Qed.

Lemma cleanup_swept m k s : swept (get_files s) (get_files (CleanupExcept (S:=World) m k s).2).
Proof.
  exact (proj1 (CleanupExcept_to m k (get_files s) s eq_refl)).
Qed.
(** * The whole cycle *)

(** state.json holds a launch of this version of the updater. *)
Definition recorded (path v sha : string) (att : Z) (c : option content) : Prop :=
  exists st now, c = Some (Some (enc_state st)) /\
    st.(st_SelfUpdate) = Some (mkSelfUpdate v Version path sha att false now).

(** The launches the rules allow. *)
Definition allowed (v : string) (att : Z) : Prop :=
  Less Version v = Ok true /\ att <= MaxAttempts.

(** What an invariant of the service has to satisfy. *)
Record CycleInv (I : World -> Prop) : Prop := {
  ci_stable : Stable I;
  ci_free : fs_free I;
  ci_setup : forall path v sha w, I w -> path_safe path sha w.(w_fs) ->
    I (put_trace (w.(w_trace) ++ [ASetup path (w.(w_fs) !! path) v sha]) w);
  ci_launch : forall path v sha att w, I w -> verified path sha w.(w_fs) ->
    (exists n, env.(e_signed) n (w.(w_fs) !! path) = None) ->
    recorded path v sha att (w.(w_rc).(rc_dir) !! statePath) -> allowed v att ->
    I (put_trace (w.(w_trace) ++ [ALaunch path (w.(w_fs) !! path) v sha att
         (w.(w_rc).(rc_dir) !! statePath)]) w)
}.

Lemma Decide_allowed m rec now d : Decide Version (Some m) rec now = Ok d -> d.(Install) = true ->
  allowed m.(um_Version) d.(Attempt).
Proof.
  intros Hd Hi. destruct (Decide_install _ _ _ _ _ Hd Hi) as (um & [= <-] & _ & Hl & _ & Ha).
  split; [done|]. unfold MaxAttempts in *. destruct Ha as [[_ ->]|(r & _ & _ & _ & Hr & _ & ->)]; lia.
Qed.

Section Whole.
Variable I : World -> Prop.
Hypothesis HS : Stable I.
Hypothesis HF : fs_free I.
Hypothesis Hsetup : forall path v sha w, I w -> path_safe path sha w.(w_fs) ->
  I (put_trace (w.(w_trace) ++ [ASetup path (w.(w_fs) !! path) v sha]) w).
Hypothesis Hlaunch : forall path v sha att w, I w -> verified path sha w.(w_fs) ->
  (exists n, env.(e_signed) n (w.(w_fs) !! path) = None) ->
  recorded path v sha att (w.(w_rc).(rc_dir) !! statePath) -> allowed v att ->
  I (put_trace (w.(w_trace) ++ [ALaunch path (w.(w_fs) !! path) v sha att
       (w.(w_rc).(rc_dir) !! statePath)]) w).

(** While a pending entry is being applied. *)
Definition during (p : Pending) (w : World) : Prop :=
  I w /\ path_safe p.(pd_SetupPath) p.(pd_SHA256) w.(w_fs).

Lemma during_stable p : Stable (during p).
Proof. apply stable_and; [exact HS|apply path_safe_stable]. Qed.

Lemma during_then {A} p (m : M World A) : preserves I m -> triple (during p) m (fun _ => I).
Proof. intros H w [? _]. by apply H. Qed.

Lemma verify_during p :
  triple I (VerifyFile p.(pd_SetupPath) p.(pd_SHA256)) (fun r w =>
    match r with None => during p w | Some _ => I w end).
Proof.
  intros w Hw. pose proof (verify_keeps I HS p.(pd_SetupPath) p.(pd_SHA256) w Hw) as H1.
  pose proof (VerifyFile_to p.(pd_SetupPath) p.(pd_SHA256) (w_fs w) w eq_refl) as [H2 H3].
  destruct (VerifyFile _ _ w) as [[e|] w']; cbn [fst snd] in *; [done|].
  split; [done|]. unfold get_files in H2. cbn in H2. rewrite H2. by apply verified_safe, H3.
Qed.

Lemma setup_during p : preserves (during p) (runSetupAndVerify env logsDir p).
Proof.
  unfold runSetupAndVerify. intros w [Hw Hp].
  unfold act, modify, gets, tick, mbind, M_bind, mret, M_ret. cbn.
  destruct (e_setup env w.(w_tick) p.(pd_SetupPath) (w.(w_fs) !! p.(pd_SetupPath))) as [o ini]. cbn.
  split; [|done].
  eapply (st_other I HS (put_trace (w.(w_trace) ++ [ASetup p.(pd_SetupPath)
    (w.(w_fs) !! p.(pd_SetupPath)) p.(pd_Version) p.(pd_SHA256)]) w)); [done..|].
  by apply Hsetup.
Qed.

Lemma redownload_during cyc p ch :
  triple (during p) (forceRedownload env cfg machine downloadsDir cyc p ch) (fun r w =>
    match r with Ok fresh => during fresh w | Err _ => during p w end).
Proof.
  unfold forceRedownload.
  apply (triple_bind _ _ _ (fun _ => during p)).
  { intros w [Hw Hp]. split; [by apply Cleanup_keeps|]. eapply path_safe_swept; [|exact Hp].
    apply cleanup_swept. }
  intros _. apply (triple_bind _ _ _ (fun _ => during p)); [apply store_keeps, during_stable|].
  intros _. apply (triple_bind _ _ _ (fun _ => during p));
    [apply resolveTargetWith_keeps, stable_quiet, during_stable|].
  intros [[[src m] t]|e]; [|by apply triple_ret].
  apply (triple_bind _ _ _ (fun r w => I w /\
    match r with Ok q => path_safe q t.(tg_SHA256) w.(w_fs)
               | Err _ => path_safe p.(pd_SetupPath) p.(pd_SHA256) w.(w_fs) end)).
  { intros w [Hw Hp]. split; [by apply Ensure_keeps|].
    exact (path_safe_ensured Downloads t _ _ _ _ _ (Ensure_to Downloads src t (w_fs w) w eq_refl) Hp). }
  intros [q|e]; [|by apply triple_ret].
  set (J := fun w => I w /\ path_safe q t.(tg_SHA256) w.(w_fs)).
  assert (HJ : Stable J) by (apply stable_and; [exact HS|apply path_safe_stable]).
  apply (triple_bind _ _ _ (fun _ => J)); [by apply ask_keeps|]. intros now.
  apply (triple_bind _ _ _ (fun _ => J)); [by apply store_keeps|]. intros _.
  by apply triple_ret.
Qed.

Lemma reinstall_during cyc p ch :
  triple (during p) (cleanReinstall env cfg machine downloadsDir logsDir cyc p ch)
    (fun r w => during r.1 w).
Proof.
  unfold cleanReinstall. eapply triple_bind; [apply redownload_during|]. intros r. cbv zeta.
  apply (triple_bind _ _ _ (fun _ => during match r with Ok fresh => fresh | Err _ => p end)).
  { eapply triple_weaken; [apply uninstall_keeps, (during_stable match r with Ok fresh => fresh | Err _ => p end)| |done].
    by intros w; destruct r. }
  intros _. apply (triple_bind _ _ _ (fun _ => during match r with Ok fresh => fresh | Err _ => p end));
    [apply setup_during|]. intros e. by apply triple_ret.
Qed.

Ltac keep_all :=
  repeat first
    [ assumption
    | progress cbv zeta
    | match goal with
      | |- preserves _ (_ ≫= _) => apply preserves_bind; [|intros ?]
      | |- preserves _ (mret _) => apply preserves_ret
      | |- preserves _ (match ?x with _ => _ end) => destruct x eqn:?
      end
    | apply stable_tick; exact HS
    | apply stable_modify; [exact HS | intros ?; done]
    | apply stable_act; [exact HS | done]
    | apply (st_mark I HS) | apply (st_failed I HS)
    | apply ask_keeps; exact HS
    | apply store_keeps; exact HS
    | apply load_keeps; exact HS
    | apply begin_keeps; exact HS
    | apply end_keeps; exact HS
    | apply skip_keeps; exact HS
    | apply announce_keeps; exact HS
    | apply emit_keeps; [exact HS | done]
    | apply resolveTargetWith_keeps; exact HS
    | apply resolveUpdaterManifestWith_keeps; exact HS
    | apply toast_keeps; exact HS
    | apply unreachable_keeps; exact HS
    | apply countdown_keeps; exact HS
    | apply remove_keeps; [exact HS | exact HF]
    | apply Ensure_keeps; [exact HS | exact HF]
    | apply Cleanup_keeps; [exact HS | exact HF]
    | preserve_step ].

Lemma finish_keeps p from t b : preserves I (finishInstall env downloadsDir p from t b).
Proof. unfold finishInstall. keep_all. Qed.

Lemma redownload_keeps cyc p ch : preserves I (forceRedownload env cfg machine downloadsDir cyc p ch).
Proof. unfold forceRedownload, resolveTarget. keep_all. Qed.

Lemma installBody_keeps cyc p emly :
  preserves I (installBody env cfg machine downloadsDir logsDir cyc p emly).
Proof.
  unfold installBody. cbv zeta. eapply triple_bind; [apply verify_during|].
  intros [err|]; [change (preserves I (remove p.(pd_SetupPath) ;; store env ClearPending ;;
      emitUpdateFailed (failed_event "emly" (if FreshInstall emly then "" else InstalledVersion emly)
        p.(pd_Version) 0 true "checksum_mismatch" err) ;;
      mret (Some ("refusing to install: " +:+ err)))); keep_all|].
  apply (triple_bind _ _ _ (fun _ => during p)); [apply ask_keeps, stable_quiet, during_stable|]. intros started.
  apply (triple_bind _ _ _ (fun _ => during p)); [apply preserves_gets|]. intros trigger.
  apply (triple_bind _ _ _ (fun _ => during p)); [by apply (emit_keeps (during p) (stable_quiet _ (during_stable p)))|]. intros _.
  apply (triple_bind _ _ _ (fun _ => during p)); [apply setup_during|].
  intros [e|].
  - eapply triple_bind; [apply reinstall_during|]. intros [q [err|]]; cbn [fst].
    + apply during_then.
      apply (preserves_bind I); [apply (st_failed I HS)|]. intros. apply preserves_ret.
    + apply during_then.
      apply (preserves_bind I); [apply finish_keeps|]. intros. apply preserves_ret.
  - apply during_then.
    apply (preserves_bind I); [apply finish_keeps|]. intros. apply preserves_ret.
Qed.

Lemma install_keeps cyc p emly :
  preserves I (install env cfg machine downloadsDir logsDir cyc p emly).
Proof. unfold install. keep_all. apply installBody_keeps. Qed.

Lemma apply_keeps cyc p emly :
  preserves I (apply_ env cfg machine downloadsDir logsDir cyc p emly).
Proof. unfold apply_, destructivePendingNow. keep_all; apply install_keeps. Qed.

Lemma resume_keeps cyc emly :
  preserves I (resumePending env cfg machine downloadsDir logsDir cyc emly).
Proof.
  unfold resumePending. apply preserves_bind; [by apply load_keeps|]. intros st.
  destruct (match st with Ok st => st.(st_Pending) | Err _ => None end) as [p|]; [|apply preserves_ret].
  destruct (Less _ _) as [[]|]; keep_all; [|apply apply_keeps].
  by apply verify_keeps.
Qed.

Lemma poll_keeps cyc emly : preserves I (poll env cfg machine downloadsDir logsDir cyc emly).
Proof. unfold poll, resolveTarget. keep_all. apply apply_keeps. Qed.

Lemma reconcile_keeps : preserves I (reconcileSelfUpdate env selfDownloadsDir).
Proof. unfold reconcileSelfUpdate. keep_all. Qed.

Lemma giveUp_keeps m rec a : preserves I (giveUp env m rec a).
Proof. unfold giveUp. keep_all. Qed.

(** Between the signature check and the launch. *)
Definition signed (q sha : string) (b : option string) (w : World) : Prop :=
  I w /\ verified q sha w.(w_fs) /\ w.(w_fs) !! q = b.

Lemma signed_stable q sha b : Stable (signed q sha b).
Proof.
  exact (stable_and I (fun w => verified q sha w.(w_fs) /\ w.(w_fs) !! q = b) HS
    (fs_stable (fun d => verified q sha d /\ d !! q = b))).
Qed.

Lemma signed_then {A} q sha b (m : M World A) :
  preserves I m -> triple (signed q sha b) m (fun _ => I).
Proof. intros H w [? _]. by apply H. Qed.

Lemma Ensure_signed src m :
  triple I (Ensure SelfDownloads src (um_Target m)) (fun r w => I w /\
    forall q, r = Ok q -> verified q m.(um_SHA256) w.(w_fs)).
Proof.
  intros w Hw. split; [by apply Ensure_keeps|]. intros q Hq.
  pose proof (Ensure_to SelfDownloads src (um_Target m) (w_fs w) w eq_refl) as (_ & _ & H).
  destruct (H q Hq) as [-> Hv]. exact Hv.
Qed.

(** The same, with the attempt on record. *)
Definition on_record (q : string) (m : UpdaterManifest) (a : Z) (b : option string) (w : World) : Prop :=
  signed q m.(um_SHA256) b w /\
  recorded q m.(um_Version) m.(um_SHA256) a (w.(w_rc).(rc_dir) !! statePath).

Lemma on_record_tick q m a b : preserves (on_record q m a b) tick.
Proof. intros w [H1 H2]. split; [|exact H2]. by apply (stable_tick _ (signed_stable _ _ _)). Qed.

Lemma store_records q m a b now : triple (signed q m.(um_SHA256) b)
  (store env (fun f => SetSelfUpdate f (mkSelfUpdate m.(um_Version) Version q m.(um_SHA256) a false now)))
  (fun e w => match e with None => on_record q m a b w | Some _ => I w end).
Proof.
  unfold store. set (rec := mkSelfUpdate _ _ _ _ _ _ _).
  pose proof (signed_stable q m.(um_SHA256) b) as HJ.
  eapply triple_bind; [by apply others_keeps|]. intros u w Hw.
  unfold access, ask, tick, gets, on_rc, modify, mbind, M_bind, mret, M_ret. cbn.
  destruct (SetSelfUpdate (e_store env (w_tick w)) rec (rc_dir (w_rc w))) as [e d] eqn:Es.
  cbn. assert (Hk : signed q m.(um_SHA256) b (put_rc (set_dir d (w_rc w)) (put_tick (S (w_tick w)) w)))
    by by apply (st_other _ HJ w).
  destruct e as [e|]; [apply Hk|]. split; [exact Hk|].
  apply update_saves in Es as (st & Hst). exists (with_selfupdate (Some rec) st), now. done.
Qed.

Lemma launch_keeps q m a b : (exists n, env.(e_signed) n b = None) -> allowed m.(um_Version) a ->
  triple (on_record q m a b) (launchSetup env q m a) (fun _ => I).
Proof.
  intros Hs Ha. unfold launchSetup.
  apply (triple_bind _ _ _ (fun fs w => on_record q m a b w /\ fs = w.(w_fs))); [by intros w Hw|].
  intros fs. apply (triple_bind _ _ _ (fun d w => on_record q m a b w /\ fs = w.(w_fs) /\
    d = w.(w_rc).(rc_dir))); [by intros w [Hw ->]|].
  intros d. apply (triple_bind _ _ _ (fun _ => I)).
  { intros w ([(Hw & Hv & Hb) Hr] & -> & ->). apply Hlaunch; [done..|by rewrite Hb|done|done]. }
  intros _. change (preserves I (launched ← ask env.(e_launch);
    match launched with
    | None => mret true
    | Some err =>
        endInstall ;; fails ← ask env.(e_fails);
        on_rc (fun rc => (restoreCache fails rc).2) ;;
        emitUpdateFailed (failed_event "updater" Version m.(um_Version) a true "launch_failed" err) ;;
        markUpdateFailed "updater" m.(um_Version) a "version_mismatch" ;;
        mret false
    end)). unfold on_rc. keep_all. apply stable_modify; [done|]. intros w. split_and!; try done. apply restore_policy.
Qed.

Lemma claim_keeps q m a b : (exists n, env.(e_signed) n b = None) -> allowed m.(um_Version) a ->
  triple (signed q m.(um_SHA256) b) (claimAndLaunch env q m a) (fun _ => I).
Proof.
  intros Hs Ha. unfold claimAndLaunch.
  set (K := signed q m.(um_SHA256) b). assert (HK : Stable K) by apply signed_stable.
  apply (triple_bind _ _ _ (fun _ => K)); [by apply begin_keeps, stable_quiet|]. intros [|]; cbn [negb];
    [|by apply triple_ret; intros w [? _]].
  apply (triple_bind _ _ _ (fun _ => K)); [by apply ask_keeps|]. intros now.
  eapply triple_bind; [apply store_records|].
  intros [e|].
  { change (preserves I (endInstall ;; mret false)). keep_all. }
  set (R := on_record q m a b).
  apply (triple_bind _ _ _ (fun _ => R)).
  { intros w Hw. exact (on_record_tick q m a b w Hw). }
  intros fails. apply (triple_bind _ _ _ (fun _ => R)).
  { apply preserves_modify. intros w [H1 H2]. split.
    - eapply (st_other _ HK w); [done..|apply retire_policy|exact H1].
    - cbn. by rewrite retire_other. }
  intros _. apply (triple_bind _ _ _ (fun _ => R)); [apply preserves_gets|]. intros trigger.
  apply (triple_bind _ _ _ (fun _ => R)).
  { intros w [H1 H2]. split; [|exact H2]. by apply (emit_keeps K (stable_quiet _ HK)). }
  intros _. by apply launch_keeps.
Qed.

Lemma ask_signed (b : option string) (J : World -> Prop) : Stable J ->
  triple J (ask (fun n => env.(e_signed) n b)) (fun v w => J w /\
    (v = None -> exists n, env.(e_signed) n b = None)).
Proof.
  intros HJ w Hw. split; [by apply (ask_keeps J HJ)|]. unfold ask, tick, mbind, M_bind. cbn.
  intros Hv. by exists w.(w_tick).
Qed.

Lemma applySelfUpdate_keeps src m a : allowed m.(um_Version) a ->
  preserves I (applySelfUpdate env selfDownloadsDir src m a).
Proof.
  intros Ha. unfold applySelfUpdate. eapply triple_bind; [apply Ensure_signed|].
  intros [q|err].
  2: { intros w [Hw _]. revert w Hw. change (preserves I
    (emitUpdateFailed (failed_event "updater" Version m.(um_Version) a true "download_failed" err) ;;
     mret false)). keep_all. }
  apply (triple_bind _ _ _ (fun fs => signed q m.(um_SHA256) (fs !! q))).
  { intros w [Hw Hq]. split_and!; [done|by apply Hq|done]. }
  intros fs. eapply triple_bind; [apply (ask_signed (fs !! q)), signed_stable|]. intros [err|].
  - intros w [Hw _]. revert w Hw. apply signed_then. keep_all.
  - intros w [Hw Hs]. exact (claim_keeps q m a _ (Hs eq_refl) Ha w Hw).
Qed.

Lemma selfUpdate_keeps cyc :
  preserves I (selfUpdate env cfg machine selfDownloadsDir cyc).
Proof.
  unfold selfUpdate. keep_all; [apply reconcile_keeps|apply giveUp_keeps|].
  apply applySelfUpdate_keeps. by eapply Decide_allowed; [eassumption|apply negb_false_iff].
Qed.

Lemma cycle_keeps cyc :
  preserves I (Cycle_ env cfg machine downloadsDir selfDownloadsDir logsDir cyc).
Proof.
  unfold Cycle_, destructivePendingNow. cbv zeta.
  apply preserves_bind; [apply preserves_gets|]. intros reason.
  apply preserves_bind; [by apply (stable_modify I _ HS)|]. intros _.
  apply preserves_bind; [apply preserves_when; by apply stable_act|]. intros _.
  apply (triple_bind _ _ _ (fun rc w => I w /\ rc = w.(w_rc))); [by intros w Hw|]. intros rc.
  pose proof (gate_policy cyc rc) as Hp. destruct (applyControlGate cyc rc) as [enabled rc'].
  apply (triple_bind _ _ _ (fun _ => I)).
  { intros w [Hw ->]. by apply (st_other I HS w). }
  intros _. match goal with |- triple _ ?m _ => change (preserves I m) end.
  keep_all; [apply selfUpdate_keeps|apply resume_keeps|apply poll_keeps].
Qed.
End Whole.

(** The main lemma: a cycle keeps every invariant of the service. *)
Theorem Cycle_preserves (I : World -> Prop) cyc : CycleInv I ->
  preserves I (Cycle_ env cfg machine downloadsDir selfDownloadsDir logsDir cyc).
Proof. intros []. by apply cycle_keeps. Qed.
End Inv.
