(* ===== verification/CycleProps.v ===== *)
(** Properties of the poll cycle, over any number of cycles, any behaviour of
    the network, the disk, EMLy, the setups and the other goroutines, and any
    change to the machine between two cycles ([service]). *)
From S2P Require Import Prelude Rfc3339 Json Files Versions Manifest PolicyDoc PolicyMatch State.
From S2P Require Import SelfUpdate Source Config PolicyStore RemoteConfig MachineInfo SourcePolicy.
From S2P Require Import Wire Download Installer World Cycle CycleInv PolicyProps.

Section Props.
Context {versions : VersionLib} {inilib : IniLib} {digest : Sha256}.
Variable env : Env.
Variable cfg : Config.
Variable machine : Info.
Variables downloadsDir selfDownloadsDir logsDir : string.

Abbreviation Cycle_ := (Cycle_ env cfg machine downloadsDir selfDownloadsDir logsDir).

(** A run of the service: cycles, and in between anything at all - files
    replaced, policies swapped, EMLy reinstalled by hand - except rewriting
    what the service has done and reported. *)
Inductive service : World -> World -> Prop :=
| ServiceStart w : service w w
| ServiceCycle cyc w w' : service w w' -> service w (Cycle_ cyc w').2
| ServiceOther w w1 w' : service w w1 -> w'.(w_trace) = w1.(w_trace) ->
    w'.(w_failed) = w1.(w_failed) -> service w w'.

Lemma service_keeps (I : World -> Prop) w w' :
  CycleInv env I ->
  (forall a b, b.(w_trace) = a.(w_trace) -> b.(w_failed) = a.(w_failed) -> I a -> I b) ->
  service w w' -> I w -> I w'.
Proof.
  intros HI Ho Hs. induction Hs as [w|cyc w w' Hs IH|w w1 w' Hs IH Ht Hf]; intros Hw.
  - done.
  - apply (Cycle_preserves env cfg machine downloadsDir selfDownloadsDir logsDir I cyc HI), IH, Hw.
  - eapply Ho; [exact Ht|exact Hf|by apply IH].
Qed.

(** * What is executed *)

(** An action is safe: the bytes of EMLy's setup have the digest recorded for
    them (a path ending in .partial, which the service never records, aside);
    those of the updater's setup have their digest and carry the embedded
    certificate's signature, for a release newer than this build, whose
    attempt - at most the third - state.json already records. *)
Definition safe (a : action) : Prop :=
  match a with
  | ASetup path (Some bytes) _ sha =>
      (exists x, path = x +:+ ".partial") \/ equal_fold (sha256_hex bytes) sha = true
  | ALaunch path bytes v sha attempt record =>
      exists b n, bytes = Some b /\ equal_fold (sha256_hex b) sha = true /\
        env.(e_signed) n (Some b) = None /\
        recorded path v sha attempt record /\ allowed v attempt
  | _ => True
  end.

Definition all_safe (w : World) : Prop := Forall safe w.(w_trace).

Lemma trace_markUpdateFailed (P : list action -> Prop) t v a c :
  preserves (fun w => P w.(w_trace)) (markUpdateFailed t v a c).
Proof. unfold markUpdateFailed. preserve. Qed.

Lemma trace_stable (P : list action -> Prop) :
  (forall l a, (match a with ASetup _ _ _ _ | ALaunch _ _ _ _ _ _ => False | _ => True end) ->
     P l -> P (l ++ [a])) ->
  Stable (fun w => P w.(w_trace)).
Proof.
  intros HP. split.
  - intros w w' -> _ _ Hw. done.
  - intros a w Ha Hw. apply HP; [|done]. by destruct a.
  - intros o w Hw. by apply HP.
  - apply trace_markUpdateFailed.
  - intros ev. unfold emitUpdateFailed. apply preserves_bind; [apply trace_markUpdateFailed|].
    intros [|]; [|apply preserves_ret]. apply preserves_modify. intros w Hw. by apply HP.
Qed.

Lemma all_safe_inv : CycleInv env all_safe.
Proof.
  split.
  - apply (trace_stable (Forall safe)). intros l a Ha Hl. apply Forall_app. split; [done|].
    constructor; [|constructor]. by destruct a.
  - by intros d w Hw.
  - intros path v sha w Hw Hs. apply Forall_app. split; [exact Hw|]. constructor; [|constructor].
    destruct (w_fs w !! path) as [bytes|] eqn:E; [|done].
    destruct Hs as [?|Hs]; [by left|right; by apply Hs].
  - intros path v sha att w Hw (bytes & Hb & Hv & _) [n Hn] Hr Ha. apply Forall_app.
    split; [exact Hw|]. constructor; [|constructor]. rewrite Hb in *. by exists bytes, n.
Qed.

Lemma service_safe w w' : w.(w_trace) = [] -> service w w' -> all_safe w'.
Proof.
  intros Hw Hs. apply (service_keeps all_safe w w' all_safe_inv); [|done|].
  - intros a b Hb _. unfold all_safe. by rewrite Hb.
  - unfold all_safe. rewrite Hw. constructor.
Qed.

(** C1: no unverified program is ever run. Over any run of the service, every
    setup of EMLy it starts has, at that moment, the SHA-256 digest that came
    with it - a file that is not there, or a download broken off, named
    [.partial], is not a setup -, and every setup of its own has its digest, a valid signature, and
    is on record as one of at most three attempts at a newer release. *)
Theorem executed_verified (w w' : World) :
  w.(w_trace) = [] -> service w w' -> Forall safe w'.(w_trace).
Proof. intros Hw Hs. by apply (service_safe w). Qed.

(** * What is reported *)

Definition failure_key (ev : updateEvent) : updateFailedKey :=
  (ev.(ue_Target), ev.(ToVersion), ev.(ue_Attempt),
   match ev.(ue_Error) with Some e => e.(Code) | None => "" end).

Definition failures (l : list action) : list updateFailedKey :=
  omap (fun a => match a with
                 | AEmit name ev => if name =s EvtUpdateFailed then Some (failure_key ev) else None
                 | _ => None
                 end) l.

Definition reported_once (w : World) : Prop :=
  NoDup (failures w.(w_trace)) /\ forall k, k ∈ failures w.(w_trace) -> k ∈ w.(w_failed).

Lemma failures_app a b : failures (a ++ b) = failures a ++ failures b.
Proof. apply omap_app. Qed.

Lemma mark_spec t v a c w :
  let '(fresh, w') := markUpdateFailed t v a c w in
  w'.(w_trace) = w.(w_trace) /\ (t, v, a, c) ∈ w'.(w_failed) /\
  (forall k, k ∈ w.(w_failed) -> k ∈ w'.(w_failed)) /\
  (fresh = true -> (t, v, a, c) ∉ w.(w_failed)).
Proof.
  unfold markUpdateFailed, gets, modify, mbind, M_bind. cbn.
  case_bool_decide; cbn; [done|]. split_and!; [done|set_solver..|done].
Qed.

Lemma reported_stable : Stable reported_once.
Proof.
  assert (HM : forall t v a c, preserves reported_once (markUpdateFailed t v a c)).
  { intros t v a c w [Hn Hi]. pose proof (mark_spec t v a c w) as H.
    destruct (markUpdateFailed t v a c w) as [fresh w']. destruct H as (Ht & _ & Hs & _).
    split; cbn; rewrite Ht; [done|]. intros k Hk. by apply Hs, Hi. }
  assert (Happ : forall a w, match a with AEmit n _ => n <> EvtUpdateFailed | _ => True end ->
    failures (w.(w_trace) ++ [a]) = failures w.(w_trace)).
  { intros a w Ha. rewrite failures_app. destruct a; cbn; rewrite ?app_nil_r; try done.
    apply str_eqb_neq in Ha. by rewrite Ha, app_nil_r. }
  split.
  - intros w w' Ht Hf _ _ [Hn Hi]. split; [by rewrite Ht|by rewrite Ht, Hf].
  - intros a w Ha [Hn Hi]. unfold reported_once. cbn. rewrite Happ by (by destruct a). done.
  - intros o w [Hn Hi]. unfold reported_once. cbn. rewrite Happ by done. done.
  - done.
  - intros ev w Hw. unfold emitUpdateFailed, mbind, M_bind.
    pose proof (mark_spec (ue_Target ev) (ToVersion ev) (ue_Attempt ev)
      match ue_Error ev with Some e => Code e | None => "" end w) as H.
    pose proof (HM (ue_Target ev) (ToVersion ev) (ue_Attempt ev)
      match ue_Error ev with Some e => Code e | None => "" end w Hw) as [Hn Hi].
    destruct (markUpdateFailed _ _ _ _ w) as [fresh w1]. destruct H as (Ht & Hin & Hs & Hfresh).
    cbn [fst snd] in *. destruct fresh; [|done]. specialize (Hfresh eq_refl).
    unfold reported_once. cbn. rewrite failures_app. cbn. rewrite Ht in *. split.
    + apply NoDup_app. split_and!; [done| |apply NoDup_singleton].
      intros k Hk ->%list_elem_of_singleton. destruct Hw as [_ Hw]. by apply Hfresh, Hw.
    + intros k [Hk| ->%list_elem_of_singleton]%elem_of_app; [by apply Hi|done].
Qed.

Lemma reported_inv : CycleInv env reported_once.
Proof.
  assert (H : forall a w, (match a with ASetup _ _ _ _ | ALaunch _ _ _ _ _ _ => True | _ => False end) ->
    reported_once w -> reported_once (put_trace (w.(w_trace) ++ [a]) w)).
  { intros a w Ha [Hn Hi]. unfold reported_once. cbn. rewrite failures_app.
    destruct a; cbn; rewrite ?app_nil_r; done. }
  split.
  - apply reported_stable.
  - by intros d w Hw.
  - intros. by apply H.
  - intros. by apply H.
Qed.

Lemma service_reported w w' : w.(w_trace) = [] -> service w w' -> NoDup (failures w'.(w_trace)).
Proof.
  intros Hw Hs. apply (service_keeps reported_once w w' reported_inv).
  - intros a b Ht Hf [Hn Hi]. split; [by rewrite Ht|by rewrite Ht, Hf].
  - done.
  - split; rewrite Hw; [constructor|]. by intros k ?%elem_of_nil.
Qed.

(** C25: a failure is reported once: over any run of the service no two
    update.failed events agree on target, version, attempt and error code,
    however often the failing step is repeated. *)
Theorem failures_reported_once (w w' : World) :
  w.(w_trace) = [] -> service w w' -> NoDup (failures w'.(w_trace)).
Proof. intros Hw Hs. by apply (service_reported w). Qed.

(** * How much a cycle does *)

Section Counting.
(** Count setups of EMLy ([bs]), of the updater ([bl]), or both. *)
Variables bs bl : bool.

Definition counted (a : action) : nat :=
  match a with
  | ASetup _ _ _ _ => Nat.b2n bs
  | ALaunch _ _ _ _ _ _ => Nat.b2n bl
  | _ => O
  end.

Definition total (l : list action) : nat := sum_list_with counted l.
Definition at_most (k : nat) (w : World) : Prop := (total w.(w_trace) <= k)%nat.

(** [m] adds at most [n]. *)
Definition cost {A} (n : nat) (m : M World A) : Prop :=
  forall k, triple (at_most k) m (fun _ => at_most (k + n)).

Lemma total_snoc l a : total (l ++ [a]) = (total l + counted a)%nat.
Proof. unfold total. rewrite sum_list_with_app. cbn. lia. Qed.

Lemma at_most_stable k : Stable (at_most k).
Proof.
  apply (trace_stable (fun l => (total l <= k)%nat)). intros l a Ha Hl.
  rewrite total_snoc. destruct a; try done; cbn; lia.
Qed.
Lemma at_most_quiet k : Quiet (at_most k).
Proof. apply stable_quiet, at_most_stable. Qed.
Lemma at_most_free k : fs_free (at_most k).
Proof. by intros d w Hw. Qed.

Lemma cost_keeps {A} n (m : M World A) : (forall k, preserves (at_most k) m) -> cost n m.
Proof. intros H k w Hw. pose proof (H k w Hw). unfold at_most in *. lia. Qed.
Lemma cost_ret {A} n (a : A) : cost n (mret a).
Proof. apply cost_keeps. intros. apply preserves_ret. Qed.
Lemma cost_bind {A B} n1 n2 (m : M World A) (f : A -> M World B) :
  cost n1 m -> (forall a, cost n2 (f a)) -> cost (n1 + n2) (m ≫= f).
Proof.
  intros Hm Hf k. eapply triple_bind; [apply (Hm k)|]. intros a.
  rewrite Nat.add_assoc. apply Hf.
Qed.
Lemma cost_free {A B} n (m : M World A) (f : A -> M World B) :
  (forall k, preserves (at_most k) m) -> (forall a, cost n (f a)) -> cost n (m ≫= f).
Proof. intros Hm Hf. apply (cost_bind 0 n); [by apply cost_keeps|done]. Qed.

Ltac free :=
  intros; first
    [ apply preserves_gets
    | apply stable_tick; apply at_most_stable
    | apply stable_modify; [apply at_most_stable | intros ?; done]
    | apply stable_act; [apply at_most_stable | done]
    | apply (st_mark _ (at_most_stable _))
    | apply (st_failed _ (at_most_stable _))
    | apply ask_keeps; apply at_most_quiet
    | apply store_keeps; apply at_most_stable
    | apply load_keeps; apply at_most_stable
    | apply begin_keeps; apply at_most_quiet
    | apply end_keeps; apply at_most_quiet
    | apply skip_keeps; apply at_most_quiet
    | apply announce_keeps; apply at_most_quiet
    | apply emit_keeps; [apply at_most_quiet | done]
    | apply resolveTargetWith_keeps; apply at_most_quiet
    | apply resolveUpdaterManifestWith_keeps; apply at_most_quiet
    | apply unreachable_keeps; apply at_most_quiet
    | apply countdown_keeps; apply at_most_quiet
    | apply uninstall_keeps; apply at_most_stable
    | apply reconcile_keeps; [apply at_most_stable | apply at_most_free]
    | apply giveUp_keeps; apply at_most_stable
    | apply finish_keeps; [apply at_most_stable | apply at_most_free]
    | apply redownload_keeps; [apply at_most_stable | apply at_most_free]
    | apply remove_keeps; [apply at_most_quiet | apply at_most_free]
    | apply Ensure_keeps; [apply at_most_quiet | apply at_most_free]
    | apply Cleanup_keeps; [apply at_most_quiet | apply at_most_free]
    | apply verify_keeps; apply at_most_quiet
    | apply preserves_when; free ].

Ltac costs :=
  repeat first
    [ progress cbv zeta
    | match goal with
      | |- cost _ (mret _) => apply cost_ret
      | |- cost _ (_ ≫= _) => apply cost_free; [solve [free] | intros ?]
      | |- cost _ (match ?x with _ => _ end) => destruct x eqn:?
      end
    | solve [apply cost_keeps; free] ].

Lemma run_cost p : cost (Nat.b2n bs) (runSetupAndVerify env logsDir p).
Proof.
  unfold runSetupAndVerify. apply cost_free; [free|]. intros fs.
  rewrite <-(Nat.add_0_r (Nat.b2n bs)). apply cost_bind.
  - intros k w Hw. unfold at_most in *. cbn. rewrite total_snoc. cbn. lia.
  - intros _. apply cost_free; [free|]. intros n. destruct (e_setup env n _ _) as [o ini]. costs.
Qed.

Lemma reinstall_cost cyc p ch :
  cost (Nat.b2n bs) (cleanReinstall env cfg machine downloadsDir logsDir cyc p ch).
Proof.
  unfold cleanReinstall. costs. all: rewrite <-(Nat.add_0_r (Nat.b2n bs)).
  all: apply cost_bind; [apply run_cost|intros; apply cost_ret].
Qed.

Lemma install_cost cyc p emly :
  cost (2 * Nat.b2n bs) (install env cfg machine downloadsDir logsDir cyc p emly).
Proof.
  unfold install. costs. rewrite <-(Nat.add_0_r (2 * Nat.b2n bs)). apply cost_bind; [|intros; costs].
  unfold installBody. costs. replace (2 * Nat.b2n bs)%nat with (Nat.b2n bs + Nat.b2n bs)%nat by lia.
  apply cost_bind; [apply run_cost|]. intros [e|]; [|costs].
  rewrite <-(Nat.add_0_r (Nat.b2n bs)). apply cost_bind; [apply reinstall_cost|].
  intros [q [err|]]; costs.
Qed.

Lemma apply_cost cyc p emly :
  cost (2 * Nat.b2n bs) (apply_ env cfg machine downloadsDir logsDir cyc p emly).
Proof. unfold apply_, destructivePendingNow. costs. all: apply install_cost. Qed.

Lemma launch_cost q m a : cost (Nat.b2n bl) (claimAndLaunch env q m a).
Proof.
  unfold claimAndLaunch. costs. unfold launchSetup. do 2 (apply cost_free; [free|]; intros ?).
  rewrite <-(Nat.add_0_r (Nat.b2n bl)). apply cost_bind; [|intros; costs].
  intros k w Hw. unfold at_most in *. cbn. rewrite total_snoc. cbn. lia.
Qed.

Lemma selfUpdate_cost cyc :
  cost (Nat.b2n bl) (selfUpdate env cfg machine selfDownloadsDir cyc).
Proof. unfold selfUpdate. costs. unfold applySelfUpdate. costs. apply launch_cost. Qed.

(** Resuming costs nothing unless the cycle ends there. *)
Lemma resume_cost cyc emly k :
  triple (at_most k) (resumePending env cfg machine downloadsDir logsDir cyc emly) (fun r =>
    at_most (k + match r with Some _ => 2 * Nat.b2n bs | None => 0 end)).
Proof.
  assert (Hnone : forall (m : M World unit), (forall j, preserves (at_most j) m) ->
    triple (at_most k) (m ;; mret None) (fun r : option (option string) =>
      at_most (k + match r with Some _ => 2 * Nat.b2n bs | None => 0 end))).
  { intros m Hm. apply (triple_bind _ _ _ (fun _ => at_most k)); [apply Hm|]. intros _.
    apply triple_ret. intros w Hw. by rewrite Nat.add_0_r. }
  assert (Hret : triple (at_most k) (mret None) (fun r : option (option string) =>
      at_most (k + match r with Some _ => 2 * Nat.b2n bs | None => 0 end))).
  { apply triple_ret. intros w Hw. by rewrite Nat.add_0_r. }
  unfold resumePending. apply (triple_bind _ _ _ (fun _ => at_most k)); [free|]. intros st.
  destruct (match st with Ok st => st.(st_Pending) | Err _ => None end) as [p|]; [|exact Hret].
  destruct (Less _ _) as [[]|].
  - apply (triple_bind _ _ _ (fun _ => at_most k)); [free|]. intros [e|].
    + apply (triple_bind _ _ _ (fun _ => at_most k)); [free|]. intros _.
      apply (triple_bind _ _ _ (fun _ => at_most k)); [free|]. intros _. exact Hret.
    + apply (triple_bind _ _ _ (fun _ => at_most k)); [free|]. intros _.
      eapply triple_bind; [apply (apply_cost cyc p emly k)|]. intros r. by apply triple_ret.
  - apply (triple_bind _ _ _ (fun _ => at_most k)); [free|]. intros _.
    apply (triple_bind _ _ _ (fun _ => at_most k)); [free|]. intros _. exact Hret.
  - apply (triple_bind _ _ _ (fun _ => at_most k)); [free|]. intros _. exact Hret.
Qed.

Lemma poll_cost cyc emly :
  cost (2 * Nat.b2n bs) (poll env cfg machine downloadsDir logsDir cyc emly).
Proof. unfold poll, resolveTarget. costs. apply apply_cost. Qed.

Lemma Cycle_cost cyc : cost (Nat.b2n bl + 2 * Nat.b2n bs) (Cycle_ cyc).
Proof.
  unfold Cycle.Cycle_, destructivePendingNow. cbv zeta. do 4 (apply cost_free; [free|]; intros ?).
  destruct (applyControlGate cyc _) as [enabled rc']. costs.
  apply cost_bind; [apply selfUpdate_cost|]. intros [|]; [costs|].
  apply cost_free; [free|]. intros ini k. eapply triple_bind; [apply resume_cost|].
  intros [err|]; [by apply triple_ret|]. rewrite Nat.add_0_r. apply poll_cost.
Qed.
End Counting.

Definition setups (l : list action) : nat := total true false l.
Definition launches_ (l : list action) : nat := total false true l.

(** C16: a cycle is bounded: whatever fails, it starts EMLy's setup at most
    twice - the attempt and one clean reinstall - and the updater's own setup
    at most once. *)
Theorem cycle_bounded (cyc : cycleState) (w : World) :
  let w' := (Cycle_ cyc w).2 in
  (setups w'.(w_trace) <= setups w.(w_trace) + 2)%nat /\
  (launches_ w'.(w_trace) <= launches_ w.(w_trace) + 1)%nat.
Proof.
  split.
  - apply (Cycle_cost true false cyc (setups w.(w_trace)) w). by apply le_n.
  - apply (Cycle_cost false true cyc (launches_ w.(w_trace)) w). by apply le_n.
Qed.

(** * The clean reinstall *)

Section Reinstall.
#[local] Instance props_network : Network World := cycle_network env.
#[local] Instance props_fs : FileSystem World := cycle_fs env.
Hypothesis disk_works : forall k, env.(e_fails) k = false.

Definition kept_files (P : files -> Prop) (w : World) : Prop := P w.(w_fs).

Lemma sweep_succeeds m k l : triple (fun _ => True) (sweep_loop (S:=World) m k l false) (fun e _ => e = false).
Proof.
  induction l as [|x l IH]; cbn [sweep_loop]; [by apply triple_ret|].
  destruct (_ || _); [apply IH|].
  apply (triple_bind _ _ _ (fun bad _ => bad = false)).
  - intros w _. unfold remove, os_fails. cbn. unfold ask, tick, mbind, M_bind, mret, M_ret. cbn.
    by rewrite disk_works.
  - intros bad w ->. by apply IH.
Qed.

Lemma cleanup_removes n w : index_byte n "\"%char = None -> has_prefix n DefaultPrefix = true ->
  (CleanupExcept (Downloads downloadsDir) "" w).2.(w_fs) !! in_dir downloadsDir n = None.
Proof.
  intros Hi Hp. set (m := Downloads downloadsDir).
  pose proof (CleanupExcept_to m "" w.(w_fs) w eq_refl) as (Hs & _ & Hg).
  assert (He : (CleanupExcept m "" w).1 = false).
  { unfold CleanupExcept, os_fails. cbn. unfold ask, tick, mbind, M_bind, mret, M_ret. cbn.
    rewrite disk_works. by apply sweep_succeeds. }
  specialize (Hs (in_dir downloadsDir n)). destruct Hs as [Hs|?]; [|done].
  destruct (w.(w_fs) !! in_dir downloadsDir n) as [bytes|] eqn:Ed; [|by rewrite <-Hs].
  apply (Hg He); [by eapply listed_entry|by intros ->|exact Hp].
Qed.

(** Failing to resolve leaves the file gone. *)
Lemma redownload_gone cyc p ch n :
  index_byte n "\"%char = None -> has_prefix n DefaultPrefix = true ->
  triple (fun _ => True) (forceRedownload env cfg machine downloadsDir cyc p ch) (fun r w =>
    r = Err "no update source reachable" -> w.(w_fs) !! in_dir downloadsDir n = None).
Proof.
  intros Hi Hp. set (gone := fun w => w.(w_fs) !! in_dir downloadsDir n = None).
  assert (HG : Stable gone) by apply (fs_stable (fun d => d !! in_dir downloadsDir n = None)).
  unfold forceRedownload. apply (triple_bind _ _ _ (fun _ => gone)); [by intros w _; apply cleanup_removes|].
  intros _. apply (triple_bind _ _ _ (fun _ => gone)); [by apply store_keeps|].
  intros _. apply (triple_bind _ _ _ (fun _ => gone)); [by apply resolveTargetWith_keeps, stable_quiet|].
  intros [[[src m] t]|e]; [|by apply triple_ret].
  apply (triple_bind _ _ _ (fun _ _ => True)); [done|].
  intros [q|e]; [|by apply triple_ret].
  apply (triple_bind _ _ _ (fun _ _ => True)); [done|]. intros now.
  apply (triple_bind _ _ _ (fun _ _ => True)); [done|]. intros _. by apply triple_ret.
Qed.

(** a reinstall that cannot re-download destroys what it had: the sweep
    that precedes the new download deletes the cached setup whatever the
    servers do, so when none of them answers, the setup started after the
    uninstall is a file that no longer exists. *)
Theorem reinstall_loses_download (cyc : cycleState) (p : Pending) (ch n : string) (w : World) :
  p.(pd_SetupPath) = in_dir downloadsDir n -> index_byte n "\"%char = None ->
  has_prefix n DefaultPrefix = true ->
  (forceRedownload env cfg machine downloadsDir cyc p ch w).1 = Err "no update source reachable" ->
  let w' := (cleanReinstall env cfg machine downloadsDir logsDir cyc p ch w).2 in
  w'.(w_fs) !! p.(pd_SetupPath) = None /\
  exists l, w'.(w_trace) = l ++ [ASetup p.(pd_SetupPath) None p.(pd_Version) p.(pd_SHA256)].
Proof.
  intros Hn Hi Hp Hr. pose proof (redownload_gone cyc p ch n Hi Hp w I Hr) as Hg.
  unfold cleanReinstall, mbind, M_bind.
  destruct (forceRedownload env cfg machine downloadsDir cyc p ch w) as [r w1]. cbn [fst snd] in *. subst r.
  pose proof (uninstall_keeps env _ (fs_stable (fun d => d !! in_dir downloadsDir n = None)) w1 Hg) as Hu.
  destruct (runUninstall env w1) as [u w2]. cbn [snd] in Hu.
  unfold runSetupAndVerify, act, modify, gets, tick, mbind, M_bind, mret, M_ret. cbn.
  rewrite Hn, Hu. destruct (e_setup env _ _ _) as [o ini]. cbn. split; [done|]. by eexists.
Qed.
End Reinstall.

(** * When nothing is done *)

(** C15: a paused service, and one that is about to be restarted, leaves
    everything to do with updates alone: when the policy disables the updater,
    or a service restart or a reboot is committed, the cycle makes no request,
    touches no file and no state, starts and stops no program and reports
    nothing. At most it puts the certificate it carries into the trust stores,
    which a paused updater is meant to keep up, and which a cycle does at most
    once. *)
Theorem gated_cycle (cyc : cycleState) (w : World) :
  (UpdaterEnabled cyc.(cyc_eff) cyc.(cyc_host).(h_Now)).1 = false \/
  env.(e_destructive) w.(w_tick) = true ->
  let '(err, w') := Cycle_ cyc w in
  err = None /\ w'.(w_fs) = w.(w_fs) /\ w'.(w_rc).(rc_dir) = w.(w_rc).(rc_dir) /\
  w'.(w_ini) = w.(w_ini) /\ w'.(w_preferred) = w.(w_preferred) /\
  w'.(w_failed) = w.(w_failed) /\ w'.(w_announced) = w.(w_announced) /\
  (w'.(w_trace) = w.(w_trace) \/ w'.(w_trace) = w.(w_trace) ++ [ACertificates]).
Proof.
  intros Hg. unfold Cycle.Cycle_, applyControlGate.
  destruct (UpdaterEnabled _ _) as [enabled reason] eqn:E.
  unfold gets, modify, mbind, M_bind, when, act, mret, M_ret, destructivePendingNow, ask, tick,
    logDestructiveSkipOnce. cbn in Hg |- *.
  destruct (tg_Enabled _), enabled; cbn.
  all: unfold mbind, M_bind, mret, M_ret; cbn.
  all: destruct Hg as [?|Hg]; try done; rewrite ?Hg; cbn.
  all: destruct (paused (w_rc w)); cbn; split_and!; auto.
Qed.
End Props.

(** * A run of the service on concrete inputs *)

Module Scenario.
(** An INI file that holds a version, and a digest that is the file itself. *)
#[local] Instance toy_ini : IniLib :=
  {| ini := string; parse_ini := Some; key := fun f _ k => if k =s "GUI_SEMVER" then f else "";
     ini_bool := fun _ => None; ini_int := fun _ => None |}.
#[local] Instance toy_digest : Sha256 := fun s => s.
#[local] Existing Instance Dotted.lib.

Definition setup : string := "setup-2.0.0".
Definition manifest : json := enc
  (mkManifest "2.0.0" "" "https://dl/2.0.0.exe" "" false "" {["2.0.0" := setup]} ∅ ∅).

(** Every server offers release 2.0.0 of EMLy and no updater. *)
Definition network (n : nat) (rq : Request) : reply :=
  if rq.(rq_url) =s "https://dl/2.0.0.exe"
  then Reply 200 "" (Some (mkPayload setup (RawBytes false (Blob 11 None))))
  else if has_suffix rq.(rq_url) "/manifest/updater" then Reply 404 "" None
  else Reply 200 "" (Some (mkPayload "" (RawBytes false (Blob 200 (Some manifest))))).

(** The setups run to completion and [leaves] the version they leave. *)
Definition env_of (net : nat -> Request -> reply) (leaves : string) : Env :=
  mkEnv (fun n => Fixture.now + 72 * hour + Z.of_nat n) (fun _ => false) (fun _ => "")
    (fun _ => mkFaults false false None "") (fun _ => []) net (fun _ => false) (fun _ => false)
    (fun _ => false) (fun _ => None) (fun n => (5000 <? n)%nat)
    (fun _ _ bytes => match bytes with
                      | Some _ => (Exited 0, Some leaves)
                      | None => (NotStarted "no file", None)
                      end)
    (fun _ => (Ok ["unins000.exe"], Exited 0, None)) (fun _ => false) (fun _ _ => None)
    (fun _ => None) (fun _ => mkUserSession "" NoSession 0).

Definition env : Env := env_of network "2.0.0".
Definition host : Host :=
  mkHost "HW-1" "pc-1" "dc-rm2.corp.local" "corp.local" ["10.20.3.4"] (Fixture.now + 72 * hour).
Definition cyc : cycleState := make_cycle Run.snap host.
Definition machine : Info := mkInfo "pc-1" "HW-1" "corp.local" "10.20.3.4" "" "" "".

(** EMLy 1.0.0 is installed. *)
Definition w0 : World :=
  mkWorld 0 ∅ (Some "1.0.0") Run.s0 None 0 ∅ ∅ false "" "" None 0 false [].

Definition cycle (env : Env) : World -> option string * World :=
  Cycle_ env ex_config machine "D" "U" "L" cyc.

Definition outline (a : action) : string :=
  match a with
  | ARequest url => "GET " +:+ url
  | ASetup p b _ _ => "setup " +:+ p +:+ (if is_some b then "" else " (missing)")
  | AUninstall => "uninstall"
  | ALaunch p _ _ _ _ _ => "launch " +:+ p
  | AEmit n ev => n +:+ " " +:+ ev.(ToVersion)
  | AAnnounce mc => "announce " +:+ mc.(AvailableVersion)
  | ACertificates => "certificates"
  | AAssociations => "associations"
  | _ => "other"
  end.
(** The servers stop answering at tick [n], and the setup fails: it leaves 1.0.0. *)
Definition outage (n : nat) : Env :=
  env_of (fun k rq => if (n <=? k)%nat then NoReply "no route" else network k rq) "1.0.0".
(** What state.json holds as the pending install. *)
Definition pending (w : World) : option Pending :=
  match Load (mkFaults false false None "") w.(w_rc).(rc_dir) with
  | Ok st => st.(st_Pending)
  | Err _ => None
  end.
End Scenario.

Import Scenario.
#[local] Existing Instance toy_ini.
#[local] Existing Instance toy_digest.
#[local] Existing Instance Dotted.lib.

Lemma executed_verified_witness :
  setups (cycle env w0).2.(w_trace) = 1%nat /\ Forall (safe env) (cycle env w0).2.(w_trace).
Proof.
  split; [vm_compute; reflexivity|].
  apply (executed_verified env ex_config machine "D" "U" "L" w0); [reflexivity|].
  apply ServiceCycle, ServiceStart.
Defined.

Lemma failures_reported_once_witness :
  length (failures (cycle (outage 28) w0).2.(w_trace)) = 1%nat /\
  NoDup (failures (cycle (outage 28) (cycle (outage 28) w0).2).2.(w_trace)).
Proof.
  split; [vm_compute; reflexivity|].
  apply (failures_reported_once (outage 28) ex_config machine "D" "U" "L" w0); [reflexivity|].
  apply ServiceCycle, ServiceCycle, ServiceStart.
Defined.

(** The fixture's override pauses every updater until 2026-09-05. *)
Lemma gated_cycle_witness :
  (Cycle_ env ex_config machine "D" "U" "L" Chained.cyc w0).1 = None /\
  map outline (Cycle_ env ex_config machine "D" "U" "L" Chained.cyc w0).2.(w_trace) = ["certificates"].
Proof.
  split; [|vm_compute; reflexivity].
  pose proof (gated_cycle env ex_config machine "D" "U" "L" Chained.cyc w0
    (or_introl eq_refl)) as H.
  destruct (Cycle_ env ex_config machine "D" "U" "L" Chained.cyc w0) as [err w']. exact (proj1 H).
Defined.

(** The happy path: with the servers up, a machine that runs EMLy 1.0.0 is
    offered 2.0.0, downloads it once, runs the verified setup once, reports the
    update, and is left at 2.0.0 with no pending install. *)
Theorem update_applied :
  let '(err, w) := cycle env w0 in
  err = None /\ w.(w_ini) = Some "2.0.0" /\ pending w = None /\
  map outline w.(w_trace) =
    ["certificates";
     "GET http://10.20.0.5:8080/emly/v2/updates/manifest/updater";
     "GET https://api.example.com/v2/updates/manifest/updater";
     "GET http://10.20.0.5:8080/emly/v2/updates/manifest";
     "announce 2.0.0"; "GET https://dl/2.0.0.exe";
     "update.started 2.0.0"; "setup D\EMLy-2.0.0-setup.exe";
     "update.applied 2.0.0"; "associations"].
Proof. vm_compute. repeat split; reflexivity. Qed.

(** The servers go down after the first download and the setup fails: EMLy is
    uninstalled and nothing is left to resume from. *)
Lemma reinstall_loses_download_witness :
  let p := mkPending "2.0.0" "D\EMLy-2.0.0-setup.exe" setup false 0 in
  let w := put_fs {["D\EMLy-2.0.0-setup.exe" := setup]} w0 in
  let w' := (cleanReinstall (outage 0) ex_config machine "D" "L" cyc p "stable" w).2 in
  w'.(w_ini) = None /\ exists l, w'.(w_trace) = l ++ [ASetup "D\EMLy-2.0.0-setup.exe" None "2.0.0" setup].
Proof.
  cbv zeta. split; [vm_compute; reflexivity|].
  apply (reinstall_loses_download (outage 0) ex_config machine "D" "L" (fun _ => eq_refl) cyc
    (mkPending "2.0.0" "D\EMLy-2.0.0-setup.exe" setup false 0) "stable" "EMLy-2.0.0-setup.exe"
    (put_fs {["D\EMLy-2.0.0-setup.exe" := setup]} w0)); vm_compute; reflexivity.
Defined.
