(* ===== verification/Ledger.v ===== *)
(** The state file under a running cycle. It is shared: between any two
    accesses of the cycle the command handlers and the welcome burst may have
    called any of their methods ([World.others]). [ledger R] says that the file
    reads back, as a state [R] relates to the world; what a relation needs to
    survive the interference is [Shared], what it needs to survive the cycle's
    own methods is asked for where they are made.

    [commands_survive] is the composition: the cycle on its registers, the
    handlers on theirs, neither loses what the other wrote. *)
From S2P Require Import Prelude Rfc3339 Json Files Versions Manifest PolicyDoc PolicyMatch State.
From S2P Require Import SelfUpdate Source Config PolicyStore RemoteConfig MachineInfo SourcePolicy.
From S2P Require Import Wire Download Installer World Cycle CycleInv PolicyProps CycleProps.

(** Facts that do not depend on the state. *)
Lemma triple_pure {S A} (phi : Prop) (P : S -> Prop) (m : M S A) Q :
  (phi -> triple P m Q) -> triple (fun s => phi /\ P s) m Q.
Proof. intros H s [? ?]. by apply H. Qed.

Lemma triple_ex {S A B} (P : B -> S -> Prop) (m : M S A) Q :
  (forall b, triple (P b) m Q) -> triple (fun s => exists b, P b s) m Q.
Proof. intros H s [b ?]. by apply (H b). Qed.

(** * A relation between the state on disk and the world *)

(** The actions of the cycle; what a launch needs is asked for where it is
    made. *)
Definition own (a : action) : Prop :=
  match a with AOther _ | ALaunch _ _ _ _ _ _ => False | _ => True end.

Record Shared (R : State -> World -> Prop) : Prop := {
  sh_reads : forall s w w', w'.(w_trace) = w.(w_trace) -> w'.(w_ini) = w.(w_ini) -> R s w -> R s w';
  sh_own : forall s a w, own a -> R s w -> R s (put_trace (w.(w_trace) ++ [a]) w);
  sh_other : forall s c w, R s w ->
    R (spec_step (store_op c) s) (put_trace (w.(w_trace) ++ [AOther (store_op c)]) w)
}.

Definition ledger (R : State -> World -> Prop) (w : World) : Prop :=
  exists s, holds w.(w_rc).(rc_dir) s /\ no_tmp w.(w_rc).(rc_dir) /\ R s w.

(** The clock stays within the years JSON can write, for every goroutine. *)
Record Timely (env : Env) : Prop := {
  t_clock : forall n, 0 <= env.(e_now) n < max_time;
  t_others : forall n, Forall (fun fo => op_fits (store_op fo.2)) (env.(e_others) n)
}.

(** Moving the policy cache aside and back does not touch state.json. *)
Lemma rename_holds fails from to d s : from <> statePath -> to <> statePath ->
  (forall r, to <> "state-" +:+ r +:+ ".tmp") ->
  holds d s -> no_tmp d -> holds (rename fails from to d).2 s /\ no_tmp (rename fails from to d).2.
Proof.
  intros Hf Ht Htmp [Hs Hd] Hn. unfold rename. destruct fails; [done|].
  destruct (d !! from) as [c|]; [|done]. cbn. split.
  - split; [done|]. by rewrite lookup_insert_ne, lookup_delete_ne.
  - intros r. rewrite lookup_insert_ne by done. destruct (decide (from = "state-" +:+ r +:+ ".tmp")) as [->|].
    + by rewrite lookup_delete_eq.
    + by rewrite lookup_delete_ne.
Qed.

Lemma retire_holds fails rc s : holds rc.(rc_dir) s -> no_tmp rc.(rc_dir) ->
  holds (retireCache fails rc).2.(rc_dir) s /\ no_tmp (retireCache fails rc).2.(rc_dir).
Proof.
  intros Hh Hn. destruct (rename_holds fails cachePath cachePrevPath (rc_dir rc) s) as [H1 H2]; [done..|].
  unfold retireCache. destruct (rename _ _ _ _) as [[e|] d]; cbn in *; repeat case_match; done.
Qed.

Lemma restore_holds fails rc s : holds rc.(rc_dir) s -> no_tmp rc.(rc_dir) ->
  holds (restoreCache fails rc).2.(rc_dir) s /\ no_tmp (restoreCache fails rc).2.(rc_dir).
Proof.
  intros Hh Hn. destruct (rename_holds fails cachePrevPath cachePath (rc_dir rc) s) as [H1 H2]; [done..|].
  unfold restoreCache. destruct (_ !! cachePath); [done|].
  destruct (rename _ _ _ _) as [[e|] d]; cbn in *; repeat case_match; done.
Qed.

Section Relation.
Context {versions : VersionLib} {inilib : IniLib} {digest : Sha256}.
Variable env : Env.
Hypothesis timely : Timely env.
Variable R : State -> World -> Prop.
Hypothesis HR : Shared R.

Lemma ledger_quiet : Quiet (ledger R).
Proof.
  assert (HM : forall t v a c, preserves (ledger R) (markUpdateFailed t v a c)).
  { intros t v a c. unfold markUpdateFailed. preserve. apply preserves_modify.
    intros w (s & ? & ? & ?). exists s. split_and!; [done..|]. by apply (sh_reads R HR s w). }
  assert (HP : forall a w, own a -> ledger R w -> ledger R (put_trace (w.(w_trace) ++ [a]) w)).
  { intros a w Ha (s & ? & ? & ?). exists s. split_and!; [done..|]. by apply (sh_own R HR). }
  split.
  - intros w w' Ht _ _ Hrc Hi (s & Hh & Hn & Hs). exists s. rewrite Hrc. split_and!; [done..|].
    by apply (sh_reads R HR s w).
  - intros a w Ha. apply HP. by destruct a.
  - exact HM.
  - intros ev. unfold emitUpdateFailed. apply preserves_bind; [apply HM|].
    intros [|]; [|apply preserves_ret]. apply preserves_modify. intros w. by apply HP.
Qed.

Lemma ledger_free : fs_free (ledger R).
Proof.
  intros d w (s & ? & ? & ?). exists s. split_and!; [done..|]. by apply (sh_reads R HR s w).
Qed.

(** The methods of the other goroutines, failing ones included. *)
Lemma others_run l : Forall (fun fo => op_fits (store_op fo.2)) l -> forall d s w,
  holds d s -> no_tmp d -> R s w ->
  let ops := (fun fo : faults * command_op => (fo.1, store_op fo.2)) <$> l in
  exists s', holds (run_ops ops d) s' /\ no_tmp (run_ops ops d) /\
    R s' (put_trace (w.(w_trace) ++ (AOther <$> done_ops ops d)) w).
Proof.
  cbv zeta. induction 1 as [|[f c] l Hc Hl IH]; intros d s w Hh Hn Hs.
  { exists s. split_and!; [done..|]. apply (sh_reads R HR s w); [|done..]. cbn. by rewrite app_nil_r. }
  cbn [fmap list_fmap run_ops done_ops fst snd] in *.
  destruct (run_op_refines f (store_op c) d s Hh Hn Hc) as (Hn' & Hr).
  destruct (run_op f (store_op c) d) as [e d']. cbn [fst snd] in *. destruct Hr as [[-> Hh']|[He ->]].
  - destruct (IH d' _ (put_trace (w.(w_trace) ++ [AOther (store_op c)]) w) Hh' Hn') as (s' & H1 & H2 & H3).
    { by apply (sh_other R HR). }
    exists s'. split_and!; [done..|]. cbn in H3 |- *. by rewrite <-app_assoc in H3.
  - destruct e as [e|]; [|done]. by apply (IH d s w).
Qed.

Lemma others_ledger : preserves (ledger R) (others env).
Proof.
  intros w (s & Hh & Hn & Hs). unfold others, ask, tick, gets, on_rc, modify, mbind, M_bind, mret, M_ret. cbn.
  destruct (others_run (e_others env (w_tick w)) (t_others env timely _) _ s w Hh Hn Hs) as (s' & H1 & H2 & H3).
  exists s'. split_and!; [exact H1|exact H2|]. eapply (sh_reads R HR); [..|exact H3]; done.
Qed.

(** A method of the cycle: when it succeeds [R'] holds, and when it fails [R]
    still does. *)
Lemma store_step (R' : State -> World -> Prop) o : op_fits o ->
  (forall s w w', w'.(w_trace) = w.(w_trace) -> w'.(w_ini) = w.(w_ini) -> R' s w -> R' s w') ->
  (forall s w, R s w -> R' (spec_step o s) w) ->
  triple (ledger R) (store env (fun f => run_op f o))
    (fun e => match e with None => ledger R' | Some _ => ledger R end).
Proof.
  intros Ho Hreads Hown. unfold store. eapply triple_bind; [apply others_ledger|]. cbv beta. intros _.
  intros w (s & Hh & Hn & Hs). unfold access, ask, tick, gets, on_rc, modify, mbind, M_bind, mret, M_ret. cbn.
  destruct (run_op_refines (e_store env (w_tick w)) o _ s Hh Hn Ho) as (Hn' & Hr).
  destruct (run_op (e_store env (w_tick w)) o (rc_dir (w_rc w))) as [e d']. cbn in *.
  destruct Hr as [[-> Hh']|[He ->]].
  - exists (spec_step o s). split_and!; [done..|]. apply (Hreads _ w); [done..|]. by apply Hown.
  - destruct e as [e|]; [|done]. exists s. split_and!; [done..|]. by apply (sh_reads R HR _ w).
Qed.

Lemma store_ledger o : op_fits o -> (forall s w, R s w -> R (spec_step o s) w) ->
  preserves (ledger R) (store env (fun f => run_op f o)).
Proof.
  intros Ho Hown w Hw. pose proof (store_step R o Ho (sh_reads R HR) Hown w Hw) as H.
  destruct (store _ _ w) as [[e|] w']; exact H.
Qed.

(** What a load finds is what is on record. *)
Lemma load_known : triple (ledger R) (load_state env) (fun r w =>
  match r with
  | Ok st => state_fits st /\ ledger (fun s w => R s w /\ s.(st_SelfUpdate) = st.(st_SelfUpdate)) w
  | Err _ => (exists n, (env.(e_store) n).(f_read) = true) /\ ledger R w
  end).
Proof.
  unfold load_state. eapply triple_bind; [apply others_ledger|]. intros u w (s & Hh & Hn & Hs).
  unfold read_state, ask, tick, gets, mbind, M_bind, mret, M_ret. cbn. unfold Load.
  assert (Hs' : R s (put_tick (S (w_tick w)) w)) by by apply (sh_reads R HR s w).
  destruct (f_read (e_store env (w_tick w))) eqn:E.
  - unfold loadLocked. rewrite E. split; [by eexists|]. by exists s.
  - rewrite (holds_load _ _ s Hh E). split; [apply Hh|]. by exists s.
Qed.

Lemma load_ledger : triple (ledger R) (load_state env) (fun r w =>
  (forall st, r = Ok st -> state_fits st) /\ ledger R w).
Proof.
  intros w Hw. pose proof (load_known w Hw) as H. destruct (load_state env w) as [[st|e] w'].
  - destruct H as [Hf (s & H1 & H2 & H3 & _)]. split; [by intros ? [= <-]|]. by exists s.
  - destruct H as [_ H]. by split.
Qed.

Lemma clock_ledger : triple (ledger R) (clock env) (fun t w => 0 <= t < max_time /\ ledger R w).
Proof. intros w Hw. split; [apply (t_clock env timely)|]. exact (ask_keeps _ ledger_quiet _ w Hw). Qed.

(** Reading the clock bounds what is read. *)
Lemma clock_then {A} (f : time -> M World A) (Q : A -> World -> Prop) :
  (forall t, 0 <= t < max_time -> triple (ledger R) (f t) Q) -> triple (ledger R) (clock env ≫= f) Q.
Proof.
  intros H. eapply triple_bind; [by apply clock_ledger|]. intros t. apply triple_pure. apply H.
Qed.

(** Moving the cache of the policy. *)
Lemma retire_ledger fails : preserves (ledger R) (on_rc (fun rc => (retireCache fails rc).2)).
Proof.
  apply preserves_modify. intros w (s & Hh & Hn & Hs). destruct (retire_holds fails (w_rc w) s Hh Hn).
  exists s. split_and!; [done..|]. by apply (sh_reads R HR s w).
Qed.

Lemma restore_ledger fails : preserves (ledger R) (on_rc (fun rc => (restoreCache fails rc).2)).
Proof.
  apply preserves_modify. intros w (s & Hh & Hn & Hs). destruct (restore_holds fails (w_rc w) s Hh Hn).
  exists s. split_and!; [done..|]. by apply (sh_reads R HR s w).
Qed.
End Relation.

(** A ledger that asks for less. *)
Lemma ledger_mono (R R' : State -> World -> Prop) w : (forall s w, R s w -> R' s w) -> ledger R w -> ledger R' w.
Proof. intros H (s & ? & ? & ?). exists s. by split_and!; [..|apply H]. Qed.

(** A step keeps a ledger, given that it is quiet, free of the files and that
    the clock is timely. *)
Ltac keep_ledger HQ HF env timely R HR :=
  repeat first
    [ assumption
    | progress cbv zeta
    | apply (clock_then env timely R HR); intros ? ?
    | match goal with
      | |- preserves _ (_ ≫= _) => apply preserves_bind; [|intros ?]
      | |- preserves _ (mret _) => apply preserves_ret
      | |- preserves _ (match ?x with _ => _ end) => destruct x eqn:?
      | |- triple _ ?m (fun _ => ?P) => change (preserves P m)
      end
    | apply quiet_tick; exact HQ
    | apply quiet_change; [exact HQ | intros ?; done]
    | apply quiet_act; [exact HQ | done]
    | apply (qt_mark _ HQ) | apply (qt_failed _ HQ)
    | apply ask_keeps; exact HQ
    | apply begin_keeps; exact HQ
    | apply end_keeps; exact HQ
    | apply skip_keeps; exact HQ
    | apply announce_keeps; exact HQ
    | apply emit_keeps; [exact HQ | done]
    | apply resolveTargetWith_keeps; exact HQ
    | apply resolveUpdaterManifestWith_keeps; exact HQ
    | apply toast_keeps; exact HQ
    | apply unreachable_keeps; exact HQ
    | apply countdown_keeps; exact HQ
    | apply verify_keeps; exact HQ
    | apply remove_keeps; [exact HQ | exact HF]
    | apply Ensure_keeps; [exact HQ | exact HF]
    | apply Cleanup_keeps; [exact HQ | exact HF]
    | preserve_step ].

(** * The cycle keeps a ledger *)

Section Cycles.
Context {versions : VersionLib} {inilib : IniLib} {digest : Sha256}.
Variable env : Env.
Variable cfg : Config.
Variable machine : Info.
Variables downloadsDir selfDownloadsDir logsDir : string.
Hypothesis timely : Timely env.

#[local] Instance ledger_network : Network World := cycle_network env.
#[local] Instance ledger_fs : FileSystem World := cycle_fs env.

Variable R : State -> World -> Prop.
Hypothesis HR : Shared R.
Let L := ledger R.
Let HQ : Quiet L := ledger_quiet R HR.
Let HF : fs_free L := ledger_free R HR.

Ltac keep_ledger_ := keep_ledger HQ HF env timely R HR.

(** ** The updater's own update *)

Definition record_fits (rec : option SelfUpdate) : Prop :=
  forall r, rec = Some r -> selfupdate_fits r.

(** What [reconcileSelfUpdate] does with a record. *)
Definition settle (rec : SelfUpdate) : M World (option SelfUpdate) :=
  match Reconcile Version (Some rec) with
  | Err _ => store env ClearSelfUpdate ;; mret None
  | Ok OutcomeLanded =>
      emit EvtUpdateApplied (mkUpdateEvent "updater" rec.(FromVersion) Version false
        rec.(Attempts) "" 0 false false None) ;;
      modify (put_landed (Some rec)) ;;
      store env ClearSelfUpdate ;;
      Download.CleanupExcept (SelfDownloads selfDownloadsDir) "" ;;
      mret None
  | Ok OutcomeMissed =>
      emitUpdateFailed (failed_event "updater" Version rec.(su_Version) rec.(Attempts)
        (rec.(Attempts) <? MaxAttempts) "version_mismatch"
        "the launched setup did not leave the new version running") ;;
      mret (Some rec)
  | Ok OutcomeNone => mret (Some rec)
  end.

Lemma reconcile_settle : reconcileSelfUpdate env selfDownloadsDir =
  (st ← load_state env;
   match st with
   | Err _ => mret None
   | Ok st => match st.(st_SelfUpdate) with None => mret None | Some rec => settle rec end
   end).
Proof. reflexivity. Qed.

(** The record stays, unless the release is running or is no release. *)
Lemma settle_result rec w :
  (settle rec w).1 = match Reconcile Version (Some rec) with Ok OutcomeMissed | Ok OutcomeNone => Some rec | _ => None end.
Proof.
  unfold settle. destruct (Reconcile Version (Some rec)) as [[]|]; [done|..];
    unfold mbind, M_bind; repeat case_match; done.
Qed.

Lemma settle_ledger rec :
  (match Reconcile Version (Some rec) with Ok OutcomeMissed | Ok OutcomeNone => False | _ => True end ->
     forall s w, R s w -> R (spec_step OClearSelfUpdate s) w) ->
  preserves L (settle rec).
Proof.
  intros H. unfold settle. destruct (Reconcile Version (Some rec)) as [[]|]; keep_ledger_;
    apply (store_ledger env timely R HR OClearSelfUpdate); done || by apply H.
Qed.

(** Recording an attempt and launching it: [B] holds before, [P] between the
    two. *)
Lemma claim_ledger (B P : State -> World -> Prop) q m a : Shared B -> Shared P -> in_int64 a ->
  (forall s w, B s w -> R s w) ->
  (forall now s w, B s w ->
     P (spec_step (OSetSelfUpdate (mkSelfUpdate m.(um_Version) Version q m.(um_SHA256) a false now)) s) w) ->
  (forall s w bytes rec, P s w ->
     R s (put_trace (w.(w_trace) ++ [ALaunch q bytes m.(um_Version) m.(um_SHA256) a rec]) w)) ->
  triple (ledger B) (claimAndLaunch env q m a) (fun _ => L).
Proof.
  intros HB HP Ha HBR Hset Hlaunch. unfold claimAndLaunch.
  assert (Hweak : forall A (x : A), triple (ledger B) (mret x) (fun _ => L)) by (intros A x w Hw; by eapply ledger_mono).
  apply (triple_bind _ _ _ (fun _ => ledger B)); [by apply begin_keeps, ledger_quiet|]. intros [|]; [|apply Hweak]. cbn [negb].
  apply (clock_then env timely B HB). intros now Hnow.
  set (rec := mkSelfUpdate _ _ _ _ _ _ now).
  apply (triple_bind _ _ _ (fun e => match e with None => ledger P | Some _ => ledger B end)).
  { apply (store_step env timely B HB P (OSetSelfUpdate rec)); [done|apply (sh_reads P HP)|].
    intros s w. apply Hset. }
  intros [e|].
  { apply (triple_bind _ _ _ (fun _ => ledger B)); [by apply end_keeps, ledger_quiet|]. intros _. apply Hweak. }
  apply (triple_bind _ _ _ (fun _ => ledger P)); [by apply ask_keeps, ledger_quiet|]. intros fails.
  apply (triple_bind _ _ _ (fun _ => ledger P)); [by apply retire_ledger|]. intros _.
  apply (triple_bind _ _ _ (fun _ => ledger P)); [apply preserves_gets|]. intros trigger.
  apply (triple_bind _ _ _ (fun _ => ledger P)); [by apply emit_keeps; [apply ledger_quiet|]|]. intros _.
  unfold launchSetup.
  apply (triple_bind _ _ _ (fun _ => ledger P)); [apply preserves_gets|]. intros fs.
  apply (triple_bind _ _ _ (fun _ => ledger P)); [apply preserves_gets|]. intros data.
  apply (triple_bind _ _ _ (fun _ => L)).
  { intros w (s & Hh & Hn & Hs). exists s. split; [done|]. split; [done|]. by apply Hlaunch. }
  intros _. match goal with |- triple _ ?m _ => change (preserves L m) end.
  keep_ledger_. by apply restore_ledger.
Qed.

Lemma Decide_attempt m rec now d : record_fits rec -> Decide Version (Some m) rec now = Ok d ->
  d.(Install) = true -> in_int64 d.(Attempt).
Proof.
  intros Hr Hd Hi. destruct (Decide_install _ _ _ _ _ Hd Hi) as (um & _ & _ & _ & _ & Hc).
  destruct Hc as [[_ ->]|(r & -> & _ & _ & Hm & _ & ->)]; [done|].
  destruct (Hr r eq_refl) as [_ H]. unfold MaxAttempts, in_int64, int64_min, int64_max in *. lia.
Qed.

(** One cycle's update of the updater, given what is known of the record once
    it is read. *)
Section Own.
Variable K : option SelfUpdate -> State -> World -> Prop.
Hypothesis HK : forall rec, Shared (K rec).
Hypothesis forget : forall rec s w, K rec s w -> R s w.
Hypothesis reconciled : triple L (reconcileSelfUpdate env selfDownloadsDir)
  (fun rec w => record_fits rec /\ ledger (K rec) w).
Hypothesis given_up : forall rec r s w, rec = Some r -> K rec s w -> K rec (spec_step (OSetSelfUpdate (gave_up r)) s) w.
Hypothesis launched : forall rec m now d q, record_fits rec -> Decide Version (Some m) rec now = Ok d ->
  d.(Install) = true -> triple (ledger (K rec)) (claimAndLaunch env q m d.(Attempt)) (fun _ => L).

Lemma known_then {A} rec (m : M World A) : preserves (ledger (K rec)) m -> triple (ledger (K rec)) m (fun _ => L).
Proof. intros H w Hw. eapply ledger_mono; [apply forget|]. exact (H w Hw). Qed.

Lemma giveUp_ledger m rec a : record_fits rec -> preserves (ledger (K rec)) (giveUp env m rec a).
Proof.
  intros Hr. pose proof (ledger_quiet _ (HK rec)) as HQ'. pose proof (ledger_free _ (HK rec)) as HF'. unfold giveUp.
  keep_ledger HQ' HF' env timely (K rec) (HK rec). subst.
  apply (store_ledger env timely _ (HK _) (OSetSelfUpdate (gave_up _))); [by apply (Hr _ eq_refl)|].
  intros s0 w0. by apply given_up.
Qed.

Lemma selfUpdate_ledger cyc : preserves L (selfUpdate env cfg machine selfDownloadsDir cyc).
Proof.
  unfold selfUpdate. destruct (negb _); [apply preserves_ret|].
  eapply triple_bind; [apply reconciled|]. intros rec. apply triple_pure. intros Hrec.
  pose proof (ledger_quiet _ (HK rec)) as HQ'. pose proof (ledger_free _ (HK rec)) as HF'.
  apply (triple_bind _ _ _ (fun _ => ledger (K rec))); [by apply resolveUpdaterManifestWith_keeps|].
  intros [[src [m url]]|e].
  2: { apply known_then. keep_ledger HQ' HF' env timely (K rec) (HK rec). }
  apply (clock_then env timely _ (HK rec)). intros now Hnow.
  destruct (Decide Version (Some m) rec now) as [d|] eqn:Ed; [|by apply known_then, preserves_ret].
  destruct (GiveUp d).
  { apply known_then. apply preserves_bind; [by apply giveUp_ledger|]. intros. apply preserves_ret. }
  destruct (Install d) eqn:Ei; [|by apply known_then, preserves_ret]. cbn [negb].
  apply (clock_then env timely _ (HK rec)). intros now' Hnow'.
  apply (triple_bind _ _ _ (fun _ => ledger (K rec))); [by apply announce_keeps|]. intros _.
  unfold applySelfUpdate.
  apply (triple_bind _ _ _ (fun _ => ledger (K rec))); [by apply Ensure_keeps|]. intros [q|err].
  2: { apply known_then. keep_ledger HQ' HF' env timely (K rec) (HK rec). }
  apply (triple_bind _ _ _ (fun _ => ledger (K rec))); [apply preserves_gets|]. intros fs.
  apply (triple_bind _ _ _ (fun _ => ledger (K rec))); [by apply ask_keeps|]. intros [err|].
  { apply known_then. keep_ledger HQ' HF' env timely (K rec) (HK rec). }
  by eapply launched.
Qed.
End Own.

(** A relation that says nothing of the record needs to know nothing of it. *)
Lemma selfUpdate_free cyc :
  (forall o s w, lifecycle o = 1%nat -> R s w -> R (spec_step o s) w) ->
  (forall s w q bytes v sha a rec, R s w -> R s (put_trace (w.(w_trace) ++ [ALaunch q bytes v sha a rec]) w)) ->
  preserves L (selfUpdate env cfg machine selfDownloadsDir cyc).
Proof.
  intros Hown Hlaunch. apply (selfUpdate_ledger (fun _ => R)); [done|done| |by intros; apply Hown|].
  - rewrite reconcile_settle. eapply triple_bind; [by apply load_ledger|]. intros st. apply triple_pure. intros Hst.
    assert (Hset : forall rec, preserves L (settle rec)).
    { intros rec. apply settle_ledger. intros _ s w. by apply (Hown OClearSelfUpdate). }
    destruct st as [st|]; [|by intros w Hw]. destruct (st_SelfUpdate st) as [rec|] eqn:Er; [|by intros w Hw].
    intros w Hw. split; [|by apply Hset]. rewrite settle_result.
    assert (Hf : selfupdate_fits rec) by (destruct (Hst st eq_refl) as (_ & Hu & _); by apply Hu).
    destruct (Reconcile Version (Some rec)) as [[]|]; intros r; try done; by intros [= <-].
  - intros rec m now d q Hrec Hd Hi. apply (claim_ledger R R); [done|done|by eapply Decide_attempt|done| |].
    + intros now' s w. by apply Hown.
    + intros s w bytes rec'. apply Hlaunch.
Qed.

(** ** EMLy's update *)

Section Whole.
Hypothesis own_pending : forall o s w, lifecycle o = 0%nat -> R s w -> R (spec_step o s) w.
Hypothesis own_update : forall cyc, preserves L (selfUpdate env cfg machine selfDownloadsDir cyc).
Hypothesis any_ini : forall s w i, R s w -> R s (put_ini i w).

Lemma clear_pending_ledger : preserves L (store env ClearPending).
Proof. apply (store_ledger env timely R HR OClearPending); [done|]. intros. by apply own_pending. Qed.

Lemma set_pending_ledger p : pending_fits p -> preserves L (store env (fun f => SetPending f p)).
Proof. intros Hp. apply (store_ledger env timely R HR (OSetPending p)); [done|]. intros. by apply own_pending. Qed.

Lemma put_ini_ledger i : preserves L (modify (put_ini i)).
Proof.
  apply preserves_modify. intros w (s & ? & ? & ?). exists s. split_and!; [done..|]. by apply any_ini.
Qed.

Lemma run_ledger p : preserves L (runSetupAndVerify env logsDir p).
Proof.
  unfold runSetupAndVerify. apply preserves_bind; [apply preserves_gets|]. intros fs.
  apply preserves_bind.
  { apply preserves_modify. intros w (s & ? & ? & ?). exists s. split_and!; [done..|]. by apply (sh_own R HR). }
  intros u. apply preserves_bind; [by apply quiet_tick|]. intros n.
  destruct (e_setup env n _ _) as [o ini]. apply preserves_bind; [apply put_ini_ledger|].
  intros. apply preserves_ret.
Qed.

Lemma uninstall_ledger : preserves L (runUninstall env).
Proof.
  unfold runUninstall. apply preserves_bind; [by apply quiet_tick|]. intros n.
  destruct (e_uninstall env n) as [[matches o] ini]. apply preserves_bind; [|intros; apply put_ini_ledger].
  apply preserves_when. by apply quiet_act.
Qed.

Lemma redownload_ledger cyc p ch : preserves L (forceRedownload env cfg machine downloadsDir cyc p ch).
Proof.
  unfold forceRedownload, resolveTarget. keep_ledger_; [apply clear_pending_ledger|by apply set_pending_ledger].
Qed.

Lemma finish_ledger p from started b : preserves L (finishInstall env downloadsDir p from started b).
Proof. unfold finishInstall. keep_ledger_. apply clear_pending_ledger. Qed.

Lemma install_ledger cyc p emly : preserves L (install env cfg machine downloadsDir logsDir cyc p emly).
Proof.
  unfold install, installBody, cleanReinstall.
  keep_ledger_; first [apply clear_pending_ledger | apply run_ledger | apply finish_ledger
    | apply redownload_ledger | apply uninstall_ledger].
Qed.

Lemma apply_ledger cyc p emly : preserves L (apply_ env cfg machine downloadsDir logsDir cyc p emly).
Proof. unfold apply_, destructivePendingNow, wait. keep_ledger_; apply install_ledger. Qed.

Lemma resume_ledger cyc emly : preserves L (resumePending env cfg machine downloadsDir logsDir cyc emly).
Proof.
  unfold resumePending. eapply triple_bind; [by apply load_ledger|]. intros st.
  apply triple_pure. intros _. match goal with |- triple _ ?m _ => change (preserves L m) end.
  keep_ledger_; first [apply clear_pending_ledger | apply apply_ledger].
Qed.

Lemma poll_ledger cyc emly : preserves L (poll env cfg machine downloadsDir logsDir cyc emly).
Proof.
  unfold poll, resolveTarget. keep_ledger_; [by apply set_pending_ledger|apply apply_ledger].
Qed.

Lemma Cycle_ledger cyc :
  preserves L (Cycle_ env cfg machine downloadsDir selfDownloadsDir logsDir cyc).
Proof.
  unfold Cycle_, destructivePendingNow. cbv zeta.
  apply preserves_bind; [apply preserves_gets|]. intros reason.
  apply preserves_bind; [by apply quiet_change|]. intros u.
  apply preserves_bind; [by apply preserves_when, quiet_act|]. intros u'.
  apply (triple_bind _ _ _ (fun rc w => rc = w.(w_rc) /\ L w)); [by intros w Hw|]. intros rc.
  unfold applyControlGate. destruct (UpdaterEnabled _ _) as [en why].
  apply (triple_bind _ _ _ (fun _ => L)).
  { intros w [-> (s & Hh & Hn & Hs)]. exists s. cbn.
    assert (E : forall b : bool, w.(w_rc).(rc_dir) = (if b then log (EvGate true) w.(w_rc) else w.(w_rc)).(rc_dir))
      by by intros [|].
    destruct en, (paused (w_rc w)); (split_and!; [done..|]); by apply (sh_reads R HR s w). }
  intros u1. match goal with |- triple _ ?m _ => change (preserves L m) end.
  keep_ledger_; first [apply own_update | apply resume_ledger | apply poll_ledger].
Qed.
End Whole.
End Cycles.

(** * The commands on record *)

Section Commands.
Context {versions : VersionLib} {inilib : IniLib} {digest : Sha256}.
Variable env : Env.
Variable cfg : Config.
Variable machine : Info.
Variables downloadsDir selfDownloadsDir logsDir : string.

(** The methods of the other goroutines that succeeded, in order. *)
Definition others_of (l : list action) : list op :=
  omap (fun a => match a with AOther o => Some o | _ => None end) l.

(** Cycles, one after the other. *)
Definition Cycles (cycs : list cycleState) (w : World) : World :=
  foldl (fun w cyc => (Cycle_ env cfg machine downloadsDir selfDownloadsDir logsDir cyc w).2) w cycs.

Lemma commands_shared s0 : Shared (fun s w =>
  s.(PendingCommands) = (run_spec (others_of w.(w_trace)) s0).(PendingCommands)).
Proof.
  split.
  - by intros s w w' -> _.
  - intros s a w Ha ->. unfold others_of. cbn. rewrite omap_app. by destruct a; cbn; rewrite ?app_nil_r.
  - intros s c w Hs. unfold others_of, run_spec in *. cbn. rewrite omap_app, foldl_app. cbn.
    by destruct c; cbn; rewrite ?Hs.
Qed.

(** C5: the cycle and the client commands share one state file and lose
    nothing of each other's: over any number of cycles, with any methods of the
    command handlers and the welcome burst coming in between any two accesses,
    and whichever accesses, downloads, setups and launches fail, the state file
    still reads back, no temporary file is left, and the commands on record are
    exactly those the handlers' own successful calls made them. *)
Theorem commands_survive (cycs : list cycleState) (w : World) (s : State) :
  Timely env -> holds w.(w_rc).(rc_dir) s -> no_tmp w.(w_rc).(rc_dir) -> w.(w_trace) = [] ->
  let w' := Cycles cycs w in
  exists s', holds w'.(w_rc).(rc_dir) s' /\ no_tmp w'.(w_rc).(rc_dir) /\
    s'.(PendingCommands) = (run_spec (others_of w'.(w_trace)) s).(PendingCommands).
Proof.
  intros Ht Hh Hn Htr. set (R := fun s' w => s'.(PendingCommands) = (run_spec (others_of w.(w_trace)) s).(PendingCommands)).
  cut (ledger R (Cycles cycs w)); [done|].
  assert (H0 : ledger R w) by (exists s; split; [done|]; split; [done|]; unfold R; by rewrite Htr).
  clear Hh Hn Htr. unfold Cycles. revert w H0. induction cycs as [|cyc l IH]; intros w Hw; [done|]. cbn.
  apply IH. assert (HR : Shared R) by apply commands_shared.
  assert (Hown : forall o s' w', lifecycle o <> 2%nat -> R s' w' -> R (spec_step o s') w').
  { intros o s' w' Ho Hs. unfold R in *. by destruct o. }
  eapply Cycle_ledger; [done|exact HR|intros o s' w' Ho; apply Hown; congruence| |done|done].
  intros c. apply (selfUpdate_free env cfg machine selfDownloadsDir Ht R HR).
  - intros o s' w' Ho. apply Hown. congruence.
  - intros s' w' q bytes v sha a rec Hs. unfold R, others_of in *. cbn. by rewrite omap_app, app_nil_r.
Qed.
End Commands.

(** A restart is put on record and taken off again while a cycle downloads and
    installs; another arrives at its end. *)
Module Shared_example.
Import Scenario.
#[local] Existing Instance toy_ini.
#[local] Existing Instance toy_digest.
#[local] Existing Instance Dotted.lib.

Definition command (id : string) : PendingCommand := mkPendingCommand id "service.restart" (Fixture.now + hour).

Definition env : Env :=
  let e := Scenario.env in
  mkEnv (fun _ => Fixture.now + 72 * hour) e.(e_fails) e.(e_part) e.(e_store)
    (fun n => if (n =? 1)%nat then [(ok_faults, CAdd (command "a"))]
              else if (30 <? n)%nat then [(ok_faults, CRemove "a"); (ok_faults, CAdd (command "b"))] else [])
    e.(e_net) e.(e_cancelled) e.(e_running) e.(e_warned) e.(e_exited) e.(e_destructive) e.(e_setup)
    e.(e_uninstall) e.(e_toast) e.(e_signed) e.(e_launch) e.(e_session).

Lemma env_timely : Timely env.
Proof.
  split; [done|]. intros n. cbn [e_others env]. destruct (_ =? _)%nat; [|destruct (_ <? _)%nat];
    repeat constructor; cbn; done.
Qed.

End Shared_example.

Import Scenario.
#[local] Existing Instance toy_ini.
#[local] Existing Instance toy_digest.
#[local] Existing Instance Dotted.lib.

Lemma commands_survive_witness :
  let w' := Cycles Shared_example.env ex_config machine "D" "U" "L" [cyc] w0 in
  w'.(w_ini) = Some "2.0.0" /\
  others_of w'.(w_trace) = [OAddCommand (Shared_example.command "a"); ORemoveCommand "a";
                            OAddCommand (Shared_example.command "b")] /\
  exists s', holds w'.(w_rc).(rc_dir) s' /\ no_tmp w'.(w_rc).(rc_dir) /\
    s'.(PendingCommands) = (run_spec (others_of w'.(w_trace)) empty_state).(PendingCommands).
Proof.
  split; [vm_compute; reflexivity|]. split; [vm_compute; reflexivity|].
  apply (commands_survive Shared_example.env ex_config machine "D" "U" "L" [cyc] w0 empty_state).
  - apply Shared_example.env_timely.
  - split; [split_and!; done|]. left. split; [vm_compute; reflexivity|done].
  - intros r. apply lookup_empty.
  - reflexivity.
Defined.
