(* ===== verification/Attempts.v ===== *)
(** How often the updater launches a release of itself, over the real cycles of
    internal/service/selfupdate.go and the state file they share: whatever the
    servers offer, whichever accesses fail, and across restarts of the process.
    The rules are SelfUpdate.v's; that the record counts the launches is shown
    here, as a ledger (Ledger.v). *)
From S2P Require Import Prelude Rfc3339 Json Files Versions Manifest PolicyDoc PolicyMatch State.
From S2P Require Import SelfUpdate Source Config PolicyStore RemoteConfig MachineInfo SourcePolicy.
From S2P Require Import Wire Download Installer World Cycle CycleInv PolicyProps CycleProps Ledger.

(** The launches of a trace: the release and the number of the attempt. *)
Definition attempts (l : list action) : list (string * Z) :=
  omap (fun a => match a with ALaunch _ _ v _ n _ => Some (v, n) | _ => None end) l.

(** What a record says was tried last. *)
Definition tried (rec : option SelfUpdate) : option (string * Z) :=
  (fun r => (r.(su_Version), r.(Attempts))) <$> rec.

(** The launch before the next one. *)
Definition latest (prev : option (string * Z)) (l : list (string * Z)) : option (string * Z) :=
  match last l with Some x => Some x | None => prev end.

Lemma latest_cons prev x l : latest prev (x :: l) = latest (Some x) l.
Proof. unfold latest. destruct l as [|y l]; [done|]. cbn. by destruct (last (y :: l)) eqn:E; [|apply last_None in E]. Qed.
Lemma latest_snoc prev l x : latest prev (l ++ [x]) = Some x.
Proof. unfold latest. by rewrite last_snoc. Qed.

Lemma attempts_snoc l a : attempts (l ++ [a]) = attempts l ++ attempts [a].
Proof. apply omap_app. Qed.

Section Attempts.
Context {versions : VersionLib} {inilib : IniLib} {digest : Sha256}.
Variable env : Env.
Variable cfg : Config.
Variable machine : Info.
Variables downloadsDir selfDownloadsDir logsDir : string.

Abbreviation Cycle_ := (Cycle_ env cfg machine downloadsDir selfDownloadsDir logsDir).

(** Some access to state.json finds it unreadable. *)
Definition unreadable : Prop := exists n, (env.(e_store) n).(f_read) = true.

(** A launch is of a newer release, and numbered: the one after the launch
    before it, of the same release, or the first of a release - when the launch
    before was of another, or state.json could not be read. *)
Definition follows_up (prev : option (string * Z)) (x : string * Z) : Prop :=
  Less Version x.1 = Ok true /\ x.2 <= MaxAttempts /\
  (prev = Some (x.1, x.2 - 1) \/ x.2 = 1 /\ (unreadable \/ forall k, prev <> Some (x.1, k))).
Fixpoint numbered (prev : option (string * Z)) (l : list (string * Z)) : Prop :=
  match l with [] => True | x :: l' => follows_up prev x /\ numbered (Some x) l' end.

Lemma numbered_snoc l x : forall prev, numbered prev (l ++ [x]) <-> numbered prev l /\ follows_up (latest prev l) x.
Proof.
  induction l as [|y l IH]; intros prev; [cbn; tauto|]. cbn [app numbered]. rewrite IH, latest_cons. tauto.
Qed.

(** * The record counts the launches *)

Section Counting.
Hypothesis timely : Timely env.
Variable prev : option (string * Z).

(** No release that could still be launched is forgotten. *)
Definition stale_only (p : option (string * Z)) : Prop := forall v k, p = Some (v, k) -> Less Version v <> Ok true.

Definition counts (s : State) (w : World) : Prop :=
  numbered prev (attempts w.(w_trace)) /\
  match tried s.(st_SelfUpdate) with
  | Some x => latest prev (attempts w.(w_trace)) = Some x
  | None => stale_only (latest prev (attempts w.(w_trace)))
  end.

(** And [rec] is what was read of the record. *)
Definition known (rec : option SelfUpdate) (s : State) (w : World) : Prop :=
  counts s w /\
  (tried s.(st_SelfUpdate) = tried rec \/
   rec = None /\ (unreadable \/ stale_only (latest prev (attempts w.(w_trace))))).

(** While a launched release that can no longer be launched is taken off. *)
Definition settling (rec : SelfUpdate) (s : State) (w : World) : Prop :=
  numbered prev (attempts w.(w_trace)) /\
  latest prev (attempts w.(w_trace)) = Some (rec.(su_Version), rec.(Attempts)) /\
  (s.(st_SelfUpdate) = Some rec \/ s.(st_SelfUpdate) = None).

(** Once the attempt is on record, before the launch. *)
Definition about_to (x : string * Z) (s : State) (w : World) : Prop :=
  tried s.(st_SelfUpdate) = Some x /\ numbered prev (attempts w.(w_trace) ++ [x]).

(** A relation between the record and the launches survives everything else. *)
Lemma record_shared (P : option SelfUpdate -> list (string * Z) -> Prop) :
  Shared (fun s w => P s.(st_SelfUpdate) (attempts w.(w_trace))).
Proof.
  split.
  - by intros s w w' -> _.
  - intros s a w Ha. cbn. rewrite attempts_snoc. by destruct a; cbn; rewrite ?app_nil_r.
  - intros s c w. cbn. rewrite attempts_snoc. cbn. rewrite app_nil_r. by destruct c.
Qed.

Lemma counts_shared : Shared counts.
Proof.
  exact (record_shared (fun r l => numbered prev l /\
    match tried r with Some x => latest prev l = Some x | None => stale_only (latest prev l) end)).
Qed.
Lemma known_shared rec : Shared (known rec).
Proof.
  exact (record_shared (fun r l => (numbered prev l /\
    match tried r with Some x => latest prev l = Some x | None => stale_only (latest prev l) end) /\
    (tried r = tried rec \/ rec = None /\ (unreadable \/ stale_only (latest prev l))))).
Qed.
Lemma settling_shared rec : Shared (settling rec).
Proof.
  exact (record_shared (fun r l => numbered prev l /\ latest prev l = Some (rec.(su_Version), rec.(Attempts)) /\
    (r = Some rec \/ r = None))).
Qed.
Lemma about_shared x : Shared (about_to x).
Proof. exact (record_shared (fun r l => tried r = Some x /\ numbered prev (l ++ [x]))). Qed.

(** What a settled record was not: a release still to come. *)
Lemma settled_stale rec : match Reconcile Version (Some rec) with Ok OutcomeMissed | Ok OutcomeNone => False | _ => True end ->
  Less Version rec.(su_Version) <> Ok true.
Proof.
  unfold Reconcile. destruct (_ =s ""); [done|]. by destruct (Less Version (su_Version rec)) as [[]|].
Qed.

Lemma settling_known rec s w : Less Version rec.(su_Version) <> Ok true -> settling rec s w -> known None s w.
Proof.
  intros Hl (Hn & Hc & Hr). assert (Hs : stale_only (latest prev (attempts w.(w_trace)))).
  { rewrite Hc. by intros v k [= <- _]. }
  split; [|right; auto]. split; [done|]. by destruct Hr as [->| ->].
Qed.

Lemma reconcile_known : triple (ledger counts) (reconcileSelfUpdate env selfDownloadsDir)
  (fun rec w => record_fits rec /\ ledger (known rec) w).
Proof.
  rewrite reconcile_settle. eapply triple_bind; [apply (load_known env timely counts counts_shared)|]. intros st w Hw.
  destruct st as [st|e].
  2: { destruct Hw as [Hu Hw]. split; [done|]. eapply ledger_mono; [|exact Hw]. intros s w' Hs. split; [done|]. right. auto. }
  destruct Hw as [Hfits Hw]. destruct (st_SelfUpdate st) as [rec|] eqn:Er.
  2: { split; [done|]. eapply ledger_mono; [|exact Hw]. intros s w' [Hs E]. split; [done|]. left. by rewrite E. }
  assert (Hf : selfupdate_fits rec) by (destruct Hfits as (_ & Hu & _); by apply Hu).
  rewrite settle_result.
  destruct (match Reconcile Version (Some rec) with Ok OutcomeMissed | Ok OutcomeNone => true | _ => false end) eqn:Eo.
  - assert (Hres : match Reconcile Version (Some rec) with Ok OutcomeMissed | Ok OutcomeNone => Some rec | _ => None end = Some rec)
      by (by destruct (Reconcile Version (Some rec)) as [[]|]). rewrite Hres.
    split; [by intros r [= <-]|].
    apply (settle_ledger env selfDownloadsDir timely (known (Some rec)) (known_shared _)).
    { intros H. by destruct (Reconcile Version (Some rec)) as [[]|]. }
    eapply ledger_mono; [|exact Hw]. intros s w' [Hs E]. split; [done|]. left. by rewrite E.
  - assert (Hres : match Reconcile Version (Some rec) with Ok OutcomeMissed | Ok OutcomeNone => Some rec | _ => None end = None)
      by (by destruct (Reconcile Version (Some rec)) as [[]|]). rewrite Hres. split; [done|].
    assert (Hst : Less Version rec.(su_Version) <> Ok true)
      by (apply settled_stale; by destruct (Reconcile Version (Some rec)) as [[]|]).
    apply (ledger_mono (settling rec)); [intros; by eapply settling_known|].
    apply (settle_ledger env selfDownloadsDir timely (settling rec) (settling_shared _)).
    { intros _ s w' (Hn & Hc & _). split_and!; [done|done|by right]. }
    eapply ledger_mono; [|exact Hw]. intros s w' [[Hn Hc] E]. rewrite E in Hc. cbn in Hc. split_and!; [done|done|by left].
Qed.

(** What is decided follows up on the launch before. *)
Lemma decided rec m now d s w : known rec s w -> Decide Version (Some m) rec now = Ok d -> d.(Install) = true ->
  numbered prev (attempts w.(w_trace) ++ [(m.(um_Version), d.(Attempt))]).
Proof.
  intros [[Hn Hc] Hk] Hd Hi. apply numbered_snoc. split; [done|].
  destruct (Decide_allowed m rec now d Hd Hi) as [Hl Ha]. split; [done|]. split; [done|]. cbn [fst snd].
  destruct (Decide_install _ _ _ _ _ Hd Hi) as (um & [= <-] & _ & _ & _ & Hcase).
  destruct Hcase as [[Hother ->]|(r & -> & Hv & _ & _ & _ & ->)].
  - right. split; [done|].
    assert (Hstale : stale_only (latest prev (attempts (w_trace w))) ->
      forall k, latest prev (attempts (w_trace w)) <> Some (um_Version m, k)) by (intros Hs k E; by apply (Hs _ _ E)).
    destruct Hk as [Hk|[-> [Hu|Hs]]]; [|by left|right; by apply Hstale]. right. rewrite Hk in Hc.
    destruct rec as [r|]; cbn in Hc; [|by apply Hstale]. rewrite Hc. intros k [= E _]. by apply (Hother r).
  - left. destruct Hk as [Hk|[? _]]; [|done]. rewrite Hk in Hc. cbn in Hc. rewrite Hc, Hv. do 2 f_equal. lia.
Qed.

Lemma selfUpdate_counts cyc : preserves (ledger counts) (selfUpdate env cfg machine selfDownloadsDir cyc).
Proof.
  apply (selfUpdate_ledger env cfg machine selfDownloadsDir timely counts known).
  - apply known_shared.
  - by intros rec s w [? _].
  - apply reconcile_known.
  - intros rec r s w -> [[Hn Hc] Hk]. destruct Hk as [Hk|[? _]]; [|done]. rewrite Hk in Hc.
    split; [split; [exact Hn|exact Hc]|by left].
  - intros rec m now d q Hrec Hd Hi.
    apply (claim_ledger env timely counts counts_shared (known rec) (about_to (m.(um_Version), d.(Attempt)))).
    + apply known_shared.
    + apply about_shared.
    + by eapply Decide_attempt.
    + by intros s w [? _].
    + intros now' s w Hk. split; [done|]. by eapply decided.
    + intros s w bytes rec' [Ht Hn]. unfold counts. cbn [w_trace put_trace]. rewrite attempts_snoc. cbn [attempts omap list_omap].
      rewrite Ht, latest_snoc. by split.
Qed.

Lemma Cycle_counts cyc : preserves (ledger counts) (Cycle_ cyc).
Proof.
  apply (Cycle_ledger env cfg machine downloadsDir selfDownloadsDir logsDir timely counts counts_shared).
  - intros o s w Ho Hc. by destruct o.
  - apply selfUpdate_counts.
  - by intros s w i Hc.
Qed.
End Counting.

(** * The history of a machine *)

(** The files of the store. *)
Definition store_file (path : string) : Prop :=
  path = statePath \/ exists r, path = "state-" +:+ r +:+ ".tmp".

(** Cycles, and in between anything that leaves state.json alone: the policy
    refreshed, files replaced, EMLy reinstalled, the process started anew with
    nothing in memory. *)
Inductive history : World -> World -> Prop :=
| HistoryStart w : history w w
| HistoryCycle cyc w w' : history w w' -> history w (Cycle_ cyc w').2
| HistoryOther w w1 w' : history w w1 -> w'.(w_trace) = w1.(w_trace) ->
    (forall path, store_file path -> w'.(w_rc).(rc_dir) !! path = w1.(w_rc).(rc_dir) !! path) -> history w w'.

Lemma ledger_other prev w w' : w'.(w_trace) = w.(w_trace) ->
  (forall path, store_file path -> w'.(w_rc).(rc_dir) !! path = w.(w_rc).(rc_dir) !! path) ->
  ledger (counts prev) w -> ledger (counts prev) w'.
Proof.
  intros Ht Hf (s & [Hfit Hh] & Hn & Hs). exists s. split_and!.
  - split; [done|]. rewrite Hf by by left. exact Hh.
  - intros r. rewrite Hf by (right; by exists r). apply Hn.
  - unfold counts in *. by rewrite Ht.
Qed.

(** At most three in a row, when every read works. *)
Lemma row_bounded l : forall v a, ~ unreadable -> numbered (Some (v, a)) l -> 0 <= a <= MaxAttempts ->
  Forall (fun x => x.1 = v) l -> Z.of_nat (length l) <= MaxAttempts - a.
Proof.
  induction l as [|[v' n] l IH]; intros v a Hu Hn Ha Hv; [cbn; lia|]. apply Forall_cons in Hv as [Hv Hl]. cbn in Hv. subst v'.
  destruct Hn as [(_ & Hm & Hc) Hn]. cbn [fst snd] in *.
  destruct Hc as [[= ->]|[_ [?|Hne]]]; [|done|by destruct (Hne a)].
  specialize (IH v n Hu Hn ltac:(lia) Hl). cbn [length]. lia.
Qed.

Lemma numbered_app l1 l2 : forall prev, numbered prev (l1 ++ l2) <-> numbered prev l1 /\ numbered (latest prev l1) l2.
Proof.
  induction l1 as [|x l1 IH]; intros prev; [cbn; tauto|]. cbn [app numbered]. rewrite IH, latest_cons. tauto.
Qed.

Lemma numbered_range l : forall prev, (forall v k, prev = Some (v, k) -> 0 <= k) -> numbered prev l ->
  Forall (fun x => Less Version x.1 = Ok true /\ 1 <= x.2 <= MaxAttempts) l.
Proof.
  induction l as [|[v a] l IH]; intros prev Hp Hn; [constructor|]. destruct Hn as [(Hl & Ha & Hc) Hn]. cbn [fst snd] in *.
  assert (1 <= a) by (destruct Hc as [Hc|[-> _]]; [specialize (Hp _ _ Hc)|]; lia).
  constructor; [done|]. apply (IH (Some (v, a))); [|done]. intros ? ? [= <- <-]. lia.
Qed.

(** C13: how often a release of the updater is launched, over any history of a
    machine on one build: whatever its servers offer and however they
    alternate, whichever accesses to state.json, downloads and launches fail,
    with the client commands on the same file, and across restarts of the
    process. Every launch is of a newer release and is the first, second or
    third attempt at it, numbered from the launch before, which the record
    kept; numbering starts again only after a launch of another release, or
    when state.json could not be read. As long as it can be read, no release
    is launched more than three times in a row: one that never lands is given
    up, and stays so until another release has been launched. *)
Theorem selfupdate_bounded (w w' : World) (s : State) :
  Timely env -> holds w.(w_rc).(rc_dir) s -> no_tmp w.(w_rc).(rc_dir) -> w.(w_trace) = [] ->
  (forall r, s.(st_SelfUpdate) = Some r -> 0 <= r.(Attempts)) -> history w w' ->
  let l := attempts w'.(w_trace) in
  Forall (fun x => Less Version x.1 = Ok true /\ 1 <= x.2 <= MaxAttempts) l /\
  numbered (tried s.(st_SelfUpdate)) l /\
  (~ unreadable -> forall v l1 l2 l3, l = l1 ++ l2 ++ l3 -> Forall (fun x => x.1 = v) l2 ->
     Z.of_nat (length l2) <= MaxAttempts).
Proof.
  intros Ht Hh Hno Htr Hatt Hhist. cbv zeta. set (prev := tried s.(st_SelfUpdate)).
  assert (Hl : ledger (counts prev) w').
  { assert (H0 : ledger (counts prev) w).
    { exists s. split; [done|]. split; [done|]. unfold counts. rewrite Htr. split; [done|]. cbn. unfold prev.
      by destruct (tried (st_SelfUpdate s)). }
    clear Hh Hno Htr. induction Hhist as [w|cyc w w' _ IH|w w1 w' _ IH H1 H2]; [done| |].
    - apply (Cycle_counts Ht prev cyc). by apply IH.
    - eapply ledger_other; [exact H1|exact H2|by apply IH]. }
  destruct Hl as (s' & _ & _ & Hn & _).
  assert (Hp : forall v k, prev = Some (v, k) -> 0 <= k).
  { unfold prev. intros v k. destruct (st_SelfUpdate s) as [r|] eqn:E; [|done]. intros [= _ <-]. by apply Hatt. }
  pose proof (numbered_range _ _ Hp Hn) as Hrange. split_and!; [exact Hrange|exact Hn|]. intros Hu v l1 l2 l3 El Hv.
  rewrite El in Hn, Hrange. apply numbered_app in Hn as [_ Hn]. apply numbered_app in Hn as [Hn _].
  apply Forall_app in Hrange as [_ Hrange]. destruct l2 as [|[v' a] l2]; [cbn; unfold MaxAttempts; lia|].
  apply Forall_cons in Hv as [Hv Hl2]. cbn in Hv. subst v'. apply Forall_cons in Hrange as [[_ Ha] _].
  destruct Hn as [_ Hn]. cbn in Ha. pose proof (row_bounded l2 v a Hu Hn ltac:(lia) Hl2). cbn [length]. lia.
Qed.
End Attempts.

(** * A release that never lands *)

Module NeverLands.
Import Scenario.
#[local] Existing Instance toy_ini.
#[local] Existing Instance toy_digest.
#[local] Existing Instance Dotted.lib.

Definition release : json :=
  enc (mkUpdaterManifest "1.8.0" "https://dl/u.exe" "setup-1.8.0" 0 "" ∅).
Definition servers (n : nat) (rq : Request) : reply :=
  if rq.(rq_url) =s "https://dl/u.exe"
  then Reply 200 "" (Some (mkPayload "setup-1.8.0" (RawBytes false (Blob 11 None))))
  else if has_suffix rq.(rq_url) "/manifest/updater"
  then Reply 200 "" (Some (mkPayload "" (RawBytes false (Blob 200 (Some release)))))
  else NoReply "no route".

(** A minute passes at every question; whatever is started leaves this build
    running. *)
Definition env : Env :=
  let e := env_of servers "1.0.0" in
  mkEnv (fun n => Fixture.now + 72 * hour + Z.of_nat (n mod 1000) * minute) e.(e_fails) e.(e_part) e.(e_store) e.(e_others)
    e.(e_net) e.(e_cancelled) e.(e_running) e.(e_warned) e.(e_exited) e.(e_destructive) e.(e_setup)
    e.(e_uninstall) e.(e_toast) e.(e_signed) e.(e_launch) e.(e_session).
Abbreviation step w := (Cycle_ env ex_config machine "D" "U" "L" cyc w).2.

Lemma selfupdate_bounded_witness :
  let w := step (step (step (step (step w0)))) in
  attempts w.(w_trace) = [("1.8.0", 1); ("1.8.0", 2); ("1.8.0", 3)] /\
  Forall (fun x => Less Version x.1 = Ok true /\ 1 <= x.2 <= MaxAttempts) (attempts w.(w_trace)).
Proof.
  split; [vm_compute; reflexivity|].
  apply (selfupdate_bounded env ex_config machine "D" "U" "L" w0 _ empty_state).
  - split; [|intros n; constructor]. intros n. cbn [env e_now].
    pose proof (Nat.mod_upper_bound n 1000 ltac:(lia)) as Hn.
    assert (0 <= Z.of_nat (n mod 1000) <= 1000) as Hz by lia. clear Hn. revert Hz. generalize (Z.of_nat (n mod 1000)).
    intros z Hz. assert (E : Fixture.now + 72 * hour + 1000 * minute < max_time) by (vm_compute; reflexivity).
    assert (0 <= Fixture.now + 72 * hour) by (vm_compute; discriminate). unfold minute in *. unfold second in *. lia.
  - split; [split_and!; done|]. left. split; [vm_compute; reflexivity|done].
  - intros r. apply lookup_empty.
  - reflexivity.
  - intros r. discriminate.
  - do 5 apply HistoryCycle. apply HistoryStart.
Defined.
End NeverLands.
