(* ===== verification/Progress.v ===== *)
(** Progress of the poll cycle: when the outside is healthy - the disk and the
    state file work, nothing cancels the cycle, EMLy exits when asked, some
    server of the chain answers and the release can be downloaded and run - a
    cycle does not merely stay safe, it brings EMLy to the release on offer.

    [At] is what has to hold between two steps: EMLy's config.ini, and the
    pending install state.json holds. The steps that touch neither keep it
    ([Quiet]); the others are computed here. Nothing is assumed of the other
    clients of the state file, of the preference, of what an earlier cycle left
    in the cache, or of the updater's own update. *)
From S2P Require Import Prelude Rfc3339 Json Files Versions Manifest PolicyDoc PolicyMatch State.
From S2P Require Import SelfUpdate Source Config PolicyStore RemoteConfig MachineInfo SourcePolicy.
From S2P Require Import Wire Download Installer World Cycle CycleInv PolicyProps CycleProps Ledger.

(** * A resolution finds the document *)

Section Resolution.
Context {S T : Type}.
Variable wait : duration -> M S bool.
Variable ctx_done : M S bool.
Variable fetch : HTTPSource -> M S (result fetch_error T).
Variable I : S -> Prop.
Variable doc : T.
Hypothesis waits : forall d, triple I (wait d) (fun b s => b = false /\ I s).
Hypothesis goes_on : triple I ctx_done (fun b s => b = false /\ I s).

(** Whatever [s] answers is the document; an [up] source always answers. *)
Definition agrees (s : HTTPSource) : Prop :=
  triple I (fetch s) (fun r x => I x /\ forall d, r = Ok d -> d = doc).
Definition up (s : HTTPSource) : Prop :=
  triple I (fetch s) (fun r x => r = Ok doc /\ I x).

Lemma fetch_up s : agrees s -> triple I (fetch s) (fun r x =>
  (forall d, r = Ok d -> d = doc) /\ (up s -> r = Ok doc) /\ I x).
Proof. intros Ha x Hx. destruct (Ha x Hx). split_and!; [done|intros Hu; apply (Hu x Hx)|done]. Qed.

Lemma primary_loop_up r : agrees r.(Primary) -> forall n b first e,
  triple I (primary_loop wait ctx_done fetch r n b first e) (fun res x =>
    (res.1 = Ok (r.(Primary), doc) \/ res.1 = Err None /\ (up r.(Primary) -> n = O)) /\ I x).
Proof.
  intros Ha. induction n as [|n IH]; intros b first e; cbn [primary_loop].
  { apply triple_ret. intros x Hx. split; [|done]. by right. }
  apply (triple_bind _ _ _ (fun stop x => stop = false /\ I x)).
  { destruct first; [by apply triple_ret|apply waits]. }
  intros stop. apply triple_pure. intros ->. cbv zeta.
  eapply triple_bind; [by apply fetch_up|].
  intros [d|err].
  { apply triple_ret. intros x (Hd & _ & Hx). split; [|done]. left. by rewrite (Hd d eq_refl). }
  apply triple_pure. intros _. apply triple_pure. intros Hu.
  eapply triple_bind; [apply goes_on|]. intros stop. apply triple_pure. intros ->.
  assert (Hn : ~ up r.(Primary)) by (intros H; by specialize (Hu H)).
  destruct (is_not_found err).
  - apply triple_ret. intros x Hx. split; [|done]. by right.
  - eapply triple_weaken; [apply IH|done|]. intros res x [[?|[? ?]] Hx]; (split; [|done]);
      [by left|by right].
Qed.

Lemma fallback_loop_up l : Forall agrees l -> forall e,
  triple I (fallback_loop ctx_done fetch l e) (fun res x => I x /\
    (forall v, res = Ok v -> v.2 = doc) /\ (Exists up l -> exists v, res = Ok v)).
Proof.
  induction 1 as [|s l Hs Hl IH]; intros e; cbn [fallback_loop].
  { apply triple_ret. intros x Hx. split_and!; [done..|]. by intros ?%Exists_nil. }
  eapply triple_bind; [apply goes_on|]. intros stop. apply triple_pure. intros ->.
  eapply triple_bind; [by apply fetch_up|].
  intros [d|err].
  { apply triple_ret. intros x (Hd & _ & Hx). rewrite (Hd d eq_refl). split_and!; [done| |by eexists].
    by intros v [= <-]. }
  apply triple_pure. intros _. apply triple_pure. intros Hu.
  eapply triple_weaken; [apply IH|done|]. intros res x (? & ? & Hex).
  split_and!; [done..|]. intros [Hs'|Hl']%Exists_cons; [by specialize (Hu Hs')|by apply Hex].
Qed.

(** As long as one source of the chain is up and no two disagree, a resolution
    ends with the document, whatever the others do. *)
Lemma resolveWith_up r :
  Forall agrees (r.(Primary) :: r.(Fallbacks)) -> Exists up (r.(Primary) :: r.(Fallbacks)) ->
  triple I (resolveWith wait ctx_done fetch r) (fun res x => I x /\ exists src, res.1 = Ok (src, doc)).
Proof.
  intros [Hp Hf]%Forall_cons Hup. unfold resolveWith. cbv zeta.
  set (attempts := if r_Attempts r <? 1 then 3 else r_Attempts r).
  assert (Hpos : Z.to_nat attempts <> O).
  { subst attempts. destruct (r_Attempts r <? 1) eqn:E; [done|]. apply Z.ltb_ge in E. lia. }
  eapply triple_bind; [by apply primary_loop_up|]. intros [res pe]. cbn [fst].
  apply triple_pure. intros [->|[-> Hn]]; [apply triple_ret; by eauto|].
  eapply triple_bind; [by apply fallback_loop_up|].
  intros res. apply triple_ret. intros x (Hx & Hd & He). split; [done|].
  apply Exists_cons in Hup as [Hu|Hu]; [by specialize (Hn Hu)|].
  destruct (He Hu) as [[src d] ->]. exists src. cbn. by rewrite <-(Hd _ eq_refl).
Qed.
End Resolution.

(** * What the outside has to do *)

(** The disk and the state file work, nothing cancels the cycle, no client
    command is about to restart the service, EMLy exits when asked, and the
    clock stays within the years JSON can write. The other goroutines may still
    do as they like with the commands on record. *)
Record Healthy (env : Env) : Prop := {
  h_disk : forall n, env.(e_fails) n = false;
  h_state : forall n, (env.(e_store) n).(f_read) = false /\ (env.(e_store) n).(f_save) = None;
  h_runs : forall n, env.(e_cancelled) n = false;
  h_idle : forall n, env.(e_destructive) n = false;
  h_exits : forall n, env.(e_exited) n = None;
  h_timely : Timely env
}.

(** The EMLy manifest a reply carries. *)
Definition offers `{VersionLib} (r : reply) : option Manifest :=
  match r with
  | Reply status _ (Some p) =>
      if status =? 200 then
        match Manifest.Parse (limit_body manifestLimit p).(pl_doc) with Ok m => Some m | Err _ => None end
      else None
  | _ => None
  end.

(** The release [t] of manifest [m] can be had: no server of the chain offers
    another manifest, at least one offers this one whenever it is asked, the
    setup is downloaded with the digest the manifest gives, and run it leaves
    EMLy at that version or a newer one. *)
Record Available `{VersionLib, IniLib, Sha256} (env : Env) (cyc : cycleState) (channel : string)
    (m : Manifest) (t : Target) : Prop := {
  av_target : ResolveTarget m channel = Ok t;
  av_agree : forall name n rq m', name ∈ cyc.(cyc_chain) ->
    rq.(rq_url) = ManifestURL cyc.(cyc_eff) name -> offers (env.(e_net) n rq) = Some m' -> m' = m;
  av_up : exists name, name ∈ cyc.(cyc_chain) /\ ManifestURL cyc.(cyc_eff) name <> "" /\
    forall n rq, rq.(rq_url) = ManifestURL cyc.(cyc_eff) name -> offers (env.(e_net) n rq) = Some m;
  av_download : forall n rq, rq.(rq_url) = t.(DownloadRef) -> exists etag p,
    env.(e_net) n rq = Reply 200 etag (Some p) /\ equal_fold (sha256_hex p.(pl_bytes)) t.(tg_SHA256) = true;
  av_setup : forall n path bytes, equal_fold (sha256_hex bytes) t.(tg_SHA256) = true -> exists ini,
    env.(e_setup) n path (Some bytes) = (Exited 0, ini) /\ VerifyInstalled ini t.(tg_Version) = None
}.

(** * Between two steps *)

(** EMLy's config.ini, and the pending install of a state file that reads
    back. *)
Definition at_ini (ini : option string) (p : option Pending) (s : State) (w : World) : Prop :=
  w.(w_ini) = ini /\ s.(st_Pending) = p.

Lemma at_ini_shared ini p : Shared (at_ini ini p).
Proof.
  split; unfold at_ini.
  - by intros s w w' _ ->.
  - by intros s a w _ ?.
  - by intros s [] w.
Qed.

Definition settled (ini : option string) (p : option Pending) : World -> Prop := ledger (at_ini ini p).

(** What reads neither the trace nor the reported failures is quiet. *)
Lemma quiet_free (P : World -> Prop) :
  (forall w w', w'.(w_fs) = w.(w_fs) -> w'.(w_rc) = w.(w_rc) -> w'.(w_ini) = w.(w_ini) -> P w -> P w') ->
  Quiet P.
Proof.
  intros HP. assert (HM : forall t v a c, preserves P (markUpdateFailed t v a c)).
  { intros t v a c. unfold markUpdateFailed. preserve.
    apply preserves_modify. intros w Hw. by apply (HP w). }
  split.
  - intros w w' _ _ ? ? ? Hw. by apply (HP w).
  - intros a w _ Hw. by apply (HP w).
  - done.
  - intros ev. unfold emitUpdateFailed. apply preserves_bind; [apply HM|].
    intros [|]; [|apply preserves_ret]. apply preserves_modify. intros w Hw. by apply (HP w).
Qed.

Lemma quiet_ex {B} (P : B -> World -> Prop) :
  (forall b, Quiet (P b)) -> Quiet (fun w => exists b, P b w).
Proof.
  intros HP. split.
  - intros w w' ? ? ? ? ? [b Hb]. exists b. by eapply (qt_other _ (HP b)).
  - intros a w Ha [b Hb]. exists b. by apply (qt_plain _ (HP b)).
  - intros t v a c w [b Hb]. exists b. by apply (qt_mark _ (HP b)).
  - intros ev w [b Hb]. exists b. by apply (qt_failed _ (HP b)).
Qed.

(** A predicate on the trace that more actions do not falsify. *)
Definition lasting (T : list action -> Prop) : Prop := forall l a, T l -> T (l ++ [a]).

Lemma lasting_stable T : lasting T -> Stable (fun w => T w.(w_trace)).
Proof. intros HT. apply trace_stable. intros l a _. apply HT. Qed.

Lemma settled_quiet ini p : Quiet (settled ini p).
Proof. apply ledger_quiet, at_ini_shared. Qed.
#[export] Hint Resolve settled_quiet : core.

Lemma settled_free ini p : fs_free (settled ini p).
Proof. apply ledger_free, at_ini_shared. Qed.

Definition pending_after (o : op) (p : option Pending) : option Pending :=
  match o with OSetPending q => Some q | OClearPending => None | _ => p end.

Lemma spec_pending o s : (spec_step o s).(st_Pending) = pending_after o s.(st_Pending).
Proof. by destruct o. Qed.

Section Healthy.
Context {versions : VersionLib} {inilib : IniLib} {digest : Sha256}.
Variable env : Env.
Variable cfg : Config.
Variable machine : Info.
Variables downloadsDir selfDownloadsDir logsDir : string.

#[local] Instance progress_network : Network World := cycle_network env.
#[local] Instance progress_fs : FileSystem World := cycle_fs env.

Abbreviation Downloads := (Downloads downloadsDir).

Hypothesis healthy : Healthy env.

(** The updater's own update keeps EMLy and its pending install. *)
Lemma selfUpdate_settled ini p cyc :
  preserves (settled ini p) (selfUpdate env cfg machine selfDownloadsDir cyc).
Proof.
  apply selfUpdate_free; [apply (h_timely env healthy)|apply at_ini_shared|..].
  - intros o s w Ho [? ?]. split; [done|]. by destruct o.
  - by intros s w q bytes v sha a rec [? ?].
Qed.

(** When [selfUpdate] says so, the updater's setup has been launched. *)
Definition launched (l : list action) : Prop :=
  exists path bytes v sha a record, ALaunch path bytes v sha a record ∈ l.

Ltac skip :=
  match goal with
  | |- triple _ (_ ≫= _) _ => apply (triple_bind _ _ _ (fun _ _ => True)); [intros ? ?; exact Logic.I|intros ?]
  end.

Lemma launched_stable : Stable (fun w => launched w.(w_trace)).
Proof.
  apply trace_stable. intros l a _ (q & b & v & sha & n & r & H).
  exists q, b, v, sha, n, r. apply elem_of_app. by left.
Qed.

Lemma launchSetup_launches q m a :
  triple (fun _ => True) (launchSetup env q m a) (fun b w => b = true -> launched w.(w_trace)).
Proof.
  unfold launchSetup. do 2 skip.
  apply (triple_bind _ _ _ (fun _ w => launched w.(w_trace))).
  { intros w _. cbn. repeat eexists. apply elem_of_app. right. by left. }
  intros _. eapply triple_bind; [by apply ask_keeps, stable_quiet, launched_stable|].
  intros [err|]; [|by apply triple_ret].
  repeat skip. by apply triple_ret.
Qed.

Lemma selfUpdate_launches cyc : triple (fun _ => True)
  (selfUpdate env cfg machine selfDownloadsDir cyc) (fun b w => b = true -> launched w.(w_trace)).
Proof.
  unfold selfUpdate, applySelfUpdate, claimAndLaunch. cbv zeta.
  repeat first
    [ skip
    | match goal with
      | |- triple _ (match ?x with _ => _ end) _ => destruct x
      | |- triple _ (mret _) _ => apply triple_ret; intros w _ [=]
      | |- triple _ (launchSetup _ _ _ _) _ => apply launchSetup_launches
      end ].
Qed.

(** ** Finding the release *)

Lemma source_up (I : World -> Prop) url : Quiet I -> triple I (newSource env cfg machine url)
  (fun s w => s.(src_ManifestURL) = url /\ I w).
Proof. intros HQ w Hw. split; [done|]. by apply source_keeps. Qed.

Lemma sources_up (I : World -> Prop) urls : Quiet I ->
  triple I (mapM (M:=M World) (newSource env cfg machine) urls)
    (fun l w => src_ManifestURL <$> l = urls /\ I w).
Proof.
  intros HQ. induction urls as [|u l IH]; [by apply triple_ret|].
  eapply triple_bind; [by apply source_up|]. intros s. apply triple_pure. intros Hs.
  eapply triple_bind; [exact IH|]. intros ss. apply triple_pure. intros Hss.
  apply triple_ret. intros w Hw. split; [|done]. cbn. by rewrite Hs, Hss.
Qed.

Lemma resolver_urls_cons cyc chain : exists u l, resolver_urls cyc chain = u :: l.
Proof. unfold resolver_urls. destruct (omap _ chain); eauto. Qed.

Lemma resolver_asks (I : World -> Prop) cyc : Quiet I ->
  triple I (cycle_resolver env cfg machine cyc) (fun r w =>
    (exists pref, src_ManifestURL <$> (r.(Primary) :: r.(Fallbacks)) =
       resolver_urls cyc (preferredChain cyc pref).1) /\ I w).
Proof.
  intros HQ. unfold cycle_resolver. eapply triple_bind; [apply preserves_gets|]. intros pref.
  unfold newResolver. destruct (preferredChain cyc pref) as [chain p'] eqn:Ec.
  destruct (resolver_urls_cons cyc chain) as (u & l & Eu). cbv zeta. rewrite Eu. cbn [head tail from_opt].
  apply (triple_bind _ _ _ (fun r w =>
    src_ManifestURL <$> (r.1.(Primary) :: r.1.(Fallbacks)) = u :: l /\ I w)).
  - eapply triple_bind; [by apply source_up|]. intros s. apply triple_pure. intros Hs.
    eapply triple_bind; [by apply sources_up|]. intros ss. apply triple_pure. intros Hss.
    apply triple_ret. intros w Hw. split; [|done]. cbn in *. by rewrite Hs, Hss.
  - intros res. apply triple_pure. intros Hr. eapply triple_bind; [by apply quiet_change|].
    intros u0. apply triple_ret. intros w Hw. split; [|done]. exists pref. rewrite Ec. cbn [fst]. by rewrite Eu.
Qed.

Lemma fetch_answer (I : World -> Prop) s : Quiet I ->
  triple I (FetchManifest s) (fun r w =>
    (exists n rq, rq.(rq_url) = s.(src_ManifestURL) /\
       offers (env.(e_net) n rq) = match r with Ok d => Some d | Err _ => None end) /\ I w).
Proof.
  intros HQ w Hw. assert (Hk : preserves I (FetchManifest s)).
  { unfold FetchManifest. apply preserves_bind; [by apply getJSON_keeps|]. intros. apply preserves_ret. }
  split; [|by apply Hk]. clear Hk.
  unfold FetchManifest, getJSON, do_request, progress_network, cycle_network, world_network, act, modify, tick,
    mbind, M_bind, mret, M_ret. cbn.
  exists w.(w_tick), (mkRequest (src_ManifestURL s) (applyHeaders s)). split; [done|].
  destruct (e_net env _ _) as [e|status et [p|]]; cbn.
  - done.
  - destruct (status =? 404) eqn:E4; [apply Z.eqb_eq in E4 as ->; done|].
    destruct (status =? 200); [|done]. cbn. by destruct (Manifest.Parse _).
  - by destruct (status =? 404), (status =? 200).
Qed.

Variable cyc : cycleState.
Variable channel : string.
Variable m : Manifest.
Variable t : Target.
Hypothesis available : Available env cyc channel m t.

(** The servers asked are those of the chain, and the one that is up is among
    them. *)
Lemma asked_servers pref :
  let urls := resolver_urls cyc (preferredChain cyc pref).1 in
  (forall u, u ∈ urls -> exists name, name ∈ cyc.(cyc_chain) /\ u = ManifestURL cyc.(cyc_eff) name) /\
  exists name, name ∈ cyc.(cyc_chain) /\ ManifestURL cyc.(cyc_eff) name ∈ urls /\
    forall n rq, rq.(rq_url) = ManifestURL cyc.(cyc_eff) name -> offers (env.(e_net) n rq) = Some m.
Proof.
  destruct (av_up _ _ _ _ _ available) as (name & Hin & Hne & Hup).
  pose proof (preferredChain_spec cyc pref) as H. destruct (preferredChain cyc pref) as [chain p'].
  destruct H as (Hp & _); [by intros E; rewrite E in Hin; apply elem_of_nil in Hin|].
  unfold resolver_urls. cbn [fst].
  set (f := fun name => let url := ManifestURL cyc.(cyc_eff) name in if url =s "" then None else Some url).
  assert (Hf : f name = Some (ManifestURL cyc.(cyc_eff) name)).
  { unfold f. apply str_eqb_neq in Hne. by rewrite Hne. }
  assert (Hn : ManifestURL cyc.(cyc_eff) name ∈ omap f chain).
  { apply list_elem_of_omap. exists name. split; [by rewrite Hp|done]. }
  destruct (omap f chain) as [|u l] eqn:Eo; [by apply elem_of_nil in Hn|]. cbv zeta. rewrite <-Eo in *. split.
  - intros x (nm & Hnm & Hx)%list_elem_of_omap. exists nm. rewrite <-Hp. split; [done|].
    unfold f in Hx. cbv zeta in Hx. by destruct (_ =s ""); simplify_eq.
  - by exists name.
Qed.

Lemma resolve_up (I : World -> Prop) : Quiet I ->
  triple I (resolveTarget env cfg machine cyc channel) (fun r w =>
    (exists src, r = Ok (src, m, t)) /\ I w).
Proof.
  intros HQ. unfold resolveTarget, resolveTargetWith.
  eapply triple_bind; [by apply resolver_asks|]. intros r. apply triple_pure. intros [pref Hurls].
  destruct (asked_servers pref) as [Hall (name & Hin & Hask & Hup)]. rewrite <-Hurls in Hall, Hask.
  apply (triple_bind _ _ _ (fun res w => (exists src, res.1 = Ok (src, m)) /\ I w)).
  - unfold Resolve. eapply triple_weaken; [apply (resolveWith_up _ _ _ I m)|done|by intros ? ? [? ?]].
    + intros d w Hw. split; [apply (h_runs env healthy)|]. exact (ask_keeps I HQ _ w Hw).
    + intros w Hw. split; [apply (h_runs env healthy)|]. exact (ask_keeps I HQ _ w Hw).
    + apply Forall_forall. intros s Hs. unfold agrees.
      eapply triple_weaken; [by apply fetch_answer|done|]. intros x w [(n & rq & Hrq & Ho) Hw].
      split; [done|]. intros d ->. destruct (Hall s.(src_ManifestURL)) as (nm & Hnm & Hu).
      { apply list_elem_of_fmap. by exists s. }
      eapply (av_agree _ _ _ _ _ available nm); [done| |exact Ho]. congruence.
    + apply list_elem_of_fmap in Hask as (s & Hs & Hin'). apply Exists_exists. exists s. split; [done|].
      unfold up. eapply triple_weaken; [by apply fetch_answer|done|]. intros x w [(n & rq & Hrq & Ho) Hw].
      split; [|done]. rewrite Hup in Ho by congruence. by destruct x; simplify_eq.
  - intros [res pe]. apply triple_pure. intros [src E]. cbn in E. subst res.
    apply (triple_bind _ _ _ (fun _ => I)); [by apply preserves_when, note_keeps|]. intros ?.
    apply triple_ret. intros w Hw. rewrite (av_target _ _ _ _ _ available). by eauto.
Qed.

(** ** Downloading and running it *)

Lemma checksum_given : t.(tg_SHA256) =s "" = false.
Proof. apply str_eqb_neq. by apply (ResolveTarget_checksum m channel t (av_target _ _ _ _ _ available)). Qed.

Lemma verify_passes path sha w : verified path sha w.(w_fs) -> (VerifyFile path sha w).1 = None.
Proof.
  intros (bytes & Hb & Hv & Hne). unfold VerifyFile, os_fails, gets, mbind, M_bind, mret, M_ret.
  apply str_eqb_neq in Hne. rewrite Hne. cbn. unfold ask, tick, mbind, M_bind, mret, M_ret. cbn.
  by rewrite Hb, (h_disk env healthy), Hv.
Qed.

Lemma fetch_up_ok src dest : triple (fun _ => True) (FetchSetup src t dest) (fun r w =>
  r = None /\ verified dest t.(tg_SHA256) w.(w_fs)).
Proof.
  intros w _. unfold FetchSetup, do_request, progress_network, cycle_network, world_network, os_fails,
    broken_transfer, on_files. cbn. unfold act, modify, ask, tick, gets, mbind, M_bind, mret, M_ret. cbn.
  destruct (av_download _ _ _ _ _ available w.(w_tick) (mkRequest (DownloadRef t) (applyHeaders src)) eq_refl)
    as (et & p & -> & Hp).
  cbn. rewrite !(h_disk env healthy). cbn. split; [done|]. exists (pl_bytes p).
  rewrite lookup_insert_eq. split_and!; [done..|]. apply str_eqb_neq, checksum_given.
Qed.

Lemma disk_up (P : World -> Prop) : Quiet P -> triple P os_fails (fun b w => b = false /\ P w).
Proof. intros HQ w Hw. split; [apply (h_disk env healthy)|]. exact (ask_keeps P HQ _ w Hw). Qed.

Lemma verify_up path sha : let V w := verified path sha w.(w_fs) in
  triple V (VerifyFile path sha) (fun r w => r = None /\ V w).
Proof.
  intros V w Hw. split; [by apply verify_passes|].
  pose proof (VerifyFile_to path sha w.(w_fs) w eq_refl) as [H _]. cbn in H. unfold V. by rewrite H.
Qed.

Lemma rename_up from to sha : triple (fun w => verified from sha w.(w_fs)) (rename_file from to)
  (fun bad _ => bad = false).
Proof.
  unfold rename_file. eapply triple_bind; [apply disk_up, stable_quiet, (fs_stable (verified from sha))|].
  intros fails. apply triple_pure. intros ->. intros w (b & Hb & _).
  unfold gets, on_files, modify, mbind, M_bind, mret, M_ret. cbn. by rewrite Hb.
Qed.

Lemma Ensure_up (I : World -> Prop) mgr src : Quiet I -> fs_free I ->
  triple I (Ensure mgr src t) (fun r w => r = Ok (SetupPath mgr t.(tg_Version)) /\ I w /\
    verified (SetupPath mgr t.(tg_Version)) t.(tg_SHA256) w.(w_fs)).
Proof.
  intros HQ HF. assert (H : triple (fun _ => True) (Ensure mgr src t)
    (fun r _ => r = Ok (SetupPath mgr t.(tg_Version)))).
  { unfold Ensure. eapply triple_bind; [apply (disk_up (fun _ => True)); by apply quiet_free|].
    intros fails. apply triple_pure. intros ->. cbv zeta. skip.
    destruct a as [e|]; [|by apply triple_ret]. skip.
    eapply triple_bind; [apply fetch_up_ok|]. intros f. apply triple_pure. intros ->.
    apply (triple_bind _ _ _ (fun r _ => r = Ok (SetupPath mgr t.(tg_Version)))).
    - eapply triple_bind; [apply verify_up|]. intros v. apply triple_pure. intros ->.
      eapply triple_bind; [apply rename_up|]. intros bad. apply triple_ret. by intros w ->.
    - intros r. apply (triple_bind _ _ _ (fun _ _ => r = Ok (SetupPath mgr t.(tg_Version)))).
      + by intros w ->.
      + intros ?. by apply triple_ret. }
  intros w Hw. pose proof (H w Logic.I) as Hr. split; [exact Hr|]. split; [exact (Ensure_keeps env I HQ HF mgr src t w Hw)|].
  pose proof (Ensure_to mgr src t w.(w_fs) w eq_refl) as (_ & _ & Hv).
  destruct (Hv _ Hr) as [_ ?]. done.
Qed.

(** The setup of the release has run. *)
Definition installed_by (l : list action) : Prop :=
  exists path bytes, ASetup path (Some bytes) t.(tg_Version) t.(tg_SHA256) ∈ l /\
    equal_fold (sha256_hex bytes) t.(tg_SHA256) = true.

(** EMLy is at the release, [p] is pending and the trace satisfies [T]. *)
Definition arrived (T : list action -> Prop) (p : option Pending) (w : World) : Prop :=
  exists ini, VerifyInstalled ini t.(tg_Version) = None /\ settled ini p w /\ T w.(w_trace).

Lemma arrived_quiet T p : lasting T -> Quiet (arrived T p).
Proof.
  intros HT. apply quiet_ex. intros ini. apply quiet_and; [by apply quiet_free|].
  apply quiet_and; [apply settled_quiet|]. by apply stable_quiet, lasting_stable.
Qed.

Lemma arrived_free T p : fs_free (arrived T p).
Proof. by intros d w Hw. Qed.

Lemma setup_up p ini q : p.(pd_Version) = t.(tg_Version) -> p.(pd_SHA256) = t.(tg_SHA256) ->
  triple (fun w => settled ini q w /\ verified p.(pd_SetupPath) p.(pd_SHA256) w.(w_fs))
    (runSetupAndVerify env logsDir p) (fun e w => e = None /\ arrived installed_by q w).
Proof.
  intros Hv Hs w [(s & Hh & Hn & Hi & Hp) (bytes & Hb & Hd & _)]. rewrite Hs in Hd.
  destruct (av_setup _ _ _ _ _ available w.(w_tick) p.(pd_SetupPath) bytes Hd) as (ini' & He & Hok).
  unfold runSetupAndVerify, act, modify, gets, tick, mbind, M_bind, mret, M_ret. cbn.
  rewrite Hb, He. cbn. split; [by rewrite Hv|]. exists ini'.
  split; [done|]. split; [by exists s|].
  cbn. exists p.(pd_SetupPath), bytes. split; [|done]. rewrite Hv, Hs. apply elem_of_app. right. by left.
Qed.

(** ** The state file *)

Lemma store_up o ini p J : op_fits o -> Stable J ->
  triple (fun w => settled ini p w /\ J w) (store env (fun f => run_op f o))
    (fun e w => e = None /\ settled ini (pending_after o p) w /\ J w).
Proof.
  intros Ho HJ. unfold store.
  apply (triple_bind _ _ _ (fun _ w => settled ini p w /\ J w)).
  { apply preserves_and; [|by apply others_keeps].
    apply others_ledger; [apply (h_timely env healthy)|apply at_ini_shared]. }
  intros u w [(s & Hh & Hn & Hi & Hs) Hw].
  unfold access, ask, tick, gets, on_rc, modify, mbind, M_bind, mret, M_ret.
  cbn. destruct (h_state env healthy w.(w_tick)) as [Hr Hf].
  assert (E : run_op (e_store env (w_tick w)) o (rc_dir (w_rc w)) =
    saveLocked (e_store env (w_tick w)) (spec_step o s) (rc_dir (w_rc w))).
  { rewrite run_op_update. unfold update. by rewrite (holds_load _ _ s Hh Hr). }
  rewrite E. pose proof (no_tmp_save (e_store env (w_tick w)) _ (spec_step o s) Hn) as Hn'.
  assert (Hfit : state_fits (spec_step o s)) by (apply spec_step_fits; [done|apply Hh]).
  destruct (save_holds (e_store env (w_tick w)) _ s (spec_step o s) Hh Hn Hfit) as [[_ Hh']|[He _]].
  - unfold saveLocked in *. rewrite Hf in *. cbn in *. split; [done|]. split; [|by apply (st_other J HJ w)].
    exists (spec_step o s). do 2 (split; [done|]). split; [done|]. by rewrite spec_pending, Hs.
  - unfold saveLocked in He. by rewrite Hf in He.
Qed.

Lemma clear_up T p : lasting T ->
  triple (arrived T p) (store env ClearPending) (fun _ => arrived T None).
Proof.
  intros HT w (ini & Hv & Hs & Ht).
  destruct (store_up OClearPending ini p (fun w => T w.(w_trace)) Logic.I (lasting_stable T HT) w (conj Hs Ht))
    as (_ & Hs' & Ht').
  by exists ini.
Qed.

(** ** Installing *)

Definition reported (l : list action) : Prop :=
  exists ev, AEmit EvtUpdateApplied ev ∈ l /\ ev.(ToVersion) = t.(tg_Version).

(** The release is installed and reported. *)
Definition done_ (l : list action) : Prop := installed_by l /\ reported l.

Lemma installed_grows : lasting installed_by.
Proof. intros l a (q & b & H & Hd). exists q, b. split; [|done]. apply elem_of_app. by left. Qed.
Lemma done_grows : lasting done_.
Proof.
  intros l a [H1 (ev & H & Hv)]. split; [by apply installed_grows|]. exists ev. split; [|done].
  apply elem_of_app. by left.
Qed.

Lemma finish_up p q from started b : p.(pd_Version) = t.(tg_Version) ->
  triple (arrived installed_by q) (finishInstall env downloadsDir p from started b)
    (fun _ => arrived done_ None).
Proof.
  intros Hv. unfold finishInstall.
  pose proof (arrived_quiet _ q installed_grows) as Q1. pose proof (arrived_quiet _ q done_grows) as Q2.
  pose proof (arrived_quiet _ None done_grows) as Q3.
  eapply triple_bind; [by apply ask_keeps|]. intros now.
  apply (triple_bind _ _ _ (fun _ => arrived done_ q)).
  { intros w (ini & H1 & H2 & H3). exists ini. do 2 (split; [done|]). split; [by apply installed_grows|].
    eexists. split; [apply elem_of_app; right; by left|done]. }
  intros ?. eapply triple_bind; [by apply toast_keeps|]. intros ?.
  eapply triple_bind; [apply clear_up, done_grows|]. intros ?.
  apply (triple_bind _ _ _ (fun _ => arrived done_ None));
    [by apply Cleanup_keeps; [|apply arrived_free]|]. intros ?.
  by apply quiet_act.
Qed.

Section Apply.
Variable p : Pending.
Variable ini : option string.
Variable q : option Pending.
Hypothesis same_version : p.(pd_Version) = t.(tg_Version).
Hypothesis same_digest : p.(pd_SHA256) = t.(tg_SHA256).

(** The pending install is of the release, and its setup is there. *)
Definition ready (w : World) : Prop :=
  settled ini q w /\ verified p.(pd_SetupPath) p.(pd_SHA256) w.(w_fs).

Lemma ready_quiet : Quiet ready.
Proof.
  apply quiet_and; [apply settled_quiet|].
  apply stable_quiet, (fs_stable (verified p.(pd_SetupPath) p.(pd_SHA256))).
Qed.

Lemma verify_ready : triple ready (VerifyFile p.(pd_SetupPath) p.(pd_SHA256)) (fun r w => r = None /\ ready w).
Proof.
  intros w [Hs Hv]. destruct (verify_up _ _ w Hv) as [Hr Hv']. split; [done|]. split; [|done].
  exact (verify_keeps env _ (settled_quiet ini q) _ _ w Hs).
Qed.

Lemma installBody_up emly : triple ready
  (installBody env cfg machine downloadsDir logsDir cyc p emly) (fun e w => e = None /\ arrived done_ None w).
Proof.
  pose proof ready_quiet as HQ. unfold installBody. cbv zeta.
  eapply triple_bind; [apply verify_ready|]. intros v. apply triple_pure. intros ->.
  eapply triple_bind; [by apply ask_keeps|]. intros started.
  apply (triple_bind _ _ _ (fun _ => ready)); [apply preserves_gets|]. intros trigger.
  eapply triple_bind; [by apply emit_keeps|]. intros u.
  eapply triple_bind; [by apply setup_up|]. intros e. apply triple_pure. intros ->.
  eapply triple_bind; [by apply finish_up|]. intros u'. by apply triple_ret.
Qed.

Lemma install_up emly : triple ready
  (install env cfg machine downloadsDir logsDir cyc p emly) (fun e w => e = None /\ arrived done_ None w).
Proof.
  pose proof ready_quiet as HQ. unfold install.
  apply (triple_bind _ _ _ (fun b w => b = true /\ ready w)).
  { intros w Hw. split; [|exact (begin_keeps env _ HQ w Hw)]. unfold beginInstall, ask, tick, mbind, M_bind, mret, M_ret.
    cbn. by rewrite (h_idle env healthy). }
  intros b. apply triple_pure. intros ->. cbn [negb].
  eapply triple_bind; [apply installBody_up|]. intros e. apply triple_pure. intros ->.
  eapply triple_bind; [by apply end_keeps, arrived_quiet, done_grows|]. intros u. by apply triple_ret.
Qed.

(** A question with a known answer. *)
Lemma ask_up {A} (I : World -> Prop) (f : nat -> A) a : Quiet I -> (forall n, f n = a) ->
  triple I (ask f) (fun x w => x = a /\ I w).
Proof. intros HQ Hf w Hw. split; [apply Hf|]. exact (ask_keeps I HQ f w Hw). Qed.

Lemma countdown_up (I : World -> Prop) : Quiet I ->
  triple I (countdown env cyc) (fun stop w => stop = false /\ I w).
Proof.
  intros HQ. unfold countdown. cbv zeta. destruct (negb _); [by apply triple_ret|].
  eapply triple_bind; [by apply ask_keeps|]. intros [|]; [|by apply triple_ret].
  eapply triple_bind; [by apply quiet_act|]. intros u. apply ask_up; [done|]. apply (h_runs env healthy).
Qed.

Lemma apply_up emly : triple ready
  (apply_ env cfg machine downloadsDir logsDir cyc p emly) (fun e w => e = None /\ arrived done_ None w).
Proof.
  pose proof ready_quiet as HQ. unfold apply_, destructivePendingNow.
  assert (Hidle : triple ready (ask env.(e_destructive)) (fun x w => x = false /\ ready w))
    by (apply ask_up; [done|apply (h_idle env healthy)]).
  eapply triple_bind; [exact Hidle|]. intros b. apply triple_pure. intros ->.
  eapply triple_bind; [by apply ask_keeps|]. intros [|]; cbn [negb]; [|apply install_up].
  destruct (pd_Forced p).
  - eapply triple_bind; [by apply countdown_up|]. intros b. apply triple_pure. intros ->.
    eapply triple_bind; [exact Hidle|]. intros b. apply triple_pure. intros ->.
    eapply triple_bind; [by apply quiet_act|]. intros u. apply install_up.
  - eapply triple_bind; [by apply quiet_act|]. intros u.
    eapply triple_bind; [by apply quiet_act|]. intros u'.
    eapply triple_bind; [apply ask_up; [done|apply (h_exits env healthy)]|].
    intros e. apply triple_pure. intros ->. apply install_up.
Qed.
End Apply.

(** ** The cycle *)

Lemma load_up ini q : triple (settled ini q) (load_state env) (fun r w =>
  (exists st, r = Ok st /\ st.(st_Pending) = q) /\ settled ini q w).
Proof.
  unfold load_state. eapply triple_bind.
  { apply others_ledger; [apply (h_timely env healthy)|apply at_ini_shared]. }
  intros u w Hw. split; [|exact (read_keeps env _ (settled_quiet ini q) w Hw)].
  destruct Hw as (s & Hh & Hn & Hi & Hs).
  unfold read_state, ask, tick, gets, mbind, M_bind, mret, M_ret. cbn. exists s.
  split; [|done]. apply holds_load; [done|]. apply (h_state env healthy).
Qed.

Lemma clear_settled ini q : triple (settled ini q) (store env ClearPending) (fun _ => settled ini None).
Proof.
  intros w Hw. assert (HT : Stable (fun _ => True)) by by apply (fs_stable (fun _ => True)).
  by destruct (store_up OClearPending ini q _ Logic.I HT w (conj Hw Logic.I)) as (_ & ? & _).
Qed.

Section Installed.
Variable emly : EMLyInfo.
Variable ini : option string.
Hypothesis same_channel : emly.(ei_Channel) = channel.

Lemma resume_up q :
  (forall p, q = Some p -> Less emly.(InstalledVersion) p.(pd_Version) = Ok true ->
     p.(pd_Version) = t.(tg_Version) /\ p.(pd_SHA256) = t.(tg_SHA256)) ->
  triple (settled ini q) (resumePending env cfg machine downloadsDir logsDir cyc emly) (fun r w =>
    match r with
    | Some e => e = None /\ arrived done_ None w
    | None => exists q', settled ini q' w
    end).
Proof.
  intros Hp. unfold resumePending. eapply triple_bind; [apply load_up|]. intros r.
  apply triple_pure. intros (st & -> & Hst). rewrite Hst.
  destruct q as [p|]; [|apply triple_ret; by eauto]. clear st Hst.
  assert (Hclear : forall q', triple (settled ini q') (store env ClearPending ;; mret None)
    (fun (r : option (option string)) w => match r with
       | Some e => e = None /\ arrived done_ None w | None => exists q', settled ini q' w end)).
  { intros q'. eapply triple_bind; [apply clear_settled|]. intros u. apply triple_ret. by eauto. }
  destruct (Less _ _) as [[]|] eqn:E; [|eapply triple_bind; [apply clear_settled|]; intros u;
    eapply triple_bind; [by apply Cleanup_keeps; [|apply settled_free]|]; intros u'; apply triple_ret; by eauto
    |apply Hclear].
  destruct (Hp p eq_refl E) as [Hv Hs]. clear Hp.
  apply (triple_bind _ _ _ (fun r w => match r with None => ready p ini (Some p) w | Some _ => settled ini (Some p) w end)).
  { intros w Hw. pose proof (verify_keeps env _ (settled_quiet ini (Some p)) p.(pd_SetupPath) p.(pd_SHA256) w Hw) as H1.
    pose proof (VerifyFile_to p.(pd_SetupPath) p.(pd_SHA256) (w_fs w) w eq_refl) as [H2 H3].
    destruct (VerifyFile _ _ w) as [[e|] w']; cbn [fst snd] in *; [done|].
    split; [done|]. unfold get_files in H2. cbn in H2. rewrite H2. by apply H3. }
  intros [e|].
  - eapply triple_bind; [by apply remove_keeps; [|apply settled_free]|]. intros u. apply Hclear.
  - eapply triple_bind; [by apply quiet_change; [apply ready_quiet|]|]. intros u.
    eapply triple_bind; [by apply apply_up|]. intros e. by apply triple_ret.
Qed.

Lemma poll_up q forced : Less emly.(InstalledVersion) t.(tg_Version) = Ok true ->
  Manifest.Forced m emly.(InstalledVersion) = Ok forced ->
  triple (settled ini q) (poll env cfg machine downloadsDir logsDir cyc emly)
    (fun e w => e = None /\ arrived done_ None w).
Proof.
  intros HL HF. unfold poll. rewrite same_channel.
  eapply triple_bind; [by apply resolve_up|]. intros r. apply triple_pure. intros (src & ->).
  eapply triple_bind; [by apply quiet_change|]. intros u. rewrite HL, HF.
  eapply triple_bind; [by apply ask_keeps|]. intros running.
  eapply triple_bind; [by apply ask_keeps|]. intros now.
  eapply triple_bind; [by apply announce_keeps|]. intros u'.
  eapply triple_bind; [by apply Ensure_up; [|apply settled_free]|]. intros e. apply triple_pure. intros ->.
  set (path := SetupPath _ _). set (V := fun w => verified path t.(tg_SHA256) w.(w_fs)).
  assert (HV : Stable V) by apply (fs_stable (verified path t.(tg_SHA256))).
  apply (triple_bind _ _ _ (fun now w => 0 <= now < max_time /\ settled ini q w /\ V w)).
  { intros w Hw. split; [apply (t_clock env (h_timely env healthy))|].
    exact (ask_keeps _ (quiet_and _ _ (settled_quiet ini q) (stable_quiet _ HV)) _ w Hw). }
  intros at_. apply triple_pure. intros Hat. cbv zeta.
  set (p := mkPending t.(tg_Version) path t.(tg_SHA256) forced at_).
  eapply triple_bind; [apply (store_up (OSetPending p) ini q V); [exact Hat|done]|]. intros e.
  apply triple_pure. intros ->. by apply (apply_up p ini (Some p)).
Qed.
End Installed.
End Healthy.

Section Progress.
Context {versions : VersionLib} {inilib : IniLib} {digest : Sha256}.
Variable env : Env.
Variable cfg : Config.
Variable machine : Info.
Variables downloadsDir selfDownloadsDir logsDir : string.

Abbreviation Cycle_ := (Cycle_ env cfg machine downloadsDir selfDownloadsDir logsDir).

(** C3: the service makes progress. In a healthy environment, when the
    servers that answer offer a release newer than the installed one and its
    setup can be had, one cycle of an enabled updater ends without an error and
    has either launched the updater's own setup or brought EMLy to that
    release: config.ini reports it, the setup that ran had the manifest's
    digest, the update was reported as applied and no install is left pending
    - whatever the cache, the preference, the other servers of the chain and
    the self-update do, whether EMLy is running or not, and also when an
    earlier cycle had already queued that release. *)
Theorem cycle_progress (cyc : cycleState) (m : Manifest) (t : Target) (w : World) (s : State) :
  let emly := ResolveEMLyWithChannel w.(w_ini) (Channel cyc.(cyc_eff).(Doc).(doc_Updater)) in
  Healthy env -> Available env cyc emly.(ei_Channel) m t ->
  (UpdaterEnabled cyc.(cyc_eff) cyc.(cyc_host).(h_Now)).1 = true ->
  Less emly.(InstalledVersion) t.(tg_Version) = Ok true ->
  is_ok (Manifest.Forced m emly.(InstalledVersion)) = true ->
  holds w.(w_rc).(rc_dir) s -> no_tmp w.(w_rc).(rc_dir) ->
  (forall p, s.(st_Pending) = Some p -> Less emly.(InstalledVersion) p.(pd_Version) = Ok true ->
     p.(pd_Version) = t.(tg_Version) /\ p.(pd_SHA256) = t.(tg_SHA256)) ->
  w.(w_trace) = [] ->
  let '(err, w') := Cycle_ cyc w in
  err = None /\
  (launched w'.(w_trace) \/
   VerifyInstalled w'.(w_ini) t.(tg_Version) = None /\
   (exists s', holds w'.(w_rc).(rc_dir) s' /\ s'.(st_Pending) = None) /\
   installed_by t w'.(w_trace) /\ reported t w'.(w_trace)).
Proof.
  intros emly Hh Ha Hen HL HF Hs Hn Hp _.
  set (Q := fun (e : option string) w => e = None /\ (launched w.(w_trace) \/ arrived t (done_ t) None w)).
  assert (H : triple (fun w' => w' = w) (Cycle_ cyc) Q).
  2: { specialize (H w eq_refl). destruct (Cycle_ cyc w) as [err w'].
       unfold Q in H. cbn [fst snd] in H. destruct H as [-> H]. split; [done|].
       destruct H as [?|(ini & Hv & (s' & H1 & _ & Hi & H2) & H3 & H4)]; [by left|right].
       rewrite Hi. split; [done|]. split; [by exists s'|done]. }
  set (q := s.(st_Pending)) in *. set (ini := w.(w_ini)) in *.
  unfold Cycle.Cycle_, destructivePendingNow.
  apply (triple_bind _ _ _ (fun _ w' => w' = w)); [by intros ? ->|]. intros reason. cbv zeta.
  apply (triple_bind _ _ _ (fun _ => settled ini q)).
  { intros ? ->. by exists s. }
  intros u. eapply triple_bind; [by apply preserves_when, quiet_act|]. intros u'.
  apply (triple_bind _ _ _ (fun rc w' => rc = w'.(w_rc) /\ settled ini q w')); [by intros w' ?|]. intros rc.
  unfold applyControlGate. destruct (UpdaterEnabled _ _) as [en why]. cbn in Hen. subst en. cbn [negb andb].
  apply (triple_bind _ _ _ (fun _ => settled ini q)).
  { intros w' [-> (s' & ? & ? & ?)]. exists s'. by destruct (paused (w_rc w')). }
  intros u1. eapply triple_bind; [apply ask_up; [done|apply (h_idle env Hh)]|]. intros b.
  apply triple_pure. intros ->.
  apply (triple_bind _ _ _ (fun b w' =>
    if (b : bool) then launched w'.(w_trace) else settled ini q w')).
  { intros w' Hw. pose proof (selfUpdate_launches env cfg machine selfDownloadsDir cyc w' Logic.I) as Hl.
    pose proof (selfUpdate_settled env cfg machine selfDownloadsDir Hh ini q cyc w' Hw) as Hk.
    destruct (selfUpdate _ _ _ _ cyc w') as [[|] w1]; [by apply Hl|exact Hk]. }
  intros [|]; [apply triple_ret; intros w' Hl; split; [done|by left]|].
  apply (triple_bind _ _ _ (fun i w' => i = ini /\ settled ini q w')); [by intros w' Hw; split; [destruct Hw as (? & _ & _ & ? & _)|]|].
  intros i. apply triple_pure. intros ->. fold emly.
  eapply triple_bind; [by eapply resume_up|]. intros [e|].
  - apply triple_ret. intros w' [-> ?]. split; [done|by right].
  - apply triple_ex. intros q'. destruct (Forced m (InstalledVersion emly)) as [forced|] eqn:EF; [|done].
    eapply triple_weaken; [by eapply poll_up|done|]. intros e w' [-> ?]. split; [done|by right].
Qed.
End Progress.

(** * The first server is down, the second serves *)

Module Healthy_example.
Import Scenario.
#[local] Existing Instance toy_ini.
#[local] Existing Instance toy_digest.
#[local] Existing Instance Dotted.lib.

Definition lan_down (n : nat) (rq : Request) : reply :=
  if has_prefix rq.(rq_url) "http://10.20." then NoReply "no route" else network n rq.

(** EMLy is running, and exits when asked. *)
Definition env : Env :=
  let e := env_of lan_down "2.0.0" in
  mkEnv (fun _ => Fixture.now + 72 * hour) e.(e_fails) e.(e_part) e.(e_store) Shared_example.env.(e_others) e.(e_net) e.(e_cancelled) (fun _ => true)
    e.(e_warned) e.(e_exited) (fun _ => false) e.(e_setup) e.(e_uninstall) e.(e_toast) e.(e_signed)
    e.(e_launch) e.(e_session).

Definition m : Manifest :=
  from_opt (zero : Manifest) (offers (network 0 (mkRequest "https://api.example.com/v2/updates/manifest" []))).
Definition t : Target := mkTarget "2.0.0" "https://dl/2.0.0.exe" setup.

Lemma env_healthy : Healthy env.
Proof. split; try done. split; [done|]. apply (t_others _ Shared_example.env_timely). Qed.

Lemma env_offers n url headers : offers (lan_down n (mkRequest url headers)) =
  offers (lan_down 0 (mkRequest url [])).
Proof. done. Qed.

Lemma env_available : Available env cyc "stable" m t.
Proof.
  assert (Hc : cyc.(cyc_chain) = ["lan"; "main"]) by (vm_compute; reflexivity).
  assert (Hl : ManifestURL cyc.(cyc_eff) "lan" = "http://10.20.0.5:8080/emly/v2/updates/manifest")
    by (vm_compute; reflexivity).
  assert (Hm : ManifestURL cyc.(cyc_eff) "main" = "https://api.example.com/v2/updates/manifest")
    by (vm_compute; reflexivity).
  split.
  - vm_compute. reflexivity.
  - rewrite Hc. intros name n [url hs] m' Hin Hurl Ho. cbn [rq_url] in Hurl. cbn [e_net env] in Ho.
    rewrite (env_offers n) in Ho.
    apply elem_of_cons in Hin as [->|Hin].
    + rewrite Hl in Hurl. subst url. vm_compute in Ho. discriminate.
    + apply list_elem_of_singleton in Hin as ->. rewrite Hm in Hurl. subst url.
      assert (E : offers (lan_down 0 (mkRequest "https://api.example.com/v2/updates/manifest" [])) = Some m)
        by (vm_compute; reflexivity).
      congruence.
  - exists "main". rewrite Hc, Hm. split_and!; [right; by left|done|]. intros n [url hs] Hurl. cbn [rq_url] in Hurl.
    subst url. cbn [e_net env]. rewrite (env_offers n). vm_compute. reflexivity.
  - intros n [url hs] Hurl. cbn in Hurl. subst url. do 2 eexists. split; [vm_compute; reflexivity|].
    vm_compute. reflexivity.
  - intros n path bytes _. exists (Some "2.0.0"). split; [reflexivity|vm_compute; reflexivity].
Qed.
End Healthy_example.

Import Scenario.
#[local] Existing Instance toy_ini.
#[local] Existing Instance toy_digest.
#[local] Existing Instance Dotted.lib.

Lemma cycle_progress_witness :
  (Cycle_ Healthy_example.env ex_config machine "D" "U" "L" cyc w0).2.(w_ini) = Some "2.0.0" /\
  let '(err, w) := Cycle_ Healthy_example.env ex_config machine "D" "U" "L" cyc w0 in
  err = None /\
  (launched w.(w_trace) \/
   VerifyInstalled w.(w_ini) "2.0.0" = None /\
   (exists s', holds w.(w_rc).(rc_dir) s' /\ s'.(st_Pending) = None) /\
   installed_by Healthy_example.t w.(w_trace) /\ reported Healthy_example.t w.(w_trace)).
Proof.
  split; [vm_compute; reflexivity|].
  apply (cycle_progress Healthy_example.env ex_config machine "D" "U" "L" cyc Healthy_example.m
    Healthy_example.t w0 empty_state).
  - apply Healthy_example.env_healthy.
  - apply Healthy_example.env_available.
  - vm_compute. reflexivity.
  - vm_compute. reflexivity.
  - vm_compute. reflexivity.
  - split; [split_and!; done|]. left. split; [vm_compute; reflexivity|done].
  - intros r. apply lookup_empty.
  - intros p Hp. cbn in Hp. discriminate Hp.
  - reflexivity.
Defined.
