(* ===== verification/Conc.v ===== *)
(** Concurrent programs. A [prog] is a thread as the atomic sections it goes
    through - what one holds a mutex for, or one atomic load or store - so that
    a handler is written once, in the order of the code, and read in two ways:
    [run] executes it alone, and [cstep] interleaves a pool of threads, one
    section at a time, with moves of the environment in between and new
    threads arriving.

    [follows] is a protocol: a thread-local token that every section may change
    as the relation [rel] allows. [protocol_invariant] turns a relation between
    the tokens of all threads and the shared state into an invariant of every
    interleaving. *)
From S2P Require Import Prelude.

Inductive prog (S A : Type) : Type :=
| Done (a : A)
| Act {X : Type} (f : M S X) (k : X -> prog S A).
Arguments Done {S A} _.
Arguments Act {S A X} _ _.

Fixpoint prog_bind {S A B} (f : A -> prog S B) (p : prog S A) : prog S B :=
  match p with
  | Done a => f a
  | Act g k => Act g (fun x => prog_bind f (k x))
  end.

#[export] Instance prog_ret S : MRet (prog S) := fun A a => Done a.
#[export] Instance prog_mbind S : MBind (prog S) := fun A B f p => prog_bind f p.

(** One atomic section. *)
Definition atomic {S X} (f : M S X) : prog S X := Act f Done.

Definition pwhen {S} (b : bool) (p : prog S unit) : prog S unit := if b then p else mret tt.

(** The thread on its own. *)
Fixpoint run {S A} (p : prog S A) : M S A :=
  match p with
  | Done a => mret a
  | Act f k => x ← f; run (k x)
  end.

Lemma run_bind {S A B} (p : prog S A) (f : A -> prog S B) s :
  run (p ≫= f) s = (let '(a, s') := run p s in run (f a) s').
Proof.
  revert s. induction p as [a|X g k IH]; intros s; [done|].
  change (run (Act g k ≫= f) s) with (let '(x, s1) := g s in run (k x ≫= f) s1).
  change (run (Act g k) s) with (let '(x, s1) := g s in run (k x) s1).
  destruct (g s) as [x s1]. apply IH.
Qed.

Lemma run_atomic {S X} (f : M S X) s : run (atomic f) s = f s.
Proof. unfold atomic. cbn. unfold mbind, M_bind. by destruct (f s). Qed.

(** * Interleaving *)

Section Pool.
Context {S : Type}.
(** What happens between two sections, and the threads that may arrive. *)
Variable env : S -> S -> Prop.
Variable arrives : S -> prog S unit -> Prop.

Abbreviation conf := (list (prog S unit) * S)%type.

Inductive cstep : conf -> conf -> Prop :=
| StepThread i X (f : M S X) k ts s :
    ts !! i = Some (Act f k) -> cstep (ts, s) (<[i := k (f s).1]> ts, (f s).2)
| StepEnv ts s s' : env s s' -> cstep (ts, s) (ts, s')
| StepArrive ts p s : arrives s p -> cstep (ts, s) (ts ++ [p], s).

Definition csteps : conf -> conf -> Prop := rtc cstep.

(** A scheduler: which thread moves next; an entry with no thread is skipped. *)
Fixpoint schedule (l : list nat) (c : conf) : conf :=
  match l with
  | [] => c
  | i :: l' =>
      match c.1 !! i with
      | Some (Act f k) => schedule l' (<[i := k (f c.2).1]> c.1, (f c.2).2)
      | _ => schedule l' c
      end
  end.

Lemma schedule_steps l : forall c, csteps c (schedule l c).
Proof.
  induction l as [|i l IH]; intros [ts s]; cbn; [done|].
  destruct (ts !! i) as [[a|X f k]|] eqn:E; try apply IH.
  eapply rtc_l; [by apply StepThread|apply IH].
Qed.
End Pool.

(** * Protocols *)

Section Protocol.
Context {S L : Type}.
Variable rel : L -> S -> S -> L -> Prop.

Fixpoint follows {A} (Q : L -> A -> Prop) (l : L) (p : prog S A) : Prop :=
  match p with
  | Done a => Q l a
  | Act f k => forall s, exists l', rel l s (f s).2 l' /\ follows Q l' (k (f s).1)
  end.

Lemma follows_bind {A B} (Q : L -> A -> Prop) (R : L -> B -> Prop) l (p : prog S A) f :
  follows Q l p -> (forall l' a, Q l' a -> follows R l' (f a)) -> follows R l (p ≫= f).
Proof.
  revert l. induction p as [a|X g k IH]; intros l Hp Hf; [by apply Hf|].
  intros s. destruct (Hp s) as (l' & Hr & Hl'). exists l'. split; [done|]. by apply IH.
Qed.

Lemma follows_weaken {A} (Q R : L -> A -> Prop) l (p : prog S A) :
  follows Q l p -> (forall l' a, Q l' a -> R l' a) -> follows R l p.
Proof.
  revert l. induction p as [a|X g k IH]; intros l Hp Hw; [by apply Hw|].
  intros s. destruct (Hp s) as (l' & Hr & Hl'). exists l'. split; [done|]. by apply IH.
Qed.

Lemma follows_ret {A} (Q : L -> A -> Prop) l a : Q l a -> follows Q l (mret a).
Proof. done. Qed.

Lemma follows_atomic {X} (Q : L -> X -> Prop) l (f : M S X) :
  (forall s, exists l', rel l s (f s).2 l' /\ Q l' (f s).1) -> follows Q l (atomic f).
Proof. done. Qed.

(** A section that keeps the token. *)
Lemma follows_then {X B} (R : L -> B -> Prop) l (f : M S X) (g : X -> prog S B) :
  (forall s, rel l s (f s).2 l) -> (forall x, follows R l (g x)) -> follows R l (atomic f ≫= g).
Proof.
  intros Hf Hg. eapply (follows_bind (fun l' _ => l' = l)); [|by intros l' x ->].
  apply follows_atomic. intros s. by exists l.
Qed.

(** Alone, a thread keeps what its protocol keeps. *)
Lemma run_protocol {A} (J : L -> S -> Prop) (Q : L -> A -> Prop) l (p : prog S A) s :
  (forall l l' s s', rel l s s' l' -> J l s -> J l' s') -> follows Q l p -> J l s ->
  exists l', Q l' (run p s).1 /\ J l' (run p s).2.
Proof.
  intros HJ. revert l s. induction p as [a|X f k IH]; intros l s Hf Hl; [by exists l|].
  destruct (Hf s) as (l' & Hr & Hk).
  change (run (Act f k) s) with (let '(x, s1) := f s in run (k x) s1).
  destruct (f s) as [x s1]. cbn in *. apply (IH x l' s1 Hk). by eapply HJ.
Qed.

(** From the tokens to an invariant of the pool. *)
Variable env : S -> S -> Prop.
Variable arrives : S -> prog S unit -> Prop.
Variable J : list L -> S -> Prop.
(** The tokens a thread may end with. *)
Variable final : L -> Prop.
Hypothesis J_step : forall ls i l l' s s',
  ls !! i = Some l -> rel l s s' l' -> J ls s -> J (<[i := l']> ls) s'.
Hypothesis J_env : forall ls s s', env s s' -> J ls s -> J ls s'.
Hypothesis J_arrive : forall ls s p, arrives s p -> J ls s ->
  exists l, follows (fun l _ => final l) l p /\ J (ls ++ [l]) s.

Definition tokens (ls : list L) (ts : list (prog S unit)) : Prop :=
  Forall2 (follows (fun l (_ : unit) => final l)) ls ts.

Lemma cstep_protocol c c' : cstep env arrives c c' ->
  forall ls, tokens ls c.1 -> J ls c.2 -> exists ls', tokens ls' c'.1 /\ J ls' c'.2.
Proof.
  intros [i X f k ts s Hi|ts s s' He|ts p s Hp] ls Ht HJ; cbn [fst snd] in *.
  - destruct (Forall2_lookup_r _ _ _ _ _ Ht Hi) as (l & Hl & Hf).
    destruct (Hf s) as (l' & Hr & Hk).
    exists (<[i := l']> ls). split; [|by eapply J_step]. by apply Forall2_insert.
  - exists ls. split; [done|]. by eapply J_env.
  - destruct (J_arrive _ _ _ Hp HJ) as (l & Hl & HJ'). exists (ls ++ [l]). split; [|done].
    apply Forall2_app; [done|]. by constructor.
Qed.

Theorem protocol_invariant c c' ls : csteps env arrives c c' -> tokens ls c.1 -> J ls c.2 ->
  exists ls', tokens ls' c'.1 /\ J ls' c'.2.
Proof.
  intros Hs. revert ls. induction Hs as [c|c c1 c' Hstep _ IH]; intros ls Ht HJ; [by exists ls|].
  destruct (cstep_protocol _ _ Hstep ls Ht HJ) as (ls1 & ? & ?). by eapply IH.
Qed.
End Protocol.

(** Threads that all start with one token. *)
Lemma arrive_idle {S L} (rel : L -> S -> S -> L -> Prop) (arrives : S -> prog S unit -> Prop)
    (J : list L -> S -> Prop) (idle : L) (final : L -> Prop) :
  (forall s p, arrives s p -> follows rel (fun l _ => final l) idle p) ->
  (forall ls s, J ls s -> J (ls ++ [idle]) s) ->
  forall ls s p, arrives s p -> J ls s ->
  exists l, follows rel (fun l _ => final l) l p /\ J (ls ++ [l]) s.
Proof. intros Hf HJ ls s p Hp H. exists idle. split; [by eapply Hf|by apply HJ]. Qed.

(** * Counting the holders of a token *)

Fixpoint claims (ls : list bool) : Z :=
  match ls with [] => 0 | l :: ls' => Z.b2z l + claims ls' end.

Lemma claims_nonneg ls : 0 <= claims ls.
Proof. induction ls as [|[] ls IH]; cbn; lia. Qed.

Lemma claims_insert ls i l l' : ls !! i = Some l ->
  claims (<[i := l']> ls) = claims ls - Z.b2z l + Z.b2z l'.
Proof.
  revert i. induction ls as [|x ls IH]; intros [|i]; simpl; try done; [intros [= ->]; lia|].
  intros H. specialize (IH i H). simpl in *. lia.
Qed.

Lemma claims_app ls l : claims (ls ++ [l]) = claims ls + Z.b2z l.
Proof. induction ls as [|x ls IH]; cbn; [lia|]. rewrite IH. lia. Qed.

(** * Sections that keep a view of the state *)

Section View.
Context {S V : Type}.
Variable v : S -> V.

Definition keeps_view {A} (m : M S A) : Prop := forall s, v (m s).2 = v s.

Lemma view_bind {A B} (m : M S A) (f : A -> M S B) :
  keeps_view m -> (forall a, keeps_view (f a)) -> keeps_view (m ≫= f).
Proof.
  intros Hm Hf s. specialize (Hm s). unfold mbind, M_bind.
  destruct (m s) as [a s1]. by rewrite (Hf a s1).
Qed.
Lemma view_ret {A} (a : A) : keeps_view (mret a).
Proof. done. Qed.
Lemma view_gets {A} (f : S -> A) : keeps_view (gets f).
Proof. done. Qed.
Lemma view_get : keeps_view get.
Proof. done. Qed.
Lemma view_modify f : (forall s, v (f s) = v s) -> keeps_view (modify f).
Proof. intros H s. apply H. Qed.
Lemma view_when b m : keeps_view m -> keeps_view (when b m).
Proof. by destruct b. Qed.
End View.

(** Walk a section down to its updates; [t] proves those keep the view. *)
Ltac keep_view t :=
  repeat first
    [ match goal with
      | |- keeps_view _ (_ ≫= _) => apply view_bind; [|intros ?]
      | |- keeps_view _ (mret _) => apply view_ret
      | |- keeps_view _ (gets _) => apply view_gets
      | |- keeps_view _ get => apply view_get
      | |- keeps_view _ (when _ _) => apply view_when
      | |- keeps_view _ (match ?x with _ => _ end) => destruct x
      end
    | t ].
