(* ===== verification/Gate.v ===== *)
(** internal/service/clientpower.go: the gate between installations and the
    destructive client commands, and the commands themselves.

    [Svc] is what the command handlers of the client channel share; every
    handler is a [prog], cut at the mutexes and the atomics of the code, so the
    theorems hold for every interleaving of command goroutines and poll cycles.
    A section that calls the state store while it holds [destructiveMu] is one
    step. The clock is a field of the state that moves between steps; the
    outcomes of Windows calls are oracles of [CmdEnv], read one tick each. *)
From S2P Require Import Prelude Rfc3339 Json Files State RemoteConfig MachineInfo Wire Conc.

(** * What is remembered and what is sent *)

(** [Result] (wsclient/protocol.go). *)
Record Result := mkResult {
  rs_Status : string;
  rs_DurationMS : Z;
  rs_Payload : option json;
  rs_Error : option ErrorBody;
  rs_Truncated : bool
}.
Definition ResultOK : string := "ok".
Definition ResultError : string := "error".

(** [commandRing]. *)
Record commandRing := mkRing {
  order : list string;
  results : gmap string (option Result);
  refusals : gmap string ErrorBody
}.
Definition commandRingSize : Z := 64.

(** A connection, as the handlers see it: [commandSession]. *)
Record session := mkSession { ws_id : nat; Secure : bool }.

(** What is seen from outside, newest last. *)
Inductive sent :=
| SentAck (s : session) (id : string) (a : Ack)
| SentResult (s : session) (id : string) (r : Result)
| SentClose (s : session)
| Restarted (id : string)
| Rebooting (id : string) (delay : duration)
| Claimed (name : string)
| Released (name : string)
| Ran (id name : string)
| InstallStarted
| InstallEnded
| Expired (id : string).

Record Svc := mkSvc {
  g_now : time;
  g_tick : nat;
  g_installing : Z;
  g_pending : bool;
  g_deadline : time;
  g_command : string;
  g_skiplogged : bool;
  g_dir : dir;
  g_ring : commandRing;
  g_running : gset string;
  g_cur : option cycleState;
  g_sent : list sent
}.

Definition at_now (x : time) (s : Svc) : Svc :=
  mkSvc x s.(g_tick) s.(g_installing) s.(g_pending) s.(g_deadline) s.(g_command)
    s.(g_skiplogged) s.(g_dir) s.(g_ring) s.(g_running) s.(g_cur) s.(g_sent).
Definition at_tick (x : nat) (s : Svc) : Svc :=
  mkSvc s.(g_now) x s.(g_installing) s.(g_pending) s.(g_deadline) s.(g_command)
    s.(g_skiplogged) s.(g_dir) s.(g_ring) s.(g_running) s.(g_cur) s.(g_sent).
Definition at_installing (x : Z) (s : Svc) : Svc :=
  mkSvc s.(g_now) s.(g_tick) x s.(g_pending) s.(g_deadline) s.(g_command) s.(g_skiplogged)
    s.(g_dir) s.(g_ring) s.(g_running) s.(g_cur) s.(g_sent).
Definition at_pending (x : bool) (s : Svc) : Svc :=
  mkSvc s.(g_now) s.(g_tick) s.(g_installing) x s.(g_deadline) s.(g_command)
    s.(g_skiplogged) s.(g_dir) s.(g_ring) s.(g_running) s.(g_cur) s.(g_sent).
Definition at_deadline (x : time) (s : Svc) : Svc :=
  mkSvc s.(g_now) s.(g_tick) s.(g_installing) s.(g_pending) x s.(g_command) s.(g_skiplogged)
    s.(g_dir) s.(g_ring) s.(g_running) s.(g_cur) s.(g_sent).
Definition at_command (x : string) (s : Svc) : Svc :=
  mkSvc s.(g_now) s.(g_tick) s.(g_installing) s.(g_pending) s.(g_deadline) x
    s.(g_skiplogged) s.(g_dir) s.(g_ring) s.(g_running) s.(g_cur) s.(g_sent).
Definition at_skiplogged (x : bool) (s : Svc) : Svc :=
  mkSvc s.(g_now) s.(g_tick) s.(g_installing) s.(g_pending) s.(g_deadline) s.(g_command) x
    s.(g_dir) s.(g_ring) s.(g_running) s.(g_cur) s.(g_sent).
Definition at_dir (x : dir) (s : Svc) : Svc :=
  mkSvc s.(g_now) s.(g_tick) s.(g_installing) s.(g_pending) s.(g_deadline) s.(g_command)
    s.(g_skiplogged) x s.(g_ring) s.(g_running) s.(g_cur) s.(g_sent).
Definition at_ring (x : commandRing) (s : Svc) : Svc :=
  mkSvc s.(g_now) s.(g_tick) s.(g_installing) s.(g_pending) s.(g_deadline) s.(g_command)
    s.(g_skiplogged) s.(g_dir) x s.(g_running) s.(g_cur) s.(g_sent).
Definition at_running (x : gset string) (s : Svc) : Svc :=
  mkSvc s.(g_now) s.(g_tick) s.(g_installing) s.(g_pending) s.(g_deadline) s.(g_command)
    s.(g_skiplogged) s.(g_dir) s.(g_ring) x s.(g_cur) s.(g_sent).
Definition at_cur (x : option cycleState) (s : Svc) : Svc :=
  mkSvc s.(g_now) s.(g_tick) s.(g_installing) s.(g_pending) s.(g_deadline) s.(g_command)
    s.(g_skiplogged) s.(g_dir) s.(g_ring) s.(g_running) x s.(g_sent).
Definition at_sent (x : list sent) (s : Svc) : Svc :=
  mkSvc s.(g_now) s.(g_tick) s.(g_installing) s.(g_pending) s.(g_deadline) s.(g_command)
    s.(g_skiplogged) s.(g_dir) s.(g_ring) s.(g_running) s.(g_cur) x.

Record CmdEnv := mkCmdEnv {
  c_store : nat -> faults;
  c_user : nat -> UserSession;
  c_restart : nat -> option string;
  c_reboot : nat -> option string;
  c_ack : nat -> bool;
  c_read : nat -> Command -> result ErrorBody (json * bool)
}.

(** * Sections *)

Definition ask_ {A} (f : nat -> A) : M Svc A :=
  fun s => (f s.(g_tick), at_tick (S s.(g_tick)) s).

Definition say (m : sent) : M Svc unit := modify (fun s => at_sent (s.(g_sent) ++ [m]) s).

Definition clock_ : M Svc time := gets g_now.

(** [refuse]. *)
Definition refuse (code msg : string) : ErrorBody := mkError code msg.

(** [userActive]. *)
Definition userActive (us : UserSession) : bool :=
  match us.(us_State) with SessionActiveConsole | SessionActiveRDP => true | _ => false end.

Definition minRebootNoticeWithUser : duration := 60 * second.
Definition rebootGrace : duration := 5 * minute.
Definition serviceRestartGrace : duration := 3 * minute.

Section Gate.
Variable env : CmdEnv.

(** A method of the state store. *)
Definition store_ (method : faults -> dir -> option string * dir) : M Svc (option string) :=
  f ← ask_ env.(c_store);
  d ← gets g_dir;
  let '(e, d') := method f d in
  modify (at_dir d') ;; mret e.

(** [clearDestructivePendingLocked]. *)
Definition clearDestructivePendingLocked : M Svc unit :=
  modify (fun s => at_skiplogged false (at_command "" (at_deadline zero_time (at_pending false s)))).

(** [destructivePendingLocked]. *)
Definition destructivePendingLocked : M Svc bool :=
  s ← get;
  when (s.(g_pending) && negb (is_zero_time s.(g_deadline)) &&
        negb (t_before s.(g_now) s.(g_deadline)))
    (clearDestructivePendingLocked ;;
     say (Expired s.(g_command)) ;;
     when (negb (s.(g_command) =s ""))
       (store_ (fun f => RemovePendingCommand f s.(g_command)) ;; mret tt)) ;;
  gets g_pending.

(** [destructivePendingNow], [clearDestructivePending]. *)
Definition destructivePendingNow_ : prog Svc bool := atomic destructivePendingLocked.
Definition clearDestructivePending : prog Svc unit := atomic clearDestructivePendingLocked.

(** [beginInstall], [endInstall]. *)
Definition beginInstall_ : prog Svc bool :=
  atomic (pending ← destructivePendingLocked;
          if (pending : bool) then mret false
          else modify (fun s => at_installing (s.(g_installing) + 1) s) ;;
               say InstallStarted ;; mret true).
Definition endInstall_ : prog Svc unit :=
  atomic (modify (fun s => at_installing (s.(g_installing) - 1) s) ;; say InstallEnded).

(** [commitDestructive]. *)
Definition commitDestructive (id : string) (deadline : time) : prog Svc bool :=
  atomic (installing ← gets g_installing;
          if 0 <? installing then mret false
          else modify (fun s => at_skiplogged false (at_command id (at_deadline deadline
                 (at_pending true s)))) ;;
               mret true).

(** [admitDestructive]. *)
Definition admitDestructive (cmd : Command) : prog Svc (option ErrorBody) :=
  if negb (Destructive cmd.(cmd_Name)) then mret None else
  installing ← atomic (gets g_installing);
  if 0 <? installing then mret (Some (refuse ErrBusy "an installation is in progress")) else
  pending ← destructivePendingNow_;
  if (pending : bool) then
    mret (Some (refuse ErrBusy "a service.restart or machine.reboot is already pending")) else
  if cmd.(cmd_Name) =s CmdMachineReboot then
    let a := from_opt (mkRebootArgs None "") (decode_reboot cmd.(cmd_Args)) in
    if reboot_Mode a =s WhenUserActiveSkip then
      us ← atomic (ask_ env.(c_user));
      mret (if userActive us
            then Some (refuse ErrUserActive "a user is logged on and when_user_active is skip")
            else None)
    else mret None
  else mret None.

(** [runDestructive]'s [fail]. *)
Definition failDestructive (s : session) (id err : string) : prog Svc unit :=
  atomic (store_ (fun f => RemovePendingCommand f id)) ;;
  atomic (say (SentResult s id (mkResult ResultError 0 None (Some (refuse ErrInternal err)) false))).

Definition restart (id : string) : M Svc (option string) :=
  e ← ask_ env.(c_restart);
  match e with None => say (Restarted id) ;; mret None | Some _ => mret e end.
Definition reboot (id : string) (delay : duration) : M Svc (option string) :=
  e ← ask_ env.(c_reboot);
  match e with None => say (Rebooting id delay) ;; mret None | Some _ => mret e end.

(** The delay of a reboot. *)
Definition reboot_delay (us : UserSession) (a : RebootArgs) : duration :=
  let delay := d_mul (reboot_Delay a) second in
  if userActive us && (delay <? minRebootNoticeWithUser) then minRebootNoticeWithUser else delay.

(** [runDestructive]. *)
Definition runDestructive (s : session) (id : string) (cmd : Command) : prog Svc unit :=
  now ← atomic clock_;
  e ← atomic (store_ (fun f => AddPendingCommand f (mkPendingCommand id cmd.(cmd_Name) now)));
  match e with
  | Some err => failDestructive s id err
  | None =>
      if cmd.(cmd_Name) =s CmdServiceRestart then
        atomic (say (SentClose s)) ;;
        now ← atomic clock_;
        ok ← commitDestructive id (t_add now serviceRestartGrace);
        if negb ok then atomic (store_ (fun f => RemovePendingCommand f id)) ;; mret tt else
        err ← atomic (restart id);
        match err with
        | None => mret tt
        | Some _ => clearDestructivePending ;;
                    atomic (store_ (fun f => RemovePendingCommand f id)) ;; mret tt
        end
      else if cmd.(cmd_Name) =s CmdMachineReboot then
        let a := from_opt (mkRebootArgs None "") (decode_reboot cmd.(cmd_Args)) in
        us ← atomic (ask_ env.(c_user));
        let delay := reboot_delay us a in
        now ← atomic clock_;
        ok ← commitDestructive id (t_add now (wrap64 (delay + rebootGrace)));
        if negb ok then failDestructive s id "an install started after admission" else
        err ← atomic (reboot id delay);
        match err with
        | None => mret tt
        | Some err => clearDestructivePending ;; failDestructive s id err
        end
      else mret tt
  end.

(** An installation of the poll goroutine: [install] and [applySelfUpdate],
    as far as the gate sees them. [keeps]: the setup was launched and will
    stop this service, so the claim is not released. *)
Definition installThread (keeps : bool) : prog Svc unit :=
  claimed ← beginInstall_;
  if (claimed : bool) && negb keeps then endInstall_ else mret tt.
End Gate.

(** * Installations and destructive commands exclude each other *)

(** The token of a thread: it holds an installation claim. *)
Inductive gate_rel : bool -> Svc -> Svc -> bool -> Prop :=
| GateKeep l s s' : s'.(g_installing) = s.(g_installing) ->
    (s'.(g_pending) = true -> s.(g_pending) = true \/ s.(g_installing) <= 0) -> gate_rel l s s' l
| GateClaim s s' : s'.(g_installing) = s.(g_installing) + 1 -> s'.(g_pending) = false ->
    gate_rel false s s' true
| GateRelease s s' : s'.(g_installing) = s.(g_installing) - 1 -> s'.(g_pending) = s.(g_pending) ->
    gate_rel true s s' false.

Definition gate_inv (ls : list bool) (s : Svc) : Prop :=
  s.(g_installing) = claims ls /\ (s.(g_pending) = true -> claims ls = 0).

Lemma gate_inv_step ls i l l' s s' : ls !! i = Some l -> gate_rel l s s' l' ->
  gate_inv ls s -> gate_inv (<[i := l']> ls) s'.
Proof.
  intros Hi Hr [Hc Hp]. pose proof (claims_nonneg ls) as Hn. unfold gate_inv.
  rewrite (claims_insert _ _ _ _ Hi). destruct Hr as [l s s' He Hk|s s' He Hk|s s' He Hk]; cbn [Z.b2z].
  - split; [lia|]. intros H. destruct (Hk H) as [?%Hp|?]; lia.
  - split; [lia|]. congruence.
  - split; [lia|]. rewrite Hk. intros ?%Hp.
    assert (claims (<[i := false]> ls) >= 0) by (pose proof (claims_nonneg (<[i := false]> ls)); lia).
    rewrite (claims_insert _ _ _ _ Hi) in H0. cbn in H0. lia.
Qed.

(** A section that leaves the count and does not raise the flag. *)
Definition gate_quiet {A} (m : M Svc A) : Prop :=
  forall s, (m s).2.(g_installing) = s.(g_installing) /\
            ((m s).2.(g_pending) = true -> s.(g_pending) = true).

Lemma quiet_bind {A B} (m : M Svc A) (f : A -> M Svc B) :
  gate_quiet m -> (forall a, gate_quiet (f a)) -> gate_quiet (m ≫= f).
Proof.
  intros Hm Hf s. destruct (Hm s) as [H1 H2]. unfold mbind, M_bind.
  destruct (m s) as [a s1]. destruct (Hf a s1) as [H3 H4]. cbn in *. split; [congruence|auto].
Qed.
Lemma quiet_ret {A} (a : A) : gate_quiet (mret a).
Proof. done. Qed.
Lemma quiet_gets {A} (f : Svc -> A) : gate_quiet (gets f).
Proof. done. Qed.
Lemma quiet_get : gate_quiet get.
Proof. done. Qed.
Lemma quiet_ask {A} (f : nat -> A) : gate_quiet (ask_ f).
Proof. done. Qed.
Lemma quiet_say m : gate_quiet (say m).
Proof. done. Qed.
Lemma quiet_modify f : (forall s, (f s).(g_installing) = s.(g_installing)) ->
  (forall s, (f s).(g_pending) = true -> s.(g_pending) = true) -> gate_quiet (modify f).
Proof. intros H1 H2 s. split; [apply H1|apply H2]. Qed.
Lemma quiet_when b m : gate_quiet m -> gate_quiet (when b m).
Proof. by destruct b. Qed.
#[export] Hint Resolve quiet_bind quiet_ret quiet_gets quiet_get quiet_ask quiet_say quiet_when
  : gate.

Ltac quiet :=
  repeat first
    [ apply quiet_bind; [|intros ?]
    | apply quiet_when
    | apply quiet_modify; done
    | solve [eauto with gate]
    | match goal with |- gate_quiet (match ?x with _ => _ end) => destruct x end ].

Lemma quiet_store env m : gate_quiet (store_ env m).
Proof. unfold store_. quiet. Qed.
#[export] Hint Resolve quiet_store : gate.
Lemma quiet_pending env : gate_quiet (destructivePendingLocked env).
Proof. unfold destructivePendingLocked, clearDestructivePendingLocked. quiet. Qed.
#[export] Hint Resolve quiet_pending : gate.

Abbreviation gate_follows := (follows gate_rel (fun l _ => l = false) false).

Lemma follows_quiet {X B} (R : bool -> B -> Prop) l (f : M Svc X) (g : X -> prog Svc B) :
  gate_quiet f -> (forall x, follows gate_rel R l (g x)) -> follows gate_rel R l (atomic f ≫= g).
Proof.
  intros Hf Hg. apply follows_then; [|done]. intros s. destruct (Hf s) as [H1 H2].
  apply GateKeep; [done|]. by left; apply H2.
Qed.

Lemma quiet_atomic {X} l (f : M Svc X) : gate_quiet f ->
  follows gate_rel (fun l' (_ : X) => l' = l) l (atomic f).
Proof.
  intros Hf s. exists l. split; [|done]. destruct (Hf s). apply GateKeep; [done|auto].
Qed.

Lemma end_follows : follows gate_rel (fun l (_ : unit) => l = false) true endInstall_.
Proof. apply follows_atomic. intros s. exists false. split; [|done]. by apply GateRelease. Qed.

Lemma commit_follows id d :
  follows gate_rel (fun l (_ : bool) => l = false) false (commitDestructive id d).
Proof.
  apply follows_atomic. intros s. exists false. split; [|done].
  unfold mbind, M_bind, gets. cbn. destruct (0 <? g_installing s) eqn:E; cbn.
  - apply GateKeep; [done|by left].
  - apply GateKeep; [done|]. bool_to_prop. by right.
Qed.

(** A thread that never holds a claim. *)
Ltac idle_thread :=
  repeat first
    [ match goal with
      | |- follows _ _ _ (commitDestructive _ _ ≫= _) =>
          eapply follows_bind; [apply commit_follows | cbv beta; intros ? ? ->]
      | |- follows _ _ _ (atomic _ ≫= _) => apply follows_quiet; [quiet | intros ?]
      | |- follows _ _ _ (mret _) => apply follows_ret; reflexivity
      | |- follows _ _ _ (atomic _) => apply quiet_atomic; quiet
      | |- follows _ _ _ (match ?x with _ => _ end) => destruct x
      end
    | progress cbv zeta ].

Section Follows.
Variable env : CmdEnv.

Lemma begin_follows :
  follows gate_rel (fun l (claimed : bool) => l = claimed) false (beginInstall_ env).
Proof.
  apply follows_atomic. intros s. destruct (quiet_pending env s) as [Hi Hp].
  unfold mbind, M_bind. destruct (destructivePendingLocked env s) as [pending s1] eqn:E.
  assert (Hr : g_pending s1 = pending).
  { unfold destructivePendingLocked, get, mbind, M_bind in E.
    destruct (when _ _ _) as [u s2] in E. unfold gets in E. by injection E as <- <-. }
  cbn [fst snd] in *. destruct pending.
  - exists false. split; [|done]. apply GateKeep; [done|]. by left; apply Hp.
  - exists true. split; [|done]. apply GateClaim; cbn; [by rewrite Hi|done].
Qed.

Lemma install_follows keeps :
  follows gate_rel (fun l (_ : unit) => True) false (installThread env keeps).
Proof.
  eapply follows_bind; [apply begin_follows|]. intros l claimed ->.
  destruct claimed; cbn; [|done]. destruct keeps; cbn [negb]; [done|].
  eapply follows_weaken; [apply end_follows|done].
Qed.

Lemma fail_follows s id err :
  follows gate_rel (fun l (_ : unit) => l = false) false (failDestructive env s id err).
Proof. unfold failDestructive. idle_thread. Qed.

Lemma admit_follows cmd :
  follows gate_rel (fun l (_ : option ErrorBody) => l = false) false (admitDestructive env cmd).
Proof. unfold admitDestructive, destructivePendingNow_. idle_thread. Qed.

Lemma restart_quiet id : gate_quiet (restart env id).
Proof. unfold restart. quiet. Qed.
Lemma reboot_quiet id d : gate_quiet (reboot env id d).
Proof. unfold reboot. quiet. Qed.
Lemma clear_quiet : gate_quiet clearDestructivePendingLocked.
Proof. unfold clearDestructivePendingLocked. quiet. Qed.
#[local] Hint Resolve restart_quiet reboot_quiet clear_quiet : gate.

Lemma destructive_follows s id cmd :
  follows gate_rel (fun l (_ : unit) => l = false) false (runDestructive env s id cmd).
Proof.
  unfold runDestructive, clearDestructivePending. idle_thread; apply fail_follows.
Qed.
End Follows.
