(* ===== verification/Commands.v ===== *)
(** internal/service/clientcmd.go: the handler of one client command -
    deduplication, admission, acknowledgement, execution, result.

    [executeCommand] is the whole handler as a [prog] over [Svc] (Gate.v): one
    section per mutex of the code - the ring's, [runningMu], [destructiveMu],
    the state store's - and one per message sent. What a read-only command
    answers is an oracle here; the answers themselves are in ReadOnly.v.
    Panics are not modelled. *)
From S2P Require Import Prelude Rfc3339 Json Files State PolicyDoc PolicyMatch RemoteConfig MachineInfo.
From S2P Require Import SourcePolicy Wire Conc Gate.

(** [Message] (wsclient/client.go). *)
Record Message := mkMessage {
  msg_Type : string;
  msg_ID : string;
  ReplyTo : string;
  msg_TS : string;
  msg_Data : option json
}.

Definition maxClockSkew : duration := 5 * minute.

(** * The ring *)

(** [commandRing.add], [lookup], [store] and [refuse]. *)
Definition ring_add (id : string) (r : commandRing) : commandRing :=
  let order := r.(order) ++ [id] in
  let results := <[id := None]> r.(results) in
  if commandRingSize <? len order then
    match order with
    | oldest :: rest => mkRing rest (delete oldest results) (delete oldest r.(refusals))
    | [] => mkRing order results r.(refusals)
    end
  else mkRing order results r.(refusals).

Definition ring_lookup (id : string) (r : commandRing) : option (option Result) * option ErrorBody :=
  (r.(results) !! id, r.(refusals) !! id).

Definition ring_store (id : string) (res : Result) (r : commandRing) : commandRing :=
  if is_some (r.(results) !! id)
  then mkRing r.(order) (<[id := Some res]> r.(results)) r.(refusals) else r.

Definition ring_refuse (id : string) (e : ErrorBody) (r : commandRing) : commandRing :=
  mkRing r.(order) r.(results) (<[id := e]> r.(refusals)).

Definition on_ring (f : commandRing -> commandRing) : M Svc unit :=
  modify (fun s => at_ring (f s.(g_ring)) s).

(** * Running one at a time *)

(** [claimCommand], [releaseCommand]. *)
Definition claimCommand (name : string) : M Svc bool :=
  running ← gets g_running;
  if bool_decide (name ∈ running) then mret false
  else modify (at_running ({[ name ]} ∪ running)) ;; say (Claimed name) ;; mret true.
Definition releaseCommand (name : string) : M Svc unit :=
  modify (fun s => at_running (s.(g_running) ∖ {[ name ]}) s) ;; say (Released name).

(** * Admission *)

Definition within_skew (now : time) (ts : string) : bool :=
  match parse_rfc3339 ts with
  | Some ts => (t_sub now ts <? maxClockSkew) && (- maxClockSkew <? t_sub now ts)
  | None => false
  end.

(** The expiry test of [admitCommand]. *)
Definition command_expired (now : time) (msg : Message) (cmd : Command) : bool :=
  match parse_rfc3339 cmd.(ExpiresAt) with
  | Some exp => t_after now exp && within_skew now msg.(msg_TS)
  | None => false
  end.

Definition command_allowed (cur : option cycleState) (name : string) : bool :=
  match cur with
  | Some cyc => Allows cyc.(cyc_eff).(Doc).(ClientWS) name
  | None => false
  end.

Section Commands.
Variable env : CmdEnv.

(** [admitCommand]. *)
Definition admitCommand (s : session) (msg : Message) (cmd : Command) : prog Svc (option ErrorBody) :=
  match ValidateArgs cmd.(cmd_Name) cmd.(cmd_Args) with
  | Some e => mret (Some e)
  | None =>
      now ← atomic clock_;
      if command_expired now msg cmd then
        mret (Some (refuse ErrExpired ("command expired at " +:+ cmd.(ExpiresAt)))) else
      cur ← atomic (gets g_cur);
      if negb (command_allowed cur cmd.(cmd_Name)) then
        mret (Some (refuse ErrDisabledByPolicy
          (cmd.(cmd_Name) +:+ " is not enabled for this host (clientWs.commands)")))
      else if Destructive cmd.(cmd_Name) && negb s.(Secure) then
        mret (Some (refuse ErrInsecureTransport (cmd.(cmd_Name) +:+ " requires a wss:// connection")))
      else admitDestructive env cmd
  end.

(** Sending an acknowledgement: whether it went out. *)
Definition ack (s : session) (id : string) (a : Ack) : M Svc bool :=
  ok ← ask_ env.(c_ack);
  when ok (say (SentAck s id a)) ;; mret ok.

Definition refuseCommand (s : session) (id : string) (e : ErrorBody) : prog Svc unit :=
  atomic (on_ring (ring_refuse id e)) ;;
  atomic (ack s id (mkAck false (Some e) false)) ;;
  mret tt.

(** [executeCommand], the execution of a read-only command. *)
Definition runRead (s : session) (id : string) (cmd : Command) : prog Svc unit :=
  started ← atomic clock_;
  r ← atomic (ask_ (fun n => env.(c_read) n cmd));
  now ← atomic clock_;
  let ms := Z.quot (t_sub now started) millisecond in
  let res := match r with
             | Ok (payload, truncated) => mkResult ResultOK ms (Some payload) None truncated
             | Err e => mkResult ResultError ms None (Some e) false
             end in
  atomic (on_ring (ring_store id res)) ;;
  atomic (say (SentResult s id res)).

(** [executeCommand], once the command is claimed. *)
Definition runClaimed (s : session) (id : string) (cmd : Command) : prog Svc unit :=
  ok ← atomic (ack s id (mkAck true None false));
  if negb ok then mret tt else
  atomic (say (Ran id cmd.(cmd_Name))) ;;
  if Destructive cmd.(cmd_Name) then runDestructive env s id cmd else runRead s id cmd.

(** [executeCommand], from admission on. *)
Definition executeNew (s : session) (msg : Message) (cmd : Command) : prog Svc unit :=
  let id := msg.(msg_ID) in
  e ← admitCommand s msg cmd;
  match e with
  | Some e => refuseCommand s id e
  | None =>
      claimed ← atomic (claimCommand cmd.(cmd_Name));
      if negb claimed then
        refuseCommand s id (refuse ErrBusy (cmd.(cmd_Name) +:+ " is already running"))
      else runClaimed s id cmd ;; atomic (releaseCommand cmd.(cmd_Name))
  end.

(** [executeCommand], for an id the ring does not hold. *)
Definition executeFresh (s : session) (msg : Message) (cmd : Command) : prog Svc unit :=
  atomic (on_ring (ring_add msg.(msg_ID))) ;; executeNew s msg cmd.

(** [executeCommand]'s answer to a redelivery. *)
Definition replay (s : session) (id : string) (prev : option Result) (refusal : option ErrorBody) :
    prog Svc unit :=
  match refusal with
  | Some e => atomic (ack s id (mkAck false (Some e) true)) ;; mret tt
  | None =>
      atomic (ack s id (mkAck true None true)) ;;
      match prev with
      | Some r => atomic (say (SentResult s id r))
      | None => mret tt
      end
  end.

(** [executeCommand]. *)
Definition executeCommand (s : session) (msg : Message) (cmd : Command) : prog Svc unit :=
  let id := msg.(msg_ID) in
  if id =s "" then
    atomic (ack s id (mkAck false (Some (refuse ErrInvalidArgs "command id is required")) false)) ;;
    mret tt
  else
    seen ← atomic (gets (fun s => ring_lookup id s.(g_ring)));
    match seen with
    | (Some prev, refusal) => replay s id prev refusal
    | (None, _) => executeFresh s msg cmd
    end.

(** [seedCommandRing]: the state file as it is when the service starts. *)
Definition seedCommandRing : M Svc unit :=
  f ← ask_ env.(c_store);
  d ← gets g_dir;
  match Load f d with
  | Ok st => mfor st.(PendingCommands) (fun c => on_ring (ring_add c.(pc_ID)))
  | Err _ => mret tt
  end.
End Commands.
