(* ===== verification/CommandProps.v ===== *)
(** Properties of the client commands, sequentially ([run]) and over every
    interleaving of command goroutines, poll cycles, clock and policy changes
    ([service_run]). *)
From S2P Require Import Prelude Rfc3339 Json Files State PolicyDoc PolicyMatch RemoteConfig MachineInfo.
From S2P Require Import Versions SourcePolicy Wire Conc Gate Commands.

(** * Every interleaving *)

Section Interleaving.
Variable env : CmdEnv.

(** The threads: deliveries, installations, the cycle's own checks. *)
Inductive thread : prog Svc unit -> Prop :=
| ThreadCommand s msg cmd : thread (executeCommand env s msg cmd)
| ThreadInstall keeps : thread (installThread env keeps)
| ThreadCheck : thread (destructivePendingNow_ env ;; mret tt).

(** The clock moves, also backwards, and the policy is replaced. *)
Inductive env_move : Svc -> Svc -> Prop :=
| MoveClock t s : env_move s (at_now t s)
| MovePolicy c s : env_move s (at_cur c s).

Definition service_run : list (prog Svc unit) * Svc -> list (prog Svc unit) * Svc -> Prop :=
  csteps env_move (fun _ => thread).

(** A service that has just started, whatever its clock, policy and files. *)
Definition fresh_service (s : Svc) : Prop :=
  s.(g_installing) = 0 /\ s.(g_pending) = false /\ s.(g_running) = ∅ /\ s.(g_sent) = [].

(** ** The gate *)

Lemma quiet_ring f : gate_quiet (on_ring f).
Proof. unfold on_ring. quiet. Qed.
Lemma quiet_claim n : gate_quiet (claimCommand n).
Proof. unfold claimCommand. quiet. Qed.
Lemma quiet_release n : gate_quiet (releaseCommand n).
Proof. unfold releaseCommand. quiet. Qed.
Lemma quiet_ack s id a : gate_quiet (ack env s id a).
Proof. unfold ack. quiet. Qed.
#[local] Hint Resolve quiet_ring quiet_claim quiet_release quiet_ack : gate.

Abbreviation idle_follows := (follows gate_rel (fun l _ => l = false) false).

Lemma refuse_follows s id e : idle_follows (refuseCommand env s id e).
Proof. unfold refuseCommand. idle_thread. Qed.

Lemma replay_follows s id prev refusal : idle_follows (replay env s id prev refusal).
Proof. unfold replay. idle_thread. Qed.

Lemma admitCommand_follows s msg cmd : idle_follows (admitCommand env s msg cmd).
Proof. unfold admitCommand. idle_thread. apply admit_follows. Qed.

Lemma claimed_follows s id cmd : idle_follows (runClaimed env s id cmd).
Proof. unfold runClaimed, runRead. idle_thread. apply destructive_follows. Qed.

Lemma execute_follows s msg cmd : idle_follows (executeCommand env s msg cmd).
Proof.
  unfold executeCommand. idle_thread; try apply replay_follows.
  unfold executeFresh, executeNew. idle_thread.
  eapply follows_bind; [apply admitCommand_follows|]. cbv beta. intros l e ->. idle_thread.
  all: try apply refuse_follows.
  eapply follows_bind; [apply claimed_follows|]. cbv beta. intros l e ->. idle_thread.
Qed.

Lemma thread_follows p : thread p -> follows gate_rel (fun _ _ => True) false p.
Proof.
  assert (Hw : forall q : prog Svc unit, idle_follows q -> follows gate_rel (fun _ _ => True) false q).
  { intros q Hq. by eapply follows_weaken. }
  intros [s msg cmd|keeps|].
  - apply Hw, execute_follows.
  - apply install_follows.
  - apply Hw. unfold destructivePendingNow_. idle_thread.
Qed.

(** C2: an installation and a destructive command exclude each other: in every
    state of every interleaving, a service restart or a reboot is committed
    only while no installation holds a claim, and the number of claims is never
    negative. *)
Theorem install_excludes_destructive (ts : list (prog Svc unit)) (s0 s : Svc) :
  fresh_service s0 -> service_run ([], s0) (ts, s) ->
  0 <= s.(g_installing) /\ (s.(g_pending) = true -> s.(g_installing) = 0).
Proof.
  intros (Hi & Hp & _) Hr.
  destruct (protocol_invariant gate_rel env_move (fun _ => thread) gate_inv (fun _ => True)
    (fun ls i l l' s s' => gate_inv_step ls i l l' s s') ltac:(by intros ls s1 s2 [])
    (arrive_idle _ _ gate_inv false _ (fun _ => thread_follows)
      ltac:(intros ls s1 [H1 H2]; unfold gate_inv; rewrite claims_app; cbn; rewrite Z.add_0_r; done))
    _ _ [] Hr) as (ls & _ & Hls & Hx).
  - constructor.
  - split; cbn; [done|by rewrite Hp].
  - cbn in *. rewrite Hls. split; [apply claims_nonneg|done].
Qed.

(** ** One handler per verb *)

Section OneHandler.
Variable name : string.

(** Handlers of [name] that are between claim and release. *)
Fixpoint active (l : list sent) : Z :=
  match l with
  | [] => 0
  | Claimed n :: l' => Z.b2z (n =s name) + active l'
  | Released n :: l' => active l' - Z.b2z (n =s name)
  | _ :: l' => active l'
  end.

Lemma active_app l k : active (l ++ k) = active l + active k.
Proof. induction l as [|x l IH]; [done|]. destruct x; cbn; rewrite ?IH; lia. Qed.

Definition name_view (s : Svc) : bool * Z :=
  (bool_decide (name ∈ s.(g_running)), active s.(g_sent)).

Inductive name_rel : bool -> Svc -> Svc -> bool -> Prop :=
| NameKeep l s s' : name_view s' = name_view s -> name_rel l s s' l
| NameClaim s s' : name_view s = (false, active s.(g_sent)) ->
    name_view s' = (true, active s.(g_sent) + 1) -> name_rel false s s' true
| NameRelease s s' : name_view s' = (false, active s.(g_sent) - 1) -> name_rel true s s' false.

Definition name_inv (ls : list bool) (s : Svc) : Prop :=
  active s.(g_sent) = claims ls /\ claims ls = Z.b2z (bool_decide (name ∈ s.(g_running))).

Lemma name_inv_step ls i l l' s s' : ls !! i = Some l -> name_rel l s s' l' ->
  name_inv ls s -> name_inv (<[i := l']> ls) s'.
Proof.
  intros Hi Hr [Ha Hc]. unfold name_inv. rewrite (claims_insert _ _ _ _ Hi).
  assert (Hl : Z.b2z l <= claims ls).
  { pose proof (claims_nonneg (<[i := false]> ls)) as H. rewrite (claims_insert _ _ _ _ Hi) in H.
    cbn in H. lia. }
  destruct Hr as [l s s' [= Hb He]|s s' [= Hb0] [= Hb He]|s s' [= Hb He]]; rewrite ?Hb, ?He; cbn in *.
  - rewrite <-Hc. lia.
  - rewrite Hb0 in Hc. cbn in Hc. lia.
  - destruct (bool_decide (name ∈ g_running s)); cbn in *; lia.
Qed.

Ltac name_update := first [ apply view_modify; intros; done | done ].

Lemma name_say m : (match m with Claimed _ | Released _ => False | _ => True end) ->
  keeps_view name_view (say m).
Proof.
  intros Hm s. unfold name_view. cbn. rewrite active_app. destruct m; try done; cbn; by rewrite Z.add_0_r.
Qed.
#[local] Hint Resolve name_say : gate.

Ltac name_quiet := keep_view ltac:(first
  [ solve [apply name_say; done] | solve [apply view_modify; intros; done] | solve [intros ?; done]
  | solve [eauto with gate] ]).

Lemma name_store m : keeps_view name_view (store_ env m).
Proof. unfold store_. name_quiet. Qed.
#[local] Hint Resolve name_store : gate.
Lemma name_pending : keeps_view name_view (destructivePendingLocked env).
Proof. unfold destructivePendingLocked, clearDestructivePendingLocked. name_quiet. Qed.
Lemma name_ack s id a : keeps_view name_view (ack env s id a).
Proof. unfold ack. name_quiet. Qed.
#[local] Hint Resolve name_pending name_ack : gate.

Abbreviation name_idle l := (follows name_rel (fun l' _ => l' = l) l).

Lemma name_then {X B} l (R : bool -> B -> Prop) (f : M Svc X) (g : X -> prog Svc B) :
  keeps_view name_view f -> (forall x, follows name_rel R l (g x)) ->
  follows name_rel R l (atomic f ≫= g).
Proof. intros Hf Hg. apply follows_then; [|done]. intros s. by apply NameKeep. Qed.

Lemma name_atomic {X} l (f : M Svc X) : keeps_view name_view f -> name_idle l (atomic f).
Proof. intros Hf s. exists l. split; [|done]. by apply NameKeep. Qed.

Ltac name_thread :=
  repeat first
    [ match goal with
      | |- follows _ _ _ (commitDestructive _ _ ≫= _) => unfold commitDestructive
      | |- follows _ _ _ (atomic _ ≫= _) => apply name_then; [name_quiet | intros ?]
      | |- follows _ _ _ (mret _) => apply follows_ret; reflexivity
      | |- follows _ _ _ (atomic _) => apply name_atomic; name_quiet
      | |- follows _ _ _ (match ?x with _ => _ end) => destruct x
      end
    | progress cbv zeta ].

Lemma name_fail l s id err : name_idle l (failDestructive env s id err).
Proof. unfold failDestructive. name_thread. Qed.

Lemma name_destructive l s id cmd : name_idle l (runDestructive env s id cmd).
Proof.
  unfold runDestructive, clearDestructivePending, clearDestructivePendingLocked, restart, reboot.
  name_thread; apply name_fail.
Qed.

Lemma name_admit l cmd : name_idle l (admitDestructive env cmd).
Proof. unfold admitDestructive, destructivePendingNow_. name_thread. Qed.

Lemma name_admitCommand l s msg cmd : name_idle l (admitCommand env s msg cmd).
Proof. unfold admitCommand. name_thread. apply name_admit. Qed.

Lemma name_refuse l s id e : name_idle l (refuseCommand env s id e).
Proof. unfold refuseCommand, on_ring. name_thread. Qed.

Lemma name_claimed l s id cmd : name_idle l (runClaimed env s id cmd).
Proof. unfold runClaimed, runRead, on_ring. name_thread. apply name_destructive. Qed.

Lemma name_claim n : follows name_rel (fun l' (ok : bool) => l' = ok && (n =s name)) false
  (atomic (claimCommand n)).
Proof.
  apply follows_atomic. intros s. unfold claimCommand, gets, modify, say, mbind, M_bind.
  case_bool_decide as Hn; cbn; [exists false; split; [by apply NameKeep|done]|].
  destruct (n =s name) eqn:E; cbn.
  - exists true. split; [|done]. apply str_eqb_eq in E as ->. apply NameClaim; unfold name_view; cbn.
    + by rewrite bool_decide_eq_false_2.
    + rewrite active_app, bool_decide_eq_true_2 by set_solver. cbn. rewrite str_eqb_refl. cbn.
      done.
  - exists false. split; [|done]. apply NameKeep. unfold name_view. cbn. rewrite active_app. cbn.
    rewrite E. cbn. apply str_eqb_neq in E. f_equal; [|lia]. apply bool_decide_ext. set_solver.
Qed.

Lemma name_release n :
  follows name_rel (fun l' (_ : unit) => l' = false) (n =s name) (atomic (releaseCommand n)).
Proof.
  apply follows_atomic. intros s. exists false. split; [|done].
  unfold releaseCommand, modify, say, mbind, M_bind. destruct (n =s name) eqn:E.
  - apply str_eqb_eq in E as ->. apply NameRelease. unfold name_view. cbn.
    rewrite active_app. cbn. rewrite str_eqb_refl. cbn.
    rewrite bool_decide_eq_false_2 by set_solver. done.
  - apply NameKeep. unfold name_view. cbn. rewrite active_app. cbn. rewrite E. cbn.
    apply str_eqb_neq in E. f_equal; [|lia]. apply bool_decide_ext. set_solver.
Qed.

Lemma name_execute s msg cmd : name_idle false (executeCommand env s msg cmd).
Proof.
  unfold executeCommand, replay, executeFresh, executeNew, on_ring. name_thread.
  eapply follows_bind; [apply name_admitCommand|]. cbv beta. intros l e ->.
  destruct e; [apply name_refuse|].
  eapply follows_bind; [apply name_claim|]. cbv beta. intros l ok ->.
  destruct ok; cbn [andb negb]; [|apply name_refuse].
  eapply follows_bind; [apply name_claimed|]. cbv beta. intros l u ->. apply name_release.
Qed.

Lemma name_follows p : thread p -> name_idle false p.
Proof.
  intros [s msg cmd|keeps|].
  - apply name_execute.
  - unfold installThread, beginInstall_, endInstall_. name_thread.
  - unfold destructivePendingNow_. name_thread.
Qed.

(** C19: a verb runs once at a time: in every state of every interleaving the
    handlers of one command name that have been claimed and not yet released
    number at most one, and exactly one when the name is marked running. *)
Theorem one_handler_per_verb (ts : list (prog Svc unit)) (s0 s : Svc) :
  fresh_service s0 -> service_run ([], s0) (ts, s) ->
  active s.(g_sent) = Z.b2z (bool_decide (name ∈ s.(g_running))).
Proof.
  intros (_ & _ & Hrun & Hsent) Hr.
  destruct (protocol_invariant name_rel env_move (fun _ => thread) name_inv (fun l => l = false)
    name_inv_step ltac:(by intros ls s1 s2 [])
    (arrive_idle _ _ name_inv false _ (fun _ => name_follows)
      ltac:(intros ls s1 [H1 H2]; unfold name_inv; rewrite claims_app; cbn; rewrite Z.add_0_r; done))
    _ _ [] Hr) as (ls & _ & Ha & Hc).
  - constructor.
  - unfold name_inv. cbn. rewrite Hrun, Hsent. done.
  - cbn in *. by rewrite Ha, Hc.
Qed.
End OneHandler.
End Interleaving.

(** * Redeliveries, one delivery at a time *)

Section Sequential.
Variable env : CmdEnv.

(** A delivery, and the time it arrives at. *)
Record delivery := mkDelivery {
  dl_at : time; dl_session : session; dl_msg : Message; dl_cmd : Command
}.
Definition dl_id (d : delivery) : string := d.(dl_msg).(msg_ID).

Definition deliver (s : Svc) (d : delivery) : Svc :=
  (run (executeCommand env d.(dl_session) d.(dl_msg) d.(dl_cmd)) (at_now d.(dl_at) s)).2.
Definition deliver_all (l : list delivery) (s : Svc) : Svc := foldl deliver s l.

(** How often a command was run. *)
Fixpoint ran (id : string) (l : list sent) : Z :=
  match l with
  | [] => 0
  | Ran i _ :: l' => Z.b2z (i =s id) + ran id l'
  | _ :: l' => ran id l'
  end.

Lemma ran_app id l k : ran id (l ++ k) = ran id l + ran id k.
Proof. induction l as [|x l IH]; [done|]. destruct x; cbn; rewrite ?IH; lia. Qed.

Section OneId.
Variable id0 : string.

Definition ring_view (s : Svc) : list string * gset string * Z :=
  (s.(g_ring).(order), dom s.(g_ring).(results), ran id0 s.(g_sent)).

(** The token: this thread may still run a command called [id]. *)
Inductive run_rel (id : string) : bool -> Svc -> Svc -> bool -> Prop :=
| RunKeep l s s' : ring_view s' = ring_view s -> run_rel id l s s' l
| RunOnce s s' : ring_view s' = (s.(g_ring).(order), dom s.(g_ring).(results),
    Z.b2z (id =s id0) + ran id0 s.(g_sent)) -> run_rel id true s s' false.

Lemma ring_say m : (match m with Ran _ _ => False | _ => True end) -> keeps_view ring_view (say m).
Proof.
  intros Hm s. unfold ring_view. cbn. rewrite ran_app. destruct m; try done; cbn; by rewrite Z.add_0_r.
Qed.

Lemma ring_store_view id r : keeps_view ring_view (on_ring (ring_store id r)).
Proof.
  intros s. unfold ring_view, on_ring, ring_store, modify. cbn.
  destruct (results (g_ring s) !! id) as [x|] eqn:E; [|done]. cbn. do 2 f_equal.
  apply dom_insert_lookup_L. by exists x.
Qed.

Ltac ring_quiet := keep_view ltac:(first
  [ solve [apply ring_say; done] | apply ring_store_view | solve [apply view_modify; intros; done]
  | solve [intros ?; done] | solve [eauto with gate] ]).

Lemma ring_store_ m : keeps_view ring_view (store_ env m).
Proof. unfold store_. ring_quiet. Qed.
#[local] Hint Resolve ring_store_ : gate.
Lemma ring_pending : keeps_view ring_view (destructivePendingLocked env).
Proof. unfold destructivePendingLocked, clearDestructivePendingLocked. ring_quiet. Qed.
Lemma ring_ack s id a : keeps_view ring_view (ack env s id a).
Proof. unfold ack. ring_quiet. Qed.
Lemma ring_refuse_view id e : keeps_view ring_view (on_ring (ring_refuse id e)).
Proof. by intros s. Qed.
#[local] Hint Resolve ring_pending ring_ack ring_refuse_view : gate.

Variable id : string.
Abbreviation ring_idle l := (follows (run_rel id) (fun l' _ => l' = l) l).

Lemma ring_then {X B} l (R : bool -> B -> Prop) (f : M Svc X) (g : X -> prog Svc B) :
  keeps_view ring_view f -> (forall x, follows (run_rel id) R l (g x)) ->
  follows (run_rel id) R l (atomic f ≫= g).
Proof. intros Hf Hg. apply follows_then; [|done]. intros s. by apply RunKeep. Qed.

Lemma ring_atomic {X} l (f : M Svc X) : keeps_view ring_view f -> ring_idle l (atomic f).
Proof. intros Hf s. exists l. split; [|done]. by apply RunKeep. Qed.

Ltac ring_thread :=
  repeat first
    [ match goal with
      | |- follows _ _ _ (commitDestructive _ _ ≫= _) => unfold commitDestructive
      | |- follows _ _ _ (atomic _ ≫= _) => apply ring_then; [ring_quiet | intros ?]
      | |- follows _ _ _ (mret _) => apply follows_ret; reflexivity
      | |- follows _ _ _ (atomic _) => apply ring_atomic; ring_quiet
      | |- follows _ _ _ (match ?x with _ => _ end) => destruct x
      end
    | progress cbv zeta ].

Lemma ring_fail l s i err : ring_idle l (failDestructive env s i err).
Proof. unfold failDestructive. ring_thread. Qed.

Lemma ring_destructive l s cmd : ring_idle l (runDestructive env s id cmd).
Proof.
  unfold runDestructive, clearDestructivePending, clearDestructivePendingLocked, restart, reboot.
  ring_thread; apply ring_fail.
Qed.

Lemma ring_admit l cmd : ring_idle l (admitDestructive env cmd).
Proof. unfold admitDestructive, destructivePendingNow_. ring_thread. Qed.

Lemma ring_admitCommand l s msg cmd : ring_idle l (admitCommand env s msg cmd).
Proof. unfold admitCommand. ring_thread. apply ring_admit. Qed.

Lemma ring_any {A} l (p : prog Svc A) : ring_idle l p -> follows (run_rel id) (fun _ _ => True) l p.
Proof. intros Hp. by eapply follows_weaken. Qed.

Lemma ring_claimed s cmd : follows (run_rel id) (fun _ _ => True) true (runClaimed env s id cmd).
Proof.
  unfold runClaimed, runRead. apply ring_then; [apply ring_ack|]. intros [|]; [|done]. cbn [negb].
  eapply follows_bind with (Q := fun l _ => l = false).
  { apply follows_atomic. intros s1. exists false. split; [|done]. apply RunOnce.
    unfold ring_view. cbn. rewrite ran_app. cbn. f_equal. lia. }
  intros l u ->. destruct (Destructive _).
  - apply ring_any, ring_destructive.
  - apply ring_any. ring_thread.
Qed.

Lemma ring_new s msg cmd : msg.(msg_ID) = id ->
  follows (run_rel id) (fun _ _ => True) true (executeNew env s msg cmd).
Proof.
  intros Hid. unfold executeNew. cbv zeta. rewrite Hid.
  eapply follows_bind; [apply ring_admitCommand|]. cbv beta. intros l e ->.
  assert (Hr : forall l e, follows (run_rel id) (fun _ _ => True) l (refuseCommand env s id e)).
  { intros l e'. apply ring_any. unfold refuseCommand. ring_thread. }
  destruct e; [apply Hr|]. apply ring_then; [unfold claimCommand; ring_quiet|]. intros [|]; [|apply Hr].
  cbn [negb]. eapply follows_bind; [apply ring_claimed|]. intros l u _.
  apply ring_any. apply ring_atomic.
  unfold releaseCommand. ring_quiet.
Qed.

Lemma ring_replay l s prev refusal : ring_idle l (replay env s id prev refusal).
Proof. unfold replay. ring_thread. Qed.

(** What a run of a thread does to the view. *)
Lemma run_kept {A} (p : prog Svc A) s :
  ring_idle false p -> ring_view (run p s).2 = ring_view s.
Proof.
  intros Hp. set (J := fun (l : bool) s' => l = false /\ ring_view s' = ring_view s).
  assert (HJ : forall l l' s1 s2, run_rel id l s1 s2 l' -> J l s1 -> J l' s2).
  { intros l l' s1 s2 Hr [-> H]. inversion Hr; subst. split; [done|]. congruence. }
  by destruct (run_protocol (run_rel id) J _ false p s HJ Hp (conj eq_refl eq_refl)) as (l' & _ & _ & H).
Qed.

Lemma run_once {A} (p : prog Svc A) s :
  follows (run_rel id) (fun _ _ => True) true p ->
  exists n, 0 <= n <= Z.b2z (id =s id0) /\
    ring_view (run p s).2 = (s.(g_ring).(order), dom s.(g_ring).(results), n + ran id0 s.(g_sent)).
Proof.
  intros Hp. set (J := fun (l : bool) s' => exists n,
    0 <= n <= (if l then 0 else Z.b2z (id =s id0)) /\
    ring_view s' = (s.(g_ring).(order), dom s.(g_ring).(results), n + ran id0 s.(g_sent))).
  assert (HJ : forall l l' s1 s2, run_rel id l s1 s2 l' -> J l s1 -> J l' s2).
  { intros l l' s1 s2 Hr (n & Hn & H). inversion Hr as [? ? ? Hv|? ? Hv]; subst.
    - exists n. split; [done|]. congruence.
    - exists (Z.b2z (id =s id0) + n). split; [by destruct (id =s id0); cbn; lia|]. injection H as H1 H2 H3.
      rewrite Hv, H1, H2, H3. f_equal. lia. }
  assert (H0 : J true s) by by exists 0.
  destruct (run_protocol (run_rel id) J _ true p s HJ Hp H0) as (l' & _ & n & Hn & H).
  exists n. split; [|done]. destruct l', (id =s id0); cbn in *; lia.
Qed.
End OneId.

(** ** Over a sequence of deliveries *)

(** The ring between two deliveries of ids in [ids], at most as many as it
    holds: nothing has been evicted, and what has run is remembered. *)
Definition ring_inv (ids : gset string) (s : Svc) : Prop :=
  NoDup s.(g_ring).(order) /\ dom s.(g_ring).(results) = list_to_set s.(g_ring).(order) /\
  list_to_set s.(g_ring).(order) ⊆ ids /\
  forall id, ran id s.(g_sent) <= Z.b2z (bool_decide (id ∈ s.(g_ring).(order))).

Lemma ring_inv_view ids s s' :
  (forall id0, ring_view id0 s' = ring_view id0 s) -> ring_inv ids s -> ring_inv ids s'.
Proof.
  intros Hv (Hn & Hd & Hi & Hr). pose proof (Hv "") as [= Ho Hd' _]. unfold ring_inv.
  rewrite Ho, Hd'. split_and!; try done. intros id. pose proof (Hv id) as [= _ _ ->]. apply Hr.
Qed.

Lemma ring_add_inv ids s id : Z.of_nat (size ids) <= commandRingSize ->
  ring_inv ids s -> id ∈ ids -> id ∉ s.(g_ring).(order) ->
  (ring_add id s.(g_ring)).(order) = s.(g_ring).(order) ++ [id] /\
  dom (ring_add id s.(g_ring)).(results) = {[ id ]} ∪ dom s.(g_ring).(results).
Proof.
  intros Hs (Hn & Hd & Hi & _) Hid Hnew. unfold ring_add.
  assert (Hlen : len (s.(g_ring).(order) ++ [id]) <= commandRingSize).
  { assert (Hsub : list_to_set (s.(g_ring).(order) ++ [id]) ⊆ ids) by set_solver.
    apply subseteq_size in Hsub. rewrite size_list_to_set in Hsub.
    - unfold len. lia.
    - apply NoDup_app. split_and!; [done| |apply NoDup_singleton].
      intros x Hx ->%list_elem_of_singleton. done. }
  destruct (commandRingSize <? len (s.(g_ring).(order) ++ [id])) eqn:E; [bool_to_prop; lia|].
  cbn. split; [done|]. apply dom_insert_L.
Qed.

Lemma deliver_inv ids s d : Z.of_nat (size ids) <= commandRingSize -> dl_id d ∈ ids ->
  ring_inv ids s -> ring_inv ids (deliver s d).
Proof.
  intros Hs Hid Hinv. unfold deliver, executeCommand. fold (dl_id d).
  set (s1 := at_now (dl_at d) s). assert (H1 : ring_inv ids s1) by done. clearbody s1. clear Hinv s.
  destruct (dl_id d =s "") eqn:Ee.
  { eapply (ring_inv_view ids s1); [|done]. intros id0.
    eapply (run_kept id0 (dl_id d)). apply (ring_then id0); [apply ring_ack|]. done. }
  change (run _ s1) with (run match ring_lookup (dl_id d) s1.(g_ring) with
    | (Some prev, refusal) => replay env (dl_session d) (dl_id d) prev refusal
    | (None, _) => executeFresh env (dl_session d) (dl_msg d) (dl_cmd d) end s1).
  unfold ring_lookup. destruct (results (g_ring s1) !! dl_id d) as [prev|] eqn:El.
  { eapply (ring_inv_view ids s1); [|done]. intros id0. eapply (run_kept id0 (dl_id d)), ring_replay. }
  change (run _ s1) with (run (executeNew env (dl_session d) (dl_msg d) (dl_cmd d))
    (at_ring (ring_add (dl_id d) s1.(g_ring)) s1)).
  pose proof H1 as (Hn & Hd & Hi & Hr).
  assert (Hnew : dl_id d ∉ s1.(g_ring).(order)).
  { intros Hin. assert (Hx : dl_id d ∈ dom (results (g_ring s1))) by (rewrite Hd; set_solver).
    apply elem_of_dom in Hx as [x Hx]. congruence. }
  destruct (ring_add_inv ids s1 (dl_id d) Hs H1 Hid Hnew) as [Ho Hdom].
  set (s2 := at_ring _ s1).
  pose proof (fun id0 => run_once id0 (dl_id d) (executeNew env (dl_session d) (dl_msg d) (dl_cmd d)) s2
    (ring_new id0 (dl_id d) _ _ _ eq_refl)) as Hrun.
  destruct (Hrun "") as (_ & _ & [= Ho' Hd' _]). cbn in Ho', Hd'. rewrite Ho in Ho'. rewrite Hdom in Hd'.
  unfold ring_inv. rewrite Ho', Hd'. split_and!.
  - apply NoDup_app. split_and!; [done| |apply NoDup_singleton].
    intros x Hx ->%list_elem_of_singleton. done.
  - rewrite Hd. set_solver.
  - set_solver.
  - intros id. destruct (Hrun id) as (n & Hb & [= _ _ ->]). cbn. specialize (Hr id).
    destruct (dl_id d =s id) eqn:E; cbn in Hb.
    + apply str_eqb_eq in E as <-. rewrite bool_decide_eq_false_2 in Hr by done.
      rewrite bool_decide_eq_true_2 by set_solver. cbn in *. lia.
    + apply str_eqb_neq in E. assert (n = 0) as -> by lia. cbn.
      rewrite (bool_decide_ext _ (id ∈ order (g_ring s1))); [done|]. set_solver.
Qed.

(** C17: a command runs at most once: over any sequence of deliveries, one at a
    time, of at most as many ids as the ring holds - in any order, on any
    connections, with any content, any policy and any clock, and however the
    commands end - no id is run twice. *)
Theorem delivered_once (l : list delivery) (s : Svc) (id : string) :
  s.(g_ring) = mkRing [] ∅ ∅ -> s.(g_sent) = [] ->
  Z.of_nat (size (list_to_set (dl_id <$> l) : gset string)) <= commandRingSize ->
  ran id (deliver_all l s).(g_sent) <= 1.
Proof.
  intros Hr Hsent Hl. set (ids := list_to_set (dl_id <$> l) : gset string).
  assert (H : forall k s1, list_to_set (dl_id <$> k) ⊆ ids -> ring_inv ids s1 ->
    ring_inv ids (deliver_all k s1)).
  { induction k as [|d k IH]; intros s1 Hk H1; [done|]. cbn in Hk |- *. apply IH; [set_solver|].
    apply deliver_inv; [done|set_solver|done]. }
  destruct (H l s) as (_ & _ & _ & H1); [done| |].
  - unfold ring_inv. rewrite Hr, Hsent. cbn. split_and!; [constructor|set_solver|set_solver|].
    intros i. rewrite bool_decide_eq_false_2 by set_solver. done.
  - specialize (H1 id). destruct (bool_decide _); cbn in *; lia.
Qed.
End Sequential.

(** * Admission *)

Section Admission.
Variable env : CmdEnv.

(** Every test of [admitCommand], read at one moment. *)
Definition admissible (s : session) (msg : Message) (cmd : Command) (w : Svc) : Prop :=
  ValidateArgs cmd.(cmd_Name) cmd.(cmd_Args) = None /\
  command_expired w.(g_now) msg cmd = false /\
  command_allowed w.(g_cur) cmd.(cmd_Name) = true /\
  (Destructive cmd.(cmd_Name) = true ->
     s.(Secure) = true /\ w.(g_installing) <= 0 /\
     (w.(g_pending) = false \/ w.(g_deadline) <> zero_time /\ w.(g_deadline) <= w.(g_now))).

(** Whether the gate is closed, when it is read. *)
Lemma pending_read w :
  (destructivePendingLocked env w).1 =
  w.(g_pending) && (is_zero_time w.(g_deadline) || t_before w.(g_now) w.(g_deadline)).
Proof.
  unfold destructivePendingLocked, get, mbind, M_bind. destruct (g_pending w) eqn:Ep; cbn [andb].
  2: { cbn. by rewrite Ep. }
  destruct (is_zero_time (g_deadline w)); cbn [andb negb orb]; [by cbn; rewrite Ep|].
  destruct (t_before (g_now w) (g_deadline w)); cbn [andb negb orb]; [by cbn; rewrite Ep|].
  unfold when at 1, clearDestructivePendingLocked, say, store_, modify, gets, ask_, mbind, M_bind, mret, M_ret.
  destruct (negb _); cbn; [|done]. by destruct (RemovePendingCommand _ _ _).
Qed.

(** Running a program one section at a time. *)
Lemma run_then {X B} (f : M Svc X) (g : X -> prog Svc B) w :
  run (atomic f ≫= g) w = let '(x, w1) := f w in run (g x) w1.
Proof. done. Qed.

Lemma admitDestructive_ok cmd w : (run (admitDestructive env cmd) w).1 = None ->
  Destructive cmd.(cmd_Name) = true ->
  w.(g_installing) <= 0 /\
  (w.(g_pending) = false \/ w.(g_deadline) <> zero_time /\ w.(g_deadline) <= w.(g_now)).
Proof.
  unfold admitDestructive. intros H Hd. rewrite Hd in H. cbn [negb] in H.
  rewrite run_then in H. cbn [gets] in H. destruct (0 <? g_installing w) eqn:Ei; [done|].
  bool_to_prop. split; [done|]. unfold destructivePendingNow_ in H. rewrite run_then in H.
  pose proof (pending_read w) as Hr. destruct (destructivePendingLocked env w) as [p w1].
  cbn in Hr. subst p. destruct (g_pending w); [right|by left]. cbn [andb] in H.
  unfold is_zero_time, t_before in H.
  destruct (g_deadline w =? 0) eqn:E1; [done|]. cbn [orb] in H.
  destruct (g_now w <? g_deadline w) eqn:E2; [done|]. bool_to_prop. by split.
Qed.

Lemma admitCommand_ok s msg cmd w :
  (run (admitCommand env s msg cmd) w).1 = None -> admissible s msg cmd w.
Proof.
  unfold admitCommand, admissible. destruct (ValidateArgs _ _); [done|]. intros H.
  rewrite run_then in H. cbn [clock_ gets] in H.
  destruct (command_expired (g_now w) msg cmd); [done|]. rewrite run_then in H. cbn [gets] in H.
  destruct (command_allowed (g_cur w) (cmd_Name cmd)); [|done]. cbn [negb] in H.
  split_and!; try done. intros Hd. rewrite Hd in H. destruct (Secure s); [|done]. cbn [andb negb] in H.
  split; [done|]. by apply (admitDestructive_ok cmd).
Qed.

Lemma executed_admissible (s : session) (msg : Message) (cmd : Command) (w : Svc) :
  ran msg.(msg_ID) (run (executeCommand env s msg cmd) w).2.(g_sent) <> ran msg.(msg_ID) w.(g_sent) ->
  msg.(msg_ID) <> "" /\ w.(g_ring).(results) !! msg.(msg_ID) = None /\ admissible s msg cmd w.
Proof.
  set (id := msg.(msg_ID)). intros H. unfold executeCommand in H. fold id in H.
  assert (Hk : forall (p : prog Svc unit) w1, follows (run_rel id id) (fun l' _ => l' = false) false p ->
    ran id (run p w1).2.(g_sent) = ran id w1.(g_sent)).
  { intros p w1 Hp. by pose proof (run_kept id id p w1 Hp) as [= _ _ ?]. }
  destruct (id =s "") eqn:Ee.
  { destruct H. apply Hk. apply (ring_then id); [apply ring_ack|done]. }
  apply str_eqb_neq in Ee. split; [done|].
  change (run _ w) with (run match ring_lookup id w.(g_ring) with
    | (Some prev, refusal) => replay env s id prev refusal
    | (None, _) => executeFresh env s msg cmd end w) in H.
  unfold ring_lookup in H. destruct (results (g_ring w) !! id) as [prev|].
  { destruct H. apply Hk, ring_replay. }
  split; [done|]. unfold executeFresh in H. rewrite run_then in H. fold id in H.
  cbn [on_ring modify] in H. set (w1 := at_ring _ w) in H.
  change (admissible s msg cmd w1). change (g_sent w) with (g_sent w1) in H. clearbody w1.
  unfold executeNew in H. rewrite run_bind in H.
  pose proof (admitCommand_ok s msg cmd w1) as Ha.
  pose proof (run_kept id id (admitCommand env s msg cmd) w1) as Hv.
  destruct (run (admitCommand env s msg cmd) w1) as [[e|] w2]; [|by apply Ha].
  destruct H. cbn [snd] in Hv. injection (Hv (ring_admitCommand env id id false s msg cmd)) as _ _ Hr.
  cbn [fst snd]. rewrite <-Hr. apply Hk. unfold refuseCommand.
  apply (ring_then id); [apply ring_refuse_view|]. intros _.
  apply (ring_then id); [apply ring_ack|]. done.
Qed.

(** C4: what runs was admitted: a delivery that is executed - rather than
    refused or recognised - had valid arguments for a known verb, had not
    expired by a clock that agrees with the server's, was enabled by the policy
    in force, and, for a restart or a reboot, came over an encrypted connection
    at a moment when no installation was running and no other such command was
    pending. *)
Theorem executed_was_admitted (s : session) (msg : Message) (cmd : Command) (w : Svc) :
  ran msg.(msg_ID) (run (executeCommand env s msg cmd) w).2.(g_sent) <> ran msg.(msg_ID) w.(g_sent) ->
  msg.(msg_ID) <> "" /\ w.(g_ring).(results) !! msg.(msg_ID) = None /\ admissible s msg cmd w.
Proof. apply executed_admissible. Qed.
End Admission.

(** * The committed command *)

Section Committed.
Variable env : CmdEnv.

Lemma pending_effect w : w.(g_pending) = true -> w.(g_deadline) <> zero_time ->
  w.(g_deadline) <= w.(g_now) ->
  let w' := (destructivePendingLocked env w).2 in
  w'.(g_pending) = false /\ w'.(g_installing) = w.(g_installing) /\
  w'.(g_sent) = w.(g_sent) ++ [Expired w.(g_command)] /\
  w'.(g_dir) = (if w.(g_command) =s "" then w.(g_dir)
                else (RemovePendingCommand (env.(c_store) w.(g_tick)) w.(g_command) w.(g_dir)).2).
Proof.
  intros Hp Hd Hn. unfold destructivePendingLocked, get, mbind, M_bind, is_zero_time, t_before.
  rewrite Hp, (proj2 (Z.eqb_neq (g_deadline w) 0) Hd), (proj2 (Z.ltb_ge _ _) Hn). cbn [andb negb].
  unfold when at 1, clearDestructivePendingLocked, say, store_, modify, gets, ask_, mbind, M_bind, mret, M_ret.
  destruct (_ =s ""); cbn; [done|]. by destruct (RemovePendingCommand _ _ _).
Qed.

(** C18: a command that never happened does not block the machine: before its
    deadline a committed restart or reboot refuses every installation and
    changes nothing; from the deadline on the next installation finds the gate
    open, the expiry is reported, and the command's record is removed from the
    state file. *)
Theorem gate_heals (w : Svc) (st : State) :
  w.(g_pending) = true -> w.(g_deadline) <> zero_time -> w.(g_command) <> "" ->
  holds w.(g_dir) st -> no_tmp w.(g_dir) ->
  (env.(c_store) w.(g_tick)).(f_read) = false -> (env.(c_store) w.(g_tick)).(f_save) = None ->
  (w.(g_now) < w.(g_deadline) -> run (beginInstall_ env) w = (false, w)) /\
  (w.(g_deadline) <= w.(g_now) ->
     let '(ok, w') := run (beginInstall_ env) w in
     ok = true /\ w'.(g_pending) = false /\ w'.(g_installing) = w.(g_installing) + 1 /\
     w'.(g_sent) = w.(g_sent) ++ [Expired w.(g_command); InstallStarted] /\
     holds w'.(g_dir) (spec_step (ORemoveCommand w.(g_command)) st)).
Proof.
  intros Hp Hd Hc Hh Ht Hr Hs. pose proof (pending_read env w) as Hread. rewrite Hp in Hread.
  unfold is_zero_time, t_before in Hread. rewrite (proj2 (Z.eqb_neq (g_deadline w) 0) Hd) in Hread. cbn in Hread.
  unfold beginInstall_. rewrite run_atomic. split; intros Hn.
  - unfold destructivePendingLocked, get, mbind, M_bind, is_zero_time, t_before.
    rewrite Hp, (proj2 (Z.eqb_neq (g_deadline w) 0) Hd), (proj2 (Z.ltb_lt _ _) Hn). cbn. by rewrite Hp.
  - pose proof (pending_effect w Hp Hd Hn) as (H1 & H2 & H3 & H4).
    rewrite (proj2 (Z.ltb_ge _ _) Hn) in Hread. unfold mbind, M_bind.
    destruct (destructivePendingLocked env w) as [p w1]. cbn [fst snd] in *. subst p. cbn.
    rewrite H1, H2, H3, <-app_assoc. split_and!; try done.
    rewrite H4, (proj2 (str_eqb_neq _ _) Hc).
    destruct (run_op_refines (c_store env (g_tick w)) (ORemoveCommand (g_command w)) _ st Hh Ht I)
      as [_ [[_ ?]|[He _]]]; [done|]. destruct He. rewrite run_op_update. unfold update. rewrite (holds_load _ _ _ Hh Hr). unfold saveLocked, save_result. by rewrite Hs.
Qed.
End Committed.

(** * The record of a committed command *)

Section Recorded.
Variable env : CmdEnv.

(** An access to the state file that cannot read or cannot write it. *)
Definition faulty (f : faults) : Prop := f.(f_read) = true \/ f.(f_save) <> None.

(** The state file of [w] holds [st]. *)
Definition recorded_in (w : Svc) (st : State) : Prop := holds w.(g_dir) st /\ no_tmp w.(g_dir).

(** A method of the store succeeds, or its access was faulty and the file is as
    it was; it changes the file only. *)
Lemma store_ends o w st : op_fits o -> recorded_in w st ->
  exists e d', run (atomic (store_ env (fun f => run_op f o))) w = (e, at_dir d' (at_tick (S w.(g_tick)) w)) /\
    no_tmp d' /\
    (e = None /\ holds d' (spec_step o st) \/
     e <> None /\ faulty (env.(c_store) w.(g_tick)) /\ holds d' st).
Proof.
  intros Ho [Hh Hn]. rewrite run_atomic. unfold store_, gets, ask_, modify, mbind, M_bind, mret, M_ret. cbn.
  destruct (run_op_refines (c_store env (g_tick w)) o _ st Hh Hn Ho) as [Ht Hr].
  assert (Hf : (run_op (c_store env (g_tick w)) o (g_dir w)).1 <> None -> faulty (c_store env (g_tick w))).
  { intros He. unfold faulty. destruct (f_read _) eqn:Er; [by left|right]. intros Es. apply He.
    rewrite run_op_update. unfold update. rewrite (holds_load _ _ _ Hh Er). unfold saveLocked, save_result. by rewrite Es. }
  destruct (run_op _ o (g_dir w)) as [e d']. cbn in *. exists e, d'. split; [done|]. split; [done|].
  destruct Hr as [?|[He ->]]; [by left|right]. by auto.
Qed.

(** Whether a restart or a reboot was started for this command. *)
Definition performs (id : string) (m : sent) : Prop :=
  match m with Restarted i => i = id | Rebooting i _ => i = id | _ => False end.

Definition added (c : PendingCommand) (st : State) : State :=
  spec_step (OAddCommand c) st.
Definition removed (id : string) (st : State) : State := spec_step (ORemoveCommand id) st.

Variable s : session.
Variable id : string.
Variable st : State.

(** An access was faulty between [w] and [w']. *)
Definition access_failed (w w' : Svc) : Prop :=
  exists n, (w.(g_tick) <= n < w'.(g_tick))%nat /\ faulty (env.(c_store) n).

(** The sender learns of the failure, or has lost the connection. *)
Definition told_or_closed (l : list sent) : Prop :=
  SentClose s ∈ l \/ exists e, SentResult s id (mkResult ResultError 0 None (Some e) false) ∈ l.

(** How a destructive command ends, with [l] sent: performed, on record and
    with the gate closed behind it until its deadline; not put on record, and
    for that not performed; or not performed after all, and taken off record
    unless that failed. *)
Inductive ending (c : PendingCommand) (w w' : Svc) (l : list sent) : Prop :=
| Performed m deadline : m ∈ l -> performs id m -> recorded_in w' (added c st) ->
    w'.(g_pending) = true -> w'.(g_command) = id -> w'.(g_deadline) = deadline ->
    deadline = t_add w.(g_now) serviceRestartGrace \/
      (exists d, m = Rebooting id d /\ deadline = t_add w.(g_now) (wrap64 (d + rebootGrace))) ->
    ending c w w' l
| NotRecorded : Forall (fun m => ~ performs id m) l -> told_or_closed l ->
    faulty (env.(c_store) w.(g_tick)) -> w'.(g_pending) = w.(g_pending) ->
    recorded_in w' st \/ recorded_in w' (removed id st) -> ending c w w' l
| NotPerformed : Forall (fun m => ~ performs id m) l -> told_or_closed l ->
    w'.(g_pending) = (if 0 <? w.(g_installing) then w.(g_pending) else false) ->
    recorded_in w' (removed id (added c st)) \/ access_failed w w' /\ recorded_in w' (added c st) ->
    ending c w w' l.

Definition ends_well (c : PendingCommand) (w w' : Svc) : Prop :=
  exists l, w'.(g_sent) = w.(g_sent) ++ l /\ ending c w w' l.

(** Taking the record off: the file afterwards. *)
Definition taken_off (x : State) (w w' : Svc) : Prop :=
  w'.(g_pending) = w.(g_pending) /\ (w.(g_tick) < w'.(g_tick))%nat /\
  (recorded_in w' (removed id x) \/ faulty (env.(c_store) w.(g_tick)) /\ recorded_in w' x).

Lemma remove_run w x : recorded_in w x ->
  let w' := (run (atomic (store_ env (fun f => RemovePendingCommand f id)) ;; mret tt) w).2 in
  taken_off x w w' /\ w'.(g_sent) = w.(g_sent).
Proof.
  intros Hw. rewrite run_bind.
  destruct (store_ends (ORemoveCommand id) w _ I Hw) as (e & d' & He & Hn & Hd). change (fun f => run_op f (ORemoveCommand id)) with
    (fun f => RemovePendingCommand f id) in He. rewrite He. cbn. split; [|done]. split; [done|]. split; [cbn; lia|].
  destruct Hd as [[_ Hd]|(_ & Hf & Hd)]; [left|right]; by split_and?.
Qed.

Lemma fail_run err w x : recorded_in w x ->
  let w' := (run (failDestructive env s id err) w).2 in
  taken_off x w w' /\ exists e, w'.(g_sent) = w.(g_sent) ++ [SentResult s id (mkResult ResultError 0 None (Some e) false)].
Proof.
  intros Hw. unfold failDestructive. rewrite run_bind.
  destruct (store_ends (ORemoveCommand id) w _ I Hw) as (e & d' & He & Hn & Hd). change (fun f => run_op f (ORemoveCommand id)) with
    (fun f => RemovePendingCommand f id) in He. rewrite He, run_atomic. split; [|by eexists]. split; [done|]. split; [cbn; lia|].
  destruct Hd as [[_ Hd]|(_ & Hf & Hd)]; [left|right]; by split_and?.
Qed.

Lemma taken_ending c w w1 w' l : taken_off (added c st) w1 w' -> (w.(g_tick) <= w1.(g_tick))%nat ->
  Forall (fun m => ~ performs id m) l -> told_or_closed l ->
  w1.(g_pending) = (if 0 <? w.(g_installing) then w.(g_pending) else false) -> ending c w w' l.
Proof.
  intros (Hp & Ht & Hr) Hw Hl Htold Hg. apply NotPerformed; [done|done|congruence|].
  destruct Hr as [?|[Hf ?]]; [by left|right]. split; [|done]. exists w1.(g_tick). split; [lia|done].
Qed.

(** None of the messages performs anything. *)
Ltac none := repeat (apply Forall_cons; split; [by intros []|]); by apply Forall_nil.

(** ** Sections, run *)

Definition cleared (w : Svc) : Svc :=
  at_skiplogged false (at_command "" (at_deadline zero_time (at_pending false w))).
Definition committed (i : string) (d : time) (w : Svc) : Svc :=
  at_skiplogged false (at_command i (at_deadline d (at_pending true w))).

Lemma commit_run i d w : run (commitDestructive i d) w =
  if 0 <? w.(g_installing) then (false, w) else (true, committed i d w).
Proof.
  unfold commitDestructive. rewrite run_atomic. unfold mbind, M_bind, gets. by destruct (0 <? _).
Qed.

Lemma restart_run i w : restart env i w =
  (env.(c_restart) w.(g_tick),
   let w' := at_tick (S w.(g_tick)) w in
   match env.(c_restart) w.(g_tick) with
   | None => at_sent (w'.(g_sent) ++ [Restarted i]) w'
   | Some _ => w'
   end).
Proof. unfold restart, ask_, mbind, M_bind. by destruct (c_restart env (g_tick w)). Qed.

Lemma reboot_run i d w : reboot env i d w =
  (env.(c_reboot) w.(g_tick),
   let w' := at_tick (S w.(g_tick)) w in
   match env.(c_reboot) w.(g_tick) with
   | None => at_sent (w'.(g_sent) ++ [Rebooting i d]) w'
   | Some _ => w'
   end).
Proof. unfold reboot, ask_, mbind, M_bind. by destruct (c_reboot env (g_tick w)). Qed.

(** C32: what becomes of an admitted restart or reboot, its handler taken
    alone, whichever accesses to the state file fail. It is performed only once
    it is on record, and then stays on record, with the gate closed behind it
    until its deadline. When it cannot be put on record it is not performed.
    When it is not performed after all - an installation came first, or the
    action could not be started - its record is taken off again, unless that
    access fails, and the gate is open unless it was closed before. In both
    cases the sender is told, or its connection is closed. What a second
    destructive command can do in between is [second_command_reopens_gate]. *)
Theorem destructive_recorded (cmd : Command) (w : Svc) :
  Destructive cmd.(cmd_Name) = true -> 0 <= w.(g_now) < max_time -> recorded_in w st ->
  ends_well (mkPendingCommand id cmd.(cmd_Name) w.(g_now)) w
    (run (runDestructive env s id cmd) w).2.
Proof.
  intros Hd Hnow Hw. unfold runDestructive. rewrite run_then. cbn [clock_ gets].
  set (c := mkPendingCommand id (cmd_Name cmd) (g_now w)).
  rewrite run_bind. destruct (store_ends (OAddCommand c) w st Hnow Hw) as (e & d' & He & Hn & Hadd).
  change (fun f => run_op f (OAddCommand c)) with (fun f => AddPendingCommand f c) in He.
  rewrite He. set (w1 := at_dir d' _). destruct Hadd as [[-> Hh]|(Hne & Hf & Hh)].
  2: { destruct e as [e|]; [|done]. assert (H1 : recorded_in w1 st) by by split.
       destruct (fail_run e w1 st H1) as ((Hp & _ & Hr) & r & Hs). eexists. split; [exact Hs|].
       apply NotRecorded; [none|right; exists r; apply list_elem_of_here|exact Hf|exact Hp|].
       destruct Hr as [?|[_ ?]]; auto. }
  assert (H1 : recorded_in w1 (added c st)) by by split.
  unfold Destructive in Hd. destruct (cmd_Name cmd =s CmdServiceRestart) eqn:Er.
  - rewrite run_then. cbn [say modify]. rewrite run_then. cbn [clock_ gets].
    set (w2 := at_sent _ w1). assert (H2 : recorded_in w2 (added c st)) by done.
    assert (Hclose : told_or_closed [SentClose s]) by (left; apply list_elem_of_here).
    rewrite run_bind, commit_run. change (g_installing w2) with (g_installing w).
    destruct (0 <? g_installing w) eqn:Ei; cbn [negb].
    + destruct (remove_run w2 _ H2) as (Ht & Hs). eexists. split; [exact Hs|].
      apply (taken_ending c w w2); [exact Ht|cbn; lia|none|done|by rewrite Ei].
    + rewrite run_then, restart_run. set (w3 := committed _ _ w2).
      destruct (c_restart env (g_tick w3)) as [e|].
      * destruct (remove_run (at_tick (S (g_tick w3)) (cleared w3)) _ H2) as (Ht & Hs).
        eexists. split; [exact Hs|]. eapply (taken_ending c w); [exact Ht|cbn; lia|none|done|by rewrite Ei].
      * eexists. split; [cbn; by rewrite <-app_assoc|].
        eapply (Performed _ _ _ _ (Restarted id)); try done; [set_solver|by left].
  - cbn [orb] in Hd. rewrite Hd. cbv zeta. rewrite run_then. unfold ask_.
    set (w2 := at_tick _ w1). assert (H2 : recorded_in w2 (added c st)) by done.
    set (delay := reboot_delay _ _). rewrite run_then. cbn [clock_ gets].
    rewrite run_bind, commit_run. change (g_installing w2) with (g_installing w).
    destruct (0 <? g_installing w) eqn:Ei; cbn [negb].
    + destruct (fail_run "an install started after admission" w2 _ H2) as (Ht & r & Hs).
      eexists. split; [exact Hs|].
      apply (taken_ending c w w2); [exact Ht|cbn; lia|none|right; exists r; apply list_elem_of_here|by rewrite Ei].
    + rewrite run_then, reboot_run. set (w3 := committed _ _ w2).
      destruct (c_reboot env (g_tick w3)) as [e|].
      * destruct (fail_run e (at_tick (S (g_tick w3)) (cleared w3)) _ H2) as (Ht & r & Hs).
        eexists. split; [exact Hs|].
        eapply (taken_ending c w); [exact Ht|cbn; lia|none|right; exists r; apply list_elem_of_here|by rewrite Ei].
      * eexists. split; [done|].
        eapply (Performed _ _ _ _ (Rebooting id delay)); try done; [set_solver|right; by exists delay].
Qed.
End Recorded.

(** * Runs on concrete inputs *)

Module Bench.
#[local] Existing Instance Dotted.lib.

(** Everything works, except that a service restart cannot be launched. *)
Definition env : CmdEnv :=
  mkCmdEnv (fun n => mkFaults false false None "") (fun _ => mkUserSession "" NoSession 0)
    (fun _ => Some "access denied") (fun _ => None) (fun _ => true)
    (fun _ _ => Ok (JObj ∅, false)).

(** A policy that allows every command. *)
Definition cyc : cycleState :=
  let c := SourcePolicy.Chained.cyc in
  let d := c.(cyc_eff).(Doc) in
  mkCycle c.(cyc_snap) c.(cyc_host)
    (mkEffective (mkDocument d.(doc_SchemaVersion) d.(Revision) d.(GeneratedAt) d.(doc_Refresh)
       d.(Servers) d.(DefaultServer) d.(doc_IPCProtocol) d.(DCLookupMap) d.(doc_HostIntegrity)
       d.(doc_Control) d.(doc_Updater) d.(doc_Logging)
       (mkClientWSSettings true (Some knownClientWSCommands)) d.(Overrides))
       c.(cyc_eff).(Applied) c.(cyc_eff).(e_parsed)) c.(cyc_site) c.(cyc_chain).

Definition now : time := cyc.(cyc_host).(h_Now).
Definition s0 : Svc :=
  mkSvc now 0 0 false 0 "" false ∅ (mkRing [] ∅ ∅) ∅ (Some cyc) [].

Definition sess : session := mkSession 1 true.
Definition message (id : string) : Message :=
  mkMessage "command" id "" (format_rfc3339 now) None.
Definition command (name : string) : Command := mkCommand name None "2030-01-01T00:00:00Z" "".
Definition order_ (id name : string) : prog Svc unit := executeCommand env sess (message id) (command name).

Definition outline (m : sent) : string :=
  match m with
  | SentAck _ id a => (if a.(Accepted) then "accepted " else "refused ") +:+ id
  | SentResult _ id r => "result " +:+ id
  | SentClose _ => "close"
  | Restarted id => "restarting " +:+ id
  | Rebooting id _ => "rebooting " +:+ id
  | Claimed n => "claimed " +:+ n
  | Released n => "released " +:+ n
  | Ran id n => "ran " +:+ id
  | InstallStarted => "install started"
  | InstallEnded => "install ended"
  | Expired id => "expired " +:+ id
  end.
Lemma arrive env (ps : list (prog Svc unit)) : Forall (thread env) ps ->
  forall ts s, service_run env (ts, s) (ts ++ ps, s).
Proof.
  induction 1 as [|p ps Hp _ IH]; intros ts s; [by rewrite app_nil_r|].
  eapply rtc_l; [by apply StepArrive|]. specialize (IH (ts ++ [p]) s). by rewrite <-app_assoc in IH.
Qed.

(** Threads that arrive together and then move as scheduled. *)
Lemma scheduled (ps : list (prog Svc unit)) l s : Forall (thread env) ps ->
  service_run env ([], s) ((schedule l (ps, s)).1, (schedule l (ps, s)).2).
Proof. intros H. rewrite <-surjective_pairing. etrans; [by apply (arrive env ps H [])|apply schedule_steps]. Qed.

Definition two_verbs : list (prog Svc unit) :=
  [order_ "A" CmdMachineReboot; order_ "B" CmdServiceRestart; installThread env false].
Definition one_id : list (prog Svc unit) := [order_ "A" CmdMachineInfo; order_ "A" CmdMachineInfo].

Lemma two_verbs_threads : Forall (thread env) two_verbs.
Proof. repeat constructor. Qed.
Lemma one_id_threads : Forall (thread env) one_id.
Proof. repeat constructor. Qed.
End Bench.

Import Bench.

(** two different destructive commands can both be committed: each is
    admitted before the other is committed, and [commitDestructive] tests the
    running installations but not the flag it is about to overwrite. When the
    second one then cannot be launched it clears the flag, and an installation
    starts although the first one's reboot is counting down. *)
Theorem second_command_reopens_gate :
  exists ts s, service_run env ([], s0) (ts, s) /\ s.(g_now) = s0.(g_now) /\
    drop 6 (outline <$> s.(g_sent)) =
      ["rebooting A"; "released machine.reboot"; "close"; "released service.restart";
       "install started"] /\
    s.(g_installing) = 1.
Proof.
  pose proof (scheduled two_verbs (repeat 0%nat 9 ++ repeat 1%nat 9 ++ repeat 0%nat 20 ++
    repeat 1%nat 20 ++ [2%nat]) s0 two_verbs_threads) as H.
  eexists _, _. split; [exact H|]. clear H. vm_compute. auto.
Qed.

(** two deliveries of one command can both run: the ring is read and
    written in separate critical sections, so a redelivery on a second
    connection that reads it before the first has written to it is taken for
    new, and runs again once the first has finished. *)
Theorem overlapping_redelivery_runs_twice :
  exists ts s, service_run env ([], s0) (ts, s) /\ ran "A" s.(g_sent) = 2.
Proof.
  pose proof (scheduled one_id ([0%nat; 1%nat] ++ repeat 0%nat 20 ++ repeat 1%nat 20) s0
    one_id_threads) as H.
  eexists _, _. split; [exact H|]. clear H. vm_compute. auto.
Qed.

Lemma install_excludes_destructive_witness :
  let c := schedule (repeat 0%nat 20) ([order_ "A" CmdMachineReboot], s0) in
  c.2.(g_pending) = true /\ c.2.(g_installing) = 0.
Proof.
  cbv zeta. pose proof (scheduled [order_ "A" CmdMachineReboot] (repeat 0%nat 20) s0
    ltac:(repeat constructor)) as H.
  split; [vm_compute; reflexivity|].
  apply (install_excludes_destructive env _ s0 _ ltac:(by vm_compute) H). vm_compute. reflexivity.
Defined.

Lemma one_handler_per_verb_witness :
  let c := schedule (repeat 0%nat 8) ([order_ "A" CmdMachineReboot], s0) in
  active CmdMachineReboot c.2.(g_sent) = 1.
Proof.
  cbv zeta. pose proof (scheduled [order_ "A" CmdMachineReboot] (repeat 0%nat 8) s0
    ltac:(repeat constructor)) as H.
  etrans; [exact (one_handler_per_verb env CmdMachineReboot _ s0 _ ltac:(by vm_compute) H)|].
  vm_compute. reflexivity.
Defined.

Definition redelivered : list delivery :=
  [mkDelivery now sess (message "A") (command CmdMachineInfo);
   mkDelivery (now + second) (mkSession 2 true) (message "A") (command CmdMachineInfo)].

Lemma delivered_once_witness :
  outline <$> (deliver_all env redelivered s0).(g_sent) =
    ["claimed machine.info"; "accepted A"; "ran A"; "result A"; "released machine.info";
     "accepted A"; "result A"] /\
  ran "A" (deliver_all env redelivered s0).(g_sent) <= 1.
Proof.
  split; [vm_compute; reflexivity|].
  apply (delivered_once env redelivered s0 "A"); [reflexivity|reflexivity|].
  vm_compute. discriminate.
Defined.

Lemma executed_was_admitted_witness :
  admissible sess (message "A") (command CmdMachineReboot) s0.
Proof.
  apply (executed_was_admitted env sess (message "A") (command CmdMachineReboot) s0).
  vm_compute. discriminate.
Defined.

(** A reboot committed at [now] with five minutes of delay. *)
Definition rebooting : Svc := (run (order_ "A" CmdMachineReboot) s0).2.

Lemma gate_heals_witness :
  let w := at_now (now + 10 * minute) rebooting in
  (run (beginInstall_ env) rebooting).1 = false /\
  let '(ok, w') := run (beginInstall_ env) w in
  ok = true /\ drop 5 (outline <$> w'.(g_sent)) = ["expired A"; "install started"].
Proof.
  cbv zeta. split; [vm_compute; reflexivity|].
  set (st := spec_step (OAddCommand (mkPendingCommand "A" CmdMachineReboot now)) empty_state).
  assert (Hh : holds (at_now (now + 10 * minute) rebooting).(g_dir) st).
  { split; [|right; vm_compute; reflexivity].
    repeat split; try discriminate. constructor; [vm_compute; split; [discriminate|reflexivity]|constructor]. }
  destruct (gate_heals env (at_now (now + 10 * minute) rebooting) st) as [_ H];
    [vm_compute; reflexivity|vm_compute; discriminate|vm_compute; discriminate|exact Hh
    |intros r; reflexivity|reflexivity|reflexivity|].
  specialize (H ltac:(vm_compute; discriminate)).
  destruct (run (beginInstall_ env) (at_now (now + 10 * minute) rebooting)) as [ok w'].
  destruct H as (H1 & _ & _ & H2 & _). split; [exact H1|]. rewrite H2. vm_compute. reflexivity.
Defined.

Lemma destructive_recorded_witness :
  ends_well env sess "A" empty_state (mkPendingCommand "A" CmdMachineReboot now) s0
    (run (runDestructive env sess "A" (command CmdMachineReboot)) s0).2.
Proof.
  apply (destructive_recorded env sess "A" empty_state
    (command CmdMachineReboot) s0); [reflexivity|vm_compute; split; [discriminate|reflexivity]|].
  split; [|intros r; reflexivity]. split; [repeat split; try discriminate; constructor|by left].
Defined.
