(* ===== verification/Checks.v ===== *)
(** The dry runs of internal/service/clientcmd.go: [emlyManifestCheck] and
    [updaterManifestCheck], which answer emly.manifest.check and
    updater.manifest.check by the cycle's own resolution without acting on it.
    They run in [World], beside a cycle. *)
From S2P Require Import Prelude Rfc3339 Json Files Versions Manifest Net PolicyDoc PolicyMatch State.
From S2P Require Import SelfUpdate Source Config PolicyStore RemoteConfig MachineInfo SourcePolicy.
From S2P Require Import Wire Download Installer World Cycle CycleInv CycleProps.

(** [manifestError]; [timed_out]: the error wraps the context's deadline. *)
Definition manifestError (timed_out : bool) (e : option fetch_error) : ErrorBody :=
  if match e with Some e => is_not_found e | None => false end
  then mkError ErrNotFound_code "endpoint not found"
  else if timed_out then mkError ErrTimeout "context deadline exceeded"
  else mkError ErrSourcesUnreachable "no update source reachable".

(** A comparison whose error is dropped. *)
Definition less_or_false `{VersionLib} (a b : string) : bool :=
  match Less a b with Ok r => r | Err _ => false end.

Definition pending_info (p : Pending) : PendingInfo :=
  mkPendingInfo p.(pd_Version) p.(pd_Forced) (format_rfc3339 p.(DownloadedAt)).

(** The decision of [updaterManifestCheck]. *)
Definition updaterDecision (newer : bool) (d : Decision) (rec : option SelfUpdate) (m : UpdaterManifest) :
    string :=
  let tried := match rec with Some r => r.(su_Version) =s m.(um_Version) | None => false end in
  let gave_up := match rec with Some r => r.(GaveUp) | None => false end in
  if negb newer then "up_to_date"
  else if d.(GiveUp) || (tried && gave_up) then "gave_up"
  else if d.(Install) then "install_next_cycle"
  else if tried then "cooldown"
  else "up_to_date".

Section Checks.
Context {versions : VersionLib} {inilib : IniLib} {digest : Sha256}.
Variable env : Env.
Variable cfg : Config.
Variable machine : Info.

(** [emlyManifestCheck]. *)
Definition emlyManifestCheck (cyc : cycleState) : M World ManifestCheck :=
  ini ← gets w_ini;
  let emly := ResolveEMLyWithChannel ini (Channel cyc.(cyc_eff).(Doc).(doc_Updater)) in
  now ← clock env;
  st ← read_state env;
  let installed := if emly.(FreshInstall) then "" else emly.(InstalledVersion) in
  let pending := match st with Ok st => pending_info <$> st.(st_Pending) | Err _ => None end in
  r ← resolveTargetWith env cfg machine cyc emly.(ei_Channel) false;
  match r with
  | Err e =>
      timed_out ← ask env.(e_cancelled);
      mret (mkManifestCheck "emly" installed emly.(ei_Channel) "" false false "" "up_to_date" pending
              None (format_rfc3339 now) (Some (manifestError timed_out e)))
  | Ok (src, m, target) =>
      let newer := less_or_false emly.(InstalledVersion) target.(tg_Version) in
      let forced := match Forced m emly.(InstalledVersion) with Ok b => b | Err _ => false end in
      at_ ← clock env;
      running ← ask env.(e_running);
      mret (mkManifestCheck "emly" installed emly.(ei_Channel) target.(tg_Version) newer forced
              m.(MinRequiredVersion)
              (emlyDecision newer forced running (negb (UpdaterEnabled cyc.(cyc_eff) at_).1))
              pending (serverRef cyc src.(src_ManifestURL)) (format_rfc3339 now) None)
  end.

Definition no_decision : Decision := mkDecision false 0 false NotPublished.

(** [updaterManifestCheck]. *)
Definition updaterManifestCheck (cyc : cycleState) : M World ManifestCheck :=
  now ← clock env;
  let mc decision source err available newer :=
    mkManifestCheck "updater" Version "" available newer false "" decision None source
      (format_rfc3339 now) err in
  if negb cyc.(cyc_eff).(Doc).(doc_Updater).(us_SelfUpdate).(tg_Enabled)
  then mret (mc "disabled" None None "" false)
  else
    r ← resolveUpdaterManifestWith env cfg machine cyc false;
    match r with
    | Err e =>
        timed_out ← ask env.(e_cancelled);
        mret (mc "up_to_date" None (Some (manifestError timed_out e)) "" false)
    | Ok (_, (m, servedBy)) =>
        let newer := less_or_false Version m.(um_Version) in
        st ← read_state env;
        let rec := match st with Ok st => st.(st_SelfUpdate) | Err _ => None end in
        at_ ← clock env;
        let d := match Decide Version (Some m) rec at_ with Ok d => d | Err _ => no_decision end in
        mret (mc (updaterDecision newer d rec m) (serverRef cyc servedBy) None
                m.(um_Version) newer)
    end.

(** * A dry run changes nothing *)

#[local] Instance checks_network : Network World := cycle_network env.

(** Everything the service remembers but the preferred server. *)
Definition memory (w : World) :=
  (w.(w_fs), w.(w_ini), w.(w_rc), w.(w_wakes), w.(w_announced), w.(w_failed),
   (w.(w_notified), w.(w_trigger), w.(w_wakeReason), w.(w_landed), w.(w_installing), w.(w_skiplogged))).

Definition is_request (a : action) : Prop := match a with ARequest _ => True | _ => False end.

(** From [w], only requests have been made; the preference may have been
    forgotten, never changed to another server. *)
Definition dry (w w' : World) : Prop :=
  memory w' = memory w /\
  (exists l, w'.(w_trace) = w.(w_trace) ++ l /\ Forall is_request l) /\
  (w'.(w_preferred) = w.(w_preferred) \/ w'.(w_preferred) = None).

Lemma dry_refl w : dry w w.
Proof. split_and!; [done| |by left]. exists []. by rewrite app_nil_r. Qed.

Section Dry.
Variable w0 : World.
Abbreviation I := (dry w0).

Lemma dry_tick : preserves I tick.
Proof. intros w Hw. exact Hw. Qed.
Lemma dry_ask {A} (f : nat -> A) : preserves I (ask f).
Proof. unfold ask. apply preserves_bind; [apply dry_tick|intros; apply preserves_ret]. Qed.
Lemma dry_request rq : preserves I (do_request rq).
Proof.
  unfold do_request, checks_network, cycle_network, world_network.
  apply preserves_bind; [|intros; apply preserves_bind; [apply dry_tick|intros; apply preserves_ret]].
  intros w (Hm & (l & Ht & Hl) & Hp). split_and!; [exact Hm| |exact Hp].
  exists (l ++ [ARequest rq.(rq_url)]). cbn. rewrite Ht, <-app_assoc. split; [done|].
  apply Forall_app. split; [done|]. by repeat constructor.
Qed.
#[local] Hint Resolve dry_tick dry_ask dry_request : preserves.

Lemma dry_load : preserves I (read_state env).
Proof. unfold read_state. preserve. Qed.

Lemma preferredChain_forgets cyc p :
  (preferredChain cyc p).2 = p \/ (preferredChain cyc p).2 = None.
Proof. unfold preferredChain. repeat case_match; cbn; auto. Qed.

Lemma newSource_ticks url w : exists n, (newSource env cfg machine url w).2 = put_tick n w.
Proof. by eexists. Qed.

Lemma newSources_tick urls : forall w,
  exists n, (mapM (M:=M World) (newSource env cfg machine) urls w).2 = put_tick n w.
Proof.
  induction urls as [|u urls IH]; intros w; [by exists (w_tick w); destruct w|].
  cbn. unfold mbind, M_bind. destruct (newSource_ticks u w) as [n Hn].
  destruct (newSource env cfg machine u w) as [x w1]. cbn in Hn. subst w1.
  destruct (IH (put_tick n w)) as [n' Hn'].
  destruct (mapM (M:=M World) _ urls (put_tick n w)) as [xs w2]. cbn in *. subst w2. by exists n'.
Qed.

Lemma dry_resolver cyc : preserves I (cycle_resolver env cfg machine cyc).
Proof.
  unfold cycle_resolver, newResolver. intros w (Hm & Ht & Hp). unfold gets, mbind, M_bind.
  pose proof (preferredChain_forgets cyc w.(w_preferred)) as Hf.
  destruct (preferredChain cyc (w_preferred w)) as [chain p']. cbn [snd] in Hf. cbv zeta.
  set (urls := resolver_urls cyc chain).
  destruct (newSource_ticks (from_opt "" (head urls)) w) as [n Hn].
  destruct (newSource env cfg machine (from_opt "" (head urls)) w) as [primary w1].
  cbn [snd] in Hn. subst w1. destruct (newSources_tick (tail urls) (put_tick n w)) as [n' Hn'].
  destruct (mapM (M:=M World) _ (tail urls) (put_tick n w)) as [fbs w2]. cbn [snd] in Hn'. subst w2.
  cbn. split_and!; [exact Hm|exact Ht|]. cbn. destruct Hf as [-> | ->]; [exact Hp|by right].
Qed.

Lemma dry_resolveWith {T} (f : HTTPSource -> M World (result fetch_error T)) r :
  (forall s, preserves I (f s)) -> preserves I (resolveWith (wait env) (ctx_done env) f r).
Proof.
  intros Hf. unfold resolveWith. cbv zeta.
  apply preserves_bind; [apply primary_loop_keeps; [intros; apply dry_ask|apply dry_ask|done]|].
  intros [[x|[e|]] pe]; try apply preserves_ret.
  apply preserves_bind; [apply fallback_loop_keeps; [apply dry_ask|done]|].
  intros. apply preserves_ret.
Qed.

Lemma dry_getJSON s url : preserves I (getJSON s url).
Proof. unfold getJSON. apply preserves_bind; [apply dry_request|intros; apply preserves_ret]. Qed.

Lemma dry_target cyc ch : preserves I (resolveTargetWith env cfg machine cyc ch false).
Proof.
  unfold resolveTargetWith. apply preserves_bind; [apply dry_resolver|]. intros r.
  apply preserves_bind.
  - apply dry_resolveWith. intros s. unfold FetchManifest.
    apply preserves_bind; [apply dry_getJSON|intros; apply preserves_ret].
  - intros [[[src m]|e] pe]; [|apply preserves_ret].
    apply preserves_bind; [apply preserves_ret|intros; apply preserves_ret].
Qed.

Lemma dry_updater cyc : preserves I (resolveUpdaterManifestWith env cfg machine cyc false).
Proof.
  unfold resolveUpdaterManifestWith. apply preserves_bind; [apply dry_resolver|]. intros r.
  apply preserves_bind.
  - apply dry_resolveWith. intros s. destruct (UpdaterManifestURL cfg _); [|apply preserves_ret].
    apply preserves_bind; [|intros; apply preserves_ret]. unfold FetchUpdaterManifest.
    apply preserves_bind; [apply dry_getJSON|intros; apply preserves_ret].
  - intros [[[src m]|e] pe]; [|apply preserves_ret].
    apply preserves_bind; [apply preserves_ret|intros; apply preserves_ret].
Qed.
#[local] Hint Resolve dry_load dry_target dry_updater : preserves.

Lemma emly_dry cyc : preserves I (emlyManifestCheck cyc).
Proof. unfold emlyManifestCheck, clock. preserve; eauto with preserves. Qed.
Lemma updater_dry cyc : preserves I (updaterManifestCheck cyc).
Proof. unfold updaterManifestCheck, clock. preserve; eauto with preserves. Qed.
End Dry.

(** a status check changes nothing: whatever the servers answer, the dry
    runs of both manifests leave the files, the state file, the policy, the
    wake-ups and everything reported exactly as they were and do nothing but
    requests; they never pin the machine to a server - at most a preference
    that the chain no longer lists is forgotten. *)
Theorem dry_run (cyc : cycleState) (w : World) :
  dry w (emlyManifestCheck cyc w).2 /\
  dry w (updaterManifestCheck cyc w).2.
Proof. split; [apply emly_dry|apply updater_dry]; apply dry_refl. Qed.
End Checks.

(** * The server a check reports *)

Lemma trim_right_app f s : exists t, s = trim_right f s +:+ t /\ string_forallb f t = true.
Proof.
  induction s as [|c s (t & Hs & Ht)]; [by exists ""|]. cbn.
  destruct (trim_right f s) as [|d r] eqn:E.
  - destruct (f c) eqn:Ef; [exists (String c s)|exists s].
    + cbn. rewrite Ef. cbn in Hs. by subst.
    + cbn in Hs. subst. done.
  - exists t. split; [|done]. cbn in *. by f_equal.
Qed.

(** Slashes cannot replace "/updater". *)
Lemma updater_segment a t x : string_forallb (is_char "/") t = true ->
  (a +:+ t) +:+ x <> a +:+ "/updater" +:+ x.
Proof.
  intros Ht. induction a as [|c a IH]; cbn.
  - destruct t as [|c t]; [|destruct t as [|d t]].
    + cbn. intros H. apply (f_equal String.length) in H. cbn in H. lia.
    + cbn in Ht |- *. intros [= -> H]. apply (f_equal String.length) in H. cbn in H. lia.
    + cbn in Ht |- *. intros [= -> -> H]. by rewrite andb_false_r in Ht.
  - intros [= H]. by apply IH.
Qed.

(** a check of the updater's manifest never reports a primary server: the
    role compares the endpoint that served the updater manifest with the EMLy
    manifest URL it was derived from, and the two always differ - so a machine
    at a site that was served by its own primary reports a backup. *)
Theorem updater_check_never_primary (cfg : Config) (cyc : cycleState) (h url : string) (rest : list string) :
  cfg.(SelfUpdateManifestURL) = "" -> cyc.(cyc_site) <> "" -> cyc.(cyc_chain) = h :: rest ->
  UpdaterManifestURL cfg (ManifestURL cyc.(cyc_eff) h) = Ok url ->
  serverRef cyc url = Some (mkServerRef url "backup").
Proof.
  intros Hc Hs Hh. unfold UpdaterManifestURL. rewrite Hc. cbn [str_eqb negb String.eqb].
  set (u := ManifestURL (cyc_eff cyc) h). destruct (u =s "") eqn:Eu; [done|].
  destruct (url_Parse u); [|done]. destruct (split_suffix u) as [base suffix] eqn:Es. intros Hu.
  assert (url = trim_slashes base +:+ "/updater" +:+ suffix) as -> by (injection Hu as <-; reflexivity). clear Hu.
  assert (Hsplit : forall s, s = (split_suffix s).1 +:+ (split_suffix s).2).
  { induction s as [|c s IH]; [done|]. cbn. destruct (_ || _); [done|].
    destruct (split_suffix s) as [a b]. cbn in *. by rewrite IH at 1. }
  specialize (Hsplit u). rewrite Es in Hsplit. cbn [fst snd] in Hsplit.
  destruct (trim_right_app (is_char "/") base) as (t & Hb & Ht).
  assert (Hne : trim_slashes base +:+ "/updater" +:+ suffix <> u).
  { rewrite Hsplit. rewrite Hb at 2. intros H. by eapply updater_segment. }
  unfold serverRef. rewrite Hh, (proj2 (str_eqb_neq _ _) Hs). fold u.
  assert (H0 : trim_slashes base +:+ "/updater" +:+ suffix <> "") by (by destruct (trim_slashes base)).
  by rewrite (proj2 (str_eqb_neq _ _) Hne), (proj2 (str_eqb_neq _ _) H0).
Qed.

Lemma updater_check_never_primary_witness :
  serverRef Scenario.cyc "http://10.20.0.5:8080/emly/v2/updates/manifest/updater" =
    Some (mkServerRef "http://10.20.0.5:8080/emly/v2/updates/manifest/updater" "backup").
Proof.
  apply (updater_check_never_primary ex_config Scenario.cyc "lan" _ ["main"]);
    [reflexivity|vm_compute; discriminate|vm_compute; reflexivity|vm_compute; reflexivity].
Defined.
