(* ===== verification/Winget.v ===== *)
(** internal/winget/winget.go, the apps.list_upgradable command of
    internal/service/clientcmd.go, and tools/winget-update-parser.

    PowerShell is an oracle: how its process ended and what it printed. Its
    output is its bytes and the value they denote when they are valid JSON. The
    payload's size is the length of what [encoding/json] writes for it, with
    its escapes; bytes above ASCII count as one each (valid UTF-8). Error texts
    of the libraries are abridged. *)
From S2P Require Import Prelude Rfc3339 Json Paths Layout MachineInfo Wire Gate.

#[local] Existing Instance slice_codec.

(** * Packages and their listing *)

(** [Package]. *)
Record Package := mkPackage {
  pk_Name : string;
  pk_ID : string;
  pk_InstalledVersion : string;
  pk_Available : string;
  pk_Source : string
}.

#[export] Instance Package_eq_dec : EqDecision Package.
Proof. solve_decision. Defined.

#[export] Instance Package_codec : Codec Package := {|
  zero := mkPackage "" "" "" "" "";
  enc x := obj [("Name", enc x.(pk_Name)); ("Id", enc x.(pk_ID));
    ("InstalledVersion", enc x.(pk_InstalledVersion)); ("Available", enc x.(pk_Available));
    ("Source", enc x.(pk_Source))];
  dec := dec_struct (mkPackage "" "" "" "" "") (fun m =>
    a ← field m "Name"; b ← field m "Id"; c ← field m "InstalledVersion";
    d ← field m "Available"; e ← field m "Source"; Some (mkPackage a b c d e)) |}.

(** What a run printed: its bytes, and the value they denote past a byte-order
    mark and blanks. *)
Record output := mkOutput { out_text : string; out_json : option json }.
Definition BOM : string :=
  String (ascii_of_nat 239) (String (ascii_of_nat 187) (String (ascii_of_nat 191) "")).

(** The errors of the package; the last two are other errors, by their text. *)
Inductive winget_error :=
| PowerShellNotFound
| PowerShell7Required
| ModuleNotInstalled
| ExitError (Code : Z) (Stderr : string)
| InvalidJSON (excerpt : string)
| OtherError (text : string).

(** [Error]. *)
Definition winget_Error (e : winget_error) : string :=
  match e with
  | PowerShellNotFound => "powershell.exe not found in PATH"
  | PowerShell7Required =>
      "Microsoft.WinGet.Client does not support Windows PowerShell when running as SYSTEM"
  | ModuleNotInstalled => "PowerShell module Microsoft.WinGet.Client is not installed"
  | ExitError code stderr =>
      "powershell exited with code " +:+ pretty code +:+ ": " +:+ trim_space stderr
  | InvalidJSON excerpt => "invalid JSON from powershell; output starts with: " +:+ excerpt
  | OtherError text => text
  end.

(** How the process ended. *)
Inductive process_end :=
| Exited (stdout : output)
| NotFound_
| ExitedWith (code : Z) (stdout : output) (stderr : string)
| RunFailed (text : string).

(** [PowerShell]; [cancelled]: the context is done. *)
Definition PowerShell (p : process_end) (cancelled : bool) : result winget_error output :=
  match p with
  | Exited stdout => Ok stdout
  | NotFound_ => Err PowerShellNotFound
  | ExitedWith code stdout stderr =>
      if cancelled then Err (OtherError "powershell did not finish in time")
      else Err (ExitError code stderr)
  | RunFailed text =>
      if cancelled then Err (OtherError "powershell did not finish in time")
      else Err (OtherError ("running powershell: " +:+ text))
  end.

(** [sessionRunner]: the same in a user's session. *)
Definition sessionRunner (r : result string (Z * output * string)) : result winget_error output :=
  match r with
  | Err text => Err (OtherError text)
  | Ok (code, stdout, stderr) =>
      if negb (code =? 0) then Err (ExitError code stderr) else Ok stdout
  end.

(** [powerShellExe]: [programFiles] is the environment variable, [present] the
    files there are, [lookPath] what the PATH has for pwsh.exe. *)
Definition powerShellExe (programFiles : string) (present : string -> bool) (lookPath : option string) : string :=
  let p := filepath_JoinAll [programFiles; "PowerShell"; "7"; "pwsh.exe"] in
  if negb (programFiles =s "") && present p then p
  else match lookPath with Some p => p | None => "powershell.exe" end.

(** [Command]; [exe] is what [powerShellExe] found. *)
Definition winget_Command (exe script : string) : list string :=
  [exe; "-NoProfile"; "-NonInteractive"; "-ExecutionPolicy"; "Bypass"; "-Command"; script].

(** PowerShell 7 in its default place is found before what the PATH has. *)
Lemma powerShellExe_default c es present lookPath : is_sep c = false -> es <> [] -> forallb plain_name es = true ->
  let pwsh := drive c (es ++ ["PowerShell"; "7"; "pwsh.exe"]) in
  powerShellExe (drive c es) present lookPath =
    if present pwsh then pwsh else from_opt "powershell.exe" lookPath.
Proof. intros Hc Hne Hes. unfold powerShellExe. by rewrite JoinAll_drive. Qed.

(** [withoutPSModulePath]. *)
Definition withoutPSModulePath (env : list string) : list string :=
  bfilter (fun kv => negb (equal_fold (cut_byte "="%char kv).1.1 "PSModulePath")) env.

(** [isModuleMissing]. *)
Definition isModuleMissing (stderr : string) : bool :=
  str_contains stderr "Get-WinGetPackage" && str_contains stderr "CommandNotFoundException".

(** [invalidJSON]. *)
Definition invalidJSON (data : string) : winget_error :=
  InvalidJSON (if 200 <? slen data then take_str 200 data +:+ "..." else data).

(** [Parse]. *)
Definition winget_Parse (out : output) : result winget_error (list Package) :=
  let data := trim_space (trim_prefix out.(out_text) BOM) in
  match data with
  | "" => Ok []
  | String c _ =>
      if Ascii.eqb c "{"%char then
        match j ← out.(out_json); dec (A := Package) j with
        | Some p => Ok [p]
        | None => Err (invalidJSON data)
        end
      else
        match j ← out.(out_json); dec (A := slice Package) j with
        | Some pkgs => Ok (sl pkgs)
        | None => Err (invalidJSON data)
        end
  end.

(** [ListUpgradableWith], given what the runner answered. *)
Definition ListUpgradableWith (r : result winget_error output) : result winget_error (list Package) :=
  match r with
  | Ok out => winget_Parse out
  | Err (ExitError code stderr) =>
      if isModuleMissing stderr then Err ModuleNotInstalled
      else if str_contains stderr "WindowsPowerShellNotSupported" then Err PowerShell7Required
      else Err (ExitError code stderr)
  | Err e => Err e
  end.

(** [FilterBySource]. *)
Definition FilterBySource (pkgs : list Package) (source : string) : list Package :=
  if source =s "" then pkgs else bfilter (fun p => equal_fold p.(pk_Source) source) pkgs.

(** ** tools/winget-update-parser *)

(** What [printJSON] and [printTable] are given to lay out: the packages, or a
    heading, a row for each and how many there are. *)
Inductive listing := AsJSON (pkgs : list Package) | AsTable (rows : list (list string)) (n : Z).

Definition printTable (pkgs : list Package) : listing :=
  AsTable (["NAME"; "ID"; "INSTALLED"; "AVAILABLE"; "SOURCE"] ::
      ((fun p => [p.(pk_Name); p.(pk_ID); p.(pk_InstalledVersion); p.(pk_Available); p.(pk_Source)]) <$> pkgs))
    (Z.of_nat (length pkgs)).

(** [main]: what is listed and the exit code; [written] says that the output
    took it. *)
Definition update_parser (asJSON : bool) (source : string) (r : result winget_error (list Package))
    (written : bool) : option listing * Z :=
  match r with
  | Err _ => (None, 1)
  | Ok pkgs =>
      let pkgs := FilterBySource pkgs source in
      (Some (if asJSON then AsJSON pkgs else printTable pkgs), if written then 0 else 1)
  end.

(** A package of the source asked for has its row, and no other has. *)
Lemma update_parser_rows source pkgs written rows n :
  update_parser false source (Ok pkgs) written = (Some (AsTable rows n), if written then 0 else 1) ->
  Z.of_nat (length rows) = n + 1 /\
  forall p, p ∈ FilterBySource pkgs source <-> p ∈ pkgs /\ (source = "" \/ equal_fold p.(pk_Source) source = true).
Proof.
  cbn. intros [= <- <-]. split; [cbn [length]; rewrite length_fmap; lia|]. intros p. unfold FilterBySource.
  destruct (source =s "") eqn:E; [apply str_eqb_eq in E; tauto|]. apply str_eqb_neq in E.
  unfold bfilter. rewrite list_elem_of_In, filter_In, <-list_elem_of_In. naive_solver.
Qed.

(** * The merge *)

(** The identity of a package: its id, folded, and its installed version. *)
Definition pkg_key (k : Package) : string * string := (to_lower k.(pk_ID), k.(pk_InstalledVersion)).

Definition upgradable (scope : string) (k : Package) : UpgradablePackage :=
  mkUpgradable k.(pk_Name) k.(pk_ID) k.(pk_InstalledVersion) k.(pk_Available) k.(pk_Source) scope.

(** [mergeUpgradable]'s [add], over a list. *)
Fixpoint merge_add (scope : string) (seen : gset (string * string)) (l : list Package) :
    list UpgradablePackage * gset (string * string) :=
  match l with
  | [] => ([], seen)
  | k :: l' =>
      if bool_decide (pkg_key k ∈ seen) then merge_add scope seen l'
      else let '(out, seen') := merge_add scope ({[ pkg_key k ]} ∪ seen) l' in
           (upgradable scope k :: out, seen')
  end.

(** [mergeUpgradable]. *)
Definition mergeUpgradable (machine user : list Package) : list UpgradablePackage :=
  let '(out1, seen) := merge_add ScopeMachine ∅ machine in
  let '(out2, _) := merge_add ScopeUser seen user in
  out1 ++ out2.

(** * The command *)

(** The user's half: [userUpgradable] and its error; [None] is
    [errNoInteractiveUser]. *)
Record user_half := mkUserHalf {
  uh_User : string;
  uh_res : result (option winget_error) (list Package)
}.

(** [listUserUpgradable]: the session asked, and what its PowerShell answered. *)
Definition listUserUpgradable (us : option UserSession) (r : result string (Z * output * string)) :
    user_half :=
  match us with
  | None => mkUserHalf "" (Err None)
  | Some us =>
      mkUserHalf us.(us_User)
        (match ListUpgradableWith (sessionRunner r) with Ok l => Ok l | Err e => Err (Some e) end)
  end.

Record payload := mkPayload {
  Packages : list UpgradablePackage;
  UserScope : bool;
  py_User : string;
  UserScopeError : string;
  CollectedAt : string
}.

(** The bytes [encoding/json] writes for a string. *)
Definition escaped_len (c : ascii) : Z :=
  let n := nat_of_ascii c in
  if Ascii.eqb c (ascii_of_nat 34) || Ascii.eqb c "\"%char then 2
  else if (n =? 8)%nat || (n =? 9)%nat || (n =? 10)%nat || (n =? 12)%nat || (n =? 13)%nat then 2
  else if (n <? 32)%nat || Ascii.eqb c "<"%char || Ascii.eqb c ">"%char || Ascii.eqb c "&"%char then 6
  else 1.
Fixpoint escaped (s : string) : Z :=
  match s with "" => 0 | String c s' => escaped_len c + escaped s' end.
Definition quoted_len (s : string) : Z := 2 + escaped s.

(** (Single quotes stand for double ones below: only the length counts.)
    The length of one element of "packages", and of the whole list. *)
Definition package_len (p : UpgradablePackage) : Z :=
  slen "{'name':,'id':,'installed_version':,'available_version':,'source':,'scope':}" +
  quoted_len p.(up_Name) + quoted_len p.(up_ID) + quoted_len p.(up_Installed) +
  quoted_len p.(up_Available) + quoted_len p.(up_Source) + quoted_len p.(Scope_).
Fixpoint packages_len (l : list UpgradablePackage) : Z :=
  match l with
  | [] => 0
  | [p] => package_len p
  | p :: l' => package_len p + 1 + packages_len l'
  end.

Definition optional_len (key s : string) : Z :=
  if s =s "" then 0 else slen key + quoted_len s.

(** [len(json.Marshal(p))]. *)
Definition payload_len (p : payload) : Z :=
  slen "{'packages':[]" + packages_len p.(Packages) +
  slen ",'user_scope':" + (if p.(UserScope) then 4 else 5) +
  optional_len ",'user':" p.(py_User) + optional_len ",'user_scope_error':" p.(UserScopeError) +
  slen ",'collected_at':}" + quoted_len p.(CollectedAt).

Definition with_packages (l : list UpgradablePackage) (p : payload) : payload :=
  mkPayload l p.(UserScope) p.(py_User) p.(UserScopeError) p.(CollectedAt).

Definition resultPayloadBudget : Z := 60000.
Definition maxUserScopeError : Z := 1000.

(** The truncation loop. *)
Fixpoint fit (fuel : nat) (p : payload) (truncated : bool) : payload * bool :=
  let n := len p.(Packages) in
  if (payload_len p <=? resultPayloadBudget) || (n =? 0) then (p, truncated)
  else
    match fuel with
    | O => (p, truncated)
    | S fuel' =>
        let cut := if n / 10 =? 0 then 1 else n / 10 in
        fit fuel' (with_packages (take (Z.to_nat (n - cut)) p.(Packages)) p) true
    end.

(** [user_scope_error]. *)
Definition user_scope_error (timed_out : bool) (r : result (option winget_error) (list Package)) : string :=
  match r with
  | Ok _ => ""
  | Err None => "no user is logged on"
  | Err (Some e) =>
      let text := if timed_out then "winget did not answer in time in the user's session"
                  else winget_Error e in
      if maxUserScopeError <? slen text
      then take_str (Z.to_nat maxUserScopeError) text +:+ "..." else text
  end.

(** The error of the machine's half. *)
Definition machine_error (timed_out : bool) (e : winget_error) : ErrorBody :=
  match e with
  | ModuleNotInstalled => refuse ErrWingetModuleMissing (winget_Error e)
  | PowerShellNotFound | PowerShell7Required => refuse ErrPowerShellNotFound (winget_Error e)
  | _ => if timed_out then refuse ErrTimeout "winget did not answer in time"
         else refuse ErrInternal (winget_Error e)
  end.

(** [listUpgradable]. *)
Definition listUpgradable (machine : result winget_error (list Package)) (user : user_half)
    (timed_out : bool) (now : time) : result ErrorBody (payload * bool) :=
  match machine with
  | Err e => Err (machine_error timed_out e)
  | Ok pkgs =>
      let userPkgs := match user.(uh_res) with Ok l => l | Err _ => [] end in
      let all := mergeUpgradable pkgs userPkgs in
      let p := mkPayload all (is_ok user.(uh_res)) user.(uh_User)
                 (user_scope_error timed_out user.(uh_res)) (format_rfc3339 now) in
      Ok (fit (length all) p false)
  end.

(** * Reading the listing *)

#[export] Instance Package_ok : CodecOk Package.
Proof.
  refine {| fits _ := True |}; [|done]. intros [a b c d e] _. reflexivity.
Defined.
#[export] Instance Package_nn : EncNotNull Package.
Proof. done. Qed.

Lemma pkgs_decode (l : list Package) : dec (A := slice Package) (JArr (enc <$> l)) = Some (Some l).
Proof.
  apply (@dec_enc (slice Package) (slice_codec Package) _ (Some l)). by apply Forall_true.
Qed.

Lemma has_prefix_byte c d r : has_prefix (String d r) (String c "") = true -> d = c.
Proof. unfold has_prefix. simpl. by destruct (ascii_dec c d). Qed.

(** What PowerShell prints for a list of packages is read back as that
    list, in each of the forms it takes: an array, a bare object for a single
    package, nothing at all for none; a byte-order mark and surrounding blanks
    do not matter. *)
Theorem Parse_listing (text : string) (l : list Package) :
  let data := trim_space (trim_prefix text BOM) in
  (data = "" -> winget_Parse (mkOutput text None) = Ok []) /\
  (has_prefix data "[" = true -> winget_Parse (mkOutput text (Some (JArr (enc <$> l)))) = Ok l) /\
  (has_prefix data "{" = true -> forall p,
     winget_Parse (mkOutput text (Some (enc p))) = Ok [p]).
Proof.
  intros data. unfold winget_Parse. cbn [out_text out_json]. fold data. split_and!.
  - by intros ->.
  - intros H. destruct data as [|c r]; [done|].
    destruct (Ascii.eqb_spec c "{"%char) as [->|Hne]; [done|].
    cbn [mbind option_bind]. by rewrite pkgs_decode.
  - intros H p. destruct data as [|c r]; [done|]. apply has_prefix_byte in H as ->.
    cbn [Ascii.eqb Bool.eqb mbind option_bind]. rewrite (dec_enc (CodecOk := Package_ok) p); done.
Qed.

(** * What the merge keeps *)

Definition up_key (p : UpgradablePackage) : string * string := (to_lower p.(up_ID), p.(up_Installed)).

Lemma merge_add_spec scope l : forall seen,
  let '(out, seen') := merge_add scope seen l in
  seen' = seen ∪ list_to_set (pkg_key <$> l) /\
  NoDup (up_key <$> out) /\
  (forall k, k ∈ up_key <$> out <-> k ∈ pkg_key <$> l /\ k ∉ seen) /\
  Forall (fun p => p.(Scope_) = scope) out /\
  (forall p, p ∈ out -> exists k, k ∈ l /\ p = upgradable scope k).
Proof.
  induction l as [|x l IH]; intros seen; cbn [merge_add].
  - split_and!; [set_solver|by constructor| |by constructor|]; set_solver.
  - case_bool_decide as Hx.
    + specialize (IH seen). destruct (merge_add scope seen l) as [out seen'].
      destruct IH as (-> & Hn & Hk & Hs & Hf). split_and!; [set_solver|done| |done|].
      * intros k. rewrite Hk, fmap_cons, elem_of_cons. naive_solver.
      * intros p (k & ? & ->)%Hf. exists k. split; [by apply elem_of_cons; right|done].
    + specialize (IH ({[ pkg_key x ]} ∪ seen)).
      destruct (merge_add scope ({[ pkg_key x ]} ∪ seen) l) as [out seen'].
      destruct IH as (-> & Hn & Hk & Hs & Hf).
      split_and!; [set_solver| | |by constructor|].
      * rewrite fmap_cons. apply NoDup_cons. split; [|done]. rewrite Hk. set_solver.
      * intros k. rewrite !fmap_cons, !elem_of_cons, Hk. change (up_key (upgradable scope x)) with (pkg_key x).
        destruct (decide (k = pkg_key x)) as [->|]; set_solver.
      * intros p [->|(k & ? & ->)%Hf]%elem_of_cons.
        -- exists x. split; [by apply elem_of_cons; left|done].
        -- exists k. split; [by apply elem_of_cons; right|done].
Qed.

(** What every merged listing satisfies. *)
Record merged (machine user : list Package) (out : list UpgradablePackage) : Prop := {
  mg_unique : NoDup (up_key <$> out);
  mg_complete : forall k, k ∈ up_key <$> out <-> k ∈ pkg_key <$> machine \/ k ∈ pkg_key <$> user;
  mg_scope : forall p, p ∈ out ->
    p.(Scope_) = if bool_decide (up_key p ∈ pkg_key <$> machine) then ScopeMachine else ScopeUser;
  mg_faithful : forall p, p ∈ out ->
    exists k, k ∈ (if p.(Scope_) =s ScopeMachine then machine else user) /\ p = upgradable p.(Scope_) k
}.

Lemma merge_merged machine user : merged machine user (mergeUpgradable machine user).
Proof.
  unfold mergeUpgradable. pose proof (merge_add_spec ScopeMachine machine ∅) as H1.
  destruct (merge_add ScopeMachine ∅ machine) as [out1 seen].
  destruct H1 as (-> & Hn1 & Hk1 & Hs1 & Hf1).
  set (seen := ∅ ∪ list_to_set (pkg_key <$> machine)).
  assert (Hseen : forall k, k ∈ seen <-> k ∈ pkg_key <$> machine)
    by (intros k; unfold seen; rewrite elem_of_union, elem_of_list_to_set; set_solver).
  clearbody seen. pose proof (merge_add_spec ScopeUser user seen) as H2.
  destruct (merge_add ScopeUser seen user) as [out2 seen2].
  destruct H2 as (_ & Hn2 & Hk2 & Hs2 & Hf2).
  assert (Hk1' : forall k, k ∈ up_key <$> out1 <-> k ∈ pkg_key <$> machine) by (intros k; rewrite Hk1; set_solver).
  rewrite Forall_forall in Hs1, Hs2. split.
  - rewrite fmap_app. apply NoDup_app. split_and!; [done| |done].
    intros k Hk Hk'. apply Hk2 in Hk' as [_ Hk']. by apply Hk', Hseen, Hk1'.
  - intros k. rewrite fmap_app, elem_of_app, Hk1', Hk2, <- Hseen.
    destruct (decide (k ∈ seen)); naive_solver.
  - intros p Hp. assert (Hup : p ∈ out1 -> up_key p ∈ pkg_key <$> machine)
      by (intros H; apply Hk1', list_elem_of_fmap_2, H).
    apply elem_of_app in Hp as [Hp|Hp].
    + rewrite bool_decide_true by auto. by apply Hs1.
    + rewrite bool_decide_false; [by apply Hs2|]. rewrite <- Hseen.
      by apply (Hk2 (up_key p)), list_elem_of_fmap_2.
  - intros p [Hp|Hp]%elem_of_app.
    + rewrite (Hs1 p Hp). by apply Hf1.
    + rewrite (Hs2 p Hp). by apply Hf2.
Qed.

(** * The reply fits *)

Lemma escaped_bound s : 0 <= escaped s <= 6 * slen s.
Proof.
  unfold slen. induction s as [|c s IH]; cbn [escaped String.length]; [lia|].
  assert (0 <= escaped_len c <= 6) by (unfold escaped_len; repeat case_match; lia). lia.
Qed.

Lemma user_scope_error_bound t r : slen (user_scope_error t r) <= maxUserScopeError + 3.
Proof.
  unfold user_scope_error. destruct r as [l|[e|]]; [by vm_compute| |by vm_compute].
  set (text := if t then _ else _). destruct (maxUserScopeError <? slen text) eqn:E.
  - rewrite slen_app. pose proof (slen_take (Z.to_nat maxUserScopeError) text).
    change (slen "...") with 3. unfold maxUserScopeError in *. lia.
  - bool_to_prop. lia.
Qed.

Lemma fit_spec fuel : forall p t, (length p.(Packages) <= fuel)%nat ->
  let '(q, t') := fit fuel p t in
  exists m, q = with_packages (take m p.(Packages)) p /\
    (payload_len q <= resultPayloadBudget \/ q.(Packages) = []) /\
    (q = p /\ t' = t \/ (m < length p.(Packages))%nat /\ t' = true).
Proof.
  assert (Hid : forall p, p = with_packages (take (length p.(Packages)) p.(Packages)) p)
    by (intros []; unfold with_packages; cbn; by rewrite firstn_all).
  induction fuel as [|fuel IH]; intros p t Hf; cbn [fit];
    destruct ((payload_len p <=? resultPayloadBudget) || (len p.(Packages) =? 0)) eqn:E;
    try (exists (length p.(Packages)); split; [apply Hid|split; [|by left]];
         apply orb_true_iff in E as [E|E]; bool_to_prop; [by left|right];
         apply length_zero_iff_nil; unfold len in E; lia).
  { bool_to_prop. unfold len in *. lia. }
  set (cut := if _ : bool then 1 else _).
  assert (Hcut : 1 <= cut /\ 0 < len p.(Packages)).
  { bool_to_prop. unfold cut. pose proof (len_nonneg p.(Packages)).
    destruct (len p.(Packages) / 10 =? 0) eqn:E2; [lia|]. bool_to_prop.
    pose proof (Z.div_pos (len p.(Packages)) 10 ltac:(lia) ltac:(lia)). lia. }
  set (k := Z.to_nat (len (Packages p) - cut)).
  assert (Hk : (k < length p.(Packages))%nat) by (unfold k, len in *; lia).
  specialize (IH (with_packages (take k p.(Packages)) p) true).
  cbn [with_packages Packages] in IH. specialize (IH ltac:(rewrite length_take; lia)).
  destruct (fit fuel _ true) as [q t']. destruct IH as (m & -> & Hfit & Ht).
  exists (m `min` k)%nat. rewrite take_take. split; [done|]. split; [by rewrite take_take in Hfit|].
  right. split; [lia|]. by destruct Ht as [[_ ->]|[_ ->]].
Qed.

Lemma payload_len_empty p : p.(Packages) = [] -> slen p.(py_User) <= 8000 ->
  slen p.(CollectedAt) <= 100 -> slen p.(UserScopeError) <= maxUserScopeError + 3 ->
  payload_len p <= resultPayloadBudget.
Proof.
  intros He Hu Hc Hs. unfold payload_len, optional_len, quoted_len. rewrite He.
  pose proof (escaped_bound p.(py_User)). pose proof (escaped_bound p.(CollectedAt)).
  pose proof (escaped_bound p.(UserScopeError)). unfold maxUserScopeError, resultPayloadBudget in *.
  change (slen "{'packages':[]") with 14. change (slen ",'user_scope':") with 14.
  change (slen ",'user':") with 8. change (slen ",'user_scope_error':") with 20.
  change (slen ",'collected_at':}") with 17. cbn [packages_len].
  destruct p.(UserScope), (py_User p =s ""), (UserScopeError p =s ""); lia.
Qed.

Definition half_packages (u : user_half) : list Package :=
  match u.(uh_res) with Ok l => l | Err _ => [] end.

(** What apps.list_upgradable answers. It fails only with the machine's
    half, under the code of that error. Otherwise it lists a prefix of the
    merge of the two halves - each package once, under the machine's scope
    exactly when the machine sees it -, all of it unless it says "truncated",
    never beyond the frame budget, and it claims the user's half exactly when
    it has one. *)
Theorem list_upgradable_reply (machine : result winget_error (list Package)) (user : user_half)
    (timed_out : bool) (now : time) (Huser : slen user.(uh_User) <= 8000)
    (Hnow : slen (format_rfc3339 now) <= 100) :
  match listUpgradable machine user timed_out now with
  | Err e => exists err, machine = Err err /\ e = machine_error timed_out err
  | Ok (p, truncated) =>
      exists pkgs all, machine = Ok pkgs /\ merged pkgs (half_packages user) all /\
        p.(Packages) `prefix_of` all /\ (truncated = false <-> p.(Packages) = all) /\
        payload_len p <= resultPayloadBudget /\
        p.(UserScope) = is_ok user.(uh_res) /\
        (p.(UserScope) = true -> p.(UserScopeError) = "")
  end.
Proof.
  unfold listUpgradable. destruct machine as [pkgs|err]; [|by exists err].
  fold (half_packages user). set (all := mergeUpgradable pkgs (half_packages user)).
  set (p0 := mkPayload all _ _ _ _).
  pose proof (fit_spec (length all) p0 false (Nat.le_refl _)) as H.
  destruct (fit (length all) p0 false) as [q t]. destruct H as (m & -> & Hfit & Ht).
  exists pkgs, all. cbn [with_packages Packages UserScope UserScopeError p0] in *. split_and!.
  - done.
  - apply merge_merged.
  - apply prefix_take.
  - destruct Ht as [[Heq ->]|[Hm ->]].
    + split; [|done]. intros _. by apply (f_equal Packages) in Heq.
    + split; [done|]. intros Heq. apply (f_equal length) in Heq. rewrite length_take in Heq. lia.
  - destruct Hfit as [|He]; [done|]. apply payload_len_empty; [done|done|done|].
    apply user_scope_error_bound.
  - done.
  - destruct user as [u [l|e]]; cbn; [done|discriminate].
Qed.

Lemma list_upgradable_reply_witness :
  let jdk v := mkPackage "JDK" "Oracle.JDK" v "25" "winget" in
  let user := mkUserHalf "CORP\anna" (Ok [mkPackage "JDK" "oracle.jdk" "17" "25" "winget"; jdk "21"]) in
  exists p, listUpgradable (Ok [jdk "17"]) user false 0 = Ok (p, false) /\
    (up_Installed <$> p.(Packages), Scope_ <$> p.(Packages)) = (["17"; "21"], ["machine"; "user"]) /\
    payload_len p <= resultPayloadBudget.
Proof.
  intros jdk user. eexists. split; [vm_compute; reflexivity|]. split; [reflexivity|].
  pose proof (list_upgradable_reply (Ok [jdk "17"]) user false 0
    ltac:(vm_compute; discriminate) ltac:(vm_compute; discriminate)) as H.
  destruct (listUpgradable (Ok [jdk "17"]) user false 0) as [[p t]|e] eqn:E;
    [|destruct H as (? & ? & _); discriminate].
  destruct H as (? & ? & _ & _ & _ & _ & Hlen & _). vm_compute in E. injection E as <- <-. exact Hlen.
Defined.
