(* ===== verification/Report.v ===== *)
(** What the service reports of its machine: machine.info, session.changed,
    service.started and the identity of the client channel's first message
    (internal/service/clientevents.go, clientws.go, machineinfo/system.go).

    [Readings] gathers what one report reads: the clock, EMLy's config.ini, the
    session, the hardware, the interfaces, the current cycle, the state file. *)
From S2P Require Import Prelude Rfc3339 Json Versions PolicyDoc PolicyMatch State Source Config PolicyStore.
From S2P Require Import RemoteConfig MachineInfo SourcePolicy Wire World Cycle.

(** [capabilities]: every name once, in order. *)
Fixpoint dedup (seen l : list string) : list string :=
  match l with
  | [] => []
  | c :: l' => if contains seen c then dedup seen l' else c :: dedup (c :: seen) l'
  end.
Definition capabilities : list string := dedup [] (CommandNames ++ EventNames ++ TopicNames).

(** [SystemFacts]. *)
Record SystemFacts := mkSystemFacts {
  BootTime : time;
  CPU : string;
  Cores : Z;
  MemoryMB : Z;
  SystemDriveTotalMB : Z;
  SystemDriveFreeMB : Z
}.

(** [CollectSystemFacts]: the tick count in milliseconds (0: unknown), the
    processor's name, the bytes of memory and of the system drive. *)
Definition CollectSystemFacts (now : time) (cores ticks : Z) (cpu : option string) (memory : option Z)
    (drive : option (Z * Z)) : SystemFacts :=
  let booted := t_add now (d_mul (wrap64 (- wrap64 ticks)) millisecond) in
  mkSystemFacts
    (if ticks =? 0 then zero_time else booted - booted mod second)
    (match cpu with Some s => trim_space s | None => "" end)
    cores
    (match memory with Some b => b / 2 ^ 20 | None => 0 end)
    (match drive with Some (total, _) => total / 2 ^ 20 | None => 0 end)
    (match drive with Some (_, free) => free / 2 ^ 20 | None => 0 end).

(** * service.started *)

Definition bootWindow : duration := 10 * minute.

(** [serviceStartedReason]. *)
Definition serviceStartedReason (cmds : list PendingCommand) (landed : option SelfUpdate)
    (boot started : time) : string :=
  if existsb (fun c => c.(pc_Name) =s CmdMachineReboot) cmds then "boot"
  else if existsb (fun c => c.(pc_Name) =s CmdServiceRestart) cmds then "command"
  else if is_some landed then "self_update"
  else if negb (is_zero_time boot) && (t_sub started boot <? bootWindow) then "boot"
  else "unknown".

(** [buildServiceStarted], once the pending commands are taken. *)
Definition service_started (cmds : list PendingCommand) (landed : option SelfUpdate)
    (boot startedAt : time) : ServiceStarted :=
  mkServiceStarted
    (serviceStartedReason cmds landed boot startedAt)
    (if is_zero_time boot then "" else format_rfc3339 boot)
    (format_rfc3339 startedAt)
    Version
    (match landed with
     | Some l => if l.(FromVersion) =s Version then "" else l.(FromVersion)
     | None => ""
     end)
    (pc_ID <$> cmds).

(** * session.changed *)

(** [userSession]. *)
Definition userSession (s : UserSession) : WireSession :=
  mkWireSession s.(us_User) (SessionState_text s.(us_State))
    (if is_zero_time s.(DisconnectedAt) then "" else format_rfc3339 s.(DisconnectedAt)).

(** [sessionChangedPayload]. *)
Definition sessionChangedPayload (kinds : list SessionChangeKind) (c : SessionChange) (changed : bool) :
    SessionChanged :=
  mkSessionChanged (SessionChangeKind_text <$> kinds) c.(sc_SessionID) c.(SessionUser)
    (if c.(sc_LoggedUser).(us_User) =s "" then None else Some (userSession c.(sc_LoggedUser)))
    changed
    (if is_zero_time c.(sc_At) then "" else format_millis c.(sc_At)).

(** * The identity of the channel *)

(** [Identity] (wsclient/client.go). *)
Record Identity := mkIdentity {
  id_HWID : string;
  id_Hostname : string;
  id_ADDomain : string;
  id_LoggedUser : string;
  id_LoggedUserState : string;
  id_LoggedUserDisconnectedAt : string;
  id_Serial : string;
  id_Product : string;
  id_OSVersion : string;
  id_EMLyVersion : string;
  id_Protocol : Z;
  id_Capabilities : list string
}.

(** [Identified]. *)
Definition Identified (i : Identity) : bool := negb (i.(id_HWID) =s "") || negb (i.(id_Hostname) =s "").

(** [identityFromSource], with the negotiation [runClientWS] adds. *)
Definition identityFromSource (s : HTTPSource) : Identity :=
  mkIdentity s.(src_HWID) s.(src_Hostname) s.(ADDomain) s.(Source.LoggedUser) s.(LoggedUserState)
    (if is_zero_time s.(LoggedUserDisconnectedAt) then ""
     else format_rfc3339 s.(LoggedUserDisconnectedAt))
    s.(Serial) s.(Product) s.(OSVersion) s.(EMLyVersion) ProtocolV2 capabilities.

(** * machine.info *)

Record siteInfo := mkSiteInfo { si_DC : string; MatchedSite : string; si_Server : option ServerRef }.
Record configInfo := mkConfigInfo { ci_Revision : Z; ci_FetchedAt : string; ci_Source : string }.
Record hardwareInfo := mkHardwareInfo {
  hi_CPU : string; hi_Cores : Z; hi_MemoryMB : Z; SystemDrive : option (Z * Z)
}.
Record emlyInfo := mkEmlyInfo {
  Installed : bool; Running : bool; InstallDir : string; em_Channel : string; em_Language : string
}.
Record selfUpdateInfo := mkSelfUpdateInfo { sui_Version : string; sui_Attempts : Z; sui_GaveUp : bool }.

(** [machineInfoPayload]. *)
Record machineInfoPayload := mkMachineInfo {
  mi_HWID : string;
  mi_Hostname : string;
  mi_ADDomain : string;
  mi_Serial : string;
  mi_Product : string;
  mi_OSVersion : string;
  mi_EMLyVersion : string;
  mi_UpdaterVersion : string;
  mi_LoggedUser : option WireSession;
  mi_BootTime : string;
  UptimeSeconds : Z;
  Network_ : option (list NetInterface);
  mi_Site : option siteInfo;
  mi_Config : option configInfo;
  Hardware : option hardwareInfo;
  EMLy_ : option emlyInfo;
  PendingUpdate : option PendingInfo;
  mi_SelfUpdate : option selfUpdateInfo
}.

Record Readings := mkReadings {
  rd_now : time;
  rd_ini : option string;
  rd_session : UserSession;
  rd_facts : SystemFacts;
  rd_interfaces : list NetInterface;
  rd_cur : option cycleState;
  rd_preferred : option string;
  rd_running : bool;
  rd_state : result load_error State
}.

Section Report.
Context `{IniLib}.
Variable cfg : Config.
Variable machine : Info.

(** [newHTTPSource ""]. *)
Definition identity_source (r : Readings) : HTTPSource :=
  newHTTPSource cfg machine (emlyVersion cfg r.(rd_ini)) r.(rd_session) "".

(** [clientWSIdentity], as [runClientWS] sends it. *)
Definition clientWSIdentity (r : Readings) : Identity := identityFromSource (identity_source r).

Definition site_info (r : Readings) (cyc : cycleState) : siteInfo :=
  mkSiteInfo cyc.(cyc_host).(h_DC) cyc.(cyc_site)
    (match (preferredChain cyc r.(rd_preferred)).1 with
     | h :: _ => serverRef cyc (ManifestURL cyc.(cyc_eff) h)
     | [] => None
     end).

Definition config_info (cyc : cycleState) : configInfo :=
  let src := Source_String cyc.(cyc_snap).(sn_Source) in
  mkConfigInfo (sn_Revision cyc.(cyc_snap))
    (if is_zero_time cyc.(cyc_snap).(FetchedAt) then "" else format_rfc3339 cyc.(cyc_snap).(FetchedAt))
    (if src =s "default" then "legacy" else src).

Definition hardware_info (f : SystemFacts) : hardwareInfo :=
  mkHardwareInfo f.(CPU) f.(Cores) f.(MemoryMB)
    (if 0 <? f.(SystemDriveTotalMB) then Some (f.(SystemDriveTotalMB), f.(SystemDriveFreeMB)) else None).

Definition emly_info (r : Readings) : emlyInfo :=
  let info := ResolveEMLy cfg r.(rd_ini) in
  mkEmlyInfo (negb info.(FreshInstall)) r.(rd_running) cfg.(EMLyInstallDir) info.(ei_Channel) info.(Language).

Definition on {A} (b : bool) (z a : A) : A := if b then a else z.

(** [machineInfo]. *)
Definition machineInfo (sections : list string) (r : Readings) : machineInfoPayload :=
  let want s := (len sections =? 0) || contains sections s in
  let src := identity_source r in
  let f := r.(rd_facts) in
  let identity := want "identity" in
  let booted := (want "hardware" || identity) && negb (is_zero_time f.(BootTime)) in
  let st := match r.(rd_state) with Ok st => Some st | Err _ => None end in
  mkMachineInfo
    (on identity "" src.(src_HWID)) (on identity "" src.(src_Hostname)) (on identity "" src.(ADDomain))
    (on identity "" src.(Serial)) (on identity "" src.(Product)) (on identity "" src.(OSVersion))
    (on identity "" src.(EMLyVersion)) (on identity "" Version)
    (if want "logged_user" && negb (r.(rd_session).(us_User) =s "")
     then Some (userSession r.(rd_session)) else None)
    (on booted "" (format_rfc3339 f.(BootTime)))
    (on booted 0 (Z.quot (t_sub r.(rd_now) f.(BootTime)) second))
    (on (want "network") None (Some r.(rd_interfaces)))
    (on (want "site") None (site_info r <$> r.(rd_cur)))
    (on (want "config") None (config_info <$> r.(rd_cur)))
    (on (want "hardware") None (Some (hardware_info f)))
    (on (want "emly") None (Some (emly_info r)))
    (on (want "update") None
       (st ← st; p ← st.(st_Pending);
        Some (mkPendingInfo p.(pd_Version) p.(pd_Forced) (format_rfc3339 p.(DownloadedAt)))))
    (on (want "update") None
       (st ← st; s ← st.(st_SelfUpdate);
        Some (mkSelfUpdateInfo s.(su_Version) s.(Attempts) s.(GaveUp)))).
End Report.

(** * One machine, three reports *)

(** The members of a report that some sections hold. *)
Definition restrict (sections : list string) (p : machineInfoPayload) : machineInfoPayload :=
  let has s := contains sections s in
  let i := has "identity" in
  let b := has "hardware" || i in
  mkMachineInfo
    (on i "" p.(mi_HWID)) (on i "" p.(mi_Hostname)) (on i "" p.(mi_ADDomain)) (on i "" p.(mi_Serial))
    (on i "" p.(mi_Product)) (on i "" p.(mi_OSVersion)) (on i "" p.(mi_EMLyVersion))
    (on i "" p.(mi_UpdaterVersion)) (on (has "logged_user") None p.(mi_LoggedUser))
    (on b "" p.(mi_BootTime)) (on b 0 p.(UptimeSeconds))
    (on (has "network") None p.(Network_)) (on (has "site") None p.(mi_Site))
    (on (has "config") None p.(mi_Config)) (on (has "hardware") None p.(Hardware))
    (on (has "emly") None p.(EMLy_)) (on (has "update") None p.(PendingUpdate))
    (on (has "update") None p.(mi_SelfUpdate)).

(** The value of a request header; [None] when it is not sent. *)
Definition header_of (k : string) (l : list (string * string)) : option string :=
  snd <$> find_first (fun kv => kv.1 =s k) l.

(** The headers a source would send, empty ones included. *)
Definition header_table (s : HTTPSource) : list (string * string) :=
  [("User-Agent", s.(UserAgent)); ("X-Api-Key", s.(APIKey)); ("X-EMLy-Hostname", s.(src_Hostname));
   ("X-EMLy-HWID", s.(src_HWID)); ("X-EMLy-ADDomain", s.(ADDomain)); ("X-EMLy-IntIP", s.(InternalIP));
   ("X-EMLy-OSVersion", s.(OSVersion)); ("X-EMLy-Serial", s.(Serial)); ("X-EMLy-Product", s.(Product));
   ("X-EMLy-AppVersion", s.(EMLyVersion)); ("X-EMLy-LoggedUser", s.(Source.LoggedUser));
   ("X-EMLy-LoggedUserState", s.(LoggedUserState));
   ("X-EMLy-LoggedUserDisconnectedAt", if is_zero_time s.(LoggedUserDisconnectedAt) then ""
     else format_rfc3339 s.(LoggedUserDisconnectedAt))].

Definition sent_header (kv : string * string) : bool := negb (kv.2 =s "").

Lemma header_cons k v l : header k v ++ bfilter sent_header l = bfilter sent_header ((k, v) :: l).
Proof. unfold header, sent_header. cbn. by destruct (v =s ""). Qed.

Lemma header_of_filter k v l : NoDup l.*1 -> (k, v) ∈ l ->
  header_of k (bfilter sent_header l) = if v =s "" then None else Some v.
Proof.
  induction l as [|[k' v'] l IH]; intros Hn Hin; [by apply elem_of_nil in Hin|].
  apply NoDup_cons in Hn as [Hk Hn]. apply elem_of_cons in Hin as [[= -> ->]|Hin].
  - unfold header_of, sent_header. cbn. destruct (v' =s "") eqn:E; cbn; [|by rewrite str_eqb_refl].
    destruct (find_first _ _) as [[k v]|] eqn:F; [|done]. exfalso. apply Hk.
    apply find_first_some in F as [F E']. cbn in E'. apply str_eqb_eq in E' as ->.
    apply list_elem_of_In, filter_In in F as [F%list_elem_of_In _].
    by apply (list_elem_of_fmap_2 fst) in F.
  - rewrite <- (IH Hn Hin). unfold header_of, sent_header. cbn.
    destruct (v' =s ""); [done|]. cbn. destruct (k' =s k) eqn:E; [|done].
    apply str_eqb_eq in E as ->. exfalso. apply Hk. by apply (list_elem_of_fmap_2 fst) in Hin.
Qed.

(** The X-EMLy headers and the members of the channel's identity they mirror. *)
Definition mirrored : list (string * (Identity -> string)) :=
  [("X-EMLy-HWID", id_HWID); ("X-EMLy-Hostname", id_Hostname); ("X-EMLy-ADDomain", id_ADDomain);
   ("X-EMLy-OSVersion", id_OSVersion); ("X-EMLy-Serial", id_Serial); ("X-EMLy-Product", id_Product);
   ("X-EMLy-AppVersion", id_EMLyVersion); ("X-EMLy-LoggedUser", id_LoggedUser);
   ("X-EMLy-LoggedUserState", id_LoggedUserState);
   ("X-EMLy-LoggedUserDisconnectedAt", id_LoggedUserDisconnectedAt)].

Lemma format_rfc3339_nonempty t : (format_rfc3339 t =s "") = false.
Proof.
  apply str_eqb_neq. unfold format_rfc3339, format_secs. destruct (of_days _) as [[y m] d].
  intros H. apply (f_equal String.length) in H.
  assert (Hl : forall a b, String.length (a +:+ b) = (String.length a + String.length b)%nat).
  { induction a as [|c a IH]; intros b; [done|].
    change (String c a +:+ b) with (String c (a +:+ b)). cbn. by rewrite IH. }
  rewrite !Hl in H. cbn in H. lia.
Qed.

Lemma applyHeaders_table s : applyHeaders s = bfilter sent_header (header_table s).
Proof.
  unfold applyHeaders, header_table. rewrite <- !header_cons. repeat f_equal.
  unfold header. cbn. destruct (is_zero_time _); cbn; [done|]. by rewrite format_rfc3339_nonempty.
Qed.

(** The machine describes itself the same way on every path: each
    identity header of an HTTP request carries the value of the same member
    of the channel's first message and is left out exactly when that is
    empty; machine.info repeats those values; and machine.info for some
    sections is the part of the full report those sections hold. *)
Theorem report_consistent `{IniLib} (cfg : Config) (machine : Info) (r : Readings) :
  let id := clientWSIdentity cfg machine r in
  let full := machineInfo cfg machine [] r in
  Forall (fun '(k, get) => header_of k (applyHeaders (identity_source cfg machine r)) =
                           if get id =s "" then None else Some (get id)) mirrored /\
  (full.(mi_HWID), full.(mi_Hostname), full.(mi_ADDomain), full.(mi_Serial), full.(mi_Product),
   full.(mi_OSVersion), full.(mi_EMLyVersion)) =
  (id.(id_HWID), id.(id_Hostname), id.(id_ADDomain), id.(id_Serial), id.(id_Product),
   id.(id_OSVersion), id.(id_EMLyVersion)) /\
  (forall s sections, machineInfo cfg machine (s :: sections) r = restrict (s :: sections) full).
Proof.
  intros id full. split_and!; [|done|].
  - unfold mirrored. rewrite applyHeaders_table.
    repeat apply Forall_cons_2; try apply Forall_nil_2;
      (apply header_of_filter; [apply (bool_decide_unpack _); vm_compute; exact I|];
       unfold id, clientWSIdentity, identityFromSource, header_table;
       cbn [id_HWID id_Hostname id_ADDomain id_OSVersion id_Serial id_Product id_EMLyVersion
            id_LoggedUser id_LoggedUserState id_LoggedUserDisconnectedAt];
       repeat first [apply list_elem_of_here | apply list_elem_of_further]).
  - intros s sections. unfold machineInfo, restrict, full.
    assert (Hlen : forall A (x : A) l, (len (x :: l) =? 0) = false)
      by (intros; apply Z.eqb_neq; unfold len; cbn; lia).
    rewrite Hlen. cbn [orb]. set (has := contains (s :: sections)). clearbody has.
    change (len [] =? 0) with true. cbn [orb].
    f_equal; unfold on; cbn; change (@len string [] =? 0) with true; cbn; unfold on;
      by repeat (case_match; cbn).
Qed.
