(* ===== verification/ReadOnly.v ===== *)
(** [runReadOnly] of internal/service/clientcmd.go: which handler answers a
    read-only command - the dry runs of Checks.v, the report of Report.v, the
    listing of Winget.v - in the world a cycle runs in.

    What machine.info reads and what the two PowerShell runs answer are
    arguments, as they are of the handlers. *)
From S2P Require Import Prelude Rfc3339 Json Files Versions Manifest Net PolicyDoc PolicyMatch PolicyProps State.
From S2P Require Import SelfUpdate Source Config PolicyStore RemoteConfig MachineInfo SourcePolicy.
From S2P Require Import Wire Download Installer World Cycle CycleInv CycleProps Checks Winget Report.

(** The payload of a result. *)
Inductive answer_payload :=
| AMachineInfo (p : machineInfoPayload)
| AManifestCheck (c : ManifestCheck)
| APackages (p : Winget.payload).

(** Which command a payload answers. *)
Definition answers_command (p : answer_payload) : string -> bool :=
  fun name =>
    match p with
    | AMachineInfo _ => name =s CmdMachineInfo
    | AManifestCheck c =>
        if c.(mc_Target) =s "emly" then name =s CmdEMLyManifestCheck else name =s CmdUpdaterManifestCheck
    | APackages _ => name =s CmdAppsListUpgradable
    end.

Section ReadOnly.
Context {versions : VersionLib} {inilib : IniLib} {digest : Sha256}.
Variable env : Env.
Variable cfg : Config.
Variable machine : Info.
Variable readings : Readings.
Variable listing : result winget_error (list Package) * user_half * bool.

(** [runReadOnly]: the payload or the error, and whether it was cut short.
    [cyc] is the decision in force, which admission has found present. *)
Definition runReadOnly (cyc : cycleState) (cmd : Command) :
    M World (result ErrorBody (answer_payload * bool)) :=
  if cmd.(cmd_Name) =s CmdMachineInfo then
    let sections := from_opt [] (decode_sections cmd.(cmd_Args)) in
    mret (Ok (AMachineInfo (machineInfo cfg machine sections readings), false))
  else if cmd.(cmd_Name) =s CmdEMLyManifestCheck then
    c ← emlyManifestCheck env cfg machine cyc; mret (Ok (AManifestCheck c, false))
  else if cmd.(cmd_Name) =s CmdUpdaterManifestCheck then
    c ← updaterManifestCheck env cfg machine cyc; mret (Ok (AManifestCheck c, false))
  else if cmd.(cmd_Name) =s CmdAppsListUpgradable then
    now ← clock env;
    let '(mach, user, timed_out) := listing in
    mret (match listUpgradable mach user timed_out now with
          | Ok (p, cut) => Ok (APackages p, cut)
          | Err e => Err e
          end)
  else mret (Err (mkError ErrUnsupportedCommand cmd.(cmd_Name))).

(** * What an admitted command gets *)

#[local] Instance readonly_network : Network World := cycle_network env.

Ltac any := apply (triple_bind _ _ _ (fun _ _ => True)); [intros ? ?; exact Logic.I|intros ?].

Lemma emly_check_target cyc :
  triple (fun _ => True) (emlyManifestCheck env cfg machine cyc) (fun c _ => c.(mc_Target) = "emly").
Proof.
  unfold emlyManifestCheck. do 4 any. destruct a2 as [[[src m] t]|e]; repeat any; by apply triple_ret.
Qed.

Lemma updater_check_target cyc :
  triple (fun _ => True) (updaterManifestCheck env cfg machine cyc) (fun c _ => c.(mc_Target) = "updater").
Proof.
  unfold updaterManifestCheck. any. destruct (negb _); [by apply triple_ret|]. any.
  destruct a0 as [[src [m u]]|e]; repeat any; by apply triple_ret.
Qed.

(** The commands [ValidateArgs] lets through. *)
Lemma admitted_names name raw : ValidateArgs name raw = None -> Destructive name = false ->
  name = CmdMachineInfo \/ name = CmdEMLyManifestCheck \/ name = CmdUpdaterManifestCheck \/
  name = CmdAppsListUpgradable.
Proof.
  unfold ValidateArgs, Destructive. intros Hv Hd.
  destruct (name =s CmdMachineInfo) eqn:E1; [left; by apply str_eqb_eq|].
  destruct (name =s CmdMachineReboot) eqn:E2; [by rewrite orb_true_r in Hd|].
  destruct (contains _ name) eqn:E3; [|done]. unfold contains in E3. cbn in E3.
  repeat (apply orb_true_iff in E3 as [E3|E3]); try apply str_eqb_eq in E3; subst; auto; done.
Qed.

Lemma known_sections raw sections : ValidateArgs CmdMachineInfo raw = None ->
  decode_sections raw = Some sections -> Forall (fun s => contains MachineInfoSections s = true) sections.
Proof.
  unfold ValidateArgs. cbn [str_eqb String.eqb]. rewrite str_eqb_refl. intros Hv Hd. rewrite Hd in Hv.
  destruct (find_first _ sections) eqn:E; [done|]. apply Forall_forall. intros s Hs.
  pose proof (proj1 (find_first_none _ _) E s Hs) as H. by apply negb_false_iff.
Qed.

Lemma machine_error_code timed_out e : (machine_error timed_out e).(Code) <> ErrUnsupportedCommand.
Proof. unfold machine_error. repeat case_match; done. Qed.

(** A check that stays dry and names its target answers its command. *)
Lemma check_answers (m : M World ManifestCheck) w name (Q : Prop) :
  dry w (m w).2 -> (if (m w).1.(mc_Target) =s "emly" then name =s CmdEMLyManifestCheck
                    else name =s CmdUpdaterManifestCheck) = true -> name <> CmdMachineInfo ->
  let '(r, w') := (m ≫= fun c => mret (Ok (E:=ErrorBody) (AManifestCheck c, false))) w in
  dry w w' /\
  match r with
  | Ok (p, cut) => answers_command p name = true /\ (cut = true -> name = CmdAppsListUpgradable)
  | Err e => name = CmdAppsListUpgradable /\ e.(Code) <> ErrUnsupportedCommand
  end /\ (name = CmdMachineInfo -> Q).
Proof. unfold mbind, M_bind. destruct (m w) as [c w']. intros Hd Ha Hn. by split_and!. Qed.

(** C26: a read-only command reads only and is always answered in kind. When
    its arguments pass validation it gets the payload of its own command - a
    part of it at most for the listing - or, for the listing alone, an error,
    and never the one of an unknown command; every section asked of
    machine.info is one the report knows. Whatever the servers answer
    meanwhile, nothing changes: the files, the state file, the policy, the
    wake-ups and everything reported stay as they were, only requests are made,
    and the machine is not pinned to a server - at most a preference the chain
    no longer lists is forgotten. *)
Theorem read_only_commands (cyc : cycleState) (cmd : Command) (w : World) :
  ValidateArgs cmd.(cmd_Name) cmd.(cmd_Args) = None -> Destructive cmd.(cmd_Name) = false ->
  let '(r, w') := runReadOnly cyc cmd w in
  dry w w' /\
  match r with
  | Ok (p, cut) => answers_command p cmd.(cmd_Name) = true /\
      (cut = true -> cmd.(cmd_Name) = CmdAppsListUpgradable)
  | Err e => cmd.(cmd_Name) = CmdAppsListUpgradable /\ e.(Code) <> ErrUnsupportedCommand
  end /\
  (cmd.(cmd_Name) = CmdMachineInfo ->
   Forall (fun s => contains MachineInfoSections s = true) (from_opt [] (decode_sections cmd.(cmd_Args)))).
Proof.
  intros Hv Hd. destruct cmd as [name raw exp by_]. cbn [cmd_Name cmd_Args] in *.
  destruct (admitted_names _ _ Hv Hd) as [-> | [-> | [-> | ->]]].
  - split_and!; [apply dry_refl|done|done|]. intros _.
    destruct (decode_sections raw) as [l|] eqn:E; [by eapply known_sections|constructor].
  - apply (check_answers (emlyManifestCheck env cfg machine cyc) w CmdEMLyManifestCheck); [|by rewrite emly_check_target|done].
    apply emly_dry, dry_refl.
  - apply (check_answers (updaterManifestCheck env cfg machine cyc) w CmdUpdaterManifestCheck); [|by rewrite updater_check_target|done].
    apply updater_dry, dry_refl.
  - pose proof (dry_ask w env.(e_now) w (dry_refl w)) as H1.
    change (runReadOnly cyc _) with (now ← clock env; let '(mach, user, timed_out) := listing in
      mret (M:=M World) (match listUpgradable mach user timed_out now with
            | Ok (p, cut) => Ok (APackages p, cut)
            | Err e => Err e
            end)).
    unfold clock, mbind at 1, M_bind at 1. destruct (ask env.(e_now) w) as [now w']. cbn [snd] in H1.
    destruct listing as [[mach user] timed_out]. unfold listUpgradable. destruct mach as [pkgs|e].
    + match goal with |- context [fit ?n ?p ?b] => destruct (fit n p b) as [p' cut] end. by split_and!.
    + split_and!; [exact H1|done|apply machine_error_code|done].
Qed.
End ReadOnly.

(** * Witness *)

Import Scenario.
#[local] Existing Instance toy_ini.
#[local] Existing Instance toy_digest.
#[local] Existing Instance Dotted.lib.

Lemma read_only_commands_witness :
  let cmd := mkCommand CmdEMLyManifestCheck None "" "admin" in
  let r := mkReadings Fixture.now None (mkUserSession "" NoSession 0) (mkSystemFacts 0 "" 0 0 0 0) [] None None
             false (Err ErrRead) in
  let '(a, w') := runReadOnly env ex_config machine r (Ok [], mkUserHalf "" (Ok []), false) cyc cmd w0 in
  is_ok a = true /\ dry w0 w'.
Proof.
  cbv zeta. set (r := mkReadings _ _ _ _ _ _ _ _ _). set (cmd := mkCommand _ _ _ _).
  pose proof (read_only_commands env ex_config machine r (Ok [], mkUserHalf "" (Ok []), false) cyc cmd w0
    eq_refl eq_refl) as H.
  destruct (runReadOnly _ _ _ _ _ cyc cmd w0) as [[x|e] w']; destruct H as (Hd & Ha & _); [by split|].
  destruct Ha as [Ha _]. discriminate Ha.
Defined.
