(* ===== verification/Events.v ===== *)
(** internal/service/clientevents.go: the events of the client channel - the
    buffer that holds them while no session is up, the burst of work a welcome
    starts, and the session that is published for the rest of the service.

    As in Gate.v every operation is a [prog] cut at the mutexes and atomics of
    the code: [eventsMu], [wsSessionMu], the atomics [wsSession] and
    [startedSent], the once of service.started, the state store. What becomes
    of a write is an oracle. A session is named by the generation of the
    connection attempt it belongs to. *)
From S2P Require Import Prelude Json Files PolicyDoc State MachineInfo Wire Conc Report.

(** What the service emits on its own; service.started and machine.info are
    only ever sent by the burst. *)
Inductive event_payload :=
| PSession (p : SessionChanged)
| PAvailable (p : ManifestCheck)
| PUpdate (p : updateEvent).

(** [bufferedEvent]. *)
Record bufferedEvent := mkEvent { be_name : string; be_payload : event_payload }.

(** What travels. *)
Inductive frame :=
| FStarted (p : ServiceStarted)
| FInfo (p : machineInfoPayload)
| FEvent (ev : bufferedEvent).

Definition frame_name (f : frame) : string :=
  match f with FStarted _ => EvtServiceStarted | FInfo _ => EvtMachineInfo | FEvent ev => ev.(be_name) end.

(** A v2 session, as the service uses it: [Accepted] and its connection. *)
Record wsSession := mkWs { ws_gen : Z; ws_accepted : list string }.

Inductive send_outcome := SendOk | SendTooLarge | SendFailed.

(** [ch_issued] only remembers the last generation handed out. *)
Record Chan := mkChan {
  ch_tick : nat;
  ch_gen : Z;
  ch_issued : Z;
  ch_session : option wsSession;
  ch_buf : list bufferedEvent;
  ch_started : bool;
  ch_cached : option ServiceStarted;
  ch_dir : dir;
  ch_sent : list (wsSession * frame)
}.

Definition on_tick (x : nat) (c : Chan) : Chan :=
  mkChan x c.(ch_gen) c.(ch_issued) c.(ch_session) c.(ch_buf) c.(ch_started) c.(ch_cached)
    c.(ch_dir) c.(ch_sent).
Definition on_gen (x : Z) (c : Chan) : Chan :=
  mkChan c.(ch_tick) x c.(ch_issued) c.(ch_session) c.(ch_buf) c.(ch_started) c.(ch_cached)
    c.(ch_dir) c.(ch_sent).
Definition on_issued (x : Z) (c : Chan) : Chan :=
  mkChan c.(ch_tick) c.(ch_gen) x c.(ch_session) c.(ch_buf) c.(ch_started) c.(ch_cached)
    c.(ch_dir) c.(ch_sent).
Definition on_session (x : option wsSession) (c : Chan) : Chan :=
  mkChan c.(ch_tick) c.(ch_gen) c.(ch_issued) x c.(ch_buf) c.(ch_started) c.(ch_cached)
    c.(ch_dir) c.(ch_sent).
Definition on_buf (x : list bufferedEvent) (c : Chan) : Chan :=
  mkChan c.(ch_tick) c.(ch_gen) c.(ch_issued) c.(ch_session) x c.(ch_started) c.(ch_cached)
    c.(ch_dir) c.(ch_sent).
Definition on_started (x : bool) (c : Chan) : Chan :=
  mkChan c.(ch_tick) c.(ch_gen) c.(ch_issued) c.(ch_session) c.(ch_buf) x c.(ch_cached)
    c.(ch_dir) c.(ch_sent).
Definition on_cached (x : option ServiceStarted) (c : Chan) : Chan :=
  mkChan c.(ch_tick) c.(ch_gen) c.(ch_issued) c.(ch_session) c.(ch_buf) c.(ch_started) x
    c.(ch_dir) c.(ch_sent).
Definition on_dir (x : dir) (c : Chan) : Chan :=
  mkChan c.(ch_tick) c.(ch_gen) c.(ch_issued) c.(ch_session) c.(ch_buf) c.(ch_started)
    c.(ch_cached) x c.(ch_sent).
Definition on_sent (x : list (wsSession * frame)) (c : Chan) : Chan :=
  mkChan c.(ch_tick) c.(ch_gen) c.(ch_issued) c.(ch_session) c.(ch_buf) c.(ch_started)
    c.(ch_cached) c.(ch_dir) x.

Record ChanEnv := mkChanEnv {
  n_send : nat -> send_outcome;
  n_store : nat -> faults;
  n_boot : nat -> time;
  n_landed : nat -> option SelfUpdate;
  n_info : nat -> machineInfoPayload
}.

Definition consult {A} (f : nat -> A) : M Chan A :=
  fun c => (f c.(ch_tick), on_tick (S c.(ch_tick)) c).

Definition eventBufferSize : nat := 32.

Section Events.
Variable env : ChanEnv.
Variable startedAt : time.

(** [Session.Event]. *)
Definition session_Event (s : wsSession) (f : frame) : M Chan send_outcome :=
  r ← consult env.(n_send);
  match r with
  | SendOk => modify (fun c => on_sent (c.(ch_sent) ++ [(s, f)]) c) ;; mret SendOk
  | r => mret r
  end.

(** [wsSend]: an event the server did not accept is not sent. *)
Definition wsSend (s : wsSession) (f : frame) : M Chan send_outcome :=
  if negb (contains s.(ws_accepted) (frame_name f)) then mret SendOk else session_Event s f.

(** [emit]'s last section. *)
Definition buffer (ev : bufferedEvent) : M Chan unit :=
  modify (fun c =>
    let buf := c.(ch_buf) ++ [ev] in
    on_buf (if (eventBufferSize <? length buf)%nat then drop (length buf - eventBufferSize) buf else buf) c).

(** [emit]. *)
Definition emit (ev : bufferedEvent) : prog Chan unit :=
  s ← atomic (gets ch_session);
  match s with
  | None => if ev.(be_name) =s EvtSessionChanged then mret tt else atomic (buffer ev)
  | Some s =>
      if negb (contains s.(ws_accepted) ev.(be_name)) then mret tt
      else
        r ← atomic (session_Event s (FEvent ev));
        match r with
        | SendOk | SendTooLarge => mret tt
        | SendFailed => atomic (buffer ev)
        end
  end.

(** [flushEvents]: the loop over what was taken. *)
Fixpoint flush_loop (s : wsSession) (buf : list bufferedEvent) : prog Chan unit :=
  match buf with
  | [] => mret tt
  | ev :: rest =>
      r ← atomic (wsSend s (FEvent ev));
      match r with
      | SendOk | SendTooLarge => flush_loop s rest
      | SendFailed => atomic (modify (fun c => on_buf (buf ++ c.(ch_buf)) c))
      end
  end.

(** [flushEvents]. *)
Definition flushEvents (s : wsSession) : prog Chan unit :=
  buf ← atomic (buf ← gets ch_buf; modify (on_buf []) ;; mret buf);
  flush_loop s buf.

(** [nextWSGeneration], [storeWSSession], [clearWSSession]. *)
Definition nextWSGeneration : M Chan Z :=
  modify (fun c => on_issued (c.(ch_gen) + 1) (on_gen (c.(ch_gen) + 1) c)) ;; gets ch_gen.
Definition storeWSSession (gen : Z) (s : wsSession) : M Chan unit :=
  g ← gets ch_gen;
  when (g =? gen) (modify (on_session (Some s))).
Definition clearWSSession (gen : Z) : M Chan unit :=
  g ← gets ch_gen;
  when (g =? gen) (modify (fun c => on_gen (c.(ch_gen) + 1) c)) ;;
  modify (on_session None).

(** [buildServiceStarted]. *)
Definition buildServiceStarted : M Chan ServiceStarted :=
  boot ← consult env.(n_boot);
  f ← consult env.(n_store);
  d ← gets ch_dir;
  let '(cmds, (_, d')) := TakePendingCommands f d in
  modify (on_dir d') ;;
  landed ← consult env.(n_landed);
  mret (service_started cmds landed boot startedAt).

(** [cachedServiceStarted]. *)
Definition cachedServiceStarted : M Chan ServiceStarted :=
  cached ← gets ch_cached;
  match cached with
  | Some p => mret p
  | None => p ← buildServiceStarted; modify (on_cached (Some p)) ;; mret p
  end.

(** [startedSent.CompareAndSwap(false, true)]. *)
Definition claim_started : M Chan bool :=
  started ← gets ch_started;
  if (started : bool) then mret false else modify (on_started true) ;; mret true.

(** [handleWelcomeBurst], its first part. *)
Definition sendStarted (s : wsSession) : prog Chan unit :=
  p ← atomic cachedServiceStarted;
  r ← atomic (wsSend s (FStarted p));
  match r with
  | SendOk => mret tt
  | _ => atomic (modify (on_started false))
  end.

(** [handleWelcomeBurst]. *)
Definition handleWelcomeBurst (gen : Z) (s : wsSession) : prog Chan unit :=
  won ← atomic claim_started;
  pwhen won (sendStarted s) ;;
  flushEvents s ;;
  atomic (storeWSSession gen s) ;;
  flushEvents s ;;
  info ← atomic (consult env.(n_info));
  atomic (wsSend s (FInfo info)) ;;
  mret tt.
End Events.
