(* ===== verification/EventProps.v ===== *)
(** Properties of the events of the client channel, over every interleaving of
    welcome bursts, emitters and the supervisor ([channel_run]), and of a
    flush on its own. *)
From S2P Require Import Prelude Json Files PolicyDoc State MachineInfo Wire Conc Report Events.

Section Interleaving.
Variable env : ChanEnv.
Variable startedAt : time.

(** The supervisor's part of [runClientWS]: attempts one after the other. *)
Fixpoint attempts (n : nat) : prog Chan unit :=
  match n with
  | O => mret tt
  | S n' => gen ← atomic nextWSGeneration; atomic (clearWSSession gen) ;; attempts n'
  end.

(** What else arrives: the burst of an attempt that was started - now or at any
    later time -, an event to emit. *)
Inductive worker (c : Chan) : prog Chan unit -> Prop :=
| WorkBurst s : 0 < s.(ws_gen) <= c.(ch_issued) ->
    worker c (handleWelcomeBurst env startedAt s.(ws_gen) s)
| WorkEmit ev : worker c (emit env ev).

(** Commands work on the state file meanwhile. *)
Inductive file_move : Chan -> Chan -> Prop :=
| MoveDir d c : file_move c (on_dir d c).

Definition channel_run : list (prog Chan unit) * Chan -> list (prog Chan unit) * Chan -> Prop :=
  csteps file_move worker.

(** * service.started *)

(** How often it was sent. *)
Fixpoint started_count (l : list (wsSession * frame)) : Z :=
  match l with
  | [] => 0
  | (_, FStarted _) :: l' => 1 + started_count l'
  | _ :: l' => started_count l'
  end.

Lemma started_count_app l k : started_count (l ++ k) = started_count l + started_count k.
Proof. induction l as [|[s []] l IH]; cbn; rewrite ?IH; lia. Qed.

Lemma started_count_nonneg l : 0 <= started_count l.
Proof. induction l as [|[s []] l IH]; cbn; lia. Qed.

Definition started_view (c : Chan) : bool * Z := (c.(ch_started), started_count c.(ch_sent)).

(** The token of a thread: it won the right to send. *)
Inductive started_rel : bool -> Chan -> Chan -> bool -> Prop :=
| StartedKeep l c c' : started_view c' = started_view c -> started_rel l c c' l
| StartedWin c c' : c.(ch_started) = false ->
    started_view c' = (true, started_count c.(ch_sent)) -> started_rel false c c' true
| StartedSent c c' : started_view c' = (c.(ch_started), started_count c.(ch_sent) + 1) ->
    started_rel true c c' false
| StartedSkip c c' : started_view c' = started_view c -> started_rel true c c' false
| StartedFail c c' : started_view c' = (false, started_count c.(ch_sent)) -> started_rel true c c' false.

Definition started_inv (ls : list bool) (c : Chan) : Prop :=
  claims ls + started_count c.(ch_sent) <= Z.b2z c.(ch_started).

Lemma started_inv_step ls i l l' c c' : ls !! i = Some l -> started_rel l c c' l' ->
  started_inv ls c -> started_inv (<[i := l']> ls) c'.
Proof.
  intros Hi Hr. unfold started_inv. rewrite (claims_insert _ _ _ _ Hi).
  pose proof (claims_nonneg (<[i := false]> ls)) as Hn. rewrite (claims_insert _ _ _ _ Hi) in Hn.
  pose proof (started_count_nonneg c.(ch_sent)).
  destruct Hr as [l c c' [= -> ->]|c c' Hf [= -> ->]|c c' [= -> ->]|c c' [= -> ->]|c c' [= -> ->]];
    rewrite ?Hf; try destruct (ch_started c); cbn in *; lia.
Qed.

Ltac quiet_view t := keep_view ltac:(first
  [ solve [t] | solve [apply view_modify; intros; done] | solve [intros ?; done]
  ]).

Lemma started_event s f : (match f with FStarted _ => False | _ => True end) ->
  keeps_view started_view (session_Event env s f).
Proof.
  intros Hf. unfold session_Event. quiet_view idtac. intros c. unfold started_view. cbn.
  rewrite started_count_app. by destruct f; cbn; rewrite ?Z.add_0_r.
Qed.
Lemma started_send s f : (match f with FStarted _ => False | _ => True end) ->
  keeps_view started_view (wsSend env s f).
Proof. intros Hf. unfold wsSend. quiet_view ltac:(apply started_event; done). Qed.
Lemma started_cached : keeps_view started_view (cachedServiceStarted env startedAt).
Proof. unfold cachedServiceStarted, buildServiceStarted. quiet_view idtac. Qed.

Ltac started_thread :=
  repeat first
    [ match goal with
      | |- follows _ _ _ (atomic _ ≫= _) =>
          apply follows_then; [intros ?; apply StartedKeep; revert_view | intros ?]
      | |- follows _ _ _ (mret _) => apply follows_ret; reflexivity
      | |- follows _ _ _ (atomic _) =>
          apply follows_atomic; intros ?; eexists; split; [apply StartedKeep; revert_view | reflexivity]
      | |- follows _ _ _ (match ?x with _ => _ end) => destruct x
      end
    | progress cbv zeta ]
with revert_view :=
  match goal with |- started_view (?m ?c).2 = started_view ?c =>
    revert c; change (keeps_view started_view m);
    quiet_view ltac:(first [apply started_event; done | apply started_send; done | apply started_cached])
  end.
Lemma started_flush s buf l : follows started_rel (fun l' _ => l' = l) l (flush_loop env s buf).
Proof.
  induction buf as [|ev buf IH]; cbn [flush_loop]; [done|].
  apply follows_then; [intros c; apply StartedKeep; revert_view|]. intros [| |]; [done|done|].
  started_thread.
Qed.

Lemma started_flushEvents s l : follows started_rel (fun l' _ => l' = l) l (flushEvents env s).
Proof. unfold flushEvents. started_thread. apply started_flush. Qed.

Lemma started_send_it s : follows started_rel (fun l (_ : unit) => l = false) true (sendStarted env startedAt s).
Proof.
  unfold sendStarted. apply follows_then; [intros c; apply StartedKeep; revert_view|]. intros p.
  intros c. unfold wsSend. destruct (contains _ _); cbn [negb].
  - unfold session_Event, consult, mbind, M_bind. destruct (n_send env (ch_tick c)); cbn.
    + exists false. split; [|done]. apply StartedSent. unfold started_view. cbn.
      rewrite started_count_app. done.
    + exists true. split; [by apply StartedKeep|]. intros c'. exists false. split; [|done].
      by apply StartedFail.
    + exists true. split; [by apply StartedKeep|]. intros c'. exists false. split; [|done].
      by apply StartedFail.
  - exists false. split; [by apply StartedSkip|done].
Qed.

Lemma started_claim : follows started_rel (fun l (won : bool) => l = won) false (atomic claim_started).
Proof.
  apply follows_atomic. intros c. unfold claim_started, gets, mbind, M_bind.
  destruct (ch_started c) eqn:E; cbn.
  - exists false. split; [by apply StartedKeep|done].
  - exists true. split; [by apply StartedWin|done].
Qed.

Lemma started_worker c p : worker c p -> follows started_rel (fun l _ => l = false) false p.
Proof.
  intros [s _|ev].
  - unfold handleWelcomeBurst. eapply follows_bind; [apply started_claim|]. cbv beta. intros l won ->.
    eapply (follows_bind _ (fun l (_ : unit) => l = false)).
    { destruct won; [apply started_send_it|done]. }
    intros l u ->. eapply follows_bind; [apply started_flushEvents|]. cbv beta. intros ? ? ->.
    unfold storeWSSession. started_thread.
    eapply follows_bind; [apply started_flushEvents|]. cbv beta. intros ? ? ->. started_thread.
  - unfold emit, buffer. started_thread.
Qed.

Lemma started_attempts n : follows started_rel (fun l (_ : unit) => l = false) false (attempts n).
Proof.
  induction n as [|n IH]; cbn [attempts]; [done|]. unfold nextWSGeneration, clearWSSession.
  started_thread. done.
Qed.

(** C20: service.started reaches a server at most once in the life of the
    process, however many connections come and go and however their bursts,
    their failed writes and other events interleave; and while it has been
    neither sent nor is being sent, a later burst may still send it. *)
Theorem service_started_once (n : nat) (ts : list (prog Chan unit)) (c0 c : Chan) :
  c0.(ch_sent) = [] -> c0.(ch_started) = false -> channel_run ([attempts n], c0) (ts, c) ->
  started_count c.(ch_sent) <= 1 /\
  (c.(ch_started) = false -> started_count c.(ch_sent) = 0).
Proof.
  intros Hs Hf Hr.
  destruct (protocol_invariant started_rel file_move worker started_inv (fun l => l = false)
    started_inv_step ltac:(by intros ls c1 c2 [])
    (arrive_idle _ _ started_inv false _ started_worker
      ltac:(intros ls c1 H; unfold started_inv; rewrite claims_app; cbn; rewrite Z.add_0_r; done))
    _ _ [false] Hr) as (ls & _ & Hls).
  - constructor; [apply started_attempts|constructor].
  - unfold started_inv. cbn. by rewrite Hs, Hf.
  - unfold started_inv in Hls. cbn in Hls. pose proof (claims_nonneg ls).
    pose proof (started_count_nonneg c.(ch_sent)).
    split; [destruct (ch_started c); cbn in *; lia|]. intros E. rewrite E in Hls. cbn in Hls. lia.
Qed.

(** * The published session *)

Inductive role := Sup (held : option Z) | Burst (gen : Z) | Emitter.

Definition session_view (c : Chan) : Z * Z * option wsSession :=
  (c.(ch_gen), c.(ch_issued), c.(ch_session)).

Inductive gen_rel : role -> Chan -> Chan -> role -> Prop :=
| GenKeep l c c' : session_view c' = session_view c -> gen_rel l c c' l
| GenNext c c' : session_view c' = (c.(ch_gen) + 1, c.(ch_gen) + 1, c.(ch_session)) ->
    gen_rel (Sup None) c c' (Sup (Some (c.(ch_gen) + 1)))
| GenClear g c c' :
    session_view c' = (if c.(ch_gen) =? g then c.(ch_gen) + 1 else c.(ch_gen), c.(ch_issued), None) ->
    gen_rel (Sup (Some g)) c c' (Sup None)
| GenStore s c c' : c.(ch_gen) = s.(ws_gen) ->
    session_view c' = (c.(ch_gen), c.(ch_issued), Some s) ->
    gen_rel (Burst s.(ws_gen)) c c' (Burst s.(ws_gen)).

Definition issued_role (c : Chan) (l : role) : Prop :=
  match l with Sup _ => False | Burst g => 0 < g <= c.(ch_issued) | Emitter => True end.

Definition gen_inv (ls : list role) (c : Chan) : Prop :=
  exists held ls', ls = Sup held :: ls' /\ Forall (issued_role c) ls' /\
    match held with
    | None => c.(ch_session) = None /\ c.(ch_issued) <= c.(ch_gen) /\
              (c.(ch_issued) < c.(ch_gen) \/ c.(ch_issued) = 0)
    | Some g => g = c.(ch_gen) /\ c.(ch_issued) = c.(ch_gen) /\
                forall s, c.(ch_session) = Some s -> s.(ws_gen) = c.(ch_gen)
    end.

Lemma gen_inv_step ls i l l' c c' : ls !! i = Some l -> gen_rel l c c' l' ->
  gen_inv ls c -> gen_inv (<[i := l']> ls) c'.
Proof.
  intros Hi Hr (held & ls' & -> & Hw & Hh).
  assert (Hmono : c.(ch_issued) <= c'.(ch_issued) -> Forall (issued_role c') ls').
  { intros H. eapply Forall_impl; [exact Hw|]. intros []; cbn; lia. }
  destruct i as [|i]; cbn in Hi |- *.
  - injection Hi as <-. inversion Hr as [? ? ? [= Hg Hs Hp]|? ? [= Hg Hs Hp]|? ? ? [= Hg Hs Hp]|]; subst;
      eexists _, ls'; (split; [reflexivity|split; [apply Hmono; lia|]]).
    + by rewrite Hg, Hs, Hp.
    + destruct Hh as [Hn _]. rewrite Hg, Hs, Hp, Hn. done.
    + destruct Hh as (-> & Hh & _). rewrite Z.eqb_refl in Hg. rewrite Hg, Hs, Hp, Hh. split; [done|lia].
  - assert (Hl : issued_role c l) by by eapply Forall_lookup_1.
    inversion Hr as [? ? ? [= Hg Hs Hp]| | |s ? ? Hcur [= Hg Hs Hp]]; subst; try done;
      eexists held, _; (split; [reflexivity|split; [apply Forall_insert; [apply Hmono; lia|]|]]).
    + by destruct l'; cbn in *; lia.
    + by rewrite Hg, Hs, Hp.
    + cbn in *. lia.
    + rewrite Hg, Hs, Hp. cbn in Hl. destruct held as [g|]; [|lia].
      destruct Hh as (-> & Hh & _). split_and!; [done|done|]. by intros s' [= <-].
Qed.

Ltac gen_view := keep_view ltac:(first [solve [apply view_modify; intros; done] | solve [intros ?; done]]).

Lemma gen_then {X B} (R : role -> B -> Prop) l (f : M Chan X) (g : X -> prog Chan B) :
  keeps_view session_view f -> (forall x, follows gen_rel R l (g x)) ->
  follows gen_rel R l (atomic f ≫= g).
Proof. intros Hf. apply follows_then. intros c. by apply GenKeep. Qed.

Lemma gen_atomic {X} l (f : M Chan X) : keeps_view session_view f ->
  follows gen_rel (fun l' _ => l' = l) l (atomic f).
Proof. intros Hf. apply follows_atomic. intros c. exists l. split; [by apply GenKeep|done]. Qed.

Ltac gen_thread :=
  repeat first
    [ match goal with
      | |- follows _ _ _ (atomic _ ≫= _) => apply gen_then; [gen_view | intros ?]
      | |- follows _ _ _ (mret _) => apply follows_ret; reflexivity
      | |- follows _ _ _ (atomic _) => apply gen_atomic; gen_view
      | |- follows _ _ _ (match ?x with _ => _ end) => destruct x
      end
    | progress cbv zeta ].

Lemma gen_flush s l : follows gen_rel (fun l' _ => l' = l) l (flushEvents env s).
Proof.
  unfold flushEvents. gen_thread. generalize dependent x. intros buf.
  induction buf as [|ev buf IH]; cbn [flush_loop]; [done|]. unfold wsSend, session_Event. gen_thread; done.
Qed.

Lemma gen_worker c p : worker c p -> exists l, issued_role c l /\
  follows gen_rel (fun l' _ => l' = l) l p.
Proof.
  intros [s Hs|ev].
  - exists (Burst s.(ws_gen)). split; [done|]. unfold handleWelcomeBurst, claim_started.
    apply gen_then; [gen_view|]. intros won.
    eapply (follows_bind _ (fun l' (_ : unit) => l' = Burst s.(ws_gen))).
    { destruct won; [|done]. cbn [pwhen]. unfold pwhen, sendStarted, cachedServiceStarted, buildServiceStarted, wsSend, session_Event.
      gen_thread. }
    intros ? ? ->. eapply follows_bind; [apply gen_flush|]. cbv beta. intros ? ? ->.
    apply follows_then.
    { intros c'. unfold storeWSSession, gets, mbind, M_bind.
      destruct (ch_gen c' =? ws_gen s) eqn:E; cbn; [|by apply GenKeep].
      bool_to_prop. by apply GenStore. }
    intros u. eapply follows_bind; [apply gen_flush|]. cbv beta. intros ? ? ->.
    unfold wsSend, session_Event. gen_thread.
  - exists Emitter. split; [done|]. unfold emit, session_Event, buffer. gen_thread.
Qed.

Lemma gen_attempts n : follows gen_rel (fun l _ => l = Sup None) (Sup None) (attempts n).
Proof.
  induction n as [|n IH]; cbn [attempts]; [done|].
  intros c. exists (Sup (Some (c.(ch_gen) + 1))). split; [by apply GenNext|].
  intros c'. exists (Sup None). split; [|exact IH]. apply GenClear.
  unfold clearWSSession, gets, mbind, M_bind. cbn.
  change (nextWSGeneration c).1 with (ch_gen c + 1). by destruct (ch_gen c' =? ch_gen c + 1).
Qed.

Lemma gen_arrive ls c p : worker c p -> gen_inv ls c ->
  exists l, follows gen_rel (fun _ _ => True) l p /\ gen_inv (ls ++ [l]) c.
Proof.
  intros Hp (held & ls' & -> & Hw & Hh). destruct (gen_worker _ _ Hp) as (l & Hl & Hf).
  exists l. split; [by eapply follows_weaken|]. exists held, (ls' ++ [l]).
  split_and!; [done| |done]. apply Forall_app. by split; [|constructor].
Qed.

(** C21: A session the service writes to belongs to the connection attempt in
    progress: whatever the interleaving of the supervisor's attempts with
    welcome bursts, however late, and with emitters, a published session is
    the one of the last generation handed out, which has not been retired. *)
Theorem published_is_current (n : nat) (ts : list (prog Chan unit)) (c0 c : Chan) (s : wsSession) :
  c0.(ch_gen) = 0 -> c0.(ch_issued) = 0 -> c0.(ch_session) = None ->
  channel_run ([attempts n], c0) (ts, c) -> c.(ch_session) = Some s ->
  s.(ws_gen) = c.(ch_gen) /\ c.(ch_issued) = c.(ch_gen).
Proof.
  intros Hg Hi Hs Hr Hc.
  destruct (protocol_invariant gen_rel file_move worker gen_inv (fun _ => True) gen_inv_step
    ltac:(by intros ls c1 c2 []) gen_arrive _ _ [Sup None] Hr) as (ls & _ & held & ls' & _ & _ & Hh).
  - constructor; [|constructor]. eapply follows_weaken; [apply gen_attempts|done].
  - exists None, []. cbn. split_and!; first [done | lia | by constructor].
  - cbn in Hh. destruct held as [g|]; [|destruct Hh as [Hn _]; congruence].
    destruct Hh as (-> & Hh & Hcur). split; [by apply Hcur|done].
Qed.
End Interleaving.

(** * A burst on its own *)

Section Sequential.
Variable env : ChanEnv.
Variable startedAt : time.

(** What becomes of the events of a buffer: sent in order, left out, or kept
    from the first failed write on. *)
Inductive flushed (s : wsSession) : list bufferedEvent -> list bufferedEvent -> list bufferedEvent -> Prop :=
| FlNil : flushed s [] [] []
| FlUnaccepted ev l out kept : contains s.(ws_accepted) ev.(be_name) = false ->
    flushed s l out kept -> flushed s (ev :: l) out kept
| FlSent ev l out kept : contains s.(ws_accepted) ev.(be_name) = true ->
    flushed s l out kept -> flushed s (ev :: l) (ev :: out) kept
| FlTooLarge ev l out kept n : env.(n_send) n = SendTooLarge ->
    flushed s l out kept -> flushed s (ev :: l) out kept
| FlFailed ev l n : env.(n_send) n = SendFailed -> flushed s (ev :: l) [] (ev :: l).

(** A frame on its own session. *)
Definition on_wire (s : wsSession) (f : frame) : wsSession * frame := (s, f).

(** All a flush changes. *)
Definition flush_frame (s : wsSession) (out kept : list bufferedEvent) (c c' : Chan) : Prop :=
  exists t, c' = on_tick t (on_buf (kept ++ c.(ch_buf))
    (on_sent (c.(ch_sent) ++ (on_wire s ∘ FEvent <$> out)) c)).

Lemma flush_loop_spec s buf : forall c, exists out kept,
  flushed s buf out kept /\ flush_frame s out kept c (run (flush_loop env s buf) c).2.
Proof.
  induction buf as [|ev buf IH]; intros c; cbn [flush_loop].
  - exists [], []. split; [constructor|]. exists c.(ch_tick). cbn. rewrite app_nil_r. by destruct c.
  - rewrite run_bind, run_atomic. unfold wsSend. change (frame_name (FEvent ev)) with ev.(be_name).
    destruct (contains _ _) eqn:Ha; cbn [negb].
    + unfold session_Event, consult, mbind, M_bind.
      destruct (n_send env (ch_tick c)) eqn:E; cbn.
      * destruct (IH (on_sent (c.(ch_sent) ++ [(s, FEvent ev)]) (on_tick (S c.(ch_tick)) c)))
          as (out & kept & Hf & t & Ht).
        exists (ev :: out), kept. split; [by constructor|]. exists t. rewrite Ht. cbn.
        by rewrite <- app_assoc.
      * destruct (IH (on_tick (S c.(ch_tick)) c)) as (out & kept & Hf & t & Ht).
        exists out, kept. split; [by econstructor|]. exists t. by rewrite Ht.
      * exists [], (ev :: buf). split; [by econstructor|]. exists (S c.(ch_tick)). cbn.
        by rewrite app_nil_r.
    + destruct (IH c) as (out & kept & Hf & Hc). exists out, kept. split; [by constructor|done].
Qed.

Lemma flush_spec s c : exists out kept, flushed s c.(ch_buf) out kept /\
  flush_frame s out kept (on_buf [] c) (run (flushEvents env s) c).2.
Proof.
  unfold flushEvents. rewrite run_bind, run_atomic. unfold gets, modify, mbind, M_bind. cbn.
  apply (flush_loop_spec s c.(ch_buf) (on_buf [] c)).
Qed.

(** A connection on which every write succeeds. *)
Hypothesis healthy : forall n, env.(n_send) n = SendOk.

Definition accepted_event (s : wsSession) (ev : bufferedEvent) : bool := contains s.(ws_accepted) ev.(be_name).
Definition accepted_frame (s : wsSession) (f : frame) : bool := contains s.(ws_accepted) (frame_name f).

Lemma flushed_healthy s l out kept : flushed s l out kept ->
  out = bfilter (accepted_event s) l /\ kept = [].
Proof using healthy.
  unfold bfilter, accepted_event. induction 1 as [|ev l out kept Ha _ [-> ->]|ev l out kept Ha _ [-> ->]
    |ev l out kept n Hn|ev l n Hn]; cbn; rewrite ?Ha; try done; by rewrite healthy in Hn.
Qed.

Lemma flush_healthy s c : exists t, (run (flushEvents env s) c).2 =
  on_tick t (on_buf [] (on_sent (c.(ch_sent) ++
    (on_wire s ∘ FEvent <$> bfilter (accepted_event s) c.(ch_buf))) c)).
Proof using healthy.
  destruct (flush_spec s c) as (out & kept & [-> ->]%flushed_healthy & t & Ht).
  exists t. by rewrite Ht.
Qed.

Lemma send_healthy s f c : exists t, wsSend env s f c =
  (SendOk, on_tick t (on_sent (c.(ch_sent) ++ (on_wire s <$> bfilter (accepted_frame s) [f])) c)).
Proof using healthy.
  unfold wsSend, bfilter, accepted_frame. cbn [filter List.filter].
  destruct (contains _ _); cbn [negb].
  - exists (S c.(ch_tick)). unfold session_Event, consult, mbind, M_bind. by rewrite healthy.
  - exists c.(ch_tick). cbn. rewrite app_nil_r. by destruct c.
Qed.

Definition core (c : Chan) := (c.(ch_gen), c.(ch_buf), c.(ch_session), c.(ch_started), c.(ch_sent)).

Lemma cached_core c : core (cachedServiceStarted env startedAt c).2 = core c.
Proof.
  unfold cachedServiceStarted, buildServiceStarted, consult, gets, modify, mbind, M_bind.
  destruct (ch_cached c); [done|]. cbn. by destruct (update _ _ _) as [e d].
Qed.

(** What a program does to [core], whatever the rest. *)
Definition moves {A} (R : _ -> _ -> Prop) (p : prog Chan A) : Prop :=
  forall c, R (core c) (core (run p c).2).

Lemma moves_then {A B} R1 R2 (p : prog Chan A) (f : A -> prog Chan B) :
  moves R1 p -> (forall a, moves R2 (f a)) -> moves (fun x z => exists y, R1 x y /\ R2 y z) (p ≫= f).
Proof.
  intros Hp Hf c. rewrite run_bind. specialize (Hp c). destruct (run p c) as [a c1].
  eexists. split; [exact Hp|]. apply (Hf a c1).
Qed.

Definition sends (s : wsSession) (fs : list frame) (l : list (wsSession * frame)) :=
  l ++ (on_wire s <$> bfilter (accepted_frame s) fs).

Lemma sends_app s fs gs l : sends s gs (sends s fs l) = sends s (fs ++ gs) l.
Proof. unfold sends, bfilter. by rewrite <- app_assoc, <- fmap_app, <- List.filter_app. Qed.

Lemma send_moves s f : moves (fun '(g, b, se, st, l) y => y = (g, b, se, st, sends s [f] l))
  (atomic (wsSend env s f)).
Proof using healthy. intros c. rewrite run_atomic. by destruct (send_healthy s f c) as [t ->]. Qed.

Lemma flush_moves s : moves (fun '(g, b, se, st, l) y => y = (g, [], se, st, sends s (FEvent <$> b) l))
  (flushEvents env s).
Proof using healthy.
  intros c. destruct (flush_healthy s c) as [t ->]. unfold core, sends. cbn. do 2 f_equal.
  unfold bfilter, accepted_event, accepted_frame.
  induction c.(ch_buf) as [|ev l IH]; [done|]. cbn. destruct (contains _ _); cbn; by rewrite IH.
Qed.

Lemma started_moves s : moves (fun '(g, b, se, st, l) y =>
    exists p, y = (g, b, se, st, sends s [FStarted p] l)) (sendStarted env startedAt s).
Proof using healthy.
  intros c. unfold sendStarted. rewrite run_bind, run_atomic. pose proof (cached_core c) as Hc.
  destruct (cachedServiceStarted _ _ _) as [p c1]. exists p.
  rewrite run_bind, run_atomic. destruct (send_healthy s (FStarted p) c1) as [t ->].
  unfold core in Hc |- *. cbn in Hc |- *. by injection Hc as -> -> -> -> ->.
Qed.

Lemma store_moves s : moves (fun '(g, b, se, st, l) y =>
    y = (g, b, if g =? s.(ws_gen) then Some s else se, st, l)) (atomic (storeWSSession s.(ws_gen) s)).
Proof.
  intros c. rewrite run_atomic. unfold storeWSSession, gets, mbind, M_bind.
  destruct (ch_gen c =? ws_gen s) eqn:E; unfold core; cbn; by rewrite E.
Qed.

Lemma info_moves s : moves (fun '(g, b, se, st, l) y => exists info, y = (g, b, se, st, sends s [FInfo info] l))
  (info ← atomic (consult env.(n_info)); atomic (wsSend env s (FInfo info)) ;; mret tt).
Proof using healthy.
  intros c. rewrite run_bind, run_atomic. unfold consult at 1.
  set (info := n_info env (ch_tick c)). exists info. rewrite run_bind.
  pose proof (send_moves s (FInfo info) (on_tick (S (ch_tick c)) c)) as H.
  destruct (run _ _) as [r c1]. cbn in H |- *. by rewrite H.
Qed.

(** C33: A welcome on a healthy connection: the burst sends service.started
    first - unless an earlier one did -, then every buffered event in the
    order it was emitted, then machine.info, leaving out what the server did
    not accept; it empties the buffer and publishes the session of a current
    attempt. *)
Theorem welcome_burst (s : wsSession) (c : Chan) : exists p info,
  core (run (handleWelcomeBurst env startedAt s.(ws_gen) s) c).2 =
  (c.(ch_gen), [], if c.(ch_gen) =? s.(ws_gen) then Some s else c.(ch_session), true,
   sends s ((if c.(ch_started) then [] else [FStarted p]) ++ (FEvent <$> c.(ch_buf)) ++ [FInfo info])
     c.(ch_sent)).
Proof using healthy.
  unfold handleWelcomeBurst. rewrite run_bind, run_atomic.
  assert (Hc1 : claim_started c = (negb c.(ch_started), on_started true c)).
  { unfold claim_started, gets, modify, mbind, M_bind. by destruct c as [? ? ? ? ? []]. }
  rewrite Hc1. clear Hc1.
  assert (H1 : moves (fun '(g, b, se, st, l) y => exists p,
      y = (g, b, se, st, sends s (if c.(ch_started) then [] else [FStarted p]) l))
    (pwhen (negb (ch_started c)) (sendStarted env startedAt s))).
  { destruct (ch_started c); [|apply started_moves]. intros c'.
    exists (service_started [] None zero_time zero_time). unfold sends, core. cbn. by rewrite app_nil_r. }
  pose proof (moves_then _ _ _ _ H1 (fun _ => moves_then _ _ _ _ (flush_moves s) (fun _ =>
    moves_then _ _ _ _ (store_moves s) (fun _ =>
    moves_then _ _ _ _ (flush_moves s) (fun _ => info_moves s)))) (on_started true c)) as H.
  destruct H as (? & [p ->] & ? & -> & ? & -> & ? & -> & info & Hend).
  exists p, info. rewrite <- (sends_app s _ _ c.(ch_sent)), <- sends_app.
  etrans; [exact Hend|]. unfold sends at 2. cbn. by rewrite app_nil_r.
Qed.
End Sequential.

(** * Runs *)

Module EventBench.

Definition nothing_landed (n : nat) : option SelfUpdate := None.
Definition no_info : machineInfoPayload :=
  mkMachineInfo "" "" "" "" "" "" "" "" None "" 0 None None None None None None None.
Definition no_fault : faults := mkFaults false false None "1".
(** The outcomes of the writes, by tick. *)
Definition env (fails : list nat) : ChanEnv :=
  mkChanEnv (fun n => if bool_decide (n ∈ fails) then SendFailed else SendOk) (fun _ => no_fault)
    (fun _ => zero_time) nothing_landed (fun _ => no_info).
Definition c0 : Chan := mkChan 0 0 0 None [] false None ∅ [].
Definition all : list string := EventNames.
Definition conn (g : Z) : wsSession := mkWs g all.
Definition event (name : string) : bufferedEvent :=
  mkEvent name (PSession (mkSessionChanged [] 0 "" None false "")).

Definition sent_names (c : Chan) : list (Z * string) :=
  (fun '(s, f) => (s.(ws_gen), frame_name f)) <$> c.(ch_sent).

(** Threads that arrive at one moment of an attempt. *)
Lemma arrive_all e started (ps : list (prog Chan unit)) c : Forall (worker e started c) ps ->
  forall ts, channel_run e started (ts, c) (ts ++ ps, c).
Proof.
  induction 1 as [|p ps Hp _ IH]; intros ts; [by rewrite app_nil_r|].
  eapply rtc_l; [by apply StepArrive|]. specialize (IH (ts ++ [p])). by rewrite <- app_assoc in IH.
Qed.

Lemma then_arrive e started ts c ps l :
  Forall (worker e started (schedule l (ts, c)).2) ps -> forall l',
  channel_run e started (ts, c) ((schedule l' ((schedule l (ts, c)).1 ++ ps, (schedule l (ts, c)).2)).1,
    (schedule l' ((schedule l (ts, c)).1 ++ ps, (schedule l (ts, c)).2)).2).
Proof.
  intros H l'. rewrite <- surjective_pairing. etrans; [apply (schedule_steps _ _ l)|].
  etrans; [|apply schedule_steps]. rewrite (surjective_pairing (schedule l (ts, c))) at 1.
  by apply arrive_all.
Qed.

(** One attempt, its burst - whose first write is lost -, and the burst of a
    second welcome on the same connection, which repeats it. *)
Definition two_bursts : list nat := replicate 20 1%nat ++ replicate 20 2%nat.
Definition bursts : list (prog Chan unit) :=
  let b := handleWelcomeBurst (env [3%nat]) zero_time 1 (conn 1) in [b; b].
Definition after : list (prog Chan unit) * Chan :=
  let c1 := schedule [0%nat] ([attempts 1], c0) in schedule two_bursts (c1.1 ++ bursts, c1.2).

Lemma after_run : channel_run (env [3%nat]) zero_time ([attempts 1], c0) (after.1, after.2).
Proof.
  apply (then_arrive (env [3%nat]) zero_time [attempts 1] c0 bursts [0%nat]).
  repeat constructor; by vm_compute.
Qed.

Lemma service_started_once_witness :
  sent_names after.2 = [(1, "machine.info"); (1, "service.started"); (1, "machine.info")] /\
  started_count after.2.(ch_sent) <= 1.
Proof.
  split; [by vm_compute|].
  apply (service_started_once (env [3%nat]) zero_time 1 after.1 c0 after.2); [done|done|apply after_run].
Defined.

Lemma published_is_current_witness :
  after.2.(ch_session) = Some (conn 1) /\ (conn 1).(ws_gen) = after.2.(ch_gen).
Proof.
  split; [by vm_compute|].
  apply (published_is_current (env [3%nat]) zero_time 1 after.1 c0 after.2 (conn 1)); try done.
  apply after_run.
Defined.

Lemma welcome_burst_witness : exists p info,
  core (run (handleWelcomeBurst (env []) zero_time 0 (conn 0)) c0).2 =
  (0, [], Some (conn 0), true, [(conn 0, FStarted p); (conn 0, FInfo info)]).
Proof. exact (welcome_burst (env []) zero_time (fun _ => eq_refl) (conn 0) c0). Defined.

(** ** Races the code leaves open *)

Definition attempt1 : list (prog Chan unit) * Chan := schedule [0%nat] ([attempts 1], c0).

(** An event that found no session and reaches the buffer after the burst's
    second flush stays there while a session is up. *)
Definition late : list (prog Chan unit) :=
  [handleWelcomeBurst (env []) zero_time 1 (conn 1); emit (env []) (event "update.failed")].
Definition stranded : list (prog Chan unit) * Chan :=
  schedule ([2%nat] ++ replicate 20 1%nat ++ [2%nat]) (attempt1.1 ++ late, attempt1.2).

Theorem emit_strands_event :
  exists ts c, channel_run (env []) zero_time ([attempts 1], c0) (ts, c) /\
    c.(ch_session) = Some (conn 1) /\ c.(ch_buf) = [event "update.failed"] /\
    sent_names c = [(1, "service.started"); (1, "machine.info")].
Proof.
  exists stranded.1, stranded.2. split; [|by vm_compute].
  apply (then_arrive (env []) zero_time [attempts 1] c0 late [0%nat]).
  repeat constructor; by vm_compute.
Qed.

(** A failed flush puts its events back in front of those that arrived
    meanwhile, past the bound of the buffer. *)
Definition full : Chan := on_buf (replicate 32 (event "update.started")) c0.
Definition crowd : list (prog Chan unit) :=
  handleWelcomeBurst (env [4%nat]) zero_time 1 (conn 1) ::
  replicate 32 (emit (env [4%nat]) (event "update.failed")).
Definition overfull : list (prog Chan unit) * Chan :=
  let c1 := schedule [0%nat] ([attempts 1], full) in
  schedule (replicate 4 1%nat ++ (seq 2 32 ≫= fun i => [i; i]) ++ replicate 2 1%nat) (c1.1 ++ crowd, c1.2).

Theorem buffer_outgrows_bound :
  exists ts c, channel_run (env [4%nat]) zero_time ([attempts 1], full) (ts, c) /\
    length full.(ch_buf) = eventBufferSize /\ length c.(ch_buf) = 64%nat.
Proof.
  exists overfull.1, overfull.2. split; [|by vm_compute].
  apply (then_arrive (env [4%nat]) zero_time [attempts 1] full crowd [0%nat]).
  repeat constructor; by vm_compute.
Qed.

(** A reboot accepted on the very connection whose welcome is being answered
    is consumed by it and reported completed before it happened. *)
Definition accepted_now : dir :=
  {[ statePath := Some (enc_state (mkState None None [mkPendingCommand "A" "machine.reboot" 1])) ]}.
Definition welcome_only : list (prog Chan unit) := [handleWelcomeBurst (env []) zero_time 1 (conn 1)].
Definition consumed : list (prog Chan unit) * Chan :=
  schedule (replicate 20 1%nat) (attempt1.1 ++ welcome_only, on_dir accepted_now attempt1.2).

Theorem burst_completes_accepted_command :
  exists ts c s p rest, channel_run (env []) zero_time ([attempts 1], c0) (ts, c) /\
    c0.(ch_dir) = ∅ /\ c.(ch_sent) = (s, FStarted p) :: rest /\ p.(CompletedCommands) = ["A"] /\
    p.(sv_Reason) = "boot".
Proof.
  eexists consumed.1, consumed.2, _, _, _. split; [|split; [done|split; [by vm_compute|by vm_compute]]].
  etrans; [apply (schedule_steps _ _ [0%nat])|]. rewrite (surjective_pairing (schedule _ _)).
  eapply rtc_l; [apply StepEnv, (MoveDir accepted_now)|].
  etrans; [apply (arrive_all (env []) zero_time welcome_only)|].
  - repeat constructor; by vm_compute.
  - unfold consumed. rewrite <- surjective_pairing. apply schedule_steps.
Qed.
End EventBench.
