(* ===== verification/Presence.v ===== *)
(** internal/wsclient/client.go and session.go: one connection of the client
    channel - its URL, the upgrade with its redirects, the handshake, the loop
    that answers pings and dispatches v2 messages, the session it hands out.

    The WebSocket library is outside: the upgrade is the list of redirects it
    is led through and its final status, the connection the list of what each
    read returns (with whether the answer to a ping could be written); the end
    of the list is the end of the connection. URLs are handled as texts that
    need no percent-encoding. *)
From S2P Require Import Prelude Json PolicyDoc Net Config Wire Conc Gate Commands Report.

#[local] Existing Instance slice_codec.

Definition ws_Path : string := "/v2/client/ws".

Definition TypeHello : string := "hello".
Definition TypeIdentity : string := "identity".
Definition TypePing : string := "ping".
Definition TypePong : string := "pong".
Definition TypeError : string := "error".
Definition TypeWelcome : string := "welcome".
Definition TypeCommand : string := "command".
Definition TypeNotify : string := "notify".

(** * The endpoint *)

(** A URL's text up to its query or fragment, and the rest. *)
Definition url_text (s : string) : string := (cut_byte "?" (cut_byte "#" s).1.1).1.1.
Definition url_suffix (s fragment : string) : string :=
  let suffix := drop_str (String.length (url_text s)) s in
  if fragment =s "" then trim_suffix suffix "#" else suffix.

(** [URLFor]. *)
Definition URLFor (baseURL : string) : result string string :=
  let base := trim_slashes (trim_space baseURL) in
  if base =s "" then Err "empty server base URL"
  else match url_Parse base with
       | None => Err ("server base URL " +:+ baseURL +:+ " is not a URL")
       | Some u =>
           let at_ ws := ws +:+ drop_str (String.length u.(Scheme)) (url_text base) +:+ ws_Path +:+
                         url_suffix base u.(Fragment) in
           let url := if u.(Scheme) =s "https" then Ok (at_ "wss")
                      else if u.(Scheme) =s "http" then Ok (at_ "ws")
                      else Err ("server base URL " +:+ baseURL +:+ " has scheme " +:+ u.(Scheme) +:+
                                ", want http or https") in
           if is_ok url && (u.(url_Host) =s "")
           then Err ("server base URL " +:+ baseURL +:+ " has no host")
           else url
       end.

(** * The session *)

(** [Session], less its connection. *)
Record wsSessionInfo := mkSessionInfo {
  ss_secure : bool;
  ss_accepted : list string;
  ss_limits : Limits
}.

(** [newSession]. *)
Definition newSession (url : string) (w : Welcome) : wsSessionInfo :=
  mkSessionInfo (has_prefix url "wss://") w.(AcceptedCapabilities)
    (if w.(wl_Limits).(MaxMessageBytes) <=? 0 then DefaultLimits else w.(wl_Limits)).

(** [Session.write]: the length of the frame against the negotiated limit. *)
Definition session_write (s : wsSessionInfo) (frame_len : Z) (written : bool) : result string unit :=
  if s.(ss_limits).(MaxMessageBytes) <? frame_len then Err "message exceeds max_message_bytes"
  else if written then Ok tt else Err "write failed".

(** * The upgrade *)

(** [httpClientRefusingSchemeDowngrade]'s [CheckRedirect], over the schemes;
    the client it copies has none of its own. *)
Definition CheckRedirect (prev next : string) : bool := negb ((prev =s "https") && negb (next =s "https")).

(** The upgrade request follows its redirects: the scheme it ends on. *)
Fixpoint follow_redirects (cur : string) (hops : list string) : option string :=
  match hops with
  | [] => Some cur
  | next :: hops' => if CheckRedirect cur next then follow_redirects next hops' else None
  end.

Definition request_scheme (url : string) : string :=
  if has_prefix url "wss://" then "https" else "http".

Inductive dial_error := ErrNotImplemented | ErrUnauthorized (status : Z) | DialFailed.

(** [dial]: the redirects met, and the status of the last answer, [None] when
    there was none. The scheme of the connection when it is upgraded. *)
Definition dial (url : string) (hops : list string) (status : option Z) : result dial_error string :=
  match follow_redirects (request_scheme url) hops with
  | None => Err DialFailed
  | Some scheme =>
      match status with
      | Some st => if st =? 101 then Ok scheme
                   else if st =? 404 then Err ErrNotImplemented
                   else if (st =? 401) || (st =? 403) then Err (ErrUnauthorized st)
                   else Err DialFailed
      | None => Err DialFailed
      end
  end.

(** * The connection *)

(** [Notify] (protocol.go). *)
Record Notify := mkNotify { Topic : string; nt_Payload : option json }.

#[export] Instance Limits_codec : Codec Limits := {|
  zero := mkLimits 0 0 0;
  enc x := obj [("max_message_bytes", enc x.(MaxMessageBytes));
    ("max_events_per_minute", enc x.(MaxEventsPerMinute));
    ("ack_timeout_seconds", enc x.(AckTimeoutSeconds))];
  dec := dec_struct (mkLimits 0 0 0) (fun m =>
    a ← @field _ int_codec m "max_message_bytes"; b ← @field _ int_codec m "max_events_per_minute";
    c ← @field _ int_codec m "ack_timeout_seconds"; Some (mkLimits a b c)) |}.

(** Decoding of [Welcome], [Command] and [Notify]; a raw member is taken as it
    is. *)
Definition dec_welcome : json -> option Welcome :=
  dec_struct (mkWelcome 0 [] (mkLimits 0 0 0)) (fun m =>
    a ← @field _ int_codec m "protocol"; b ← (field m "accepted_capabilities" : option (slice string));
    c ← field m "limits"; Some (mkWelcome a (sl b) c)).
Definition dec_command : json -> option Command :=
  dec_struct (mkCommand "" None "" "") (fun m =>
    a ← field m "name"; b ← field m "expires_at"; c ← field m "issued_by";
    Some (mkCommand a (m !! "args") b c)).
Definition dec_notify : json -> option Notify :=
  dec_struct (mkNotify "" None) (fun m => a ← field m "topic"; Some (mkNotify a (m !! "payload"))).

Definition unmarshal_data {A} (dec : json -> option A) (msg : Message) : option A :=
  j ← msg.(msg_Data); dec j.

(** [errorCode]: the code of an error message, or what else it says. *)
Definition errorCode (data : option json) (text : string) : string :=
  match data with
  | None => "(no code)"
  | Some (JObj m) =>
      match m !! "code" with
      | Some (JStr (String c r)) => String c r
      | _ => text
      end
  | Some _ => text
  end.

(** What a read returns; [pong]: a pong written then goes out. *)
Record incoming := mkIncoming { in_msg : Message; in_text : string; in_pong : bool }.

(** What the connection does. *)
Inductive reaction :=
| SendIdentity
| Connected
| SendPong
| OnWelcome (s : wsSessionInfo) (w : Welcome)
| OnCommand (s : wsSessionInfo) (msg : Message) (cmd : Command)
| OnNotify (s : wsSessionInfo) (msg : Message) (n : Notify).

Inductive run_error :=
| Unidentified
| DialError (e : dial_error)
| ReadFailed
| IdentityNotSent
| PongNotSent
| Refused (code : string).

(** [handshake]: what is left to read when it succeeds. *)
Fixpoint handshake (sent : bool) (reads : list incoming) : result run_error (list incoming) :=
  match reads with
  | [] => Err ReadFailed
  | i :: rest =>
      let t := i.(in_msg).(msg_Type) in
      if t =s TypeHello then (if sent then Ok rest else Err IdentityNotSent)
      else if t =s TypeError then Err (Refused (errorCode i.(in_msg).(msg_Data) i.(in_text)))
      else handshake sent rest
  end.

Section Heartbeat.
Variable url : string.
(** The client has a handler. *)
Variable handler : bool.

(** One message of [heartbeat]: what it does, the session from then on, the
    error that ends the connection. *)
Definition react (sess : option wsSessionInfo) (i : incoming) :
    list reaction * option wsSessionInfo * option run_error :=
  let msg := i.(in_msg) in
  let t := msg.(msg_Type) in
  if t =s TypePing then
    if i.(in_pong) then ([SendPong], sess, None) else ([], sess, Some PongNotSent)
  else if t =s TypeWelcome then
    match handler, sess with
    | true, None =>
        match unmarshal_data dec_welcome msg with
        | Some w => if w.(wl_Protocol) <? ProtocolV2 then ([], sess, None)
                    else let s := newSession url w in ([OnWelcome s w], Some s, None)
        | None => ([], sess, None)
        end
    | _, _ => ([], sess, None)
    end
  else if t =s TypeCommand then
    match sess with
    | None => ([], sess, None)
    | Some s => match unmarshal_data dec_command msg with
                | Some cmd => ([OnCommand s msg cmd], sess, None)
                | None => ([], sess, None)
                end
    end
  else if t =s TypeNotify then
    match sess with
    | None => ([], sess, None)
    | Some s => match unmarshal_data dec_notify msg with
                | Some n => ([OnNotify s msg n], sess, None)
                | None => ([], sess, None)
                end
    end
  else if t =s TypeError then ([], sess, Some (Refused (errorCode msg.(msg_Data) i.(in_text))))
  else ([], sess, None).

(** [heartbeat]. *)
Fixpoint heartbeat (sess : option wsSessionInfo) (reads : list incoming) : list reaction * run_error :=
  match reads with
  | [] => ([], ReadFailed)
  | i :: rest =>
      match react sess i with
      | (out, _, Some e) => (out, e)
      | (out, sess', None) => let '(out', e) := heartbeat sess' rest in (out ++ out', e)
      end
  end.

(** [Run]. *)
Definition Run (id : Identity) (hops : list string) (status : option Z) (sent : bool)
    (reads : list incoming) : list reaction * run_error :=
  if negb (Identified id) then ([], Unidentified)
  else match dial url hops status with
       | Err e => ([], DialError e)
       | Ok _ =>
           match handshake sent reads with
           | Err e => ([], e)
           | Ok rest => let '(out, e) := heartbeat None rest in (SendIdentity :: Connected :: out, e)
           end
       end.
End Heartbeat.
