(* ===== verification/PresenceProps.v ===== *)
(** Properties of one connection of the client channel (Presence.v), and of the
    commands that come over it (Commands.v). *)
From S2P Require Import Prelude Rfc3339 Json PolicyDoc Net Config Wire Conc Gate Commands CommandProps Report.
From S2P Require Import Presence.

(** * The scheme of an endpoint *)

Lemma index_byte_app a s c : string_forallb (fun d => negb (Ascii.eqb d c)) a = true ->
  index_byte (a +:+ s) c = Nat.add (String.length a) <$> index_byte s c.
Proof.
  induction a as [|d a IH]; intros H; [change ("" +:+ s) with s; by destruct (index_byte s c)|].
  cbn in H. apply andb_true_iff in H as [Hd Ha]. apply negb_true_iff in Hd.
  change (String d a +:+ s) with (String d (a +:+ s)). cbn [index_byte]. rewrite Hd, (IH Ha).
  by destruct (index_byte s c).
Qed.

Lemma scheme_end_split s : forall k i, scheme_end k s = Ok (Some i) ->
  exists a b, s = a +:+ String ":" b /\ i = (k + String.length a)%nat /\
    string_forallb (fun d => negb (Ascii.eqb d "?")) a = true.
Proof.
  induction s as [|c s IH]; intros k i H; [done|]. cbn in H.
  assert (Hrec : Ascii.eqb c "?" = false -> scheme_end (S k) s = Ok (Some i) ->
    exists a b, String c s = a +:+ String ":" b /\ i = (k + String.length a)%nat /\
      string_forallb (fun d => negb (Ascii.eqb d "?")) a = true).
  { intros Hc (a & b & -> & -> & Ha)%IH. exists (String c a), b. cbn.
    rewrite Hc, Ha. split_and!; [done|lia|done]. }
  destruct (is_alpha c) eqn:E1.
  { apply Hrec; [|done]. destruct (Ascii.eqb_spec c "?") as [->|]; [by vm_compute in E1|done]. }
  destruct (is_digit c || _ || _ || _) eqn:E2.
  { destruct k; [done|]. apply Hrec; [|done].
    destruct (Ascii.eqb_spec c "?") as [->|]; [by vm_compute in E2|done]. }
  destruct (Ascii.eqb_spec c ":") as [->|]; [|done]. destruct k; [done|]. injection H as <-.
  exists "", s. split_and!; [done|cbn; lia|done].
Qed.

(** The text of a URL with a scheme goes on with a colon. *)
Lemma text_after_scheme base u : url_Parse base = Some u -> u.(Scheme) <> "" ->
  exists r, drop_str (String.length u.(Scheme)) (url_text base) = String ":" r.
Proof.
  unfold url_Parse, url_text.
  destruct (cut_byte "#" base) as [[v frag] f]. cbn [fst]. destruct (negb _); [done|].
  destruct (unescape frag) as [frag'|]; [|done]. cbn [mbind option_bind].
  destruct (scheme_end 0 v) as [[i|]|] eqn:E; [| |done].
  - apply scheme_end_split in E as (a & b & -> & -> & Ha). cbn [Nat.add].
    assert (Hs : forall s, take_str (String.length a) (a +:+ s) = a).
    { intros s. rewrite <- (Nat.add_0_r (String.length a)), take_str_app.
      replace (take_str 0 s) with "" by (unfold take_str; by destruct s). apply append_nil. }
    rewrite Hs. destruct (cut_byte "?" (drop_str _ _)) as [[rest query] q].
    assert (Hx : exists r, drop_str (String.length (to_lower a)) (cut_byte "?" (a +:+ String ":" b)).1.1 =
                           String ":" r).
    { rewrite to_lower_length. unfold cut_byte. rewrite (index_byte_app _ _ _ Ha). cbn [index_byte].
      change (Ascii.eqb ":" "?") with false. cbn iota.
      destruct (index_byte b "?") as [j|]; cbn [fmap option_fmap option_map fst].
      - rewrite take_str_app, drop_str_app. unfold take_str. cbn. eauto.
      - rewrite drop_str_app. eauto. }
    intros H _. assert (Hsch : u.(Scheme) = to_lower a); [|by rewrite Hsch].
    repeat (case_match; simplify_eq; try done); unfold mbind, option_bind in *; repeat case_match; by simplify_eq.
  - intros H Hne. exfalso. apply Hne. destruct (cut_byte "?" v) as [[rest query] q].
    repeat (case_match; simplify_eq; try done); unfold mbind, option_bind in *; repeat case_match; by simplify_eq.
Qed.

Lemma URLFor_secure base url : URLFor base = Ok url -> has_prefix url "wss://" = true ->
  exists u, url_Parse (trim_slashes (trim_space base)) = Some u /\ u.(Scheme) = "https".
Proof.
  unfold URLFor. set (b := trim_slashes (trim_space base)). destruct (b =s ""); [done|].
  destruct (url_Parse b) as [u|] eqn:E; [|done]. intros H Hp. exists u. split; [done|].
  destruct (u.(Scheme) =s "https") eqn:E1; [by apply str_eqb_eq|].
  destruct (u.(Scheme) =s "http") eqn:E2; [|done]. cbn [is_ok andb] in H.
  destruct (url_Host u =s ""); [done|]. injection H as <-. apply str_eqb_eq in E2.
  destruct (text_after_scheme _ _ E) as [r Hr]; [by rewrite E2|]. by rewrite Hr in Hp.
Qed.

(** * Redirects *)

Lemma redirects_keep_https hops : forall s, follow_redirects "https" hops = Some s ->
  s = "https" /\ Forall (fun h => h = "https") hops.
Proof.
  induction hops as [|h hops IH]; intros s H; [by injection H as <-|].
  cbn in H. unfold CheckRedirect in H. rewrite str_eqb_refl in H.
  destruct (h =s "https") eqn:E; [|done]. apply str_eqb_eq in E as ->.
  destruct (IH s H) as [-> ?]. split; [done|by constructor].
Qed.

(** A check of its own replaces the default one, which stops after ten hops. *)
Theorem redirects_unbounded (n : nat) :
  follow_redirects "https" (replicate n "https") = Some "https".
Proof. by induction n. Qed.

(** * The dispatch *)

Section Dispatch.
Variable url : string.
Variable handler : bool.

Definition session_of (r : reaction) : option wsSessionInfo :=
  match r with OnCommand s _ _ | OnNotify s _ _ => Some s | _ => None end.

(** At most one welcome, and everything dispatched after it carries the session
    it opened. *)
Fixpoint dispatched (sess : option wsSessionInfo) (out : list reaction) : Prop :=
  match out with
  | [] => True
  | OnWelcome s w :: out' => sess = None /\ s = newSession url w /\ ProtocolV2 <= w.(wl_Protocol) /\
                             dispatched (Some s) out'
  | r :: out' => (match session_of r with Some s => sess = Some s | None => True end) /\
                 dispatched sess out'
  end.

Lemma react_dispatched sess i out sess' e : react url handler sess i = (out, sess', e) ->
  forall rest, dispatched sess' rest -> dispatched sess (out ++ rest).
Proof.
  unfold react. intros H rest Hr.
  repeat (case_match; try (injection H as <- <- <-)); cbn; bool_to_prop; auto.
Qed.

Lemma react_error_dispatched sess i out sess' e : react url handler sess i = (out, sess', e) ->
  dispatched sess out.
Proof.
  intros H. rewrite <- (app_nil_r out). eapply react_dispatched; [done|]. by destruct sess'.
Qed.

Lemma heartbeat_dispatched reads : forall sess, dispatched sess (heartbeat url handler sess reads).1.
Proof.
  induction reads as [|i reads IH]; intros sess; cbn [heartbeat]; [done|].
  destruct (react url handler sess i) as [[out sess'] [e|]] eqn:E.
  - by eapply react_error_dispatched.
  - specialize (IH sess'). destruct (heartbeat url handler sess' reads) as [out' e].
    by eapply react_dispatched.
Qed.

Lemma dispatched_session out : forall sess r s, dispatched sess out -> r ∈ out -> session_of r = Some s ->
  (forall s', sess = Some s' -> exists w, s' = newSession url w) -> exists w, s = newSession url w.
Proof.
  induction out as [|x out IH]; intros sess r s Hd Hin Hs Hw; [by apply elem_of_nil in Hin|].
  apply elem_of_cons in Hin as [->|Hin].
  - destruct x; try done; cbn in Hs, Hd; injection Hs as ->; destruct Hd as [-> _]; by apply Hw.
  - destruct x; cbn in Hd; try (destruct Hd as [_ Hd]; by eapply IH).
    destruct Hd as (_ & -> & _ & Hd). eapply IH; [done|done|done|]. intros s' [= <-]. eauto.
Qed.
End Dispatch.

(** How many of the first reads are pings. *)
Definition pings (reads : list incoming) : nat :=
  length (List.filter (fun i => i.(in_msg).(msg_Type) =s TypePing) reads).
Definition pongs (out : list reaction) : nat :=
  length (List.filter (fun r => match r with SendPong => true | _ => false end) out).

Lemma pongs_app a b : pongs (a ++ b) = (pongs a + pongs b)%nat.
Proof. unfold pongs. by rewrite List.filter_app, length_app. Qed.

(** The server says hello before anything that matters, and [rest] follows. *)
Definition greeted (reads rest : list incoming) : Prop :=
  exists before hello, reads = before ++ hello :: rest /\ (in_msg hello).(msg_Type) = TypeHello /\
    Forall (fun i => (in_msg i).(msg_Type) <> TypeHello /\ (in_msg i).(msg_Type) <> TypeError) before.

Lemma handshake_greeted sent reads rest : handshake sent reads = Ok rest <-> sent = true /\ greeted reads rest.
Proof.
  split.
  - induction reads as [|i reads IH]; [done|]. cbn. destruct (_ =s TypeHello) eqn:E1.
    { apply str_eqb_eq in E1. destruct sent; [|done]. intros [= ->]. split; [done|]. by exists [], i. }
    destruct (_ =s TypeError) eqn:E2; [done|]. intros (-> & before & hello & -> & Hh & Hb)%IH.
    apply str_eqb_neq in E1, E2. split; [done|]. exists (i :: before), hello. split_and!; try done. by constructor.
  - intros (-> & before & hello & -> & Hh & Hb). induction Hb as [|i before [H1 H2] Hb IH]; cbn.
    + by rewrite Hh, str_eqb_refl.
    + apply str_eqb_neq in H1, H2. by rewrite H1, H2.
Qed.

(** A message after which the connection goes on. *)
Definition goes_on (i : incoming) : Prop :=
  (in_msg i).(msg_Type) <> TypeError /\ ((in_msg i).(msg_Type) = TypePing -> in_pong i = true).
(** One that ends it. *)
Definition ends (i : incoming) (e : run_error) : Prop :=
  (in_msg i).(msg_Type) = TypePing /\ in_pong i = false /\ e = PongNotSent \/
  (in_msg i).(msg_Type) = TypeError /\ exists code, e = Refused code.

Lemma react_ends url handler sess i out sess' e : react url handler sess i = (out, sess', e) ->
  match e with
  | None => goes_on i /\ pongs out = pings [i]
  | Some e => out = [] /\ ends i e
  end.
Proof.
  unfold react, goes_on, ends, pings, pongs. cbn [List.filter]. destruct (_ =s TypePing) eqn:E1.
  { apply str_eqb_eq in E1. rewrite E1. destruct (in_pong i) eqn:Ep; intros [= <- <- <-]; [|by auto].
    by split_and!. }
  apply str_eqb_neq in E1. destruct (_ =s TypeError) eqn:E2.
  - apply str_eqb_eq in E2. rewrite E2. cbn. intros [= <- <- <-]. eauto.
  - apply str_eqb_neq in E2. intros H. repeat case_match; simplify_eq; by split_and!.
Qed.

(** The part of the reads that is handled: all of it, or up to the one that
    ends the connection. *)
Lemma heartbeat_pongs url handler reads : forall sess, exists n,
  let '(out, e) := heartbeat url handler sess reads in
  pongs out = pings (take n reads) /\ Forall goes_on (take n reads) /\
  (n = length reads /\ e = ReadFailed \/ exists i, reads !! n = Some i /\ ends i e).
Proof.
  induction reads as [|i reads IH]; intros sess; [exists O; cbn; split_and!; [done|constructor|by left]|].
  cbn [heartbeat]. destruct (react url handler sess i) as [[out sess'] r] eqn:E. apply react_ends in E.
  destruct r as [e|].
  - destruct E as [-> He]. exists O. cbn. split_and!; [done|constructor|]. right. by exists i.
  - destruct E as [Hg Hp]. destruct (IH sess') as [n Hn]. exists (S n).
    destruct (heartbeat url handler sess' reads) as [out' e]. destruct Hn as (Hp' & Hf & Hend).
    cbn [take]. split_and!; [|by constructor|].
    + rewrite pongs_app, Hp, Hp'. change (i :: take n reads) with ([i] ++ take n reads). unfold pings.
      by rewrite List.filter_app, length_app.
    + destruct Hend as [[-> ->]|Hi]; [by left|by right].
Qed.

(** C23: One connection. Nothing is sent or dispatched unless the machine can
    say who it is, the server upgraded the connection and its hello came,
    before any error; then, and only then, the identity goes out, and it goes
    out first. At most one welcome opens a session, only for protocol 2 or
    later and with what that welcome accepted; commands and notifications are
    dispatched only after it and with its session. Every ping is answered by
    one pong, and the connection goes on until a pong cannot be written, the
    server reports an error, or reading fails. *)
Theorem connection_protocol (url : string) (handler : bool) (id : Identity) (hops : list string)
    (status : option Z) (sent : bool) (reads : list incoming) :
  let '(out, e) := Run url handler id hops status sent reads in
  let ready := Identified id = true /\ is_ok (dial url hops status) = true /\ sent = true in
  out = [] /\ ~ (ready /\ exists rest, greeted reads rest) \/
  exists rest out',
    ready /\ greeted reads rest /\ out = SendIdentity :: Connected :: out' /\
    dispatched url None out' /\
    exists n, pongs out = pings (take n rest) /\ Forall goes_on (take n rest) /\
      (n = length rest /\ e = ReadFailed \/ exists i, rest !! n = Some i /\ ends i e).
Proof.
  unfold Run. destruct (Identified id); [|left; naive_solver]. cbn [negb].
  destruct (dial url hops status); [|left; naive_solver].
  destruct (handshake sent reads) as [rest|] eqn:E.
  - apply handshake_greeted in E as [-> Hg]. pose proof (heartbeat_dispatched url handler rest None) as Hd.
    pose proof (heartbeat_pongs url handler rest None) as [n Hn].
    destruct (heartbeat url handler None rest) as [out e]. right. exists rest, out.
    split_and!; try done. by exists n.
  - left. split; [done|]. intros [(_ & _ & ->) [rest Hr]].
    pose proof (proj2 (handshake_greeted true reads rest) (conj eq_refl Hr)) as H. congruence.
Qed.

(** * The commands of a connection *)

Lemma run_commands url handler id hops status sent reads s msg cmd :
  OnCommand s msg cmd ∈ (Run url handler id hops status sent reads).1 ->
  is_ok (dial url hops status) = true /\ exists w, s = newSession url w.
Proof.
  unfold Run. destruct (Identified id); [|by intros ?%elem_of_nil]. cbn [negb].
  destruct (dial url hops status); [|by intros ?%elem_of_nil].
  destruct (handshake sent reads) as [rest|]; [|by intros ?%elem_of_nil].
  pose proof (heartbeat_dispatched url handler rest None) as Hd.
  destruct (heartbeat url handler None rest) as [out e]. cbn [fst] in *.
  intros [?|[?|Hin]%elem_of_cons]%elem_of_cons; [done|done|]. split; [done|].
  eapply (dispatched_session url); [exact Hd|exact Hin|done|done].
Qed.

(** C7: A restart or a reboot is carried out only over TLS: when a command of
    a connection to a server's base URL is executed by the command handler,
    under whatever state of the service, and it is destructive, then that URL
    is an https one and so is every URL the upgrade was redirected to. *)
Theorem destructive_needs_tls (env : CmdEnv) (w : Svc) (conn : nat) (base url : string) (id : Identity)
    (hops : list string) (status : option Z) (sent : bool) (reads : list incoming)
    (s : wsSessionInfo) (msg : Message) (cmd : Command) :
  URLFor base = Ok url ->
  OnCommand s msg cmd ∈ (Run url true id hops status sent reads).1 ->
  Destructive cmd.(cmd_Name) = true ->
  ran msg.(msg_ID) (run (executeCommand env (mkSession conn s.(ss_secure)) msg cmd) w).2.(g_sent) <>
    ran msg.(msg_ID) w.(g_sent) ->
  (exists u, url_Parse (trim_slashes (trim_space base)) = Some u /\ u.(Net.Scheme) = "https") /\
  Forall (fun h => h = "https") hops.
Proof.
  intros Hu Hin Hd Hran. apply run_commands in Hin as [Hdial [wl ->]].
  destruct (executed_admissible _ _ _ _ _ Hran) as (_ & _ & _ & _ & _ & Hsec).
  destruct (Hsec Hd) as [Hs _]. cbn in Hs. split; [by eapply URLFor_secure|].
  unfold dial, request_scheme in Hdial. rewrite Hs in Hdial.
  destruct (follow_redirects "https" hops) as [scheme|] eqn:E; [|done].
  by apply redirects_keep_https in E as [_ ?].
Qed.

(** * A connection *)

Module PresenceBench.
Definition frame (t : string) (data : option json) : incoming :=
  mkIncoming (mkMessage t "A" "" (format_rfc3339 Bench.now) data) "" true.
Definition welcome : json :=
  obj [("protocol", JInt 2); ("accepted_capabilities", JArr [JStr "machine.reboot"])].
Definition reboot_command : json :=
  obj [("name", JStr "machine.reboot"); ("expires_at", JStr "2030-01-01T00:00:00Z")].
Definition reads : list incoming :=
  [frame "hello" None; frame "command" (Some reboot_command); frame "ping" None;
   frame "welcome" (Some welcome); frame "command" (Some reboot_command)].
Definition id : Identity := mkIdentity "H" "" "" "" "" "" "" "" "" "" 2 [].
Definition url : string := "wss://mail.example/api/v2/client/ws".

Lemma destructive_needs_tls_witness :
  exists s msg cmd,
    URLFor "https://mail.example/api/" = Ok url /\
    (Run url true id ["https"] (Some 101) true reads).1 =
      [SendIdentity; Connected; SendPong; OnWelcome s (mkWelcome 2 ["machine.reboot"] (mkLimits 0 0 0));
       OnCommand s msg cmd] /\
    Forall (fun h => h = "https") ["https"].
Proof.
  eexists _, _, _. split; [vm_compute; reflexivity|]. split; [vm_compute; reflexivity|].
  eapply (destructive_needs_tls Bench.env Bench.s0 1 "https://mail.example/api/" url id ["https"]
    (Some 101) true reads (newSession url (mkWelcome 2 ["machine.reboot"] (mkLimits 0 0 0)))
    (frame "command" (Some reboot_command)).(in_msg)
    (mkCommand "machine.reboot" None "2030-01-01T00:00:00Z" "")).
  - vm_compute. reflexivity.
  - apply list_elem_of_lookup. exists 4%nat. vm_compute. reflexivity.
  - reflexivity.
  - vm_compute. discriminate.
Defined.
End PresenceBench.
