(* ===== verification/Supervisor.v ===== *)
(** internal/service/clientws.go: where the client channel should point, and
    the supervisor that keeps it there.

    [ws_round] is one turn of the loop of [runClientWS] over what happens
    during it: the target the policy gives, the clock, how the attempt ended.
    [ws_run] is the loop over such rounds. The watcher that cancels an attempt
    when the target changes is the round's [at_cancelled]. *)
From S2P Require Import Prelude PolicyDoc PolicyMatch RemoteConfig SourcePolicy Wire Report Presence.

(** [clientWSTarget], the record; the zero value means "do not connect". *)
Record wsTarget := mkTarget { wt_enabled : bool; wt_server : string; wt_url : string }.

#[export] Instance wsTarget_eq_dec : EqDecision wsTarget.
Proof. solve_decision. Defined.

Definition no_target : wsTarget := mkTarget false "" "".

(** [clientWSTarget], with what [preferredChain] leaves of the preference. *)
Definition clientWSTarget (cur : option cycleState) (preferred : option string) :
    wsTarget * option string :=
  match cur with
  | None => (no_target, preferred)
  | Some cyc =>
      if negb cyc.(cyc_eff).(Doc).(ClientWS).(ws_Enabled) || (len cyc.(cyc_chain) =? 0)
      then (no_target, preferred)
      else
        match preferredChain cyc preferred with
        | (name :: _, preferred) =>
            match URLFor (BaseURL cyc.(cyc_eff) name) with
            | Ok url => (mkTarget true name url, preferred)
            | Err _ => (no_target, preferred)
            end
        | ([], preferred) => (no_target, preferred)
        end
  end.

(** A turn of [watchClientWSTarget]: the context ends, or the ticker or a
    changed preference makes it read the target, which then is [now]. *)
Inductive watch_turn := WatchDone | WatchTick (now : wsTarget) | WatchWoken (now : wsTarget).

(** [watchClientWSTarget]: whether it cancels the connection it watches. *)
Fixpoint watchClientWSTarget (running : wsTarget) (turns : list watch_turn) : bool :=
  match turns with
  | [] | WatchDone :: _ => false
  | (WatchTick now | WatchWoken now) :: rest =>
      if bool_decide (now <> running) then true else watchClientWSTarget running rest
  end.

(** A connection is cancelled exactly when the target was read to be another
    one - a kill switch reads as none - before the connection ended. *)
Lemma watchClientWSTarget_spec running turns :
  watchClientWSTarget running turns = true <->
  exists pre t post, turns = pre ++ t :: post /\ WatchDone ∉ pre /\
    exists now, (t = WatchTick now \/ t = WatchWoken now) /\ now <> running.
Proof.
  split.
  - induction turns as [|t0 turns IH]; [done|]. intros H. destruct t0 as [|now|now] eqn:Et; [done| |]; cbn in H;
      (case_bool_decide as Hn;
       [exists [], t0, turns; split; [by subst|]; split; [set_solver|]; exists now; auto
       |destruct (IH H) as (pre & t & post & -> & Hp & Ht); exists (t0 :: pre), t, post; split; [by subst|];
        split; [set_solver|done]]).
  - intros (pre & t & post & -> & Hp & now & Ht & Hn). induction pre as [|t' pre IH]; cbn.
    + by destruct Ht as [-> | ->]; rewrite bool_decide_eq_true_2.
    + apply not_elem_of_cons in Hp as [Ht' Hp]. destruct t' as [|n|n]; [done| |];
        (case_bool_decide; [done|by apply IH]).
Qed.

Definition clientWSWatchInterval : duration := 15 * second.
Definition clientWSInitialJitterMax : duration := 60 * second.
Definition clientWSUnsupportedRetryAfter : duration := hour.

(** [clientWSInitialDelay]; [rand n] is below [n]. *)
Definition clientWSInitialDelay (rand : Z -> Z) : duration := rand (clientWSInitialJitterMax + 1).

(** [clientWSSleep]: how long it sleeps unless it is woken. *)
Definition clientWSSleep (d : duration) : duration := if d <=? 0 then second else d.

(** What [runClientWS] keeps. *)
Record supervisor := mkSupervisor {
  sp_backoff : Backoff;
  sp_unsupported : gmap string time;
  sp_running : bool
}.
Definition sp_start : supervisor := mkSupervisor (mkBackoff 0 0 0 0) ∅ false.

(** How an attempt ended: when it connected, if it did, the error, whether the
    watcher cancelled it, whether the service is stopping. *)
Record attempt := mkAttempt {
  at_connected : option time;
  at_error : run_error;
  at_cancelled : bool;
  at_stop : bool
}.

Record round := mkRound {
  r_target : wsTarget;
  r_now : time;
  r_attempt : attempt;
  r_ended : time;
  r_rand : Z -> Z;
  r_stop : bool
}.

(** What the loop does, as seen from outside. *)
Inductive ws_event :=
| WsAttempt (server url : string) (now : time)
| WsConnected (server : string)
| WsDisabled
| WsUnsupported (server : string)
| WsMarked (server : string) (now : time)
| WsRejected (server : string)
| WsLost (server : string) (upFor : duration)
| WsSleep (d : duration).

(** How the turn ends: [None] leaves the loop. *)
Definition then_sleep (r : round) (evs : list ws_event) (s : supervisor) (d : duration) :
    list ws_event * option supervisor :=
  (evs ++ [WsSleep (clientWSSleep d)], if r.(r_stop) then None else Some s).

(** The end of an attempt: the [switch] of [runClientWS]. *)
Definition attempt_ended (r : round) (evs : list ws_event) (s : supervisor) :
    list ws_event * option supervisor :=
  let a := r.(r_attempt) in
  let server := r.(r_target).(wt_server) in
  let running := s.(sp_running) in
  let retry evs b :=
    let '(d, b) := Next r.(r_rand) b in
    then_sleep r evs (mkSupervisor b s.(sp_unsupported) running) d in
  if a.(at_cancelled) then (evs, Some (mkSupervisor (bo_Reset s.(sp_backoff)) s.(sp_unsupported) running))
  else
    match a.(at_error), a.(at_connected) with
    | DialError ErrNotImplemented, _ =>
        let first := negb (is_some (s.(sp_unsupported) !! server)) in
        (evs ++ (if first then [WsUnsupported server] else []) ++ [WsMarked server r.(r_ended)],
         Some (mkSupervisor (bo_Reset s.(sp_backoff)) (<[server := r.(r_ended)]> s.(sp_unsupported)) running))
    | DialError (ErrUnauthorized _), _ => retry (evs ++ [WsRejected server]) s.(sp_backoff)
    | _, Some connectedAt =>
        let upFor := t_sub r.(r_ended) connectedAt in
        retry (evs ++ [WsLost server upFor]) (Settle upFor s.(sp_backoff))
    | _, None => retry evs s.(sp_backoff)
    end.

(** One turn of [runClientWS]. *)
Definition ws_round (s : supervisor) (r : round) : list ws_event * option supervisor :=
  let t := r.(r_target) in
  if negb t.(wt_enabled) then
    then_sleep r (if s.(sp_running) then [WsDisabled] else [])
      (mkSupervisor s.(sp_backoff) s.(sp_unsupported) false) clientWSWatchInterval
  else if match s.(sp_unsupported) !! t.(wt_server) with
          | Some markedAt => t_sub r.(r_now) markedAt <? clientWSUnsupportedRetryAfter
          | None => false
          end then then_sleep r [] s clientWSWatchInterval
  else
    let a := r.(r_attempt) in
    let evs := WsAttempt t.(wt_server) t.(wt_url) r.(r_now) ::
               (if is_some a.(at_connected) then [WsConnected t.(wt_server)] else []) in
    let s := mkSupervisor s.(sp_backoff) s.(sp_unsupported) (s.(sp_running) || is_some a.(at_connected)) in
    if a.(at_stop) then (evs, None) else attempt_ended r evs s.

(** [runClientWS], past the initial delay. *)
Fixpoint ws_run (s : supervisor) (rounds : list round) : list ws_event :=
  match rounds with
  | [] => []
  | r :: rounds' =>
      match ws_round s r with
      | (evs, Some s') => evs ++ ws_run s' rounds'
      | (evs, None) => evs
      end
  end.

(** * The discipline of the loop *)

(** A trace is disciplined: an attempt goes to an enabled target, and to a
    server marked unsupported only an hour after the mark; a server is reported
    unsupported when it is first marked and never again; the channel is
    reported switched off only after a connection since the last such report;
    every sleep is between a nanosecond and [DefaultBackoffMax]. *)
Fixpoint disciplined (marks : gmap string time) (up : bool) (l : list ws_event) : Prop :=
  match l with
  | [] => True
  | WsAttempt server url now :: l' =>
      match marks !! server with
      | Some t => clientWSUnsupportedRetryAfter <= t_sub now t
      | None => True
      end /\ disciplined marks up l'
  | WsConnected _ :: l' => disciplined marks true l'
  | WsDisabled :: l' => up = true /\ disciplined marks false l'
  | WsUnsupported server :: l' => marks !! server = None /\ disciplined marks up l'
  | WsMarked server now :: l' => disciplined (<[server := now]> marks) up l'
  | WsSleep d :: l' => 0 < d <= DefaultBackoffMax /\ disciplined marks up l'
  | _ :: l' => disciplined marks up l'
  end.

Definition fair (rand : Z -> Z) : Prop := forall n, 0 < n -> 0 <= rand n < n.

(** The schedule the supervisor uses: the defaults, within their ceiling. *)
Definition default_backoff (b : Backoff) : Prop :=
  b.(bo_Base) = 0 /\ b.(bo_Max) = 0 /\ b.(StableFor) = 0 /\ 0 <= b.(bo_cur) <= DefaultBackoffMax.

Lemma default_reset b : default_backoff b -> default_backoff (bo_Reset b).
Proof. intros (? & ? & ? & ?). by split_and!. Qed.

Lemma default_settle d b : default_backoff b -> default_backoff (Settle d b).
Proof. unfold Settle. destruct (_ <=? _); [apply default_reset|done]. Qed.

Lemma default_next rand b : fair rand -> default_backoff b ->
  0 <= (Next rand b).1 <= DefaultBackoffMax /\ default_backoff (Next rand b).2.
Proof.
  intros Hf (Hb & Hm & Hs & Hc). unfold default_backoff, Next, bo_max, bo_base, jitter. rewrite Hb, Hm, Hs.
  change (positive_or DefaultBackoffMax 0) with DefaultBackoffMax.
  change (positive_or DefaultBackoffBase 0) with DefaultBackoffBase.
  set (cur0 := if bo_cur b <=? 0 then _ else _). set (cur := if DefaultBackoffMax <? cur0 then _ else _).
  assert (Hcur : 0 <= cur <= DefaultBackoffMax).
  { unfold cur, cur0, DefaultBackoffBase, DefaultBackoffMax, minute, second in *.
    destruct (bo_cur b <=? 0) eqn:E1; bool_to_prop; [split; vm_compute; discriminate|].
    rewrite wrap64_id by (unfold in_int64, int64_min, int64_max; lia).
    destruct (_ <? bo_cur b * 2) eqn:E2; bool_to_prop; lia. }
  clearbody cur. cbn. split_and!; try done; try lia.
  - destruct (cur <=? 0); [done|]. apply Hf. lia.
  - destruct (cur <=? 0) eqn:E; bool_to_prop; [unfold DefaultBackoffMax, minute, second; lia|].
    pose proof (Hf (cur + 1)). lia.
Qed.

Lemma sleep_bound d : 0 <= d <= DefaultBackoffMax -> 0 < clientWSSleep d <= DefaultBackoffMax.
Proof.
  unfold clientWSSleep, DefaultBackoffMax, minute, second. destruct (d <=? 0) eqn:E; bool_to_prop; lia.
Qed.

(** What holds of the rest of a trace after a turn. *)
Definition continues (P : list ws_event -> Prop) (x : list ws_event * option supervisor) : Prop :=
  forall rest, match x.2 with
               | Some s => (default_backoff s.(sp_backoff) ->
                            disciplined s.(sp_unsupported) s.(sp_running) rest) -> P (x.1 ++ rest)
               | None => P x.1
               end.

Lemma ended_disciplined r evs s (P : list ws_event -> Prop) : fair r.(r_rand) -> default_backoff s.(sp_backoff) ->
  (forall rest, disciplined s.(sp_unsupported) s.(sp_running) rest -> P (evs ++ rest)) ->
  continues P (attempt_ended r evs s).
Proof.
  intros Hf Hb HP. assert (Hretry : forall b more, default_backoff b ->
    (forall rest marks up, disciplined marks up rest -> disciplined marks up (more ++ rest)) ->
    continues P (let '(d, b) := Next r.(r_rand) b in
      then_sleep r (evs ++ more) (mkSupervisor b s.(sp_unsupported) s.(sp_running)) d)).
  { intros b more Hb' Hmore rest. pose proof (default_next _ _ Hf Hb') as [Hd Hn].
    destruct (Next (r_rand r) b) as [d b']. cbn in *. pose proof (sleep_bound _ Hd) as Hsl.
    destruct (r_stop r); cbn.
    - rewrite <- app_assoc. apply HP. apply Hmore. by cbn.
    - intros Hrest. rewrite <- !app_assoc. apply HP. apply Hmore. cbn. auto. }
  unfold attempt_ended. destruct (at_cancelled _).
  { intros rest Hrest. apply HP. apply Hrest. by apply default_reset. }
  destruct (at_error _) as [|[| |]| | | |]; try (destruct (at_connected _) as [t|]);
    try (apply (Hretry _ [WsLost _ _]); [by apply default_settle|done]);
    try (apply (Hretry _ [WsRejected _]); done);
    try (rewrite <- (app_nil_r evs); apply (Hretry _ []); done).
  all: intros rest Hrest; cbn in *; rewrite <- !app_assoc; apply HP;
    destruct (sp_unsupported s !! _) as [u|] eqn:E; cbn; rewrite ?E; auto using default_reset.
Qed.

(** C22: Over any sequence of targets, answers and clock readings the
    supervisor never tries a server that answered 404 within the hour, reports
    it unsupported once in the life of the process, reports the channel
    switched off only when it had been up, and never sleeps longer than the
    backoff's ceiling nor not at all. *)
Theorem supervisor_disciplined (rounds : list round) :
  Forall (fun r => fair r.(r_rand)) rounds -> disciplined ∅ false (ws_run sp_start rounds).
Proof.
  change ∅ with sp_start.(sp_unsupported). change false with sp_start.(sp_running).
  assert (Hb : default_backoff sp_start.(sp_backoff)).
  { unfold default_backoff, DefaultBackoffMax, minute, second. cbn. split_and!; first [done | lia]. }
  generalize dependent sp_start. intros s Hb Hr. revert s Hb.
  induction Hr as [|r rounds Hf _ IH]; intros s Hb; [done|]. cbn [ws_run].
  assert (Hc : continues (disciplined s.(sp_unsupported) s.(sp_running)) (ws_round s r)).
  { unfold ws_round.
    assert (Hw : 0 < clientWSSleep clientWSWatchInterval <= DefaultBackoffMax) by (apply sleep_bound; vm_compute; by split).
    destruct (wt_enabled _); cbn [negb].
    - destruct (match sp_unsupported s !! _ with Some _ => _ | None => _ end) eqn:E.
      + intros rest. unfold then_sleep. destruct (r_stop r); cbn; [done|]. auto.
      + assert (Hatt : match sp_unsupported s !! (r_target r).(wt_server) with
                       | Some t => clientWSUnsupportedRetryAfter <= t_sub r.(r_now) t | None => True end).
        { destruct (sp_unsupported s !! _); [|done]. by bool_to_prop. }
        destruct (at_stop _).
        * intros rest. cbn. destruct (is_some _); cbn; auto.
        * apply ended_disciplined; [done|done|]. cbn. intros rest Hrest. split; [done|].
          destruct (is_some _); cbn; [by rewrite orb_true_r in Hrest|by rewrite orb_false_r in Hrest].
    - intros rest. unfold then_sleep. destruct (sp_running s) eqn:E, (r_stop r); cbn; auto. }
  destruct (ws_round s r) as [evs [s'|]]; [|exact (Hc [])]. apply (Hc (ws_run s' rounds)).
  intros Hb'. by apply IH.
Qed.

(** * A run *)

Module SupervisorBench.
Definition target : wsTarget := mkTarget true "hq" "wss://hq/v2/client/ws".
Definition zero_rand (n : Z) : Z := 0.
Lemma zero_fair : fair zero_rand.
Proof. unfold fair, zero_rand. lia. Qed.
Definition at_time (t : Z) (tg : wsTarget) (a : attempt) : round :=
  mkRound tg (t * second) a ((t + 1) * second) zero_rand false.
Definition not_found : attempt := mkAttempt None (DialError ErrNotImplemented) false false.
Definition dropped : attempt := mkAttempt (Some (4000 * second)) ReadFailed false false.

(** A 404, the quiet hour, a connection that drops, the switch-off. *)
Definition rounds : list round :=
  [at_time 100 target not_found; at_time 115 target not_found; at_time 4000 target dropped;
   at_time 4010 no_target not_found].

Lemma supervisor_disciplined_witness :
  ws_run sp_start rounds =
    [WsAttempt "hq" "wss://hq/v2/client/ws" (100 * second); WsUnsupported "hq"; WsMarked "hq" (101 * second);
     WsSleep clientWSWatchInterval;
     WsAttempt "hq" "wss://hq/v2/client/ws" (4000 * second); WsConnected "hq"; WsLost "hq" second;
     WsSleep second; WsDisabled; WsSleep clientWSWatchInterval] /\
  disciplined ∅ false (ws_run sp_start rounds).
Proof.
  split; [by vm_compute|]. apply (supervisor_disciplined rounds).
  repeat (apply Forall_cons_2; [exact zero_fair|]). apply Forall_nil_2.
Defined.
End SupervisorBench.
