(* ===== verification/Loop.v ===== *)
(** internal/service/service.go, [RunLoop]: the start of the service and the
    loop of poll cycles.

    [forceConfig], which config.published sets from the channel's goroutine, is
    what a turn finds when it swaps it; so are the answers of the configuration
    servers and of the domain-controller lookup, and the reason a wait ended.
    The presence supervisor runs beside the loop (Supervisor.v). *)
From S2P Require Import Prelude Rfc3339 Json Files Versions Manifest PolicyDoc PolicyMatch State.
From S2P Require Import PolicyValidate PolicyParse PolicyProps SelfUpdate Source Config PolicyStore RemoteConfig.
From S2P Require Import MachineInfo SourcePolicy Wire Download Installer World Cycle CycleInv CycleProps.

(** How the wait after a cycle ends. *)
Inductive waiting := PollTimer | Woken (reason : string) | LoopStopped.

Record turn := mkTurn {
  tn_forced : bool;
  tn_refresh : refresh_env;
  tn_host : host_env;
  tn_wait : waiting
}.

(** What the poll goroutine owns. *)
Record loopState := mkLoop { lp_world : World; lp_site : siteState }.

Section Loop.
Context {versions : VersionLib} {inilib : IniLib} {digest : Sha256}.
Variable env : Env.
Variable cfg : Config.
Variable D : Defaults.
Variable json_size : json -> Z.
Variable machine : Info.
Variables downloadsDir selfDownloadsDir logsDir : string.

Definition with_rc (f : RC -> RC) (s : loopState) : loopState :=
  mkLoop (put_rc (f s.(lp_world).(w_rc)) s.(lp_world)) s.(lp_site).

(** [beginCycle] on the service. *)
Definition begin_cycle (h : host_env) (first : bool) (s : loopState) : cycleState * loopState :=
  let '(cyc, site, rc) := beginCycle cfg D machine h first s.(lp_site) s.(lp_world).(w_rc) in
  (cyc, mkLoop (put_rc rc s.(lp_world)) site).

(** [RunLoop] before its loop. *)
Definition start_loop (read_fails quarantine_fails : bool) (t : turn) (s : loopState) :
    cycleState * loopState :=
  let s := with_rc (initPolicy cfg D json_size read_fails quarantine_fails) s in
  let s := with_rc (refreshConfig cfg D t.(tn_refresh) true) s in
  begin_cycle t.(tn_host) true s.

(** What precedes every later cycle. *)
Definition next_cycle (t : turn) (s : loopState) : cycleState * loopState :=
  begin_cycle t.(tn_host) false (with_rc (refreshConfig cfg D t.(tn_refresh) t.(tn_forced)) s).

(** The cycle and the wait after it. *)
Definition run_cycle (cyc : cycleState) (w : waiting) (s : loopState) : loopState :=
  let w1 := (Cycle_ env cfg machine downloadsDir selfDownloadsDir logsDir cyc s.(lp_world)).2 in
  mkLoop (put_wakeReason (match w with Woken reason => reason | _ => "" end) w1) s.(lp_site).

(** The loop from a cycle on, with the cycles it runs: what each one works on
    and the reason it finds. *)
Fixpoint loop_from (cyc : cycleState) (w : waiting) (turns : list turn) (s : loopState) :
    list (cycleState * string) * loopState :=
  let this := (cyc, s.(lp_world).(w_wakeReason)) in
  let s := run_cycle cyc w s in
  match w, turns with
  | LoopStopped, _ | _, [] => ([this], s)
  | _, t :: turns' =>
      let '(cyc', s') := next_cycle t s in
      let '(cycles, s'') := loop_from cyc' t.(tn_wait) turns' s' in
      (this :: cycles, s'')
  end.

(** [RunLoop]; the first turn is the start. *)
Definition RunLoop (read_fails quarantine_fails : bool) (first : turn) (turns : list turn) (s : loopState) :
    list (cycleState * string) * loopState :=
  let '(cyc, s) := start_loop read_fails quarantine_fails first s in
  loop_from cyc first.(tn_wait) turns s.

(** * The loop is a run of the service *)

Abbreviation service := (service env cfg machine downloadsDir selfDownloadsDir logsDir).

Lemma service_rc w0 s f : service w0 s.(lp_world) -> service w0 (with_rc f s).(lp_world).
Proof. intros H. by eapply ServiceOther. Qed.

Lemma service_begin w0 h first s : service w0 s.(lp_world) ->
  service w0 (begin_cycle h first s).2.(lp_world).
Proof.
  intros H. unfold begin_cycle. destruct (beginCycle _ _ _ _ _ _ _) as [[cyc site] rc].
  by eapply ServiceOther.
Qed.

Lemma service_cycle w0 cyc w s : service w0 s.(lp_world) -> service w0 (run_cycle cyc w s).(lp_world).
Proof. intros H. eapply ServiceOther; [by apply (ServiceCycle _ _ _ _ _ _ cyc)|done|done]. Qed.

Lemma service_loop w0 turns : forall cyc w s, service w0 s.(lp_world) ->
  service w0 (loop_from cyc w turns s).2.(lp_world).
Proof.
  induction turns as [|t turns IH]; intros cyc w s H; cbn [loop_from].
  - apply (service_cycle w0 cyc w) in H. by destruct w.
  - pose proof (service_cycle w0 cyc w s H) as Hc.
    assert (Hn : service w0 (next_cycle t (run_cycle cyc w s)).2.(lp_world)) by apply service_begin, service_rc, Hc.
    destruct w; [| |exact Hc]; cbn [snd]; destruct (next_cycle t _) as [cyc' s']; specialize (IH cyc' t.(tn_wait) s' Hn);
      by destruct (loop_from cyc' _ turns s').
Qed.

Lemma RunLoop_service read_fails quarantine_fails first turns s :
  service s.(lp_world) (RunLoop read_fails quarantine_fails first turns s).2.(lp_world).
Proof.
  unfold RunLoop. set (s0 := s) at 1.
  pose proof (service_begin s0.(lp_world) first.(tn_host) true _
    (service_rc _ _ (refreshConfig cfg D first.(tn_refresh) true)
      (service_rc _ s (initPolicy cfg D json_size read_fails quarantine_fails)
         (ServiceStart _ _ _ _ _ _ s0.(lp_world))))) as Hb.
  unfold start_loop. destruct (begin_cycle _ true _) as [cyc s1]. by apply service_loop.
Qed.

(** * How much the loop starts *)

Lemma begin_trace h first s : (begin_cycle h first s).2.(lp_world).(w_trace) = s.(lp_world).(w_trace).
Proof. unfold begin_cycle. by destruct (beginCycle _ _ _ _ _ _ _) as [[cyc site] rc]. Qed.

Lemma cycle_total bs bl cyc w s :
  (total bs bl (run_cycle cyc w s).(lp_world).(w_trace) <=
   total bs bl s.(lp_world).(w_trace) + (Nat.b2n bl + 2 * Nat.b2n bs))%nat.
Proof.
  pose proof (Cycle_cost env cfg machine downloadsDir selfDownloadsDir logsDir bs bl cyc
    (total bs bl s.(lp_world).(w_trace)) s.(lp_world) (le_n _)) as H.
  unfold run_cycle. destruct (Cycle_ _ _ _ _ _ _ cyc _) as [err w1]. exact H.
Qed.

Lemma loop_total bs bl turns : forall cyc w s,
  let '(cycles, s') := loop_from cyc w turns s in
  (total bs bl s'.(lp_world).(w_trace) <=
   total bs bl s.(lp_world).(w_trace) + (Nat.b2n bl + 2 * Nat.b2n bs) * length cycles)%nat.
Proof.
  induction turns as [|t turns IH]; intros cyc w s; cbn [loop_from]; pose proof (cycle_total bs bl cyc w s) as Hc.
  - destruct w; cbn [length]; lia.
  - set (s1 := run_cycle cyc w s) in *.
    assert (Hn : (next_cycle t s1).2.(lp_world).(w_trace) = s1.(lp_world).(w_trace))
      by (unfold next_cycle; by rewrite begin_trace).
    destruct w; [| |cbn [length]; lia]; destruct (next_cycle t s1) as [cyc' s']; cbn [snd] in Hn;
      specialize (IH cyc' t.(tn_wait) s'); destruct (loop_from cyc' _ turns s') as [cycles s''];
      cbn [length]; rewrite Hn in IH; lia.
Qed.

Lemma RunLoop_total bs bl read_fails quarantine_fails first turns s :
  let '(cycles, s') := RunLoop read_fails quarantine_fails first turns s in
  (total bs bl s'.(lp_world).(w_trace) <=
   total bs bl s.(lp_world).(w_trace) + (Nat.b2n bl + 2 * Nat.b2n bs) * length cycles)%nat.
Proof.
  unfold RunLoop, start_loop. set (s2 := with_rc _ (with_rc _ s)).
  assert (Hs : (begin_cycle first.(tn_host) true s2).2.(lp_world).(w_trace) = s.(lp_world).(w_trace))
    by by rewrite begin_trace.
  destruct (begin_cycle _ true s2) as [cyc s3]. cbn [snd] in Hs. rewrite <-Hs. apply loop_total.
Qed.

(** * The policies and the reasons of the cycles *)

Lemma policy_kept p : CycleInv env (fun w => w.(w_rc).(Policy) = p).
Proof.
  split; [split| | |].
  - by intros w w' _ _ _ ->.
  - by intros a w _ ?.
  - by intros o w ?.
  - intros t v a c. unfold markUpdateFailed. preserve; by apply preserves_modify.
  - intros ev. unfold emitUpdateFailed, markUpdateFailed. preserve; by apply preserves_modify.
  - by intros d w ?.
  - by intros ? ? ? w ? _.
  - by intros ? ? ? ? w ? _ _ _ _.
Qed.

Abbreviation snapshot s := (current_snapshot cfg D s.(lp_world).(w_rc)).
Abbreviation good s := (policy_good cfg D s.(lp_world).(w_rc)).

Lemma snapshot_policy rc rc' : rc'.(Policy) = rc.(Policy) ->
  current_snapshot cfg D rc' = current_snapshot cfg D rc.
Proof. unfold current_snapshot. by intros ->. Qed.

Lemma begin_policy h first s :
  let '(cyc, s') := begin_cycle h first s in
  cyc.(cyc_snap) = snapshot s /\ s'.(lp_world).(w_rc).(Policy) = s.(lp_world).(w_rc).(Policy) /\
  s'.(lp_world).(w_wakeReason) = s.(lp_world).(w_wakeReason).
Proof.
  unfold begin_cycle, beginCycle. destruct (resolveHost _ _ _ _ _) as [host site].
  unfold make_cycle. destruct (Chain _ _) as [name chain].
  set (cyc := mkCycle _ _ _ _ _). unfold log_source. cbn. split_and!; [done| |done].
  set (rc := warnIfStale _ _ _).
  assert (Hrc : rc.(Policy) = s.(lp_world).(w_rc).(Policy)).
  { unfold rc, warnIfStale, applyLogging. by repeat case_match. }
  by repeat case_match.
Qed.

Lemma run_policy cyc w s : (run_cycle cyc w s).(lp_world).(w_rc).(Policy) = s.(lp_world).(w_rc).(Policy).
Proof.
  exact (Cycle_preserves env cfg machine downloadsDir selfDownloadsDir logsDir _ cyc
    (policy_kept s.(lp_world).(w_rc).(Policy)) s.(lp_world) eq_refl).
Qed.

(** A cycle works on the policy in force when it begins; the next one's is no
    older. *)
Definition cycle_ok (r : Z) (c : cycleState) : Prop :=
  policy_ok cfg D c.(cyc_snap).(sn_Parsed) /\ r <= sn_Revision c.(cyc_snap).

Fixpoint no_older (r : Z) (l : list cycleState) : Prop :=
  match l with [] => True | c :: l' => cycle_ok r c /\ no_older (sn_Revision c.(cyc_snap)) l' end.

(** The reasons the cycles of a run find, given how their waits end. *)
Fixpoint reasons (w : waiting) (turns : list turn) : list string :=
  match w, turns with
  | LoopStopped, _ | _, [] => []
  | w, t :: turns' => (match w with Woken r => r | _ => "" end) :: reasons t.(tn_wait) turns'
  end.

Lemma next_ok t s : good s ->
  let '(cyc, s') := next_cycle t s in
  good s' /\ cyc.(cyc_snap) = snapshot s' /\ cycle_ok (sn_Revision (snapshot s)) cyc /\
  s'.(lp_world).(w_wakeReason) = s.(lp_world).(w_wakeReason).
Proof.
  intros Hg. unfold next_cycle.
  destruct (refreshConfig_good cfg D t.(tn_refresh) t.(tn_forced) _ Hg) as (Hg1 & Hr & _).
  set (s1 := with_rc _ s). pose proof (begin_policy t.(tn_host) false s1) as H.
  destruct (begin_cycle _ _ s1) as [cyc s']. destruct H as (Hs & Hp & Hw).
  unfold policy_good, cycle_ok. rewrite (snapshot_policy _ _ Hp), Hs. split_and!; try done; apply Hg1.
Qed.

Lemma loop_ok turns : forall cyc w s, good s -> cyc.(cyc_snap) = snapshot s ->
  let '(cycles, s') := loop_from cyc w turns s in
  no_older (sn_Revision cyc.(cyc_snap)) cycles.*1 /\
  cycles.*2 = s.(lp_world).(w_wakeReason) :: reasons w turns.
Proof.
  induction turns as [|t turns IH]; intros cyc w s Hg Hc; cbn [loop_from reasons];
    assert (Hthis : cycle_ok (sn_Revision cyc.(cyc_snap)) cyc)
      by (split; [rewrite Hc; apply Hg|lia]).
  - by destruct w.
  - set (s1 := run_cycle cyc w s).
    assert (Hg1 : good s1 /\ snapshot s1 = cyc.(cyc_snap)).
    { pose proof (snapshot_policy _ _ (run_policy cyc w s)) as Hp. fold s1 in Hp.
      unfold policy_good. by rewrite Hp. }
    destruct Hg1 as [Hg1 Hs1]. pose proof (next_ok t s1 Hg1) as Hn.
    assert (Hw : s1.(lp_world).(w_wakeReason) = match w with Woken r => r | _ => "" end) by done.
    destruct w; [| |done]; destruct (next_cycle t s1) as [cyc' s'];
      destruct Hn as (Hg' & Hc' & Hok & Hw'); specialize (IH cyc' t.(tn_wait) s' Hg' Hc');
      destruct (loop_from cyc' t.(tn_wait) turns s') as [cycles s2]; destruct IH as [IH1 IH2];
      rewrite Hs1 in Hok; cbn; rewrite IH2, Hw', Hw; (split; [|done]); (split; [done|]);
      (destruct cycles as [|[c x] cycles]; [done|]); cbn in *; destruct IH1 as [[H1 H2] H3];
      destruct Hok; (split; [|done]); (split; [done|lia]).
Qed.

(** Every cycle of the loop works on the default policy or on a document
    that passed validation, never on an older one than the cycle before, from
    the first cycle - which has tried the servers once - on; and it finds the
    reason that woke it, none after an ordinary wait. *)
Theorem loop_policies (read_fails quarantine_fails : bool) (first : turn) (turns : list turn)
    (s : loopState) :
  s.(lp_world).(w_rc).(Policy) = None -> s.(lp_world).(w_wakeReason) = "" ->
  let cycles := (RunLoop read_fails quarantine_fails first turns s).1 in
  no_older 0 cycles.*1 /\ cycles.*2 = "" :: reasons first.(tn_wait) turns.
Proof.
  intros Hp Hw. cbv zeta. unfold RunLoop, start_loop.
  set (s1 := with_rc (initPolicy _ _ _ _ _) s).
  assert (Hg1 : good s1) by by apply initPolicy_good.
  set (s2 := with_rc _ s1).
  destruct (refreshConfig_good cfg D first.(tn_refresh) true _ Hg1) as (Hg2 & _ & _).
  change (policy_good cfg D s2.(lp_world).(w_rc)) in Hg2. pose proof (begin_policy first.(tn_host) true s2) as H.
  destruct (begin_cycle _ true s2) as [cyc s3]. destruct H as (Hs & Hpol & Hwake).
  assert (Hg3 : good s3) by (unfold policy_good; by rewrite (snapshot_policy _ _ Hpol)).
  pose proof (loop_ok turns cyc first.(tn_wait) s3 Hg3) as Hl.
  rewrite (snapshot_policy _ _ Hpol) in Hl. specialize (Hl Hs).
  destruct (loop_from cyc _ turns s3) as [cycles s4]. destruct Hl as [H1 H2]. cbn. split.
  - destruct cycles as [|[c x] cycles]; [done|]. cbn in *. destruct H1 as [[Ha Hb] Hc].
    split; [|done]. split; [done|]. by eapply policy_revision.
  - rewrite H2, Hwake. f_equal. exact Hw.
Qed.

(** * A published configuration is applied *)

(** A server answers with the document [p]. *)
Definition serves (r : result fetch_error ConfigResponse) (p : Parsed) : Prop :=
  exists resp, r = Ok resp /\ resp.(Status) <> 304 /\ resp.(Status) <> 204 /\
    PolicyParse.Parse (from_opt (Blob 0 None) resp.(Body)) D = Ok p.

(** Every server that answers sends [p], and a configured one does answer. *)
Definition publishes (e : refresh_env) (p : Parsed) : Prop :=
  (forall n, e.(re_cancelled) n = false) /\
  (forall n url etag, is_ok (e.(re_answer) n url etag) = true -> serves (e.(re_answer) n url etag) p) /\
  exists ep, ep ∈ cfg.(RemoteConfigEndpoints) /\ trim_slashes ep <> "" /\
    forall n etag, is_ok (e.(re_answer) n (trim_slashes ep +:+ cfg.(RemoteConfigRoute)) etag) = true.

(** What [configCandidates] has seen is on its list. *)
Definition listed (acc : list configCandidate * gset string) : Prop :=
  forall base, base ∈ acc.2 -> base ∈ cand_base <$> acc.1.

Lemma add_candidate_listed name base acc : listed acc ->
  listed (add_candidate name base acc) /\
  (forall x, x ∈ cand_base <$> acc.1 -> x ∈ cand_base <$> (add_candidate name base acc).1) /\
  (trim_slashes base <> "" -> trim_slashes base ∈ cand_base <$> (add_candidate name base acc).1).
Proof.
  intros Hl. destruct acc as [out seen]. unfold add_candidate. destruct (trim_slashes base =s "") eqn:E; cbn [orb].
  - apply str_eqb_eq in E. split_and!; [done|done|congruence].
  - case_bool_decide as Hs; [split_and!; [done|done|intros _; by apply Hl]|]. split_and!.
    + intros x. cbn. rewrite fmap_app, elem_of_app. intros [->%elem_of_singleton|Hx]%elem_of_union.
      * right. apply list_elem_of_here.
      * left. by apply Hl.
    + intros x Hx. cbn. rewrite fmap_app, elem_of_app. by left.
    + intros _. cbn. rewrite fmap_app, elem_of_app. right. apply list_elem_of_here.
Qed.

Lemma fold_listed {A} (name base : A -> string) l : forall acc, listed acc ->
  let acc' := foldl (fun acc x => add_candidate (name x) (base x) acc) acc l in
  listed acc' /\ (forall x, x ∈ cand_base <$> acc.1 -> x ∈ cand_base <$> acc'.1) /\
  (forall x, x ∈ l -> trim_slashes (base x) <> "" -> trim_slashes (base x) ∈ cand_base <$> acc'.1).
Proof.
  induction l as [|y l IH]; intros acc Hl; cbn.
  { split_and!; [done|done|]. by intros x ?%elem_of_nil. }
  destruct (add_candidate_listed (name y) (base y) acc Hl) as (H1 & H2 & H3).
  destruct (IH _ H1) as (H4 & H5 & H6). split_and!; [done|auto|].
  intros x [->|Hx]%elem_of_cons Hne; auto.
Qed.

Lemma endpoint_candidate now rc ep : ep ∈ cfg.(RemoteConfigEndpoints) -> trim_slashes ep <> "" ->
  exists c, c ∈ configCandidates cfg D now rc /\ c.(cand_base) = trim_slashes ep.
Proof.
  intros Hin Hne. assert (H0 : listed (policy_candidates cfg D now rc)).
  { unfold policy_candidates. set (host := match _.(rc_cur) with Some _ => _ | None => _ end).
    destruct (effective _ _) as [e [err|]]; [by intros x ?%elem_of_empty|].
    destruct (fold_listed (fun name => name) (BaseURL e) (Chain e host).2 ([], ∅)) as [Hl _]; [by intros x ?%elem_of_empty|].
    destruct (_ =s ""); [exact Hl|]. by destruct (add_candidate_listed (DefaultServer (Doc e)) (BaseURL e (DefaultServer (Doc e))) _ Hl). }
  destruct (fold_listed (fun ep => ep) (fun ep => ep) (RemoteConfigEndpoints cfg) _ H0) as (_ & _ & H).
  specialize (H ep Hin Hne). apply list_elem_of_fmap in H as (c & -> & Hc). by exists c.
Qed.

(** The policy in force is the document [p], fetched. *)
Definition in_force (rc : RC) (p : Parsed) : Prop :=
  (current_snapshot cfg D rc).(sn_Parsed) = p /\ (current_snapshot cfg D rc).(sn_Source) = SourceRemote.

Lemma accept_served e p resp from rc : sn_Revision (current_snapshot cfg D rc) <= p.(Global).(Revision) ->
  PolicyParse.Parse (from_opt (Blob 0 None) resp.(Body)) D = Ok p ->
  in_force (acceptDocument cfg D e resp from rc) p.
Proof.
  intros Hr Hp. unfold acceptDocument, in_force. rewrite Hp.
  replace (p.(Global).(Revision) <? _) with false by (symmetry; apply Z.ltb_ge; lia). rewrite andb_false_r.
  set (snap := mkSnapshot p SourceRemote _ from _).
  change (current_snapshot cfg D (log _ ?x)) with (current_snapshot cfg D x). by rewrite saveCache_policy.
Qed.

Lemma refresh_loop_served e p snap etag cands :
  (forall n, e.(re_cancelled) n = false) ->
  (forall n url etag, is_ok (e.(re_answer) n url etag) = true -> serves (e.(re_answer) n url etag) p) ->
  forall n rc, sn_Revision (current_snapshot cfg D rc) <= p.(Global).(Revision) ->
  (exists c, c ∈ cands /\ forall n, is_ok (e.(re_answer) n (c.(cand_base) +:+ cfg.(RemoteConfigRoute)) etag) = true) ->
  in_force (refresh_loop cfg D e snap etag n cands rc) p.
Proof.
  intros Hc Hs. induction cands as [|c cands IH]; intros n rc Hr (c0 & Hin & Hok); [by apply elem_of_nil in Hin|].
  cbn [refresh_loop]. rewrite Hc. set (url := c.(cand_base) +:+ _).
  destruct (re_answer e n url etag) as [resp|err] eqn:E.
  - destruct (Hs n url etag) as (resp' & E' & H304 & H204 & Hp); [by rewrite E|].
    rewrite E in E'. injection E' as <-. apply Z.eqb_neq in H304, H204. cbv zeta. rewrite H304, H204.
    by apply accept_served.
  - apply IH; [done|]. apply elem_of_cons in Hin as [->|Hin]; [|by exists c0].
    specialize (Hok n). unfold url in E. by rewrite E in Hok.
Qed.

Lemma refresh_forced e p rc : cfg.(RemoteConfigEnabled) = true -> publishes e p ->
  sn_Revision (current_snapshot cfg D rc) <= p.(Global).(Revision) ->
  in_force (refreshConfig cfg D e true rc) p.
Proof.
  intros Hen (Hc & Hs & ep & Hin & Hne & Hok) Hr. unfold refreshConfig. rewrite Hen. cbn [negb andb]. cbv zeta.
  apply refresh_loop_served; [done..|]. destruct (endpoint_candidate e.(re_now) (set_attempt e.(re_now) rc) ep Hin Hne) as (c & Hcand & Hb).
  exists c. split; [done|]. intros n. by rewrite Hb.
Qed.

Lemma begin_made h first s : exists host,
  (begin_cycle h first s).1 = make_cycle (snapshot s) host /\ host.(h_Now) = h.(he_now).
Proof.
  unfold begin_cycle, beginCycle, resolveHost. eexists.
  destruct (log_source _ _ _ _) as [site rc]. by split.
Qed.

(** A later cycle of the loop begins as [next_cycle] does, on what the one
    before left. *)
Lemma loop_turns turns : forall cyc w s i c0 c t, cyc.(cyc_snap) = snapshot s -> good s ->
  let cycles := (loop_from cyc w turns s).1.*1 in
  cycles !! i = Some c0 -> cycles !! S i = Some c -> turns !! i = Some t ->
  exists s', snapshot s' = c0.(cyc_snap) /\ good s' /\ c = (next_cycle t s').1.
Proof.
  induction turns as [|t0 turns IH]; intros cyc w s i c0 c t Hc Hg; cbv zeta; [done|]. cbn [loop_from].
  set (s1 := run_cycle cyc w s).
  assert (Hg1 : good s1 /\ snapshot s1 = cyc.(cyc_snap)).
  { pose proof (snapshot_policy _ _ (run_policy cyc w s)) as Hp. fold s1 in Hp. unfold policy_good. by rewrite Hp. }
  destruct Hg1 as [Hg1 Hs1]. pose proof (next_ok t0 s1 Hg1) as Hn.
  destruct w; [| |done]; destruct (next_cycle t0 s1) as [cyc' s2] eqn:En; destruct Hn as (Hg2 & Hc2 & _ & _);
    destruct (loop_from cyc' (tn_wait t0) turns s2) as [cycles s3] eqn:El; cbn [fst fmap list_fmap].
  all: assert (Hhead : cycles.*1 !! 0%nat = Some cyc')
    by (destruct turns; cbn [loop_from] in El; repeat (case_match; simplify_eq); done).
  all: destruct i as [|i]; intros H0 H1 Ht;
    [ change (cycles.*1 !! 0%nat = Some c) in H1; rewrite Hhead in H1; injection H0 as <-; injection H1 as <-;
      injection Ht as <-; exists s1; by rewrite En
    | specialize (IH cyc' (tn_wait t0) s2 i c0 c t Hc2 Hg2); rewrite El in IH; by apply IH ].
Qed.

(** C8: a published configuration takes effect at the very next cycle: when a
    config.published notification forces the refresh of a turn of the loop,
    the servers that answer send the document, one configured in config.ini
    answers, and the document is no older than the one in force, then the
    cycle of that turn - whatever came before it, from the start of the
    process on - works on that document, as the policy it is for this machine
    and with the servers it names. *)
Theorem published_applied (read_fails quarantine_fails : bool) (first : turn) (turns : list turn)
    (s : loopState) (i : nat) (t : turn) (p : Parsed) (c0 c : cycleState) :
  let cycles := (RunLoop read_fails quarantine_fails first turns s).1.*1 in
  s.(lp_world).(w_rc).(Policy) = None -> cfg.(RemoteConfigEnabled) = true ->
  cycles !! i = Some c0 -> cycles !! S i = Some c -> turns !! i = Some t ->
  t.(tn_forced) = true -> publishes t.(tn_refresh) p ->
  sn_Revision c0.(cyc_snap) <= p.(Global).(Revision) ->
  c.(cyc_snap).(sn_Parsed) = p /\ c.(cyc_snap).(sn_Source) = SourceRemote /\
  c.(cyc_eff) = (effective p c.(cyc_host)).1 /\ (c.(cyc_site), c.(cyc_chain)) = Chain c.(cyc_eff) c.(cyc_host) /\
  c.(cyc_host).(h_Now) = t.(tn_host).(he_now).
Proof.
  cbv zeta. intros Hpol Hen H0 H1 Ht Hforce Hpub Hr. unfold RunLoop, start_loop in H0, H1.
  set (s1 := with_rc (initPolicy _ _ _ _ _) s) in *.
  assert (Hg1 : good s1) by by apply initPolicy_good.
  set (s2 := with_rc _ s1) in *.
  destruct (refreshConfig_good cfg D first.(tn_refresh) true _ Hg1) as (Hg2 & _ & _).
  change (policy_good cfg D s2.(lp_world).(w_rc)) in Hg2. pose proof (begin_policy first.(tn_host) true s2) as H.
  destruct (begin_cycle _ true s2) as [cyc s3]. destruct H as (Hs & Hp3 & _).
  assert (Hg3 : good s3) by (unfold policy_good; by rewrite (snapshot_policy _ _ Hp3)).
  assert (Hs3 : cyc.(cyc_snap) = snapshot s3) by by rewrite (snapshot_policy _ _ Hp3).
  destruct (loop_turns turns cyc first.(tn_wait) s3 i c0 c t Hs3 Hg3 H0 H1 Ht) as (s' & Hs' & _ & ->).
  unfold next_cycle. rewrite Hforce. rewrite <-Hs' in Hr.
  destruct (refresh_forced t.(tn_refresh) p _ Hen Hpub Hr) as [Hf1 Hf2].
  destruct (begin_made t.(tn_host) false (with_rc (refreshConfig cfg D t.(tn_refresh) true) s')) as (host & -> & Hnow).
  unfold make_cycle. destruct (Chain _ _) as [site chain] eqn:Ec. cbn [fst cyc_snap cyc_eff cyc_site cyc_chain cyc_host].
  change (snapshot (with_rc (refreshConfig cfg D t.(tn_refresh) true) s')) with
    (current_snapshot cfg D (refreshConfig cfg D t.(tn_refresh) true (w_rc (lp_world s')))) in Ec |- *.
  rewrite Hf1 in Ec |- *. by split_and!.
Qed.
End Loop.

(** * The whole loop on concrete servers *)

Module LoopBench.
Import Scenario.
#[local] Existing Instance toy_ini.
#[local] Existing Instance toy_digest.
#[local] Existing Instance Dotted.lib.

Definition hosts (hours : Z) : host_env :=
  mkHostEnv (Fixture.now + hours * hour) (Some ["10.20.3.4"]) (fun _ => Err "no domain") (fun _ => false).
Definition turn_ (hours : Z) (forced : bool) (w : waiting) : turn := mkTurn forced Run.env (hosts hours) w.
(** A service that has just been built: no policy yet, EMLy 1.0.0 installed. *)
Definition fresh : loopState :=
  mkLoop (put_rc (mkRC None ∅ None 0 0 false false None []) w0) new_site.
Definition first : turn := turn_ 72 false (Woken "notify").
Definition turns : list turn := [turn_ 73 true PollTimer; turn_ 74 false LoopStopped].
Abbreviation loop :=
  (RunLoop env ex_config Run.D (fun _ => 900) machine "D" "U" "L" false false first turns fresh).

Lemma loop_facts :
  match loop.1.*1 with
  | c0 :: c :: _ => sn_Revision c0.(cyc_snap) = 7 /\ c.(cyc_chain) = ["main"]
  | _ => False
  end.
Proof. vm_compute. split; reflexivity. Qed.

Lemma published_applied_witness :
  exists c0 c, loop.1.*1 !! 0%nat = Some c0 /\ loop.1.*1 !! 1%nat = Some c /\
    c.(cyc_snap).(sn_Parsed) = Fixture.parsed /\ c.(cyc_chain) = ["main"] /\
    c.(cyc_host).(h_Now) = Fixture.now + 73 * hour.
Proof.
  assert (E : exists c0 c, loop.1.*1 !! 0%nat = Some c0 /\ loop.1.*1 !! 1%nat = Some c /\
    sn_Revision c0.(cyc_snap) = 7 /\ c.(cyc_chain) = ["main"]).
  { pose proof loop_facts as H. destruct (loop.1.*1) as [|c0 [|c l]]; [done|done|]. by exists c0, c. }
  destruct E as (c0 & c & H0 & H1 & Hrev & Hchain). exists c0, c. split; [exact H0|]. split; [exact H1|].
  assert (Hs : serves Run.D (Ok (mkConfigResponse 200 (Some Fixture.data) "tag-1")) Fixture.parsed).
  { eexists. split; [reflexivity|]. split; [done|]. split; [done|exact Fixture.parse_ok]. }
  assert (Hpub : publishes ex_config Run.D Run.env Fixture.parsed).
  { split; [reflexivity|]. split; [intros; exact Hs|].
    exists "https://api.emly.ffois.it". split; [apply list_elem_of_here|]. split; [vm_compute; discriminate|reflexivity]. }
  assert (Hle : sn_Revision c0.(cyc_snap) <= Fixture.parsed.(Global).(Revision)) by (rewrite Hrev; vm_compute; discriminate).
  pose proof (published_applied env ex_config Run.D (fun _ => 900) machine "D" "U" "L" false false first turns
    fresh 0 (turn_ 73 true PollTimer) Fixture.parsed c0 c eq_refl eq_refl H0 H1 eq_refl eq_refl Hpub Hle) as H.
  destruct H as (Hp & _ & _ & _ & Hnow). split; [exact Hp|]. by split.
Defined.

Lemma loop_policies_witness :
  (fun c => sn_Revision c.(cyc_snap)) <$> loop.1.*1 = [7; 7; 7] /\ loop.1.*2 = [""; "notify"; ""].
Proof.
  split; [vm_compute; reflexivity|].
  destruct (loop_policies env ex_config Run.D (fun _ => 900) machine "D" "U" "L" false false first turns
    fresh eq_refl eq_refl) as [_ H]. exact H.
Defined.
End LoopBench.

(** An interval of so many minutes is accepted and wraps around: the wait of
    the loop would be over before it began. *)
Module LongInterval.
#[local] Existing Instance Dotted.lib.
Definition d : Document := Fixture.parsed.(Global).
Definition u : UpdaterSettings := d.(doc_Updater).
Definition long : Document :=
  mkDocument d.(doc_SchemaVersion) d.(Revision) d.(GeneratedAt) d.(doc_Refresh) d.(Servers)
    d.(DefaultServer) d.(doc_IPCProtocol) d.(DCLookupMap) d.(doc_HostIntegrity) d.(doc_Control)
    (mkUpdaterSettings 153722868 u.(ChannelOverride) u.(us_CriticalWarning) u.(us_DCLookupRetry)
       u.(us_Resolver) u.(us_SelfUpdate) u.(InstallCertificate))
    d.(doc_Logging) d.(ClientWS) d.(Overrides).

Theorem poll_interval_wraps :
  (validateDocument long true).2 = [] /\ PollInterval long.(doc_Updater) < 0.
Proof. split; [by vm_compute|by vm_compute]. Qed.
End LongInterval.
