(* ===== verification/Wake.v ===== *)
(** internal/service/clientnotify.go and sessionwatch.go: the announcements that
    wake the poll loop early, the session notifications and the watcher that
    folds a burst of them into one event, and the control handler of the
    service ([Handler.Execute]) that feeds it.

    Each of the three is a state machine run by one goroutine; its inputs -
    announcements, notifications, timer firings, control requests, with the
    clock - are a list. *)
From S2P Require Import Prelude Rfc3339 Json Versions PolicyDoc PolicyMatch PolicyStore Config RemoteConfig.
From S2P Require Import MachineInfo SourcePolicy Wire Report Presence World.

(** * Announcements *)

Definition minReleaseJitter : duration := 60 * second.
Definition minConfigJitter : duration := 30 * second.
Definition notifyWakeThrottle : duration := 10 * minute.

(** [ReleasePublished], [ConfigPublished] (protocol.go). *)
Record ReleasePublished := mkRelease {
  rp_Target : string; rp_Channel : string; rp_Version : string; rp_JitterSeconds : Z
}.
Record ConfigPublished := mkConfigPublished { cp_Revision : Z; cp_JitterSeconds : Z }.

Definition dec_release : json -> option ReleasePublished :=
  dec_struct (mkRelease "" "" "" 0) (fun m =>
    a ← field m "target"; b ← field m "channel"; c ← field m "version";
    d ← @field _ int_codec m "jitter_seconds"; Some (mkRelease a b c d)).
Definition dec_config : json -> option ConfigPublished :=
  dec_struct (mkConfigPublished 0 0) (fun m =>
    a ← @field _ int_codec m "revision"; b ← @field _ int_codec m "jitter_seconds";
    Some (mkConfigPublished a b)).

(** What the announcements leave: the last wake allowed, [forceConfig], the
    wakes scheduled - when, and how long at most each waits. *)
Record notified := mkNotified {
  nf_last : time;
  nf_force : bool;
  nf_scheduled : list (time * duration)
}.

Section Notify.
Context `{VersionLib} `{IniLib}.
Variable cfg : Config.

(** [releaseConcernsMe]; [ini] is EMLy's config.ini. *)
Definition releaseConcernsMe (ini : option string) (cur : option cycleState) (p : ReleasePublished) : bool :=
  let newer a b := match Less a b with Ok r => r | Err _ => false end in
  if p.(rp_Target) =s "updater" then newer Version p.(rp_Version)
  else if p.(rp_Target) =s "emly" then
    match cur with
    | None => false
    | Some cyc =>
        let emly := ResolveEMLyWithChannel ini (Channel cyc.(cyc_eff).(Doc).(doc_Updater)) in
        if negb (p.(rp_Channel) =s "") && negb (p.(rp_Channel) =s emly.(ei_Channel)) then false
        else newer emly.(InstalledVersion) p.(rp_Version)
    end
  else false.

(** [allowNotifyWake]. *)
Definition allowNotifyWake (now : time) (s : notified) : bool * notified :=
  if negb (is_zero_time s.(nf_last)) && (t_sub now s.(nf_last) <? notifyWakeThrottle) then (false, s)
  else (true, mkNotified now s.(nf_force) s.(nf_scheduled)).

(** The longest wait announced, with its floor. *)
Definition wake_jitter (floor : duration) (seconds : Z) : duration :=
  let jitter := d_mul seconds second in if jitter <? floor then floor else jitter.

(** [scheduleWake], as far as the channel goroutine goes. *)
Definition schedule_wake (now : time) (floor : duration) (seconds : Z) (s : notified) : notified :=
  let '(ok, s) := allowNotifyWake now s in
  if (ok : bool) then mkNotified s.(nf_last) s.(nf_force) (s.(nf_scheduled) ++ [(now, wake_jitter floor seconds)])
  else s.

(** [handleNotify]. *)
Definition handleNotify (ini : option string) (cur : option cycleState) (now : time) (n : Notify)
    (s : notified) : notified :=
  if n.(Topic) =s TopicReleasePublished then
    match j ← n.(nt_Payload); dec_release j with
    | None => s
    | Some p => if negb (releaseConcernsMe ini cur p) then s
                else schedule_wake now minReleaseJitter p.(rp_JitterSeconds) s
    end
  else if n.(Topic) =s TopicConfigPublished then
    match j ← n.(nt_Payload); dec_config j with
    | None => s
    | Some p =>
        if match cur with Some cyc => p.(cp_Revision) <=? sn_Revision cyc.(cyc_snap) | None => false end
        then s
        else schedule_wake now minConfigJitter p.(cp_JitterSeconds)
               (mkNotified s.(nf_last) true s.(nf_scheduled))
    end
  else s.
End Notify.

(** [scheduleWake]'s delayed send: the wake channel holds one reason. *)
Definition wake_send (reason : string) (pending : option string) : option string :=
  match pending with None => Some reason | Some r => Some r end.

(** * Session changes *)

Definition sessionSettle : duration := 1500 * millisecond.
Definition sessionChangeBuffer : Z := 16.

(** [queueSessionChange] on the buffered channel. *)
Definition queueSessionChange (c : SessionChange) (queue : list SessionChange) : list SessionChange :=
  if len queue <? sessionChangeBuffer then queue ++ [c] else queue.

(** [watchSessions]: what it keeps; [wc_due] is when the timer goes off, while
    its channel is selected on. *)
Record watcher := mkWatcher {
  wc_last : option SessionChange;
  wc_kinds : list SessionChangeKind;
  wc_due : option time;
  wc_prev : UserSession
}.
Definition no_watch : watcher := mkWatcher None [] None no_session.

(** One turn of the loop: it takes a notification off the queue, or it finds
    the timer's channel to read from, if the timer has gone off by then. When
    both are ready, Go picks either. A timer that was reset delivers no earlier
    expiry (Go 1.23 and later). *)
Inductive watch_input := Change (now : time) (c : SessionChange) | Tick (now : time).

#[export] Instance UserSession_eq_dec : EqDecision UserSession.
Proof.
  intros [u1 s1 t1] [u2 s2 t2]. destruct (decide (u1 = u2)), (decide (t1 = t2)); try (right; congruence).
  assert (Hs : Decision (s1 = s2)) by (unfold Decision; decide equality).
  destruct Hs; [left; congruence|right; congruence].
Defined.

Section Watch.
(** [resolveSession]. *)
Variable resolve : SessionChange -> SessionChange.

(** One event of the loop, with what it emits. *)
Definition watch_step (w : watcher) (i : watch_input) : watcher * list SessionChanged :=
  match i with
  | Change now c =>
      (mkWatcher (Some c) (w.(wc_kinds) ++ [c.(sc_Kind)]) (Some (now + sessionSettle)) w.(wc_prev), [])
  | Tick now =>
      match w.(wc_due), w.(wc_last) with
      | Some due, Some last =>
          if due <=? now then
            let got := resolve last in
            let changed := negb (bool_decide (got.(sc_LoggedUser) = w.(wc_prev))) in
            (mkWatcher (Some last) [] None got.(sc_LoggedUser),
             [sessionChangedPayload w.(wc_kinds) got changed])
          else (w, [])
      | _, _ => (w, [])
      end
  end.

(** [watchSessions]. *)
Fixpoint watchSessions (w : watcher) (l : list watch_input) : watcher * list SessionChanged :=
  match l with
  | [] => (w, [])
  | i :: l' =>
      let '(w1, out) := watch_step w i in
      let '(w2, out') := watchSessions w1 l' in (w2, out ++ out')
  end.
End Watch.

(** * The control handler *)

Inductive control :=
| Interrogate
| CtlSessionChange (eventType : Z) (eventData : option Z) (at_ : time)
| CtlStop
| CtlShutdown
| CtlOther.

(** What [Execute] reports and does. *)
Inductive handler_act :=
| StartPending | RunningStatus | CurrentStatus | Queued (c : SessionChange) | StopPending | Cancelled.

(** [Handler.Execute], over the requests of the control manager. *)
Fixpoint requests (l : list control) : list handler_act :=
  match l with
  | [] => []
  | Interrogate :: l' => CurrentStatus :: requests l'
  | CtlSessionChange ty data at_ :: l' =>
      match ParseSessionChange ty data at_ with
      | Some c => Queued c :: requests l'
      | None => requests l'
      end
  | CtlStop :: _ | CtlShutdown :: _ => [StopPending; Cancelled]
  | CtlOther :: l' => requests l'
  end.
Definition Execute (l : list control) : list handler_act := StartPending :: RunningStatus :: requests l.

(** * Announcements are throttled *)

(** One announcement: what it finds and when. *)
Record announcement := mkAnnouncement {
  an_ini : option string;
  an_cur : option cycleState;
  an_now : time;
  an_notify : Notify
}.

Section Throttle.
Context `{VersionLib} `{IniLib}.

Definition announced (l : list announcement) (s : notified) : notified :=
  foldl (fun s a => handleNotify a.(an_ini) a.(an_cur) a.(an_now) a.(an_notify) s) s l.

(** Wakes after [last], each at least the throttle after the one before and
    with at least the floor as its longest wait. *)
Fixpoint spaced (last : time) (l : list (time * duration)) : Prop :=
  match l with
  | [] => True
  | (t, d) :: l' => (last <> zero_time -> notifyWakeThrottle <= t_sub t last) /\
                    minConfigJitter <= d <= int64_max /\ spaced t l'
  end.

Lemma spaced_snoc l : forall t0 t d, spaced t0 l ->
  (from_opt t0 (fst <$> last l) <> zero_time ->
     notifyWakeThrottle <= t_sub t (from_opt t0 (fst <$> last l))) ->
  minConfigJitter <= d <= int64_max -> spaced t0 (l ++ [(t, d)]).
Proof.
  induction l as [|[t' d'] l IH]; intros t0 t d Hs Hl Hd; [done|].
  destruct Hs as (H1 & H2 & H3). cbn. split_and!; [done|lia|lia|]. apply IH; [done| |done].
  destruct l as [|x l]; [exact Hl|]. cbn in Hl |- *.
  destruct (last (x :: l)) eqn:E; [exact Hl|]. by apply last_None in E.
Qed.

Definition wakes_ok (s0 s : notified) : Prop :=
  exists l, s.(nf_scheduled) = s0.(nf_scheduled) ++ l /\ spaced s0.(nf_last) l /\
    s.(nf_last) = from_opt s0.(nf_last) (fst <$> last l).

Lemma schedule_ok s0 s now floor seconds : wakes_ok s0 s ->
  minConfigJitter <= floor <= int64_max -> wakes_ok s0 (schedule_wake now floor seconds s).
Proof.
  intros (l & Hl & Hs & Hlast) Hf. unfold schedule_wake, allowNotifyWake.
  destruct (negb (is_zero_time (nf_last s)) && _) eqn:E; [by exists l|]. cbn.
  exists (l ++ [(now, wake_jitter floor seconds)]). cbn. rewrite Hl, last_snoc, app_assoc.
  split_and!; [done| |done]. apply spaced_snoc; [done| |].
  - rewrite <- Hlast. intros Hne. unfold is_zero_time in E. rewrite (proj2 (Z.eqb_neq (nf_last s) 0) Hne) in E.
    cbn in E. by bool_to_prop.
  - unfold wake_jitter, d_mul. pose proof (wrap64_range (seconds * second)) as [_ H1].
    destruct (_ <? floor) eqn:E1; bool_to_prop; lia.
Qed.

Lemma handle_ok s0 s ini cur now n : wakes_ok s0 s -> wakes_ok s0 (handleNotify ini cur now n s).
Proof.
  intros Hs. assert (Hf : minConfigJitter <= minReleaseJitter <= int64_max /\
    minConfigJitter <= minConfigJitter <= int64_max) by (vm_compute; split_and!; discriminate).
  unfold handleNotify. repeat case_match; try done; apply schedule_ok; first [exact Hs | apply Hf].
Qed.

(** However many announcements arrive and whatever they say, the early
    wakes they schedule are ten minutes apart by the clock, each spread over
    no less than thirty seconds. *)
Theorem notify_throttled (l : list announcement) (s : notified) :
  exists wakes, (announced l s).(nf_scheduled) = s.(nf_scheduled) ++ wakes /\ spaced s.(nf_last) wakes.
Proof.
  assert (Hw : wakes_ok s (announced l s)); [|destruct Hw as (w & ? & ? & _); by exists w].
  unfold announced. assert (Hs : wakes_ok s s) by (exists []; cbn; by rewrite app_nil_r).
  revert Hs. generalize s at 2 4. induction l as [|a l IH]; intros s1 Hs; [done|].
  cbn. apply IH. by apply handle_ok.
Qed.
End Throttle.

(** * A burst of session changes becomes one event *)

Section Coalesce.
Variable resolve : SessionChange -> SessionChange.

(** The notifications taken, and when. *)
Definition notifications (l : list watch_input) : list (time * SessionChangeKind) :=
  l ≫= fun i => match i with Change now c => [(now, c.(sc_Kind))] | Tick _ => [] end.
Definition input_time (i : watch_input) : time := match i with Change now _ => now | Tick now => now end.

(** The clock does not go back. *)
Fixpoint chronological (from : time) (l : list watch_input) : Prop :=
  match l with [] => True | i :: l' => from <= input_time i /\ chronological (input_time i) l' end.
Definition end_time (from : time) (l : list watch_input) : time := foldl (fun _ i => input_time i) from l.

Abbreviation burst := (list (time * SessionChangeKind)).
Definition burst_end (prev : option time) (gs : list burst) : option time :=
  match last gs with Some g => fst <$> last g | None => prev end.

(** [sessionSettle] or more goes by from the last notification of a burst to
    the first of the next. *)
Fixpoint apart (prev : option time) (gs : list burst) : Prop :=
  match gs with
  | [] => True
  | g :: gs' =>
      (forall u a, prev = Some u -> head g = Some a -> u + sessionSettle <= a.1) /\ apart (fst <$> last g) gs'
  end.

Lemma burst_end_cons prev g gs : burst_end prev (g :: gs) = burst_end (fst <$> last g) gs.
Proof. unfold burst_end. destruct gs as [|h gs]; [done|]. cbn. by destruct (last (h :: gs)) eqn:E; [|apply last_None in E]. Qed.

Lemma apart_snoc gs : forall prev g, apart prev (gs ++ [g]) <->
  apart prev gs /\ (forall u a, burst_end prev gs = Some u -> head g = Some a -> u + sessionSettle <= a.1).
Proof.
  induction gs as [|h gs IH]; intros prev g; [cbn; tauto|].
  cbn [app apart]. rewrite IH, burst_end_cons. tauto.
Qed.

(** The users found, one per event, and whether each is a change. *)
Fixpoint told (prev : UserSession) (users : list UserSession) (out : list SessionChanged) : Prop :=
  match users, out with
  | [], [] => True
  | u :: users', e :: out' =>
      e.(sd_Changed) = negb (bool_decide (u = prev)) /\
      e.(sd_LoggedUser) = (if u.(us_User) =s "" then None else Some (userSession u)) /\
      told u users' out'
  | _, _ => False
  end.

(** What the watcher keeps after [now], having told [groups] and not yet
    [waiting]. *)
Record watching (w : watcher) (now : time) (groups : list burst) (waiting : burst) : Prop := {
  wt_kinds : w.(wc_kinds) = waiting.*2;
  wt_due : w.(wc_due) = (fun a => a.1 + sessionSettle) <$> last waiting;
  wt_last : waiting <> [] -> w.(wc_last) <> None;
  wt_full : Forall (fun g => g <> []) groups;
  wt_apart : apart None (groups ++ [waiting]);
  wt_past : forall u, burst_end None groups = Some u -> u + sessionSettle <= now
}.

Lemma watching_start now : watching no_watch now [] [].
Proof. by split. Qed.

Lemma watching_change w now now' c groups waiting : now <= now' -> watching w now groups waiting ->
  watching (watch_step resolve w (Change now' c)).1 now' groups (waiting ++ [(now', c.(sc_Kind))]).
Proof.
  intros Hn [Hk Hd Hl Hf Ha Hp]. split; cbn.
  - by rewrite fmap_app, Hk.
  - by rewrite last_snoc.
  - done.
  - done.
  - apply apart_snoc in Ha as [Ha Hw]. apply apart_snoc. split; [done|]. intros u a Hu Hh.
    destruct waiting as [|x waiting]; [|by eapply Hw]. injection Hh as <-. cbn. specialize (Hp u Hu). lia.
  - intros u Hu. specialize (Hp u Hu). lia.
Qed.

Lemma watching_tick w now now' groups waiting : now <= now' -> watching w now groups waiting ->
  let '(w', out) := watch_step resolve w (Tick now') in
  match last waiting with
  | Some a => if a.1 + sessionSettle <=? now'
              then watching w' now' (groups ++ [waiting]) [] /\
                   exists c, out = [sessionChangedPayload waiting.*2 (resolve c)
                     (negb (bool_decide ((resolve c).(sc_LoggedUser) = w.(wc_prev))))] /\
                     w'.(wc_prev) = (resolve c).(sc_LoggedUser)
              else w' = w /\ out = []
  | None => w' = w /\ out = []
  end.
Proof.
  intros Hn [Hk Hd Hl Hf Ha Hp]. cbn [watch_step]. rewrite Hd. destruct (last waiting) as [a|] eqn:El; [|done].
  cbn [fmap option_fmap option_map]. assert (Hne : waiting <> []) by by destruct waiting.
  destruct (wc_last w) as [c|]; [|by destruct (Hl Hne)]. destruct (_ <=? now') eqn:E; [|done].
  split; [|exists c; by rewrite Hk]. bool_to_prop. split; cbn; try done.
  - apply Forall_app. split; [done|by constructor].
  - apply apart_snoc. split; [done|]. done.
  - intros u. unfold burst_end. rewrite last_snoc, El. intros [= <-]. done.
Qed.

Lemma watching_later w now now' groups waiting : now <= now' -> watching w now groups waiting ->
  watching w now' groups waiting.
Proof. intros Hn [Hk Hd Hl Hf Ha Hp]. split; try done. intros u Hu. specialize (Hp u Hu). lia. Qed.

Lemma watch_told l : forall w now groups waiting, chronological now l -> watching w now groups waiting ->
  let '(w', out) := watchSessions resolve w l in
  exists new waiting', watching w' (end_time now l) (groups ++ new) waiting' /\
    waiting ++ notifications l = concat new ++ waiting' /\
    sd_Events <$> out = (fun g : burst => SessionChangeKind_text <$> g.*2) <$> new /\
    exists users, told w.(wc_prev) users out /\ w'.(wc_prev) = from_opt w.(wc_prev) (last users).
Proof.
  induction l as [|i l IH]; intros w now groups waiting Hc Hw; cbn [watchSessions].
  { exists [], waiting. unfold notifications. cbn. rewrite !app_nil_r. split_and!; try done. by exists []. }
  destruct Hc as [Hn Hc]. change (end_time now (i :: l)) with (end_time (input_time i) l).
  destruct i as [now' c|now']; cbn [input_time] in *.
  - pose proof (watching_change w now now' c groups waiting Hn Hw) as Hw1.
    cbn [watch_step fst] in *. specialize (IH _ _ _ _ Hc Hw1). destruct (watchSessions resolve _ l) as [w2 out].
    destruct IH as (new & waiting' & H1 & H2 & H3 & H4). exists new, waiting'. split_and!; try done.
    rewrite <-H2, <-app_assoc. done.
  - pose proof (watching_tick w now now' groups waiting Hn Hw) as Ht.
    destruct (watch_step resolve w (Tick now')) as [w1 out1].
    assert (Hidle : w1 = w /\ out1 = [] -> let '(w2, out') := watchSessions resolve w1 l in
      exists new waiting', watching w2 (end_time now' l) (groups ++ new) waiting' /\
        waiting ++ notifications (Tick now' :: l) = concat new ++ waiting' /\
        sd_Events <$> (out1 ++ out') = (fun g : burst => SessionChangeKind_text <$> g.*2) <$> new /\
        exists users, told w.(wc_prev) users (out1 ++ out') /\ w2.(wc_prev) = from_opt w.(wc_prev) (last users)).
    { intros [-> ->]. specialize (IH w now' groups waiting Hc (watching_later _ _ _ _ _ Hn Hw)).
      by destruct (watchSessions resolve w l) as [w2 out']. }
    destruct (last waiting) as [a|] eqn:El; [destruct (_ <=? now')|].
    + destruct Ht as (Hw1 & c & -> & Hp). specialize (IH w1 now' _ [] Hc Hw1).
      destruct (watchSessions resolve w1 l) as [w2 out']. destruct IH as (new & waiting' & H1 & H2 & H3 & users & H4 & H5).
      exists (waiting :: new), waiting'. split_and!.
      * by rewrite <-app_assoc in H1.
      * change (notifications (Tick now' :: l)) with (notifications l). cbn in H2 |- *. by rewrite H2, app_assoc.
      * cbn. by rewrite H3.
      * exists (sc_LoggedUser (resolve c) :: users). rewrite Hp in H4, H5. cbn. split_and!; try done.
        rewrite H5. destruct users as [|u users]; [done|]. cbn. by destruct (last (u :: users)) eqn:E; [|apply last_None in E].
    + apply Hidle in Ht. by destruct (watchSessions resolve w1 l) as [w2 out'].
    + apply Hidle in Ht. by destruct (watchSessions resolve w1 l) as [w2 out'].
Qed.

Lemma watchSessions_app a b : forall w, watchSessions resolve w (a ++ b) =
  (let '(w1, o1) := watchSessions resolve w a in let '(w2, o2) := watchSessions resolve w1 b in (w2, o1 ++ o2)).
Proof.
  induction a as [|i a IH]; intros w; cbn; [by destruct (watchSessions resolve w b)|].
  destruct (watch_step resolve w i) as [w1 out]. rewrite IH.
  destruct (watchSessions resolve w1 a) as [w2 o2]. destruct (watchSessions resolve w2 b) as [w3 o3]. by rewrite app_assoc.
Qed.

(** C34: every notification taken off the queue is told exactly once, in order,
    in bursts: two notifications less than the settle time apart are told by
    one event, each event being the whole of what came between two quiet
    periods; once the timer is found with nothing new since the settle time,
    nothing is left untold. No event is empty, and each says who is at the
    machine now and whether that differs from what the one before said. *)
Theorem watch_coalesces (from : time) (l : list watch_input) : chronological from l ->
  let '(w', out) := watchSessions resolve no_watch l in
  (exists bursts waiting, notifications l = concat bursts ++ waiting /\
     sd_Events <$> out = (fun g : burst => SessionChangeKind_text <$> g.*2) <$> bursts /\
     w'.(wc_kinds) = waiting.*2 /\
     Forall (fun g => g <> []) bursts /\ apart None (bursts ++ [waiting])) /\
  (forall l1 now, l = l1 ++ [Tick now] ->
     (forall a, last (notifications l1) = Some a -> a.1 + sessionSettle <= now) -> w'.(wc_kinds) = []) /\
  exists users, told no_session users out /\ w'.(wc_prev) = from_opt no_session (last users).
Proof.
  intros Hc. pose proof (watch_told l no_watch from [] [] Hc (watching_start from)) as H.
  destruct (watchSessions resolve no_watch l) as [w' out] eqn:E.
  destruct H as (new & waiting & [] & H2 & H3 & H4). split_and!; [| |done].
  { exists new, waiting. by split_and!. }
  intros l1 now -> Hlast.
  assert (Hc1 : chronological from l1 /\ end_time from l1 <= now).
  { clear -Hc. revert from Hc. induction l1 as [|i l1 IH]; intros from Hc; [by destruct Hc as [? _]|].
    destruct Hc as [? Hc]. destruct (IH _ Hc) as [? ?]. by split. }
  destruct Hc1 as [Hc1 Hle]. pose proof (watch_told l1 no_watch from [] [] Hc1 (watching_start from)) as H.
  rewrite watchSessions_app in E. destruct (watchSessions resolve no_watch l1) as [w1 o1].
  destruct H as (new1 & waiting1 & Hw1 & Hch & _). cbn [watchSessions] in E.
  pose proof (watching_tick w1 _ now _ _ Hle Hw1) as Ht. destruct (watch_step resolve w1 (Tick now)) as [w2 o2].
  injection E as <- _. destruct (last waiting1) as [a|] eqn:El.
  - assert (Hx : last (notifications l1) = Some a) by (cbn in Hch; by rewrite Hch, last_app, El).
    rewrite (proj2 (Z.leb_le _ _) (Hlast a Hx)) in Ht. destruct Ht as [[Hk _ _ _ _ _] _]. exact Hk.
  - destruct Ht as [-> _]. apply last_None in El as ->. by destruct Hw1.
Qed.

End Coalesce.

(** * A reconnection: the console goes, the remote session comes, then nothing,
    then a lock by the same user *)

Module WakeBench.
Definition anna : UserSession := mkUserSession "CORP\anna" SessionActiveRDP zero_time.
Definition resolve (c : SessionChange) : SessionChange :=
  SessionChange_Resolve (fun _ => "CORP\anna") anna c.
Definition change (ms : Z) (k : SessionChangeKind) : watch_input :=
  Change (ms * millisecond) (mkSessionChange k 2 0 "" no_session).
Definition tick (ms : Z) : watch_input := Tick (ms * millisecond).
Definition burst : list watch_input :=
  [change 0 ConsoleDisconnect; change 400 RemoteConnect; tick 1600; tick 1900; change 5000 Lock; tick 6500;
   change 9000 Unlock].

Lemma watch_coalesces_witness :
  (fun e => (e.(sd_Events), e.(sd_Changed))) <$> (watchSessions resolve no_watch burst).2 =
    [(["console-disconnect"; "remote-connect"], true); (["lock"], false)] /\
  (watchSessions resolve no_watch (take 6 burst)).1.(wc_kinds) = [].
Proof.
  split; [vm_compute; reflexivity|].
  assert (Hc : chronological 0 (take 6 burst)) by (vm_compute; repeat split; discriminate).
  pose proof (watch_coalesces resolve 0 (take 6 burst) Hc) as H.
  destruct (watchSessions resolve no_watch (take 6 burst)) as [w' out]. destruct H as (_ & H & _).
  apply (H (take 5 burst) (6500 * millisecond)); [reflexivity|].
  intros a [= <-]. vm_compute. discriminate.
Defined.
End WakeBench.
