(* ===== verification/Ipc.v ===== *)
(** The named-pipe server EMLy talks to: internal/ipc (framing.go, version.go,
    auth.go, sddl.go, server.go) and the messages of proto/updateripc.proto.

    The wire form of a message is the protobuf library's: [Proto] is its
    interface, and [ProtoLaws] what is documented of it - what was marshalled is
    read back. What a connecting process is and sends is a [Peer]; every
    connection has its own goroutine and shares nothing but what it reads, so a
    server is a function of the connections it accepts. *)
From S2P Require Import Prelude Rfc3339 Json Versions PolicyDoc PolicyValidate Config.
From S2P Require Import PolicyStore RemoteConfig MachineInfo Paths.

(** * The messages *)

Inductive ErrorCode :=
| ERROR_CODE_UNAUTHORIZED | ERROR_CODE_UNSUPPORTED_VERSION | ERROR_CODE_BAD_REQUEST | ERROR_CODE_INTERNAL.

Inductive body :=
| NoBody
| SystemInfoRequest
| SystemInfoResponse (hostname hwid internal_ip os_version : string)
| ADStatusRequest
| ADStatusResponse (ad_domain : string) (domain_joined : bool)
| ConfigRequest
| ConfigResponse (document : json) (revision : Z) (generated_at fetched_at : string) (source : Source)
    (stale host_whitelisted : bool)
| ErrorResponse (code : ErrorCode) (message : string).

Record Envelope := mkEnvelope {
  protocol_version : Z;
  sender_version : string;
  ev_body : body
}.

Class Proto := {
  Marshal : Envelope -> option string;
  Unmarshal : string -> option Envelope
}.
Class ProtoLaws `{Proto} := {
  unmarshal_marshal : forall e b, Marshal e = Some b -> Unmarshal b = Some e
}.

(** * Framing: framing.go *)

Definition MaxFrameSize : Z := 64 * 1024.

(** [binary.BigEndian.PutUint32] and [Uint32]. *)
Definition byte_of (z : Z) : ascii := ascii_of_N (Z.to_N (z mod 256)).
Definition byte_val (c : ascii) : Z := Z.of_N (N_of_ascii c).
Definition PutUint32 (n : Z) : string :=
  String (byte_of (Z.shiftr n 24)) (String (byte_of (Z.shiftr n 16))
    (String (byte_of (Z.shiftr n 8)) (String (byte_of n) ""))).
Definition Uint32 (s : string) : Z :=
  match s with
  | String a (String b (String c (String d _))) =>
      Z.lor (Z.shiftl (byte_val a) 24) (Z.lor (Z.shiftl (byte_val b) 16)
        (Z.lor (Z.shiftl (byte_val c) 8) (byte_val d)))
  | _ => 0
  end.

Inductive write_error := MarshalFailed | EnvelopeTooLarge (n : Z) | WritePrefixFailed | WriteBodyFailed.

(** [writeEnvelope] on a connection that takes at most [room] more bytes
    ([None]: any number): what went out, and the error. *)
Definition writeEnvelope `{Proto} (room : option nat) (env : Envelope) : string * result write_error unit :=
  match Marshal env with
  | None => ("", Err MarshalFailed)
  | Some b =>
      if MaxFrameSize <? slen b then ("", Err (EnvelopeTooLarge (slen b)))
      else
        let lenBuf := PutUint32 (slen b) in
        match room with
        | None => (lenBuf +:+ b, Ok tt)
        | Some n =>
            if (n <? 4)%nat then (take_str n lenBuf, Err WritePrefixFailed)
            else if (n - 4 <? String.length b)%nat then (lenBuf +:+ take_str (n - 4) b, Err WriteBodyFailed)
            else (lenBuf +:+ b, Ok tt)
        end
  end.

Inductive read_error := ReadPrefixFailed | FrameTooLarge (n : Z) | ReadBodyFailed | UnmarshalFailed.

(** [io.ReadFull] of [n] bytes: what was read, and what is left. *)
Definition ReadFull (n : nat) (input : string) : option string * string :=
  if (String.length input <? n)%nat then (None, "") else (Some (take_str n input), drop_str n input).

(** [readEnvelope], and what it leaves unread. *)
Definition readEnvelope `{Proto} (input : string) : result read_error Envelope * string :=
  match ReadFull 4 input with
  | (None, rest) => (Err ReadPrefixFailed, rest)
  | (Some lenBuf, rest) =>
      let n := Uint32 lenBuf in
      if MaxFrameSize <? n then (Err (FrameTooLarge n), rest)
      else
        match ReadFull (Z.to_nat n) rest with
        | (None, rest) => (Err ReadBodyFailed, rest)
        | (Some buf, rest) =>
            (match Unmarshal buf with Some e => Ok e | None => Err UnmarshalFailed end, rest)
        end
  end.

(** * Versions: version.go *)

Definition ProtocolVersion : Z := 1.
Definition MinCompatibleEMLyVersion : string := "2.0.0".
Definition MaxCompatibleEMLyVersion : string := "2.1.0".

Record Compat := mkCompat { cp_Enabled : bool; cp_Min : string; cp_Max : string }.

Definition CompiledCompat : Compat := mkCompat true MinCompatibleEMLyVersion MaxCompatibleEMLyVersion.

(** [CompiledIPCProtocol]: the defaults' section. *)
Definition CompiledIPCProtocol : IPCProtocol :=
  mkIPCProtocol
    {[itoa ProtocolVersion :=
        mkIPCVersion (mkVersionRange None None)
          (mkVersionRange (Some MinCompatibleEMLyVersion) (Some MaxCompatibleEMLyVersion)) (Some true)]}
    ProtocolVersion.

Section Versions.
Context `{VersionLib}.

(** [EffectiveCompat]. *)
Definition EffectiveCompat (compiled : Compat) (remote : IPCProtocol) (v : Z) : Compat :=
  match remote.(Versions) !! itoa v with
  | None => compiled
  | Some entry =>
      let min :=
        match entry.(ipc_EMLy).(rng_Min) with
        | Some m =>
            if negb (m =s "") && (match Less compiled.(cp_Min) m with Ok higher => higher | Err _ => false end)
            then m else compiled.(cp_Min)
        | None => compiled.(cp_Min)
        end in
      mkCompat (compiled.(cp_Enabled) && IPCVersion_IsEnabled entry) min (from_opt "" entry.(ipc_EMLy).(rng_Max))
  end.

(** [Server.compat]; [None] stands for no provider and for no view. *)
Definition compat (view : option PolicyView) : Compat :=
  match view with
  | None => CompiledCompat
  | Some v => EffectiveCompat CompiledCompat v.(pv_IPC) ProtocolVersion
  end.

Inductive version_error :=
| VersionDisabled | SenderMissing (min : string) | SenderInvalid (sender : string)
| SenderTooOld (sender min : string).

Definition version_Error (e : version_error) : string :=
  match e with
  | VersionDisabled => "protocol version " +:+ itoa ProtocolVersion +:+ " is disabled by policy"
  | SenderMissing min => "missing sender_version (requires EMLy >= " +:+ min +:+ ")"
  | SenderInvalid sender => "invalid sender_version " +:+ sender
  | SenderTooOld sender min => "EMLy " +:+ sender +:+ " is older than the minimum supported " +:+ min
  end.

(** [checkPeerVersion]; on success, whether the client is newer than what was
    tested, which is only logged. *)
Definition checkPeerVersion (view : option PolicyView) (senderVersion : string) : result version_error bool :=
  let c := compat view in
  if negb c.(cp_Enabled) then Err VersionDisabled
  else if senderVersion =s "" then Err (SenderMissing c.(cp_Min))
  else
    match Less senderVersion c.(cp_Min) with
    | Err _ => Err (SenderInvalid senderVersion)
    | Ok true => Err (SenderTooOld senderVersion c.(cp_Min))
    | Ok false =>
        Ok (negb (c.(cp_Max) =s "") &&
            match Less c.(cp_Max) senderVersion with Ok above => above | Err _ => false end)
    end.
End Versions.

(** * Who connects: auth.go, sddl.go *)

(** What the system calls say of the process at the other end, and what it
    does: the bytes that arrive before it stops or the deadline passes, and how
    many it lets out. *)
Record Peer := mkPeer {
  pr_handle : bool;
  pr_pid : option Z;
  pr_opened : bool;
  pr_image : option string;
  pr_sends : string;
  pr_room : option nat
}.

Record clientIdentity := mkIdentity_ { ci_PID : Z; ci_Path : string }.

Inductive verify_error :=
| NoHandle | NoPID | ProcessNotOpened (pid : Z) | ImageUnknown (pid : Z) | PathMismatch (path expected : string).

(** [verifyClient]. *)
Definition verifyClient (p : Peer) (expectedExePath : string) : clientIdentity * option verify_error :=
  if negb p.(pr_handle) then (mkIdentity_ 0 "", Some NoHandle)
  else
    match p.(pr_pid) with
    | None => (mkIdentity_ 0 "", Some NoPID)
    | Some pid =>
        let id := mkIdentity_ pid "" in
        if negb p.(pr_opened) then (id, Some (ProcessNotOpened pid))
        else
          match p.(pr_image) with
          | None => (id, Some (ImageUnknown pid))
          | Some path =>
              let id := mkIdentity_ pid path in
              if negb (equal_fold (filepath_Clean path) (filepath_Clean expectedExePath))
              then (id, Some (PathMismatch path expectedExePath))
              else (id, None)
          end
    end.

(** The rights of [ClientAccessMask], and the one that creates an instance of
    the pipe. *)
Definition FILE_READ_DATA : Z := 1.
Definition FILE_WRITE_DATA : Z := 2.
Definition FILE_APPEND_DATA : Z := 4.
Definition FILE_READ_ATTRIBUTES : Z := 128.
Definition STANDARD_RIGHTS_READ : Z := 2 ^ 17.
Definition SYNCHRONIZE : Z := 2 ^ 20.

Definition ClientAccessMask : Z :=
  Z.lor FILE_READ_DATA (Z.lor FILE_WRITE_DATA
    (Z.lor FILE_READ_ATTRIBUTES (Z.lor STANDARD_RIGHTS_READ SYNCHRONIZE))).

Definition pipeSDDL : string := "D:(A;;GA;;;SY)(A;;GA;;;BA)(A;;0x120083;;;AU)".

(** * The server: server.go *)

Section Server.
Context `{VersionLib} `{Proto}.
Variable machine : Info.
Variable exePath : string.

Definition ipc_reply (b : body) : Envelope := mkEnvelope ProtocolVersion Version b.
Definition errorEnvelope (code : ErrorCode) (msg : string) : Envelope := ipc_reply (ErrorResponse code msg).

(** [dispatch]. *)
Definition dispatch (req : Envelope) (view : option PolicyView) : Envelope :=
  match req.(ev_body) with
  | SystemInfoRequest =>
      ipc_reply (SystemInfoResponse machine.(i_Hostname) machine.(i_HWID) machine.(i_InternalIP)
                   machine.(i_OSVersion))
  | ADStatusRequest =>
      ipc_reply (ADStatusResponse machine.(i_ADDomain) (DomainJoined machine.(i_ADDomain) machine.(i_Hostname)))
  | ConfigRequest =>
      match view with
      | None => errorEnvelope ERROR_CODE_INTERNAL "remote configuration not available"
      | Some v =>
          ipc_reply (ConfigResponse v.(DocumentJSON) v.(pv_Revision) v.(pv_GeneratedAt)
            (if is_zero_time v.(pv_FetchedAt) then "" else format_rfc3339 v.(pv_FetchedAt))
            v.(pv_Source) v.(pv_Stale) v.(HostWhitelisted))
      end
  | _ => errorEnvelope ERROR_CODE_BAD_REQUEST "unrecognized request"
  end.

(** What a connection leaves in the log. *)
Inductive conn_log :=
| ClientRejected (id : clientIdentity) (reason : verify_error)
| ReadFailed_ (pid : Z) (e : read_error)
| ProtocolRefused
| VersionRefused (pid : Z) (e : version_error)
| WriteFailed (pid : Z) (e : write_error)
| RequestServed (pid : Z).

(** [handleConn], up to the reply: what it decides to answer, if anything.
    The policy is asked twice, once for the versions and once for the
    document. *)
Definition answer (p : Peer) (view view' : option PolicyView) : option Envelope * conn_log :=
  let '(id, err) := verifyClient p exePath in
  match err with
  | Some reason => (Some (errorEnvelope ERROR_CODE_UNAUTHORIZED "unauthorized"), ClientRejected id reason)
  | None =>
      match (readEnvelope p.(pr_sends)).1 with
      | Err e => (None, ReadFailed_ id.(ci_PID) e)
      | Ok req =>
          if negb (req.(protocol_version) =? ProtocolVersion) then
            (Some (errorEnvelope ERROR_CODE_UNSUPPORTED_VERSION "unsupported protocol version"), ProtocolRefused)
          else
            match checkPeerVersion view req.(sender_version) with
            | Err e => (Some (errorEnvelope ERROR_CODE_UNSUPPORTED_VERSION (version_Error e)),
                        VersionRefused id.(ci_PID) e)
            | Ok _ => (Some (dispatch req view'), RequestServed id.(ci_PID))
            end
      end
  end.

(** [handleConn]: what goes out, and the log. A failed write is only logged
    when it is that of a served request. *)
Definition handleConn (p : Peer) (view view' : option PolicyView) : string * conn_log :=
  let '(reply, log) := answer p view view' in
  match reply with
  | None => ("", log)
  | Some env =>
      let '(out, r) := writeEnvelope p.(pr_room) env in
      (out, match log, r with RequestServed pid, Err e => WriteFailed pid e | _, _ => log end)
  end.

(** [Serve]: the outcomes of [Accept], in order. *)
Inductive accepted := Accepted (p : Peer) (view view' : option PolicyView) | AcceptFailed | ListenerClosed.
Inductive serve_event :=
| IPCUnavailable (path : string) | Listening (path : string)
| Handled (p : Peer) (out : string) (log : conn_log) | AcceptWarned | ServerStopped.

Fixpoint accept_loop (l : list accepted) : list serve_event :=
  match l with
  | [] => []
  | ListenerClosed :: _ => [ServerStopped]
  | AcceptFailed :: l' => AcceptWarned :: accept_loop l'
  | Accepted p view view' :: l' =>
      let '(out, log) := handleConn p view view' in Handled p out log :: accept_loop l'
  end.

Definition Serve (cfg : Config) (listens : bool) (l : list accepted) : list serve_event :=
  if negb cfg.(IPCEnabled) then []
  else
    let path := "\\.\pipe\" +:+ cfg.(IPCPipeName) in
    if negb listens then [IPCUnavailable path] else Listening path :: accept_loop l.
End Server.

(** * Framing *)

Lemma lor_high k a b : 0 <= k -> 0 <= b < 2 ^ k -> Z.lor (Z.shiftl a k) b = a * 2 ^ k + b.
Proof.
  intros Hk Hb. rewrite <-Z.shiftl_mul_pow2 by done. symmetry. apply Z.add_nocarry_lor.
  apply Z.bits_inj'. intros n Hn. rewrite Z.land_spec, Z.bits_0, Z.shiftl_spec by done.
  destruct (decide (n < k)) as [H|H]; [by rewrite Z.testbit_neg_r by lia|].
  replace (Z.testbit b n) with false; [by rewrite andb_false_r|].
  symmetry. destruct (decide (b = 0)) as [->|H0]; [apply Z.bits_0|].
  apply Z.bits_above_log2; [lia|]. apply Z.log2_lt_pow2; [lia|].
  eapply Z.lt_le_trans; [apply Hb|]. apply Z.pow_le_mono_r; lia.
Qed.

Lemma byte_val_of z : byte_val (byte_of z) = z mod 256.
Proof.
  unfold byte_val, byte_of. pose proof (Z.mod_pos_bound z 256 ltac:(lia)).
  rewrite N_ascii_embedding by lia. lia.
Qed.

Lemma Uint32_PutUint32 n : 0 <= n < 2 ^ 32 -> Uint32 (PutUint32 n) = n.
Proof.
  intros Hn. unfold Uint32, PutUint32. rewrite !byte_val_of, !Z.shiftr_div_pow2 by lia.
  pose proof (Z.mod_pos_bound (n / 2 ^ 16) 256 ltac:(lia)).
  pose proof (Z.mod_pos_bound (n / 2 ^ 8) 256 ltac:(lia)).
  pose proof (Z.mod_pos_bound n 256 ltac:(lia)).
  rewrite (lor_high 8), (lor_high 16), (lor_high 24) by lia.
  rewrite (Z.mod_small (n / 2 ^ 24)) by (split; [apply Z.div_pos; lia|apply Z.div_lt_upper_bound; lia]).
  pose proof (Z.div_mod n 256 ltac:(lia)). pose proof (Z.div_mod (n / 2 ^ 8) 256 ltac:(lia)).
  pose proof (Z.div_mod (n / 2 ^ 16) 256 ltac:(lia)).
  replace (n / 2 ^ 24) with (n / 2 ^ 16 / 256) by (rewrite Z.div_div by lia; done).
  replace (n / 2 ^ 16) with (n / 2 ^ 8 / 256) in * by (rewrite Z.div_div by lia; done).
  change (2 ^ 8) with 256 in *. lia.
Qed.

Lemma ReadFull_app a b : ReadFull (String.length a) (a +:+ b) = (Some a, b).
Proof.
  unfold ReadFull. rewrite length_sapp. replace (_ <? _)%nat with false by (symmetry; apply Nat.ltb_ge; lia).
  rewrite drop_str_app. f_equal. f_equal. rewrite <-(Nat.add_0_r (String.length a)), take_str_app.
  by destruct b; rewrite append_nil.
Qed.

Lemma ReadFull_short n s : (String.length s < n)%nat -> ReadFull n s = (None, "").
Proof. intros H. unfold ReadFull. by apply Nat.ltb_lt in H as ->. Qed.

Lemma ReadFull_left n s : slen s - slen (ReadFull n s).2 <= Z.of_nat n.
Proof.
  unfold ReadFull, slen. destruct (_ <? _)%nat eqn:E; cbn [snd].
  - apply Nat.ltb_lt in E. cbn [String.length]. lia.
  - clear E. revert s. induction n as [|n IH]; intros s; [cbn; lia|]. destruct s as [|c s]; cbn; [lia|].
    specialize (IH s). lia.
Qed.

Lemma length_take n s : String.length (take_str n s) = Nat.min n (String.length s).
Proof. unfold take_str. revert s. induction n as [|n IH]; intros [|c s]; cbn; try done. by rewrite IH. Qed.

Section Framing.
Context `{ProtoLaws}.

Lemma readEnvelope_frame b e rest : slen b <= MaxFrameSize -> Unmarshal b = Some e ->
  readEnvelope (PutUint32 (slen b) +:+ b +:+ rest) = (Ok e, rest).
Proof.
  intros Hlen Hb. unfold readEnvelope. change 4%nat with (String.length (PutUint32 (slen b))).
  rewrite ReadFull_app, Uint32_PutUint32 by (unfold slen, MaxFrameSize in *; lia).
  replace (MaxFrameSize <? slen b) with false by (symmetry; by apply Z.ltb_ge).
  unfold slen. rewrite Nat2Z.id, ReadFull_app. by rewrite Hb.
Qed.

Lemma readEnvelope_cut b n : (n < String.length b)%nat -> slen b <= MaxFrameSize ->
  readEnvelope (PutUint32 (slen b) +:+ take_str n b) = (Err ReadBodyFailed, "").
Proof.
  intros Hn Hlen. unfold readEnvelope. change 4%nat with (String.length (PutUint32 (slen b))).
  rewrite ReadFull_app, Uint32_PutUint32 by (unfold slen, MaxFrameSize in *; lia).
  replace (MaxFrameSize <? slen b) with false by (symmetry; by apply Z.ltb_ge).
  rewrite ReadFull_short; [done|]. unfold slen. rewrite Nat2Z.id, length_take. lia.
Qed.

Lemma readEnvelope_left input : slen input - slen (readEnvelope input).2 <= 4 + MaxFrameSize.
Proof.
  unfold readEnvelope. pose proof (ReadFull_left 4 input) as H4.
  destruct (ReadFull 4 input) as [[lenBuf|] rest]; cbn [snd] in *; [|unfold MaxFrameSize; lia].
  case_match eqn:E; cbn [snd]; [unfold MaxFrameSize in *; lia|]. apply Z.ltb_ge in E.
  pose proof (ReadFull_left (Z.to_nat (Uint32 lenBuf)) rest) as Hb.
  destruct (ReadFull _ rest) as [[buf|] rest']; cbn [snd] in *; unfold MaxFrameSize in *; lia.
Qed.

(** C28: the frames of the pipe. What is written entirely is read back as the
    message, wherever in the stream it stands; what was cut short by the other
    end is never taken for a message; an oversized message is not begun; and
    reading, whatever arrives, takes no more than a frame. *)
Theorem frame_roundtrip (room : option nat) (env : Envelope) (out : string) (r : result write_error unit) :
  writeEnvelope room env = (out, r) ->
  (if is_ok r then forall rest, readEnvelope (out +:+ rest) = (Ok env, rest)
   else is_ok (readEnvelope out).1 = false) /\
  (forall n, r = Err (EnvelopeTooLarge n) -> out = "") /\
  slen out <= 4 + MaxFrameSize /\
  forall input, slen input - slen (readEnvelope input).2 <= 4 + MaxFrameSize.
Proof.
  intros Hw. unfold writeEnvelope in Hw.
  destruct (Marshal env) as [b|] eqn:Hb; [|by simplify_eq; split_and!; try done; apply readEnvelope_left].
  case_match eqn:E; [by simplify_eq; split_and!; try done; apply readEnvelope_left|]. apply Z.ltb_ge in E.
  assert (Hfull : forall rest, readEnvelope ((PutUint32 (slen b) +:+ b) +:+ rest) = (Ok env, rest)).
  { intros rest. rewrite sapp_assoc3. apply readEnvelope_frame; [done|by apply unmarshal_marshal]. }
  assert (Hlen : forall s, slen s <= slen b -> slen (PutUint32 (slen b) +:+ s) <= 4 + MaxFrameSize).
  { intros s Hs. rewrite slen_app. unfold slen in *. cbn [PutUint32 String.length]. lia. }
  destruct room as [n|]; [|simplify_eq; split_and!; [done|done|by apply Hlen|apply readEnvelope_left]].
  case_match eqn:En; [|case_match eqn:Em]; simplify_eq; split_and!; try done; try apply readEnvelope_left.
  - apply Nat.ltb_lt in En. unfold readEnvelope. rewrite ReadFull_short; [done|]. rewrite length_take. cbn; lia.
  - apply Nat.ltb_lt in En. pose proof (slen_take n (PutUint32 (slen b))). unfold MaxFrameSize. lia.
  - apply Nat.ltb_lt in Em. by rewrite readEnvelope_cut.
  - apply Hlen. unfold slen. rewrite length_take. lia.
  - by apply Hlen.
Qed.
End Framing.

(** * Versions: the document can only narrow *)

Section Narrowing.
Context `{VersionLaws}.

(** A client version that is not older than [m]. *)
Definition at_least (m sender : string) : Prop := Less sender m = Ok false.

Lemma at_least_trans a b sender : Less a b = Ok true -> at_least b sender -> at_least a sender.
Proof. intros Hab Hb. by eapply Less_cotrans; [|apply Less_asym]. Qed.

Lemma not_raised a b sender : at_least a sender -> validVersion b = true -> Less a b <> Ok true -> at_least b sender.
Proof.
  intros Ha Hb Hab. destruct (Less a b) as [[]|] eqn:E; [done|by eapply Less_cotrans|].
  exfalso. apply Less_valid in Ha as [_ Ha]. unfold validVersion, Less in *.
  destruct (NewVersion a), (NewVersion b); discriminate.
Qed.

(** What the policy asks of a served client. *)
Definition policy_allows (view : option PolicyView) (sender : string) : Prop :=
  forall v entry, view = Some v -> v.(pv_IPC).(Versions) !! itoa ProtocolVersion = Some entry ->
    IPCVersion_IsEnabled entry = true /\
    forall m, entry.(ipc_EMLy).(rng_Min) = Some m -> validVersion m = true -> m <> "" -> at_least m sender.

Lemma checkPeerVersion_ok view sender warned : checkPeerVersion view sender = Ok warned ->
  at_least MinCompatibleEMLyVersion sender /\ policy_allows view sender.
Proof.
  unfold checkPeerVersion. set (c := compat view). intros Hc.
  destruct (cp_Enabled c) eqn:Hen; [|done]. cbn [negb] in Hc.
  destruct (sender =s ""); [done|].
  destruct (Less sender c.(cp_Min)) as [[]|] eqn:Hless; [done| |done]. clear Hc warned.
  unfold c, compat in *. destruct view as [v|]; [|split; [done|by intros ??]].
  unfold EffectiveCompat in *. destruct (_ !! _) as [entry|] eqn:Hv.
  2: { split; [done|]. intros ? entry [= <-] E. congruence. }
  cbn [cp_Enabled cp_Min CompiledCompat] in *. cbn [andb] in Hen.
  assert (Hmin : at_least MinCompatibleEMLyVersion sender).
  { destruct (rng_Min _) as [m|]; [|done].
    destruct (negb _ && _) eqn:E in Hless; [|done]. apply andb_true_iff in E as [_ E].
    destruct (Less _ m) as [[]|] eqn:Em; [|done|done]. by eapply at_least_trans. }
  split; [done|]. intros ? entry' [= <-] E'. simplify_eq. split; [done|]. intros m Hm Hvalid Hne.
  rewrite Hm in Hless. apply str_eqb_neq in Hne. rewrite Hne in Hless. cbn [negb andb] in Hless.
  destruct (Less MinCompatibleEMLyVersion m) as [[]|] eqn:Em; [done|by eapply not_raised; [| |rewrite Em]|].
  eapply not_raised; [exact Hmin|done|by rewrite Em].
Qed.
End Narrowing.

(** * The server *)

Section Guarded.
Context `{VersionLaws} `{Proto}.
Variable machine : Info.
Variable exePath : string.

Definition is_error (b : body) : bool := match b with ErrorResponse _ _ => true | _ => false end.

(** The client is a process whose image is EMLy's. *)
Definition verified (p : Peer) : Prop :=
  exists pid path, p.(pr_handle) = true /\ p.(pr_pid) = Some pid /\ p.(pr_opened) = true /\
    p.(pr_image) = Some path /\ equal_fold (filepath_Clean path) (filepath_Clean exePath) = true.

Lemma verifyClient_verified p : (verifyClient p exePath).2 = None <-> verified p.
Proof.
  unfold verifyClient, verified. split.
  - destruct (pr_handle p); [|done]. destruct (pr_pid p) as [pid|]; [|done].
    destruct (pr_opened p); [|done]. destruct (pr_image p) as [path|]; [|done]. cbn [negb].
    destruct (equal_fold _ _) eqn:E; [|done]. intros _. by exists pid, path.
  - by intros (pid & path & -> & -> & -> & -> & ->).
Qed.

(** A request the server is ready to serve, read off what the client sent. *)
Definition served (p : Peer) (view : option PolicyView) (req : Envelope) : Prop :=
  (readEnvelope p.(pr_sends)).1 = Ok req /\ req.(protocol_version) = ProtocolVersion /\
  at_least MinCompatibleEMLyVersion req.(sender_version) /\ policy_allows view req.(sender_version).

Lemma dispatch_reply req view : protocol_version (dispatch machine req view) = ProtocolVersion /\
  sender_version (dispatch machine req view) = Version.
Proof. unfold dispatch, errorEnvelope, ipc_reply. by repeat case_match. Qed.

Lemma answer_guarded p view view' e : (answer machine exePath p view view').1 = Some e ->
  (e.(protocol_version) = ProtocolVersion /\ e.(sender_version) = Version) /\
  (is_error e.(ev_body) = false ->
     verified p /\ exists req, served p view req /\ e = dispatch machine req view').
Proof.
  unfold answer. pose proof (verifyClient_verified p) as Hv.
  destruct (verifyClient p exePath) as [id [reason|]]; [by intros [= <-]|].
  destruct (readEnvelope _).1 as [req|err] eqn:Hreq; [|done].
  destruct (_ =? _) eqn:Hp; cbn [negb]; [|by intros [= <-]]. apply Z.eqb_eq in Hp.
  destruct (checkPeerVersion view _) as [warned|err] eqn:Hc; [|by intros [= <-]].
  intros [= <-]. apply checkPeerVersion_ok in Hc as [Hmin Hpol]. split; [apply dispatch_reply|].
  intros _. split; [by apply Hv|]. by exists req.
Qed.

Lemma writeEnvelope_prefix room e out r : writeEnvelope room e = (out, r) ->
  exists rest, out +:+ rest = (writeEnvelope None e).1.
Proof.
  assert (Htake : forall n s, exists rest, take_str n s +:+ rest = s).
  { intros n s. exists (drop_str n s). revert s. induction n as [|n IH]; intros [|c s]; try done.
    cbn. change (String c (take_str n s) +:+ drop_str n s = String c s). by rewrite <-(IH s) at 3. }
  unfold writeEnvelope. destruct (Marshal e) as [b|]; [|intros [= <- _]; by exists ""].
  case_match; [intros [= <- _]; by exists ""|]. generalize (PutUint32 (slen b)). intros prefix.
  destruct room as [n|]; [|intros [= <- _]; exists ""; apply append_nil].
  case_match; [|case_match]; intros [= <- _].
  - destruct (Htake n prefix) as [rest Hr]. exists (rest +:+ b). by rewrite <-sapp_assoc3, Hr.
  - destruct (Htake (n - 4)%nat b) as [rest Hr]. exists rest. by rewrite sapp_assoc3, Hr.
  - exists "". apply append_nil.
Qed.

(** C27: the pipe never fails open. Whatever connects and whatever it sends, the
    server answers with machine or policy data only a process whose image is
    the configured EMLy, and only to a request of this protocol from a version
    that neither the program nor the policy in force calls too old or disabled;
    a process it cannot identify gets one fixed message; and nothing but a
    beginning of the frame of that answer goes out. *)
Theorem pipe_guarded (p : Peer) (view view' : option PolicyView) :
  let reply := (answer machine exePath p view view').1 in
  (forall e, reply = Some e -> is_error e.(ev_body) = false ->
     verified p /\ exists req, served p view req /\ e = dispatch machine req view') /\
  (~ verified p -> reply = Some (errorEnvelope ERROR_CODE_UNAUTHORIZED "unauthorized")) /\
  exists rest, (handleConn machine exePath p view view').1 +:+ rest =
    match reply with Some e => (writeEnvelope None e).1 | None => "" end.
Proof.
  cbn zeta. split_and!.
  - intros e He. by apply answer_guarded.
  - intros Hn. unfold answer. pose proof (verifyClient_verified p) as Hv.
    destruct (verifyClient p exePath) as [id [reason|]]; [done|]. by destruct Hn; apply Hv.
  - unfold handleConn. destruct (answer _ _ _ _ _) as [[e|] log]; cbn [fst]; [|by exists ""].
    destruct (writeEnvelope (pr_room p) e) as [out r] eqn:E. by eapply writeEnvelope_prefix.
Qed.

(** A reply that does not fit a frame is dropped without a word: the document
    may be [MaxDocumentSize] long, the frame is sixteen times shorter. *)
Lemma oversized_reply_unsent p view view' e b : (answer machine exePath p view view').1 = Some e ->
  Marshal e = Some b -> MaxFrameSize < slen b -> (handleConn machine exePath p view view').1 = "".
Proof.
  intros He Hb Hlen. unfold handleConn. destruct (answer _ _ _ _ _) as [reply log]. cbn in He. subst.
  unfold writeEnvelope. rewrite Hb. by apply Z.ltb_lt in Hlen as ->.
Qed.
End Guarded.

(** * The rights of a client *)

Fixpoint hex_value (acc : Z) (s : string) : option Z :=
  match s with
  | EmptyString => Some acc
  | String c s' =>
      match index_byte "0123456789abcdef" c with
      | Some i => hex_value (16 * acc + Z.of_nat i) s'
      | None => None
      end
  end.

(** The rights an allowing entry gives a trustee, when they are a number. *)
Definition granted (trustee sddl : string) : option Z :=
  let entries := split_byte "(" sddl in
  let rights e :=
    match split_byte ";" e with
    | [ "A"; ""; rights; ""; ""; who ] =>
        if (who =s trustee +:+ ")") && has_prefix rights "0x" then hex_value 0 (drop_str 2 rights) else None
    | _ => None
    end in
  match find_first (fun e => is_some (rights e)) entries with Some e => rights e | None => None end.

(** Authenticated users are granted exactly the mask clients ask for, which
    cannot create an instance of the pipe. *)
Lemma pipe_rights : granted "AU" pipeSDDL = Some ClientAccessMask /\ Z.land ClientAccessMask FILE_APPEND_DATA = 0.
Proof. by vm_compute. Qed.

(** * A server that answers *)

Module IpcBench.
#[local] Existing Instance Dotted.lib.
#[local] Existing Instance Dotted.laws.

(** A wire form for two messages: a request and its reply. *)
Definition request : Envelope := mkEnvelope 1 "2.0.3" SystemInfoRequest.
Definition host : Info := mkInfo "PC-7" "HW-1" "corp.local" "10.1.2.3" "11" "" "".
Definition reply : Envelope := mkEnvelope 1 Version (SystemInfoResponse "PC-7" "HW-1" "10.1.2.3" "11").

Definition marshal (e : Envelope) : option string :=
  if (e.(protocol_version) =? 1) then
    match e.(ev_body) with
    | SystemInfoRequest => if e.(sender_version) =s "2.0.3" then Some "q" else None
    | SystemInfoResponse a b c d =>
        if (e.(sender_version) =s Version) && (a =s "PC-7") && (b =s "HW-1") && (c =s "10.1.2.3") && (d =s "11")
        then Some "r" else None
    | _ => None
    end
  else None.
Definition unmarshal (b : string) : option Envelope :=
  if b =s "q" then Some request else if b =s "r" then Some reply else None.

#[local] Instance proto : Proto := {| Marshal := marshal; Unmarshal := unmarshal |}.
#[local] Instance proto_laws : ProtoLaws.
Proof.
  split. intros [p s b] text. cbn [Marshal proto]. unfold marshal. cbn.
  destruct (p =? 1) eqn:Hp; [apply Z.eqb_eq in Hp as ->|done].
  destruct b; try done.
  - destruct (s =s "2.0.3") eqn:Hs; [apply str_eqb_eq in Hs as ->; by intros [= <-]|done].
  - destruct (_ && _) eqn:E; [|done]. repeat (apply andb_true_iff in E as [E ?]).
    repeat match goal with H : (_ =s _) = true |- _ => apply str_eqb_eq in H as -> end. by intros [= <-].
Defined.

Definition exe : string := "C:\Program Files\EMLy\EMLy.exe".
Definition peer : Peer :=
  mkPeer true (Some 4242) true (Some "c:\program files\EMLy\.\emly.exe") (PutUint32 1 +:+ "q and more") None.

Lemma frame_roundtrip_witness :
  let '(out, r) := writeEnvelope None request in
  r = Ok tt /\ readEnvelope (out +:+ "next") = (Ok request, "next").
Proof.
  destruct (frame_roundtrip None request (PutUint32 1 +:+ "q") (Ok tt)) as [H _]; [reflexivity|].
  split; [reflexivity|exact (H "next")].
Defined.

Lemma pipe_guarded_witness :
  (answer host exe peer None None).1 = Some reply /\ verified exe peer /\
  exists req, served peer None req /\ reply = dispatch host req None.
Proof.
  assert (Hreply : (answer host exe peer None None).1 = Some reply) by (vm_compute; reflexivity).
  destruct (pipe_guarded host exe peer None None) as (H & _ & _).
  split; [exact Hreply|]. exact (H reply Hreply eq_refl).
Defined.
End IpcBench.
