(* ===== verification/Assoc.v ===== *)
(** The file associations of EMLy: internal/assoc/assoc.go.

    The registry is a map of values by key and value name, both compared
    without case as Windows does; whether a call on it works is an oracle
    indexed by the calls made so far. *)
From S2P Require Import Prelude Paths.

Record Mapping := mkMapping { mp_Ext : string; mp_ProgID : string; DisplayName : string }.

Record Registry := mkRegistry {
  rg_tick : nat;
  rg_values : gmap (string * string) string;
  rg_notified : nat
}.

(** Whether the n-th call to create a key, read a value, write one works. *)
Record RegEnv := mkRegEnv { e_create : nat -> bool; e_get : nat -> bool; e_set : nat -> bool }.

Inductive assoc_error := ExeNotFound (exe : string) | CreateKeyFailed (path : string) | SetValueFailed (path : string).

Definition reg_key (path name : string) : string * string := (to_lower path, to_lower name).

Definition reg_call (f : nat -> bool) : M Registry bool :=
  fun s => (f s.(rg_tick), mkRegistry (S s.(rg_tick)) s.(rg_values) s.(rg_notified)).
Definition set_value (k : string * string) (v : string) (s : Registry) : Registry :=
  mkRegistry s.(rg_tick) (<[k := v]> s.(rg_values)) s.(rg_notified).

(** One value to have, under HKLM. *)
Record value := mkValue { vl_path : string; vl_name : string; vl_want : string }.
#[export] Instance value_eq_dec : EqDecision value.
Proof. solve_decision. Defined.
Definition vl_key (v : value) : string * string := reg_key v.(vl_path) v.(vl_name).

Section Repair.
Variable env : RegEnv.

(** [ensureValue]. *)
Definition ensureValue (v : value) : M Registry (result assoc_error bool) :=
  created ← reg_call env.(e_create);
  if negb created then mret (Err (CreateKeyFailed v.(vl_path)))
  else
    read ← reg_call env.(e_get);
    current ← gets (fun s => s.(rg_values) !! vl_key v);
    if read && bool_decide (current = Some v.(vl_want)) then mret (Ok false)
    else
      set ← reg_call env.(e_set);
      if negb set then mret (Err (SetValueFailed v.(vl_path)))
      else modify (set_value (vl_key v) v.(vl_want)) ;; mret (Ok true).

(** The calls of [repairOne], one after the other until one fails. *)
Fixpoint ensure_values (changed : bool) (l : list value) : M Registry (result assoc_error bool) :=
  match l with
  | [] => mret (Ok changed)
  | v :: l' =>
      r ← ensureValue v;
      match r with
      | Err e => mret (Err e)
      | Ok c => ensure_values (changed || c) l'
      end
  end.

Definition quoted_exe (exe : string) : string :=
  let q s := String "034" (s +:+ String "034" "") in q exe +:+ " " +:+ q "%1".

(** The values of one mapping. *)
Definition mapping_values (command icon : string) (m : Mapping) : list value :=
  let progRoot := "Software\Classes\" +:+ m.(mp_ProgID) in
  [ mkValue ("Software\Classes\" +:+ m.(mp_Ext)) "" m.(mp_ProgID);
    mkValue progRoot "" m.(DisplayName);
    mkValue (progRoot +:+ "\DefaultIcon") "" icon;
    mkValue (progRoot +:+ "\shell\open\command") "" command;
    mkValue (progRoot +:+ "\shell\open") "FriendlyAppName" "EMLy" ].

(** [repairOne]. *)
Definition repairOne (m : Mapping) (command icon : string) : M Registry (result assoc_error bool) :=
  ensure_values false (mapping_values command icon m).

(** [Repair], its loop: Explorer is told at its end, when something was
    written. The flag returned beside an error is not used. *)
Fixpoint repair_loop (command icon : string) (changed : bool) (l : list Mapping) :
    M Registry (result assoc_error bool) :=
  match l with
  | [] =>
      when changed (modify (fun s => mkRegistry s.(rg_tick) s.(rg_values) (S s.(rg_notified)))) ;;
      mret (Ok changed)
  | m :: l' =>
      r ← repairOne m command icon;
      match r with
      | Err e => mret (Err e)
      | Ok c => repair_loop command icon (changed || c) l'
      end
  end.

(** [Repair]; [exists_] is whether the executable is there. *)
Definition Repair (exists_ : bool) (exePath : string) (mappings : list Mapping) :
    M Registry (result assoc_error bool) :=
  if negb exists_ then mret (Err (ExeNotFound exePath))
  else repair_loop (quoted_exe exePath) (exePath +:+ ",0") false mappings.
End Repair.

(** [DefaultMappings], [ExePath]. *)
Definition DefaultMappings (progIDEml progIDMsg : string) : list Mapping :=
  [mkMapping ".eml" progIDEml "EMLy Email Message"; mkMapping ".msg" progIDMsg "EMLy Outlook Message"].
Definition ExePath (installDir exeName : string) : string := filepath_Join installDir exeName.

(** * What a repair achieves *)

Definition holds_value (s : Registry) (v : value) : Prop := s.(rg_values) !! vl_key v = Some v.(vl_want).

(** [s'] differs from [s] at most at the keys of [l]. *)
Definition only_at (l : list value) (s s' : Registry) : Prop :=
  forall k, k ∉ vl_key <$> l -> s'.(rg_values) !! k = s.(rg_values) !! k.

Section Heals.
Variable env : RegEnv.

Lemma ensureValue_spec v s : let '(r, s') := ensureValue env v s in
  only_at [v] s s' /\ s'.(rg_notified) = s.(rg_notified) /\
  match r with
  | Ok c => holds_value s' v /\ (c = false -> s'.(rg_values) = s.(rg_values))
  | Err _ => True
  end.
Proof.
  unfold ensureValue, only_at, holds_value, mbind, M_bind, reg_call, gets, modify, mret, M_ret. cbn.
  destruct (e_create env _); [|done]. cbn. destruct (_ && _) eqn:E; cbn.
  - apply andb_true_iff in E as [_ E]. by apply bool_decide_eq_true in E.
  - destruct (e_set env _); [|done]. cbn. split_and!; [|done|apply lookup_insert_eq|done].
    intros k Hk. apply lookup_insert_ne. intros <-. by apply Hk, list_elem_of_here.
Qed.

(** When reading works, writing is what makes the difference. *)
Lemma ensureValue_idle v s : (forall n, e_create env n = true) -> (forall n, e_get env n = true) ->
  holds_value s v -> let '(r, s') := ensureValue env v s in
  r = Ok false /\ s'.(rg_values) = s.(rg_values).
Proof.
  intros Hc Hg Hv. unfold ensureValue, mbind, M_bind, reg_call, gets, mret, M_ret. cbn.
  rewrite Hc. cbn. rewrite Hg. by rewrite bool_decide_true.
Qed.

(** What a list of values makes of a key: the last that names it wins. *)
Definition wanted (k : string * string) (l : list value) (before : option string) : option string :=
  foldl (fun acc v => if bool_decide (vl_key v = k) then Some v.(vl_want) else acc) before l.

Lemma wanted_absent k l before : k ∉ vl_key <$> l -> wanted k l before = before.
Proof.
  revert before. induction l as [|v l IH]; intros before Hk; [done|]. cbn in *.
  apply not_elem_of_cons in Hk as [H1 H2]. rewrite bool_decide_false by congruence. by apply IH.
Qed.

Lemma ensure_values_spec l : forall changed s, let '(r, s') := ensure_values env changed l s in
  only_at l s s' /\ s'.(rg_notified) = s.(rg_notified) /\
  match r with
  | Ok c => (forall k, s'.(rg_values) !! k = wanted k l (s.(rg_values) !! k)) /\
            (c = false -> s'.(rg_values) = s.(rg_values) /\ Forall (holds_value s) l) /\
            (changed = true -> c = true)
  | Err _ => True
  end.
Proof.
  induction l as [|v l IH]; intros changed s; cbn [ensure_values].
  { cbn. by split_and!. }
  unfold mbind, M_bind. pose proof (ensureValue_spec v s) as Hv.
  destruct (ensureValue env v s) as [[c|e] s1]; destruct Hv as (Hat & Hn & Hr).
  - specialize (IH (changed || c) s1). destruct (ensure_values env _ l s1) as [r s'].
    destruct IH as (Hat' & Hn' & Hr'). split_and!.
    + intros k Hk. cbn in Hk. apply not_elem_of_cons in Hk as [Hk1 Hk2].
      rewrite Hat' by done. apply Hat. cbn. by rewrite list_elem_of_singleton.
    + congruence.
    + destruct r as [c'|]; [|done]. destruct Hr' as (Hall & Hsame & Hmono), Hr as [Hold Hsame1]. split_and!.
      * intros k. rewrite Hall. cbn. unfold wanted. f_equal. case_bool_decide as E; [rewrite <-E; exact Hold|].
        apply Hat. cbn. rewrite list_elem_of_singleton. congruence.
      * intros ->. destruct c; [by rewrite orb_true_r in Hmono; discriminate Hmono|].
        destruct (Hsame eq_refl) as [Hs Hl]. specialize (Hsame1 eq_refl). split; [congruence|].
        unfold holds_value in *. rewrite Hsame1 in *. by constructor.
      * intros ->. by apply Hmono.
  - cbn. split_and!; [|done|done]. intros k Hk. cbn in Hk. apply not_elem_of_cons in Hk as [Hk _].
    apply Hat. cbn. by rewrite list_elem_of_singleton.
Qed.

Lemma ensure_values_idle l : (forall n, e_create env n = true) -> (forall n, e_get env n = true) ->
  forall changed s, Forall (holds_value s) l ->
  let '(r, s') := ensure_values env changed l s in r = Ok changed /\ s'.(rg_values) = s.(rg_values).
Proof.
  intros Hc Hg. induction l as [|v l IH]; intros changed s Hl; cbn [ensure_values]; [done|].
  apply Forall_cons in Hl as [Hv Hl]. unfold mbind, M_bind.
  pose proof (ensureValue_idle v s Hc Hg Hv) as H. destruct (ensureValue env v s) as [r s1].
  destruct H as [-> Hs]. rewrite orb_false_r.
  specialize (IH changed s1). destruct (ensure_values env changed l s1) as [r s'].
  destruct IH as [-> Hs']; [|split; [done|congruence]].
  eapply Forall_impl; [exact Hl|]. intros w. unfold holds_value. by rewrite Hs.
Qed.

Lemma ensure_values_app a b changed s : ensure_values env changed (a ++ b) s =
  (let '(r, s') := ensure_values env changed a s in
   match r with Ok c => ensure_values env c b s' | Err e => (Err e, s') end).
Proof.
  revert changed s. induction a as [|v a IH]; intros changed s; [done|].
  cbn [ensure_values app]. unfold mbind, M_bind.
  destruct (ensureValue env v s) as [[c|e] s1]; [apply IH|done].
Qed.

Lemma ensure_values_flag a changed s : ensure_values env changed a s =
  (let '(r, s') := ensure_values env false a s in
   (match r with Ok c => Ok (changed || c) | Err e => Err e end, s')).
Proof.
  revert changed s. induction a as [|v a IH]; intros changed s.
  { cbn. by rewrite orb_false_r. }
  cbn [ensure_values]. unfold mbind, M_bind.
  destruct (ensureValue env v s) as [[c|e] s1]; [|done].
  rewrite (IH (changed || c)), (IH (false || c)).
  destruct (ensure_values env false a s1) as [[c'|] s2]; [|done]. by rewrite orb_false_l, orb_assoc.
Qed.

Definition all_values (command icon : string) (l : list Mapping) : list value :=
  l ≫= mapping_values command icon.

Lemma repair_loop_flat command icon l : forall changed s,
  repair_loop env command icon changed l s =
  (let '(r, s') := ensure_values env changed (all_values command icon l) s in
   match r with
   | Ok c => (Ok c, if c then mkRegistry s'.(rg_tick) s'.(rg_values) (S s'.(rg_notified)) else s')
   | Err e => (Err e, s')
   end).
Proof.
  induction l as [|m l IH]; intros changed s; [by destruct changed|].
  unfold all_values in *. cbn [mbind list_bind repair_loop]. unfold mbind, M_bind, repairOne.
  rewrite ensure_values_app, (ensure_values_flag (mapping_values command icon m) changed).
  destruct (ensure_values env false (mapping_values command icon m) s) as [[c|e] s1]; [apply IH|done].
Qed.
End Heals.

(** The values do not contradict each other. *)
Definition consistent (l : list value) : Prop :=
  forall v w, v ∈ l -> w ∈ l -> vl_key v = vl_key w -> v.(vl_want) = w.(vl_want).

Lemma wanted_consistent l v before : consistent l -> v ∈ l -> wanted (vl_key v) l before = Some v.(vl_want).
Proof.
  intros Hc Hin. revert before. assert (H : forall l', (forall w, w ∈ l' -> w ∈ l) -> v ∈ l' -> forall before,
    wanted (vl_key v) l' before = Some v.(vl_want)); [|by apply H].
  intros l' Hsub. induction l' as [|w l' IH]; intros Hv before; [by apply elem_of_nil in Hv|]. cbn.
  destruct (decide (v ∈ l')) as [Hl|Hl]; [apply IH; [intros; apply Hsub; by apply list_elem_of_further|done]|].
  apply elem_of_cons in Hv as [->|?]; [|done]. rewrite bool_decide_true by done.
  assert (Hw : forall l'' acc, (forall x, x ∈ l'' -> x ∈ l) -> acc = Some w.(vl_want) ->
    wanted (vl_key w) l'' acc = Some w.(vl_want)).
  { intros l''. induction l'' as [|x l'' IH']; intros acc Hs ->; [done|]. cbn. apply IH'.
    - intros y Hy. apply Hs. by apply list_elem_of_further.
    - case_bool_decide as E; [|done]. f_equal. apply Hc; [apply Hs, list_elem_of_here|done|done]. }
  apply Hw; [|done]. intros x Hx. apply Hsub. by apply list_elem_of_further.
Qed.

(** C30: a repair that reports no error has put every association in place:
    each registry value it names is the one wanted - the one wanted last, where
    two mappings name one value - and no other value is touched, even when it
    fails. It tells Explorer once and only when it wrote, and wrote nothing
    when it says so. Repeated on what it left it finds nothing to do exactly
    when the mappings do not contradict each other: two extensions configured
    with one ProgID under different names are rewritten by every repair. *)
Theorem repair_heals (env : RegEnv) (exePath : string) (l : list Mapping) (s : Registry) :
  let values := all_values (quoted_exe exePath) (exePath +:+ ",0") l in
  let '(r, s') := Repair env true exePath l s in
  only_at values s s' /\
  match r with
  | Err _ => s'.(rg_notified) = s.(rg_notified)
  | Ok changed =>
      (forall k, s'.(rg_values) !! k = wanted k values (s.(rg_values) !! k)) /\
      (consistent values -> Forall (holds_value s') values) /\
      s'.(rg_notified) = (s.(rg_notified) + if changed then 1 else 0)%nat /\
      (changed = false -> s'.(rg_values) = s.(rg_values)) /\
      forall env', (forall n, e_create env' n = true) -> (forall n, e_get env' n = true) ->
        (Repair env' true exePath l s').1 = Ok false <-> consistent values
  end.
Proof.
  cbn zeta. set (values := all_values _ _ l). unfold Repair. cbn [negb]. rewrite repair_loop_flat. fold values.
  pose proof (ensure_values_spec env values false s) as H.
  destruct (ensure_values env false values s) as [[c|e] s1]; [|tauto]. destruct H as (Hat & Hn & Hall & Hsame & _).
  set (s' := if c then mkRegistry s1.(rg_tick) s1.(rg_values) (S s1.(rg_notified)) else s1).
  assert (Hv : s'.(rg_values) = s1.(rg_values)) by (unfold s'; by destruct c).
  assert (Hholds : consistent values -> Forall (holds_value s') values).
  { intros Hc. apply Forall_forall. intros v Hin. unfold holds_value. rewrite Hv, Hall. by apply wanted_consistent. }
  split_and!; [|by intros k; rewrite Hv|done| | |].
  - intros k Hk. rewrite Hv. by apply Hat.
  - unfold s'. destruct c; cbn; rewrite Hn; lia.
  - intros ->. by apply Hsame.
  - intros env' Hc Hg. rewrite repair_loop_flat. fold values. split.
    + pose proof (ensure_values_spec env' values false s') as H. destruct (ensure_values env' false values s') as [[c'|] s2]; [|done].
      destruct H as (_ & _ & _ & Hs2 & _). intros [= ->]. destruct (Hs2 eq_refl) as [_ Hh].
      rewrite Forall_forall in Hh. intros v w Hv1 Hw1 Hk. apply Hh in Hv1, Hw1. unfold holds_value in *.
      rewrite Hk in Hv1. congruence.
    + intros Hcons. pose proof (ensure_values_idle env' _ Hc Hg false s' (Hholds Hcons)) as Hi.
      destruct (ensure_values env' false values s') as [r s2]. by destruct Hi as [-> _].
Qed.

Module AssocBench.
Definition works : RegEnv := mkRegEnv (fun _ => true) (fun _ => true) (fun _ => true).
Definition empty : Registry := mkRegistry 0 ∅ 0.
Definition exe : string := ExePath "C:\Program Files\EMLy" "EMLy.exe".

Definition defaults : list value :=
  all_values (quoted_exe exe) (exe +:+ ",0") (DefaultMappings "EMLy.EML" "EMLy.MSG").

Lemma defaults_consistent : consistent defaults.
Proof.
  intros v w Hv Hw Hk. apply list_elem_of_In in Hv, Hw. cbn in Hv, Hw.
  repeat destruct Hv as [<-|Hv]; try done; repeat destruct Hw as [<-|Hw]; try done; by vm_compute in Hk.
Qed.

Lemma repair_heals_witness :
  let '(r, s') := Repair works true exe (DefaultMappings "EMLy.EML" "EMLy.MSG") empty in
  r = Ok true /\ s'.(rg_notified) = 1%nat /\
  s'.(rg_values) !! reg_key "SOFTWARE\Classes\.MSG" "" = Some "EMLy.MSG" /\
  (Repair works true exe (DefaultMappings "EMLy.EML" "EMLy.MSG") s').1 = Ok false.
Proof.
  assert (H1 : (Repair works true exe (DefaultMappings "EMLy.EML" "EMLy.MSG") empty).1 = Ok true)
    by (vm_compute; reflexivity).
  pose proof (repair_heals works exe (DefaultMappings "EMLy.EML" "EMLy.MSG") empty) as H. cbv zeta in H.
  destruct (Repair works true exe (DefaultMappings "EMLy.EML" "EMLy.MSG") empty) as [r s'].
  cbn [fst] in H1. rewrite H1 in H. destruct H as (_ & Hall & _ & Hn & _ & Hagain).
  split; [exact H1|]. split; [exact Hn|]. split; [rewrite Hall; vm_compute; reflexivity|].
  apply (Hagain works); [reflexivity|reflexivity|exact defaults_consistent].
Defined.

(** Two extensions under one ProgID, which the configuration allows: every
    repair rewrites both display names. *)
Lemma shared_progid_never_settles :
  let repair s := Repair works true exe (DefaultMappings "EMLy.Mail" "EMLy.Mail") s in
  let s1 := (repair empty).2 in
  (repair s1).1 = Ok true /\ (repair (repair s1).2).1 = Ok true /\ (repair s1).2.(rg_values) = s1.(rg_values).
Proof.
  split; [vm_compute; reflexivity|]. split; [vm_compute; reflexivity|].
  apply (bool_decide_unpack _). vm_compute. exact I.
Qed.
End AssocBench.
