(* ===== verification/Process.v ===== *)
(** The processes of EMLy: internal/process/process.go.

    The system calls answer through what is given of each snapshot: the list
    of processes or an error, and for each instance whether it can be opened,
    killed. [WaitForExit] is a loop without a bound of its own; it is run on
    the answers the system gives in turn, and is still waiting when they run
    out. *)
From S2P Require Import Prelude.

Inductive process_error :=
| SnapshotFailed | FirstFailed | NextFailed | CreateEventFailed | WaitFailed | ContextDone
| OpenFailed (pid : Z) | TerminateFailed (pid : Z).

(** A snapshot: whether it was taken, its entries, and what ended the walk -
    [true] for [ERROR_NO_MORE_FILES]. *)
Record snapshot := mkSnapshot_ {
  ss_taken : bool;
  ss_entries : list (string * Z);
  ss_complete : bool
}.

Section Processes.
Variable exeName : string.

(** The instances of [exeName] among entries. *)
Definition instances (entries : list (string * Z)) : list Z :=
  snd <$> bfilter (fun e => equal_fold e.1 exeName) entries.

(** [ListPIDs]. *)
Definition ListPIDs (s : snapshot) : result process_error (list Z) :=
  if negb s.(ss_taken) then Err SnapshotFailed
  else match s.(ss_entries) with
       | [] => Err FirstFailed
       | entries => if s.(ss_complete) then Ok (instances entries) else Err NextFailed
       end.

(** [IsRunning]: an error counts as running. *)
Definition IsRunning (s : snapshot) : bool :=
  match ListPIDs s with Err _ => true | Ok pids => 0 <? len pids end.

(** What ends a wait on the handles held. *)
Inductive wait_end := WaitError | EventSignaled | InstanceExited.

(** One turn of the loop: the snapshot, which instances can be opened, and how
    the wait on those ends. *)
Record wait_turn := mkTurn_ { wt_snapshot : snapshot; wt_opens : Z -> bool; wt_end : wait_end }.

Definition maxHandles : nat := 63.

(** [WaitForExit] after its event was made: [None] while it has not returned. *)
Fixpoint wait_loop (l : list wait_turn) : option (result process_error unit) :=
  match l with
  | [] => None
  | t :: l' =>
      match ListPIDs t.(wt_snapshot) with
      | Err e => Some (Err e)
      | Ok [] => Some (Ok tt)
      | Ok pids =>
          match bfilter t.(wt_opens) (take maxHandles pids) with
          | [] => wait_loop l'
          | _ :: _ =>
              match t.(wt_end) with
              | WaitError => Some (Err WaitFailed)
              | EventSignaled => Some (Err ContextDone)
              | InstanceExited => wait_loop l'
              end
          end
      end
  end.

(** [WaitForExit]. *)
Definition WaitForExit (event : bool) (l : list wait_turn) : option (result process_error unit) :=
  if event then wait_loop l else Some (Err CreateEventFailed).

(** [TerminateAll]: how many were killed, and the first error. *)
Record kill_env := mkKillEnv { k_opens : Z -> bool; k_kills : Z -> bool }.

Definition first_error (old : option process_error) (e : process_error) : option process_error :=
  match old with None => Some e | Some _ => old end.

Fixpoint kill_loop (env : kill_env) (killed : Z) (err : option process_error) (pids : list Z) :
    Z * option process_error :=
  match pids with
  | [] => (killed, err)
  | pid :: pids' =>
      if negb (env.(k_opens) pid) then kill_loop env killed (first_error err (OpenFailed pid)) pids'
      else if negb (env.(k_kills) pid) then kill_loop env killed (first_error err (TerminateFailed pid)) pids'
      else kill_loop env (killed + 1) err pids'
  end.

Definition TerminateAll (s : snapshot) (env : kill_env) : Z * option process_error :=
  match ListPIDs s with
  | Err e => (0, Some e)
  | Ok pids => kill_loop env 0 None pids
  end.

(** * What they promise *)

(** The instance that was there is never missed. *)
Lemma ListPIDs_ok s pids : ListPIDs s = Ok pids ->
  forall pid, pid ∈ pids <-> exists name, (name, pid) ∈ s.(ss_entries) /\ equal_fold name exeName = true.
Proof.
  unfold ListPIDs. destruct (ss_taken s); [|done]. destruct (ss_entries s) as [|e l]; [done|].
  destruct (ss_complete s); [|done]. cbn [negb]. intros [= <-] pid. unfold instances.
  rewrite list_elem_of_fmap. split.
  - intros ([name pid'] & -> & Hin). apply list_elem_of_In, List.filter_In in Hin as [Hin Hf].
    exists name. split; [by apply list_elem_of_In|done].
  - intros (name & Hin & Hf). exists (name, pid). split; [done|].
    apply list_elem_of_In, List.filter_In. split; [by apply list_elem_of_In|done].
Qed.

Lemma IsRunning_false s : IsRunning s = false <-> ListPIDs s = Ok [].
Proof.
  unfold IsRunning. destruct (ListPIDs s) as [[|pid pids]|]; [by cbn| |by split].
  split; [|done]. rewrite len_cons. pose proof (len_nonneg pids). intros E. bool_to_prop. lia.
Qed.

(** The turn a wait ends with: it says there is no instance only when it has
    just seen none. *)
Lemma wait_loop_ok l r : wait_loop l = Some r ->
  exists l1 t l2, l = l1 ++ t :: l2 /\ wait_loop l1 = None /\
    match r with
    | Ok _ => IsRunning t.(wt_snapshot) = false
    | Err ContextDone => t.(wt_end) = EventSignaled
    | Err _ => IsRunning t.(wt_snapshot) = true
    end.
Proof.
  induction l as [|t l IH]; [done|]. cbn [wait_loop].
  assert (Hnext : forall x, (wait_loop (t :: []) = None) -> wait_loop l = Some x -> x = r ->
    exists l1 t' l2, t :: l = l1 ++ t' :: l2 /\ wait_loop l1 = None /\
      match r with
      | Ok _ => IsRunning t'.(wt_snapshot) = false
      | Err ContextDone => t'.(wt_end) = EventSignaled
      | Err _ => IsRunning t'.(wt_snapshot) = true
      end).
  { intros x Ht Hl ->. destruct (IH Hl) as (l1 & t' & l2 & -> & H1 & H2).
    exists (t :: l1), t', l2. split; [done|]. split; [|done]. cbn [wait_loop] in *.
    destruct (ListPIDs _) as [[|pid pids]|]; try done. destruct (bfilter _ _); [done|].
    by destruct (wt_end t). }
  destruct (ListPIDs (wt_snapshot t)) as [[|pid pids]|e] eqn:Hl.
  - intros [= <-]. exists [], t, l. split_and!; [done|done|]. by apply IsRunning_false.
  - assert (Hrun : IsRunning t.(wt_snapshot) = true).
    { destruct (IsRunning _) eqn:E; [done|]. apply IsRunning_false in E. congruence. }
    destruct (bfilter _ _) as [|h hs] eqn:Hb.
    + intros H. eapply Hnext; [|exact H|done]. cbn [wait_loop]. by rewrite Hl, Hb.
    + destruct (wt_end t) eqn:He.
      * intros [= <-]. by exists [], t, l.
      * intros [= <-]. by exists [], t, l.
      * intros H. eapply Hnext; [|exact H|done]. cbn [wait_loop]. by rewrite Hl, Hb, He.
  - intros [= <-]. exists [], t, l. split; [done|]. split; [done|].
    assert (IsRunning t.(wt_snapshot) = true) by (unfold IsRunning; by rewrite Hl).
    destruct e; try done. unfold ListPIDs in Hl. by repeat case_match.
Qed.

(** An instance that cannot be opened keeps the loop turning without a wait:
    it asks again at once, for as long as that lasts, whether or not the
    service was asked to stop. *)
Lemma wait_spins pid (e : wait_end) n :
  WaitForExit true (replicate n (mkTurn_ (mkSnapshot_ true [(exeName, pid)] true) (fun _ => false) e)) = None.
Proof.
  unfold WaitForExit. induction n as [|n IH]; [done|]. cbn [replicate wait_loop wt_snapshot].
  unfold ListPIDs, instances. cbn [ss_taken ss_entries ss_complete negb]. cbn [bfilter List.filter].
  by rewrite equal_fold_refl.
Qed.

Definition killable (env : kill_env) (pid : Z) : bool := env.(k_opens) pid && env.(k_kills) pid.

Lemma kill_loop_spec env pids : forall killed err,
  let '(n, err') := kill_loop env killed err pids in
  n = killed + len (bfilter (killable env) pids) /\
  (err' = None <-> err = None /\ Forall (fun pid => killable env pid = true) pids).
Proof.
  induction pids as [|pid pids IH]; intros killed err; cbn [kill_loop].
  { unfold len. cbn. split; [lia|]. split; [by intros ->|by intros [-> _]]. }
  assert (Hfirst : forall e, first_error err e <> None) by (intros e; by destruct err).
  assert (Hcons := Forall_cons (fun pid => killable env pid = true) pid pids).
  unfold bfilter in *. cbn [List.filter]. unfold killable in Hcons at 2. unfold killable at 1.
  destruct (k_opens env pid) eqn:Ho; [destruct (k_kills env pid) eqn:Hk|]; cbn [negb andb].
  - specialize (IH (killed + 1) err). destruct (kill_loop _ _ _ pids) as [n err']. destruct IH as [-> IH].
    rewrite len_cons, Hcons. split; [lia|]. rewrite IH. naive_solver.
  - specialize (IH killed (first_error err (TerminateFailed pid))).
    destruct (kill_loop _ _ _ pids) as [n err']. destruct IH as [-> IH]. split; [done|].
    rewrite IH, Hcons. specialize (Hfirst (TerminateFailed pid)). naive_solver.
  - specialize (IH killed (first_error err (OpenFailed pid))).
    destruct (kill_loop _ _ _ pids) as [n err']. destruct IH as [-> IH]. split; [done|].
    rewrite IH, Hcons. specialize (Hfirst (OpenFailed pid)). naive_solver.
Qed.

(** a critical update kills every instance or says why not: the number it
    returns is that of the instances it could open and terminate, and it
    reports no error exactly when the processes could be listed and that was
    all of them - so that success on a machine where EMLy runs is never an
    empty one. *)
Theorem TerminateAll_spec (s : snapshot) (env : kill_env) :
  let '(killed, err) := TerminateAll s env in
  match ListPIDs s with
  | Err e => killed = 0 /\ err = Some e
  | Ok pids =>
      killed = len (bfilter (killable env) pids) /\
      (err = None <-> killed = len pids)
  end.
Proof.
  unfold TerminateAll. destruct (ListPIDs s) as [pids|e]; [|done].
  pose proof (kill_loop_spec env pids 0 None) as H.
  destruct (kill_loop env 0 None pids) as [n err]. destruct H as [-> H]. split; [lia|]. rewrite H.
  clear H. set (f := killable env). assert (Hle : forall l, len (bfilter f l) <= len l /\
    (Forall (fun pid => f pid = true) l <-> len (bfilter f l) = len l)).
  { intros l. induction l as [|pid l IH]; [done|]. unfold bfilter in *. cbn [List.filter].
    rewrite Forall_cons. destruct (f pid) eqn:E; rewrite ?len_cons.
    - destruct IH as [? IH]. rewrite IH. split; [lia|]. split; [lia|]. intros ?; split; [done|lia].
    - destruct IH as [? _]. split; [lia|]. split; [by intros [? _]|lia]. }
  specialize (Hle pids). rewrite (proj2 Hle). split; [intros [_ ?]; lia|intros ?; split; [done|lia]].
Qed.
End Processes.
