(* ===== verification/Trust.v ===== *)
(** Whose signature a file carries, and the certificate it is checked against:
    internal/authenticode/verify.go, internal/cert (cert.go, target.go,
    store.go), [verifySelfUpdateSignature] and [ensureCertificate] of
    internal/service.

    SHA-1 is a parameter. What crypt32 and wintrust say of a file is a
    [signature]; the certificate stores are sets of certificates, with faults
    per store. *)
From S2P Require Import Prelude.

Class Sha1 := sha1 : string -> string.

(** * authenticode *)

Definition certUntrustedRoot : Z := 0x800B0109.
Definition trustBadDigest : Z := 0x80096010.
Definition trustNoSignature : Z := 0x800B0100.

(** What the system says of a file: whether a signed message is read from it,
    the size announced for its signer, whether that is read, the DER of the
    signer's certificate when the message carries it, and the error of
    WinVerifyTrust - an HRESULT, or some other error. *)
Inductive trust_error := HResult (h : Z) | OtherTrust (text : string).
Record signature := mkSignature {
  sg_message : bool;
  sg_size : option Z;
  sg_info : bool;
  sg_signer : option string;
  sg_trust : option trust_error
}.

Inductive verify_failure :=
| NotPinned | NoSignature | NoSignerSize | SignerTooShort (n : Z) | NoSigner | SignerNotCarried
| Distrusted (text : string) | SignedByOther (thumbprint : string).

Definition sizeof_CertInfo : Z := 208.

(** [signerCertInfo] and [signerThumbprint]. *)
Definition signerThumbprint `{Sha1} (s : signature) : result verify_failure string :=
  if negb s.(sg_message) then Err NoSignature
  else match s.(sg_size) with
       | None => Err NoSignerSize
       | Some n =>
           if n <? sizeof_CertInfo then Err (SignerTooShort n)
           else if negb s.(sg_info) then Err NoSigner
           else match s.(sg_signer) with
                | None => Err SignerNotCarried
                | Some der => Ok (sha1 der)
                end
       end.

(** [isHRESULT], [describeTrustError]. *)
Definition isHRESULT (e : trust_error) (h : Z) : bool :=
  match e with HResult x => wrapu32 x =? h | OtherTrust _ => false end.
Definition describeTrustError (e : trust_error) : string :=
  if isHRESULT e trustBadDigest then "the file does not match its signature (tampered or truncated)"
  else if isHRESULT e trustNoSignature then "the file is not signed"
  else if isHRESULT e certUntrustedRoot then "the signature does not chain to the expected certificate"
  else match e with HResult _ => "HRESULT" | OtherTrust text => text end.

(** [subtleEqual]: every byte of the first, against the second's at the same
    place; [None] when the second is too short, which Go makes a panic. *)
Fixpoint difference (a b : string) : option Z :=
  match a, b with
  | EmptyString, _ => Some 0
  | String _ _, EmptyString => None
  | String x a', String y b' =>
      d ← difference a' b';
      Some (Z.lor (Z.lxor (Z.of_N (N_of_ascii x)) (Z.of_N (N_of_ascii y))) d)
  end.
Definition subtleEqual (a b : string) : option bool := (fun d => d =? 0) <$> difference a b.

(** [Verify]. *)
Definition authenticode_Verify `{Sha1} (s : signature) (pinned : string) : option verify_failure :=
  if pinned =s "" then Some NotPinned
  else match signerThumbprint s with
       | Err e => Some e
       | Ok thumbprint =>
           let pinMatches := (slen thumbprint =? slen pinned) && from_opt false (subtleEqual thumbprint pinned) in
           match s.(sg_trust) with
           | Some e =>
               if negb (isHRESULT e certUntrustedRoot && pinMatches) then Some (Distrusted (describeTrustError e))
               else if negb pinMatches then Some (SignedByOther thumbprint) else None
           | None => if negb pinMatches then Some (SignedByOther thumbprint) else None
           end
       end.

Lemma difference_nonneg a : forall b d, difference a b = Some d -> 0 <= d.
Proof.
  induction a as [|x a IH]; intros [|y b] d; cbn; try done; try (intros [= <-]; done).
  destruct (difference a b) as [d'|] eqn:E; [|done]. intros [= <-]. apply Z.lor_nonneg.
  split; [apply Z.lxor_nonneg; lia|by eapply IH].
Qed.

Lemma subtleEqual_spec a b : slen a = slen b -> subtleEqual a b = Some (a =s b).
Proof.
  unfold subtleEqual, slen. revert b. induction a as [|x a IH]; intros [|y b] Hlen; cbn in Hlen; try lia; [done|].
  specialize (IH b ltac:(lia)). cbn [difference]. destruct (difference a b) as [d|] eqn:E; [|done].
  cbn in *. injection IH as IH. f_equal. pose proof (difference_nonneg _ _ _ E) as Hd.
  apply eq_true_iff_eq. rewrite Z.eqb_eq, Z.lor_eq_0_iff, Z.lxor_eq_0_iff, N2Z.inj_iff, str_eqb_eq.
  rewrite <-Z.eqb_eq, IH, str_eqb_eq. split.
  - intros [Hx ->]. f_equal. by rewrite <-(ascii_N_embedding x), <-(ascii_N_embedding y), Hx.
  - by intros [= -> ->].
Qed.

(** C29: a file passes only when the certificate that signed it - the one the
    signed message names, not one it merely carries - is the pinned one, and
    Windows either vouches for the signature or objects to nothing but its
    root; and every such file passes. *)
Theorem Verify_pinned `{Sha1} (s : signature) (pinned : string) :
  authenticode_Verify s pinned = None <->
  pinned <> "" /\ signerThumbprint s = Ok pinned /\
  (s.(sg_trust) = None \/ exists e, s.(sg_trust) = Some e /\ isHRESULT e certUntrustedRoot = true).
Proof.
  unfold authenticode_Verify. destruct (pinned =s "") eqn:Hp.
  { apply str_eqb_eq in Hp. split; [done|tauto]. }
  apply str_eqb_neq in Hp. destruct (signerThumbprint s) as [t|e]; [|split; [done|by intros (_ & ? & _)]].
  set (m := (slen t =? slen pinned) && _). assert (Hm : m = true <-> t = pinned).
  { unfold m. rewrite andb_true_iff, Z.eqb_eq. split.
    - intros [Hlen Heq]. rewrite subtleEqual_spec in Heq by done. by apply str_eqb_eq.
    - intros ->. by rewrite subtleEqual_spec, str_eqb_refl. }
  clearbody m. assert (Hme : Ok (E := verify_failure) t = Ok pinned <-> m = true) by (rewrite Hm; naive_solver).
  rewrite Hme. destruct (sg_trust s) as [e|]; [destruct (isHRESULT e certUntrustedRoot) eqn:He|];
    destruct m; cbn [negb andb]; clear Hm Hme;
    (split; [intros Hn; first [discriminate Hn|split_and!; eauto]
            |intros (_ & Hn & [Ht|(e' & Ht & Hr)]); congruence]).
Qed.

(** * cert: the trust stores *)

Definition CERT_SYSTEM_STORE_LOCAL_MACHINE : Z := Z.shiftl 2 16.
Definition CERT_SYSTEM_STORE_USERS : Z := Z.shiftl 6 16.
Definition CERT_SYSTEM_STORE_UNPROTECTED_FLAG : Z := 2 ^ 30.

Definition storeNames : list string := ["Root"; "TrustedPublisher"].

Record CertTarget := mkTarget_ { Location : Z; SID : string; tg_Name : string }.
#[export] Instance CertTarget_eq_dec : EqDecision CertTarget.
Proof. solve_decision. Defined.

Definition of_user (t : CertTarget) : bool := t.(Location) =? CERT_SYSTEM_STORE_USERS.

(** [Target.StoreName], [Target.String], [Target.openFlags]. *)
Definition StoreName (t : CertTarget) : string :=
  if of_user t then t.(SID) +:+ "\" +:+ t.(tg_Name) else t.(tg_Name).
Definition Target_String (t : CertTarget) : string :=
  if of_user t then "User\" +:+ t.(tg_Name) +:+ " (" +:+ t.(SID) +:+ ")" else "LocalMachine\" +:+ t.(tg_Name).
Definition openFlags (t : CertTarget) : Z :=
  if of_user t then Z.lor t.(Location) CERT_SYSTEM_STORE_UNPROTECTED_FLAG else t.(Location).

(** [MachineTargets], [UserTargets]. *)
Definition MachineTargets : list CertTarget := mkTarget_ CERT_SYSTEM_STORE_LOCAL_MACHINE "" <$> storeNames.
Definition UserTargets (sid : string) : list CertTarget := mkTarget_ CERT_SYSTEM_STORE_USERS sid <$> storeNames.

(** The system's stores, by open flags and name; a user's store shows the
    machine's of the same name too. *)
Abbreviation stores := (gmap (Z * string) (gset string)).
Definition store_key (t : CertTarget) : Z * string := (openFlags t, StoreName t).
Definition contents (s : stores) (k : Z * string) : gset string := default ∅ (s !! k).
Definition has_cert (s : stores) (t : CertTarget) (der : string) : Prop :=
  der ∈ contents s (store_key t) \/
  of_user t = true /\ der ∈ contents s (CERT_SYSTEM_STORE_LOCAL_MACHINE, t.(tg_Name)).
#[export] Instance has_cert_dec s t der : Decision (has_cert s t der).
Proof. unfold has_cert. apply _. Defined.

(** Which stores open and take a certificate, and whether crypt32 takes the
    DER at all. *)
Record cert_env := mkCertEnv { ce_opens : CertTarget -> bool; ce_adds : CertTarget -> bool; ce_context : bool }.

Inductive cert_error := EmptyCertificate | CertificateRejected | BadStoreName (t : CertTarget)
| StoreNotOpened (t : CertTarget) | StoreNotWritten (t : CertTarget).

Section Ensure.
Variable env : cert_env.

(** [addToStore]. *)
Definition addToStore (der : string) (t : CertTarget) (s : stores) : result cert_error bool * stores :=
  if is_some (index_byte (StoreName t) "000") then (Err (BadStoreName t), s)
  else if negb (env.(ce_opens) t) then (Err (StoreNotOpened t), s)
  else if decide (has_cert s t der) then (Ok false, s)
  else if env.(ce_adds) t
       then (Ok true, <[store_key t := {[der]} ∪ contents s (store_key t)]> s)
       else (Err (StoreNotWritten t), s).

(** The loop of [Ensure]: a failure does not keep it from the other stores. *)
Fixpoint ensure_loop (der : string) (installed : list string) (firstErr : option cert_error)
    (targets : list CertTarget) (s : stores) : (list string * option cert_error) * stores :=
  match targets with
  | [] => ((installed, firstErr), s)
  | t :: targets' =>
      let '(r, s') := addToStore der t s in
      match r with
      | Err e => ensure_loop der installed (match firstErr with None => Some e | _ => firstErr end) targets' s'
      | Ok added =>
          ensure_loop der (installed ++ if added then [Target_String t] else []) firstErr targets' s'
      end
  end.

(** [Ensure]. *)
Definition cert_Ensure (der : string) (targets : list CertTarget) (s : stores) :
    (list string * option cert_error) * stores :=
  if der =s "" then (([], Some EmptyCertificate), s)
  else if negb env.(ce_context) then (([], Some CertificateRejected), s)
  else ensure_loop der [] None targets s.

(** [ensureCertificate]: what reaches the log above Debug. *)
Inductive cert_log := EmbeddedUnusable | EvCertInstalled (store : string)
| EvCertFailed (e : cert_error) (written tried : Z).

Definition ensureCertificate (enabled : bool) (embedded : option string) (sid : option string) (s : stores) :
    list cert_log * stores :=
  if negb enabled then ([], s)
  else match embedded with
       | None => ([EmbeddedUnusable], s)
       | Some der =>
           let targets := MachineTargets ++ match sid with Some sid => UserTargets sid | None => [] end in
           let '((installed, err), s') := cert_Ensure der targets s in
           ((EvCertInstalled <$> installed) ++
              match err with Some e => [EvCertFailed e (len installed) (len targets)] | None => [] end, s')
       end.

(** * A store only ever gains the certificate *)

Definition grows (der : string) (s s' : stores) : Prop :=
  forall k, contents s k ⊆ contents s' k /\ contents s' k ⊆ {[der]} ∪ contents s k.

Lemma grows_refl der s : grows der s s.
Proof. intros k. set_solver. Qed.
Lemma grows_trans der s1 s2 s3 : grows der s1 s2 -> grows der s2 s3 -> grows der s1 s3.
Proof. intros H1 H2 k. destruct (H1 k), (H2 k). set_solver. Qed.
Lemma grows_has der s s' t : grows der s s' -> has_cert s t der -> has_cert s' t der.
Proof.
  intros Hg. unfold has_cert. destruct (Hg (store_key t)), (Hg (CERT_SYSTEM_STORE_LOCAL_MACHINE, t.(tg_Name))).
  set_solver.
Qed.

(** A store that can be opened, and written. *)
Definition usable (t : CertTarget) : Prop :=
  index_byte (StoreName t) "000" = None /\ env.(ce_opens) t = true /\ env.(ce_adds) t = true.

Lemma addToStore_spec der t s : let '(r, s') := addToStore der t s in
  grows der s s' /\
  match r with Ok _ => has_cert s' t der | Err _ => s' = s /\ ~ usable t end.
Proof.
  unfold addToStore, usable. destruct (index_byte _ _); [split; [apply grows_refl|]; split; [done|by intros []]|].
  cbn [is_some]. destruct (ce_opens env t); [|split; [apply grows_refl|]; split; [done|by intros (_ & ? & _)]].
  cbn [negb]. destruct (decide _) as [H|H]; [by split; [apply grows_refl|]|].
  destruct (ce_adds env t); [|split; [apply grows_refl|]; split; [done|by intros (_ & _ & ?)]]. split.
  - intros k. unfold contents. destruct (decide (k = store_key t)) as [->|Hk].
    + rewrite lookup_insert_eq. cbn. set_solver.
    + rewrite lookup_insert_ne by done. set_solver.
  - left. unfold contents at 1. rewrite lookup_insert_eq. cbn. set_solver.
Qed.

Lemma ensure_loop_spec der targets : forall installed firstErr s,
  let '((_, err), s') := ensure_loop der installed firstErr targets s in
  grows der s s' /\ (forall t, t ∈ targets -> usable t -> has_cert s' t der) /\
  (err = None -> firstErr = None /\ forall t, t ∈ targets -> has_cert s' t der).
Proof.
  induction targets as [|t targets IH]; intros installed firstErr s; cbn [ensure_loop].
  { split; [apply grows_refl|]. split; [by intros t ?%elem_of_nil|]. intros ->.
    split; [done|by intros t ?%elem_of_nil]. }
  pose proof (addToStore_spec der t s) as Ht. destruct (addToStore der t s) as [r s1].
  destruct Ht as [Hg1 Ht].
  destruct r as [added|e];
    [specialize (IH (installed ++ if added then [Target_String t] else []) firstErr s1)
    |specialize (IH installed (match firstErr with None => Some e | _ => firstErr end) s1)];
    destruct (ensure_loop _ _ _ targets s1) as [[inst err] s'];
    destruct IH as (Hg & Hus & Herr); (split; [by eapply grows_trans|]).
  - assert (has_cert s' t der) by (by eapply grows_has).
    split; [intros x [->|Hx]%elem_of_cons; [done|by apply Hus]|].
    intros Hn. destruct (Herr Hn) as [-> Hall]. split; [done|]. intros x [->|Hx]%elem_of_cons; [done|by apply Hall].
  - destruct Ht as [-> Hno]. split; [intros x [->|Hx]%elem_of_cons; [done|by apply Hus]|].
    intros Hn. destruct (Herr Hn) as [Hf _]. by destruct firstErr.
Qed.

Lemma ensure_loop_settled der targets : forall installed s,
  (forall t, t ∈ targets -> index_byte (StoreName t) "000" = None /\ env.(ce_opens) t = true /\ has_cert s t der) ->
  ensure_loop der installed None targets s = ((installed, None), s).
Proof.
  induction targets as [|t targets IH]; intros installed s H; cbn [ensure_loop]; [done|].
  destruct (H t (list_elem_of_here _ _)) as (H1 & H2 & H3). unfold addToStore. rewrite H1, H2. cbn [is_some negb].
  rewrite decide_True by done. rewrite app_nil_r. apply IH. intros x Hx. by apply H, list_elem_of_further.
Qed.

(** a run over the trust stores adds the certificate and nothing else, to
    every store that can be written, whatever happened on the others; when it
    reports no error every store shows the certificate, and the next run
    writes and reports nothing. *)
Theorem cert_Ensure_spec (der : string) (targets : list CertTarget) (s : stores) :
  der <> "" -> env.(ce_context) = true ->
  let '((installed, err), s') := cert_Ensure der targets s in
  grows der s s' /\ (forall t, t ∈ targets -> usable t -> has_cert s' t der) /\
  (err = None -> (forall t, t ∈ targets -> has_cert s' t der) /\
     ((forall t, t ∈ targets -> usable t) -> cert_Ensure der targets s' = (([], None), s'))).
Proof.
  intros Hder Hctx. unfold cert_Ensure. apply str_eqb_neq in Hder. rewrite Hder, Hctx. cbn [negb].
  pose proof (ensure_loop_spec der targets [] None s) as H.
  destruct (ensure_loop der [] None targets s) as [[installed err] s']. destruct H as (Hg & Hus & Herr).
  split_and!; [done|done|]. intros He. destruct (Herr He) as [_ Hall]. split; [done|].
  intros Hu. apply ensure_loop_settled. intros t Ht. destruct (Hu t Ht) as (? & ? & _). auto.
Qed.
End Ensure.

Module TrustBench.
Definition works : cert_env := mkCertEnv (fun _ => true) (fun _ => true) true.
Definition targets : list CertTarget := MachineTargets ++ UserTargets "S-1-5-21-7".

Lemma cert_Ensure_spec_witness :
  let '((installed, err), s') := cert_Ensure works "der" targets ∅ in
  installed = ["LocalMachine\Root"; "LocalMachine\TrustedPublisher"] /\ err = None /\
  cert_Ensure works "der" targets s' = (([], None), s').
Proof.
  assert (H1 : (cert_Ensure works "der" targets ∅).1 =
    (["LocalMachine\Root"; "LocalMachine\TrustedPublisher"], None)) by (vm_compute; reflexivity).
  pose proof (cert_Ensure_spec works "der" targets ∅ ltac:(discriminate) eq_refl) as H.
  destruct (cert_Ensure works "der" targets ∅) as [[installed err] s']. cbn [fst] in H1.
  injection H1 as -> ->. destruct H as (_ & _ & Hn). split; [reflexivity|]. split; [reflexivity|].
  apply (proj2 (Hn eq_refl)). intros t Ht. split; [|split; reflexivity].
  repeat (apply elem_of_cons in Ht as [->|Ht]; [vm_compute; reflexivity|]). by apply elem_of_nil in Ht.
Defined.
End TrustBench.
