(* ===== verification/Sessions.v ===== *)
(** What the service does in a user's session and with Windows itself:
    internal/notify (session_exec.go, toast_launch.go, notify.go), the text
    fields of internal/toast (copyString) and internal/power.

    Each of these functions acquires handles one after the other and gives
    them back through [defer]; a run is the list of what it acquires, uses and
    releases. The outcome of each system call is given. *)
From S2P Require Import Prelude PolicyValidate.

(** * Handles *)

Inductive handle :=
| HProcToken | HUserToken | HPrimaryToken | HEnvBlock | HStdoutR | HStdoutW | HStderrR | HStderrW | HNul
| HThread | HProcess | HAttributes
| HTrustState | HCertStore | HCryptMsg | HCertContext | HSessionList | HSessionBuffer | HDcInfo
| HWindowClass | HWindow | HSmallIcon | HLargeIcon | HTrayIcon.
#[export] Instance handle_eq_dec : EqDecision handle.
Proof. solve_decision. Defined.

Inductive act :=
| Opened (h : handle) | Closed (h : handle) | Uses (hs : list handle) | Inherits (hs : list handle)
| Terminated | Exited.
#[export] Instance act_eq_dec : EqDecision act.
Proof. solve_decision. Defined.

(** [defer Close(h)] around the rest of the function. *)
Definition holding {A} (h : handle) (rest : list act * A) : list act * A :=
  (Opened h :: rest.1 ++ [Closed h], rest.2).
Definition doing {A} (acts : list act) (rest : list act * A) : list act * A := (acts ++ rest.1, rest.2).

(** Nothing is used or closed that is not open, nothing opened twice, and
    nothing left open. *)
Fixpoint well_used (live : list handle) (l : list act) : bool :=
  match l with
  | [] => match live with [] => true | _ => false end
  | Opened h :: l' => negb (bool_decide (h ∈ live)) && well_used (h :: live) l'
  | Closed h :: l' => bool_decide (h ∈ live) && well_used (bfilter (fun x => negb (bool_decide (x = h))) live) l'
  | Uses hs :: l' => forallb (fun h => bool_decide (h ∈ live)) hs && well_used live l'
  | _ :: l' => well_used live l'
  end.

(** [enablePrivilege], of notify and power. [Some true] stands for a token
    without the privilege, which Windows reports as success. *)
Record privilege_env := mkPrivilege { p_token : bool; p_lookup : bool; p_adjust : option bool }.

Definition enablePrivilege (e : privilege_env) : list act * bool :=
  if negb e.(p_token) then ([], false)
  else holding HProcToken
    (if negb e.(p_lookup) then ([], false)
     else doing [Uses [HProcToken]] ([], is_some e.(p_adjust))).

(** * A command in a user's session: session_exec.go *)

(** When the reader of an output pipe returns, once the wait for the process is
    over: within the grace period, after its read is cancelled, or not before
    [RunInSession] does. *)
Inductive reader_end := AtExit | AtCancel | Lingers.

(** What [createInSession] meets: a command line that can be passed on, the
    attribute list, its update, the process. *)
Record create_env := mkCreate { k_text : bool; k_attributes : bool; k_update : bool; k_process : bool }.

Record session_env := mkSessionEnv {
  v_privileges : list privilege_env;
  v_token : bool;
  v_duplicate : bool;
  v_block : bool;
  v_stdout : bool * bool;
  v_stderr : bool * bool;
  v_nul : bool;
  v_create : create_env;
  v_cancelled : bool;
  v_killed : bool;
  v_wait : bool;
  v_stdout_end : reader_end;
  v_stderr_end : reader_end;
  v_code : option Z;
  v_out : list (string * bool);
  v_err : list (string * bool)
}.

Inductive session_error :=
| EmptyArgv | NoUserToken | DuplicateFailed | EnvironmentFailed | PipeFailed | NulFailed | CreateFailed
| PipesNeverClosed | SessionCancelled | ExitCodeFailed.

Record SessionOutput := mkSessionOutput { so_Stdout : string; so_Stderr : string; so_ExitCode : Z }.

(** [inheritablePipe]: whether it is made and its read end kept private. *)
Definition inheritablePipe (r w : handle) (e : bool * bool) : list act * bool :=
  if negb e.1 then ([], false)
  else if negb e.2 then ([Opened r; Opened w; Uses [r]; Closed r; Closed w], false)
  else ([Opened r; Opened w; Uses [r]], true).

Definition child_ends : list handle := [HNul; HStdoutW; HStderrW].
Definition close_all (l : list handle) : list act := Closed <$> l.

(** [readPipe]: what the reads give, up to the first that fails. *)
Fixpoint readPipe (reads : list (string * bool)) : string :=
  match reads with
  | [] => ""
  | (bytes, failed) :: rest => bytes +:+ (if failed : bool then "" else readPipe rest)
  end.

(** The readers still reading. *)
Definition lingering (e : session_env) : list handle :=
  (match e.(v_stdout_end) with Lingers => [HStdoutR] | _ => [] end) ++
  (match e.(v_stderr_end) with Lingers => [HStderrR] | _ => [] end).
Definition at_exit (e : session_env) : bool :=
  match e.(v_stdout_end), e.(v_stderr_end) with AtExit, AtExit => true | _, _ => false end.

(** Once the process runs. Its end is waited for, [Exited]; [v_wait] says that
    the wait works: a failed one is taken for the end. [v_killed] says that the
    context ended first, and [v_cancelled] that it has by the time the readers
    are done. *)
Definition await (e : session_env) : list act * result session_error SessionOutput :=
  doing ([Uses [HStdoutR; HStderrR; HProcess]] ++ (if e.(v_killed) then [Terminated] else []) ++
         (if e.(v_wait) then [Exited] else []))
    (doing (if at_exit e then [] else [Uses [HStdoutR; HStderrR]])
      (if negb (bool_decide (lingering e = [])) then ([], Err PipesNeverClosed)
       else if e.(v_killed) || e.(v_cancelled) then ([], Err SessionCancelled)
       else doing [Uses [HProcess]]
         match e.(v_code) with
         | None => ([], Err ExitCodeFailed)
         | Some code => ([], Ok (mkSessionOutput (readPipe e.(v_out)) (readPipe e.(v_err)) code))
         end)).

(** What the readers left behind do after the return, when every handle has
    been closed. *)
Definition late_reads {A} (e : session_env) (r : result session_error A) : list act :=
  match r with Err PipesNeverClosed => [Uses (lingering e)] | _ => [] end.

(** [createInSession]: the handles the process inherits are those of its
    attribute list, [std]. *)
Definition createInSession (e : create_env) (std : list handle) : list act * bool :=
  if negb e.(k_text) then ([], false)
  else if negb e.(k_attributes) then ([], false)
  else holding HAttributes
    (doing [Uses (HAttributes :: std)]
       (if negb e.(k_update) then ([], false)
        else doing [Uses (HAttributes :: HPrimaryToken :: HEnvBlock :: std)]
          (if negb e.(k_process) then ([], false)
           else ([Opened HProcess; Opened HThread; Inherits std], true)))).

(** The process, and what follows. *)
Definition create_and_wait (e : session_env) : list act * result session_error SessionOutput :=
  let '(acts, created) := createInSession e.(v_create) child_ends in
  doing (acts ++ close_all child_ends)
    (if negb created then ([], Err CreateFailed)
     else (Closed HThread :: (await e).1 ++ [Closed HProcess], (await e).2)).

(** The pipes and NUL. *)
Definition with_pipes (e : session_env) : list act * result session_error SessionOutput :=
  let '(acts, ok) := inheritablePipe HStdoutR HStdoutW e.(v_stdout) in
  if negb ok then (acts, Err PipeFailed)
  else
    let '(acts', ok') := inheritablePipe HStderrR HStderrW e.(v_stderr) in
    let rest : list act * result session_error SessionOutput :=
      if negb ok' then (acts' ++ [Closed HStdoutW], Err PipeFailed)
      else
        let inner : list act * result session_error SessionOutput :=
          if negb e.(v_nul) then ([Closed HStdoutW; Closed HStderrW], Err NulFailed)
          else doing [Opened HNul] (create_and_wait e) in
        (acts' ++ inner.1 ++ [Closed HStderrR], inner.2) in
    (acts ++ rest.1 ++ [Closed HStdoutR], rest.2).

Definition privileges (l : list privilege_env) : list act := l ≫= (fun p => (enablePrivilege p).1).

(** The tokens and the environment block. *)
Definition as_user (e : session_env) : list act * result session_error SessionOutput :=
  if negb e.(v_token) then ([], Err NoUserToken)
  else holding HUserToken
    (if negb e.(v_duplicate) then ([], Err DuplicateFailed)
     else holding HPrimaryToken
       (if negb e.(v_block) then ([], Err EnvironmentFailed)
        else holding HEnvBlock (with_pipes e))).

(** [RunInSession]. *)
Definition RunInSession (argv : list string) (e : session_env) : list act * result session_error SessionOutput :=
  match argv with
  | [] => ([], Err EmptyArgv)
  | _ :: _ =>
      let '(acts, r) := as_user e in
      doing (privileges e.(v_privileges)) (acts ++ late_reads e r, r)
  end.

Lemma privileges_used l k : well_used [] (privileges l ++ k) = well_used [] k.
Proof.
  unfold privileges. induction l as [|p l IH]; [done|]. cbn [mbind list_bind]. rewrite <-app_assoc.
  destruct p as [[] [] adj]; cbn; exact IH.
Qed.

(** What concerns the command only. *)
Definition of_command (a : act) : bool :=
  match a with Opened HProcess | Exited | Terminated | Inherits _ => true | _ => false end.

Lemma privileges_acts l x : of_command x = true -> x ∉ privileges l.
Proof.
  intros Hx Hin. unfold privileges in Hin. apply list_elem_of_bind in Hin as (p & Hin & _).
  destruct p as [[] [] adj]; cbn in Hin; repeat (apply elem_of_cons in Hin as [->|Hin]; [done|]);
    by apply elem_of_nil in Hin.
Qed.

Definition happened (a : act) (l : list act) : bool := bool_decide (a ∈ l).

(** What holds of every run, as one test. *)
Definition tidy (e : session_env) (run : list act * result session_error SessionOutput) : bool :=
  well_used [] run.1 && implb (happened (Opened HProcess) run.1) (happened Exited run.1 || negb e.(v_wait)) &&
  implb (e.(v_killed) && happened (Opened HProcess) run.1) (happened Terminated run.1) &&
  forallb (fun a => match a with Inherits hs => bool_decide (hs = child_ends) | _ => true end) run.1 &&
  match run.2 with
  | Ok _ => (happened Exited run.1 || negb e.(v_wait)) && negb e.(v_killed) && negb e.(v_cancelled) &&
            bool_decide (lingering e = []) && is_some e.(v_code)
  | Err PipesNeverClosed => negb (bool_decide (lingering e = []))
  | Err _ => true
  end.

Lemma as_user_tidy e : tidy e (as_user e) = true.
Proof.
  destruct e as [pr token dup block [o1 o2] [r1 r2] nul [text attrs upd proc] cancelled killed wait so se code out err].
  destruct token; [|by destruct killed]. destruct dup; [|by destruct killed]. destruct block; [|by destruct killed].
  destruct o1; [|by destruct killed]. destruct o2; [|by destruct killed]. destruct r1; [|by destruct killed].
  destruct r2; [|by destruct killed]. destruct nul; [|by destruct killed]. destruct text; [|by destruct killed]. destruct attrs; [|by destruct killed].
  destruct upd; [|by destruct killed]. destruct proc; [|by destruct killed].
  destruct killed, wait, so, se, cancelled, code; vm_compute; reflexivity.
Qed.

Lemma as_user_output e out : (as_user e).2 = Ok out ->
  out = mkSessionOutput (readPipe e.(v_out)) (readPipe e.(v_err)) out.(so_ExitCode) /\ e.(v_code) = Some out.(so_ExitCode).
Proof.
  unfold as_user, holding, with_pipes, create_and_wait, await, doing. intros H.
  repeat (case_match; cbn [fst snd] in H; try discriminate H; simplify_eq; cbn [fst snd] in *; try done).
Qed.

Lemma late_reads_of_command e (r : result session_error SessionOutput) x : of_command x = true -> x ∉ late_reads e r.
Proof.
  intros Hx. unfold late_reads. destruct r as [|[]]; try apply not_elem_of_nil.
  intros ->%list_elem_of_singleton. discriminate Hx.
Qed.

(** C31: running a command as the logged-on user: on every path through the
    dozen system calls, what RunInSession acquires it releases exactly once
    and uses only in between. Once the command was started its end was waited
    for - after a kill, when the caller gave up first -, unless the wait itself
    fails; it inherits NUL and its two pipe ends and nothing else. Output is
    returned only when no reader is still writing it, and is what the readers
    read up to the end of their pipe or, five seconds later, to the
    cancellation. One path leaves work behind: when a read cannot be cancelled
    the function returns an error and that reader goes on using the pipe whose
    handle was just closed. *)
Theorem RunInSession_safe (argv : list string) (e : session_env) :
  let '(acts, r) := RunInSession argv e in
  (exists own, acts = own ++ late_reads e r /\ well_used [] own = true) /\
  (r = Err PipesNeverClosed -> exists hs, late_reads e r = [Uses hs] /\ hs <> []) /\
  (Opened HProcess ∈ acts -> Exited ∈ acts \/ e.(v_wait) = false) /\
  (e.(v_killed) = true -> Opened HProcess ∈ acts -> Terminated ∈ acts) /\
  (forall hs, Inherits hs ∈ acts -> hs = child_ends) /\
  (forall out, r = Ok out -> (Exited ∈ acts \/ e.(v_wait) = false) /\ e.(v_killed) = false /\
     e.(v_cancelled) = false /\ lingering e = [] /\
     out = mkSessionOutput (readPipe e.(v_out)) (readPipe e.(v_err)) out.(so_ExitCode) /\ e.(v_code) = Some out.(so_ExitCode)).
Proof.
  unfold RunInSession. destruct argv as [|a argv].
  { split_and!; try done; try (intros; by (exfalso; eapply not_elem_of_nil)). by exists []. }
  pose proof (as_user_tidy e) as Ht. pose proof (as_user_output e) as Ho.
  destruct (as_user e) as [acts r]. unfold tidy, happened in Ht. unfold doing. cbn [fst snd] in *.
  apply andb_true_iff in Ht as [Ht Hr]. apply andb_true_iff in Ht as [Ht Hi]. apply andb_true_iff in Ht as [Ht Hk].
  apply andb_true_iff in Ht as [Hw Hp].
  assert (Hin : forall x, of_command x = true -> x ∈ privileges e.(v_privileges) ++ acts ++ late_reads e r <-> x ∈ acts).
  { intros x Hx. rewrite !elem_of_app. pose proof (privileges_acts e.(v_privileges) x Hx).
    pose proof (late_reads_of_command e r x Hx). tauto. }
  assert (Hexit : bool_decide (Exited ∈ acts) || negb e.(v_wait) = true -> Exited ∈ acts \/ e.(v_wait) = false).
  { intros [H|H]%orb_true_iff; [left; by apply bool_decide_eq_true in H|right; by apply negb_true_iff in H]. }
  rewrite !Hin by done. split; [|split]; [|intros ->|split_and!].
  - exists (privileges e.(v_privileges) ++ acts). split; [by rewrite app_assoc|by rewrite privileges_used].
  - exists (lingering e). split; [done|]. apply negb_true_iff in Hr. by apply bool_decide_eq_false in Hr.
  - intros H. rewrite (bool_decide_eq_true_2 _ H) in Hp. by apply Hexit.
  - intros Hv H. rewrite Hv, (bool_decide_eq_true_2 _ H) in Hk. by apply bool_decide_eq_true in Hk.
  - intros hs H. rewrite Hin in H by done. rewrite forallb_forall in Hi.
    specialize (Hi _ (proj1 (list_elem_of_In _ _) H)). by apply bool_decide_eq_true in Hi.
  - intros out ->. repeat (apply andb_true_iff in Hr as [Hr ?]). destruct (Ho out eq_refl) as [? ?].
    apply Hexit in Hr. bool_to_prop. rewrite Hin by done. split_and!; try done. by eapply bool_decide_eq_true.
Qed.

(** A reader that cannot be cancelled: its handle is used after it was closed,
    when Windows may have given it to something else. *)
Example reader_outlives_its_handle :
  let e := mkSessionEnv [] true true true (true, true) (true, true) true (mkCreate true true true true)
             false false true Lingers AtExit (Some 0) [] [] in
  let '(acts, r) := RunInSession ["cmd"] e in
  r = Err PipesNeverClosed /\ well_used [] acts = false /\ last acts = Some (Uses [HStdoutR]) /\
  Closed HStdoutR ∈ acts.
Proof. split_and!; [reflexivity|reflexivity|reflexivity|]. apply (bool_decide_unpack _). vm_compute. exact I. Qed.

(** * The toast: toast_launch.go, toast.go *)

(** [LaunchToast]: whether a console session is active, then as above; the
    process is not waited for. *)
Record toast_env := mkToastEnv {
  o_console : bool;
  o_privileges : list privilege_env;
  o_token : bool;
  o_duplicate : bool;
  o_block : bool;
  o_text : bool;
  o_create : bool
}.

Definition launch (e : toast_env) : list act * bool :=
  if negb e.(o_token) then ([], false)
  else holding HUserToken
    (if negb e.(o_duplicate) then ([], false)
     else holding HPrimaryToken
       (if negb e.(o_block) then ([], false)
        else holding HEnvBlock
          (if negb e.(o_text) then ([], false)
           else doing [Uses [HPrimaryToken; HEnvBlock]]
             (if negb e.(o_create) then ([], false)
              else ([Opened HProcess; Opened HThread; Closed HThread; Closed HProcess], true))))).

Definition LaunchToast (e : toast_env) : list act * bool :=
  if negb e.(o_console) then ([], false) else doing (privileges e.(o_privileges)) (launch e).

Lemma LaunchToast_tidy e : well_used [] (LaunchToast e).1 = true /\
  ((LaunchToast e).2 = true -> e.(o_console) = true /\ e.(o_create) = true).
Proof.
  unfold LaunchToast. destruct (o_console e); [|done]. unfold doing. cbn [negb fst snd]. rewrite privileges_used.
  destruct e as [c pr [] [] [] [] []]; by vm_compute.
Qed.

(** [copyString] on UTF-16 code units: the text with its terminator, cut to the
    size of the field. [None] stands for a text [UTF16FromString] refuses. *)
Definition copyString (dst : list Z) (s : option (list Z)) : list Z :=
  match s with
  | None => dst
  | Some units =>
      let u := units ++ [0] in
      let '(n, dst) :=
        if (length dst <? length u)%nat then (length dst, <[(length dst - 1)%nat := 0]> dst)
        else (length u, dst) in
      take n u ++ drop n dst
  end.

(** The field keeps its size, and holds the text whole and terminated when it
    fits; a text as long as the field or longer fills it to the last unit: the
    terminator written for that case is overwritten by the copy. *)
Lemma copyString_spec dst units : (length dst > 0)%nat ->
  length (copyString dst (Some units)) = length dst /\
  (if (length units <? length dst)%nat then take (S (length units)) (copyString dst (Some units)) = units ++ [0]
   else copyString dst (Some units) = take (length dst) units).
Proof.
  intros Hd. unfold copyString. rewrite length_app. cbn [length].
  destruct (length units <? length dst)%nat eqn:E.
  - apply Nat.ltb_lt in E. replace (length dst <? length units + 1)%nat with false by (symmetry; apply Nat.ltb_ge; lia).
    rewrite length_app, length_take, length_drop, length_app. cbn [length]. split; [lia|].
    rewrite (take_ge (units ++ [0])) by (rewrite length_app; cbn; lia).
    apply take_app_length'. rewrite length_app. cbn. lia.
  - apply Nat.ltb_ge in E. replace (length dst <? length units + 1)%nat with true by (symmetry; apply Nat.ltb_lt; lia).
    rewrite drop_ge by (rewrite length_insert; lia). rewrite app_nil_r, length_take, length_app. cbn [length].
    split; [lia|]. rewrite take_app_le by lia. done.
Qed.

(** * The texts: notify.go, toast_launch.go *)

Record notify_Message := mkNotifyMessage { nm_Title : string; nm_Body : string }.

(** [fmt.Sprintf] with one integer, on a body with at most a [%d]. *)
Fixpoint format_d (body : string) (n : Z) : string * bool :=
  match body with
  | String "%" (String "d" rest) => (itoa n +:+ rest, true)
  | String c rest => let '(s, used) := format_d rest n in (String c s, used)
  | EmptyString => ("", false)
  end.
Definition Sprintf_d (body : string) (n : Z) : string :=
  let '(s, used) := format_d body n in
  if (used : bool) then s else s +:+ "%!(EXTRA int=" +:+ itoa n +:+ ")".

Definition warn_messages (lang : string) : notify_Message :=
  if lang =s "it" then
    mkNotifyMessage "EMLy - Aggiornamento critico"
      ("EMLy verrà chiuso tra %d secondi per installare un aggiornamento critico." +:+ String "010" (String "010"
        "Si prega di salvare il proprio lavoro."))
  else
    mkNotifyMessage "EMLy - Critical Update"
      ("EMLy will close in %d seconds to install a critical update." +:+ String "010" (String "010"
        "Please save your work.")).

(** What the boxes say: [None] without a console session. *)
Definition WarnCriticalUpdate (console : bool) (lang : string) (seconds : Z) : option notify_Message :=
  if negb console then None
  else
    let msg := warn_messages lang in
    Some (mkNotifyMessage msg.(nm_Title)
            (if str_contains msg.(nm_Body) "%" then Sprintf_d msg.(nm_Body) seconds else msg.(nm_Body))).
Definition SendNotifyBox (console : bool) (msg : notify_Message) (seconds : Z) : option notify_Message :=
  if negb console then None else Some (mkNotifyMessage msg.(nm_Title) (Sprintf_d msg.(nm_Body) seconds)).

(** [UpdateCompleteMessage], [SourcesUnreachableMessage]. *)
Definition UpdateCompleteMessage (lang version channel : string) : notify_Message :=
  if lang =s "it" then
    mkNotifyMessage "EMLy aggiornato"
      ("EMLy è stato aggiornato alla versione " +:+ version +:+ " (" +:+
        (if channel =s "stable" then "stabile" else channel) +:+ ").")
  else
    mkNotifyMessage "EMLy Updated" ("EMLy has been updated to version " +:+ version +:+ " (" +:+ channel +:+ ").").
Definition SourcesUnreachableMessage (lang : string) : notify_Message :=
  if lang =s "it" then
    mkNotifyMessage "EMLy Updater - Errore di connessione"
      "EMLy Updater non riesce a contattare il server degli aggiornamenti. Contattare il proprio IT."
  else
    mkNotifyMessage "EMLy Updater - Connection Error"
      "EMLy Updater cannot reach the update server. Please contact your IT department.".

(** The message [apply] sends while it waits for EMLy to be closed. *)
Definition pending_message (lang : string) : notify_Message :=
  if lang =s "it" then
    mkNotifyMessage "EMLy - Aggiornamento sospeso"
      "Un aggiornamento per EMLy è pronto per essere installato. Chiudere l'applicazione per completare l'aggiornamento."
  else
    mkNotifyMessage "EMLy - Update Pending"
      "An update for EMLy is ready to be installed. Please close the application to complete the update.".

(** The countdown warning says its seconds; the waiting message has no place
    for them, and ends in the formatter's complaint. *)
Lemma texts : forall lang,
  (exists a b, (warn_messages lang).(nm_Body) = a +:+ "%d" +:+ b /\ forall n,
     (nm_Body <$> WarnCriticalUpdate true lang n) = Some (a +:+ itoa n +:+ b)) /\
  (nm_Body <$> SendNotifyBox true (pending_message lang) 60) =
     Some ((pending_message lang).(nm_Body) +:+ "%!(EXTRA int=60)").
Proof.
  intros lang. unfold WarnCriticalUpdate, SendNotifyBox, warn_messages, pending_message.
  destruct (lang =s "it"); (split; [|vm_compute; reflexivity]).
  - exists "EMLy verrà chiuso tra ", (" secondi per installare un aggiornamento critico." +:+ String "010" (String "010"
        "Si prega di salvare il proprio lavoro.")). split; [reflexivity|]. intros n. cbn. unfold Sprintf_d. cbn. done.
  - exists "EMLy will close in ", (" seconds to install a critical update." +:+ String "010" (String "010"
        "Please save your work.")). split; [reflexivity|]. intros n. cbn. unfold Sprintf_d. cbn. done.
Qed.

(** * Power: power.go *)

Inductive reboot_error := PrivilegeFailed | NotAllAssigned | ShutdownFailed.

(** [enableShutdownPrivilege]: an adjustment that assigned nothing is an
    error. *)
Definition enableShutdownPrivilege (e : privilege_env) : list act * option reboot_error :=
  if negb e.(p_token) then ([], Some PrivilegeFailed)
  else holding HProcToken
    (if negb e.(p_lookup) then ([], Some PrivilegeFailed)
     else doing [Uses [HProcToken]]
       ([], match e.(p_adjust) with None => Some PrivilegeFailed | Some true => Some NotAllAssigned
            | Some false => None end)).

(** [Reboot]: the countdown handed to Windows, in seconds. *)
Definition Reboot (e : privilege_env) (shuts_down : bool) (delay : duration) : result reboot_error Z :=
  match (enableShutdownPrivilege e).2 with
  | Some err => Err err
  | None => if shuts_down then Ok (wrapu32 (Z.quot delay second)) else Err ShutdownFailed
  end.

(** A reboot that is announced is counted down by the delay asked for: whole
    seconds up to the longest delay a command may ask for survive the
    conversion, and nothing is announced without the privilege. *)
Lemma Reboot_countdown e shuts_down s n : 0 <= s <= 3600 -> Reboot e shuts_down (d_mul s second) = Ok n ->
  n = s /\ e.(p_adjust) = Some false.
Proof.
  intros Hs. unfold Reboot, enableShutdownPrivilege, holding, doing, d_mul.
  rewrite wrap64_id by (unfold in_int64, int64_min, int64_max, second; lia).
  destruct e as [[] [] [[]|]], shuts_down; cbn; try done. intros [= <-]. split; [|done].
  unfold wrapu32, second. rewrite Z.quot_mul by lia. apply Z.mod_small. lia.
Qed.
