(* ===== verification/Native.v ===== *)
(** What Windows allocates for the program and how it is given back: the reads
    of a signature (internal/authenticode/verify.go), of the sessions and of the
    domain controller (internal/machineinfo).

    Trust.v and MachineInfo.v say what these functions return; here they are
    written with what they acquire, use and release, and shown to return the
    same. The decoding of UTF-16 is golang.org/x/sys' and is an argument. *)
From S2P Require Import Prelude MachineInfo Trust Sessions.

(** [UTF16PtrFromString] refuses a string with a NUL in it. *)
Definition has_nul (s : string) : bool := is_some (index_byte s "000"%char).

(** * Signatures: verify.go *)

(** [verifyTrust]: the state the first call allocates is closed by the
    second. *)
Definition verifyTrust (path : string) (answer : option trust_error) : list act * option trust_error :=
  if has_nul path then ([], Some (OtherTrust "invalid argument"))
  else holding HTrustState ([], answer).

Section Signer.
Context {sha : Sha1}.

(** [signerCertInfo]: the size, then the contents. *)
Definition signerCertInfo (s : signature) : list act * result verify_failure unit :=
  doing [Uses [HCryptMsg]]
    match s.(sg_size) with
    | None => ([], Err NoSignerSize)
    | Some n =>
        if n <? sizeof_CertInfo then ([], Err (SignerTooShort n))
        else doing [Uses [HCryptMsg]] ([], if s.(sg_info) then Ok tt else Err NoSigner)
    end.

(** [signerThumbprint]. *)
Definition signer_run (path : string) (s : signature) : list act * result verify_failure string :=
  if has_nul path || negb s.(sg_message) then ([], Err NoSignature)
  else holding HCertStore (holding HCryptMsg
    (let '(acts, info) := signerCertInfo s in
     doing acts
       match info with
       | Err e => ([], Err e)
       | Ok _ =>
           doing [Uses [HCertStore]]
             match s.(sg_signer) with
             | None => ([], Err SignerNotCarried)
             | Some der => holding HCertContext (doing [Uses [HCertContext]] ([], Ok (sha1 der)))
             end
       end)).

(** [Verify]. *)
Definition Verify_run (path : string) (s : signature) (pinned : string) : list act * option verify_failure :=
  if pinned =s "" then ([], Some NotPinned)
  else
    let '(acts, t) := signer_run path s in
    match t with
    | Err e => (acts, Some e)
    | Ok thumbprint =>
        let pinMatches := (slen thumbprint =? slen pinned) && from_opt false (subtleEqual thumbprint pinned) in
        let '(acts', trust) := verifyTrust path s.(sg_trust) in
        (acts ++ acts',
         match trust with
         | Some e =>
             if negb (isHRESULT e certUntrustedRoot && pinMatches) then Some (Distrusted (describeTrustError e))
             else if negb pinMatches then Some (SignedByOther thumbprint) else None
         | None => if negb pinMatches then Some (SignedByOther thumbprint) else None
         end)
    end.

Lemma signer_run_ok path s : has_nul path = false ->
  (signer_run path s).2 = signerThumbprint s /\ forall k, well_used [] ((signer_run path s).1 ++ k) = well_used [] k.
Proof.
  intros Hp. unfold signer_run, signerThumbprint, signerCertInfo. rewrite Hp. cbn [orb].
  destruct s as [[] [n|] [] [der|] t]; cbn [negb sg_message sg_size sg_info sg_signer];
    try (split; [reflexivity|intros k; reflexivity]); destruct (n <? sizeof_CertInfo);
    (split; [reflexivity|intros k; reflexivity]).
Qed.

(** A verification gives the answer of Trust.v and leaks nothing, on every
    path. *)
Theorem Verify_run_ok path s pinned : has_nul path = false ->
  (Verify_run path s pinned).2 = authenticode_Verify s pinned /\ well_used [] (Verify_run path s pinned).1 = true.
Proof.
  intros Hp. unfold Verify_run, authenticode_Verify. destruct (pinned =s ""); [done|].
  destruct (signer_run_ok path s Hp) as [<- Hw]. specialize (Hw []) as Hnil. rewrite app_nil_r in Hnil.
  destruct (signer_run path s) as [acts t]. cbn [fst snd] in *. destruct t as [t|e]; [|done].
  unfold verifyTrust. rewrite Hp. cbn. split; [done|]. rewrite Hw. reflexivity.
Qed.

(** A path with a NUL in it never passes, and nothing is acquired for it. *)
Lemma Verify_run_nul path s pinned : has_nul path = true ->
  (Verify_run path s pinned).1 = [] /\ (Verify_run path s pinned).2 <> None.
Proof.
  intros Hp. unfold Verify_run, signer_run. rewrite Hp. by destruct (pinned =s "").
Qed.
End Signer.

(** * Sessions: loggeduser.go *)

(** What [WTSQuerySessionInformationW] answers: its result, whether it set the
    buffer's address, and the bytes of the buffer. *)
Record wts_answer := mkWtsAnswer { wa_ret : Z; wa_buffer : bool; wa_bytes : list Z }.

(** The bytes a caller of [querySession] gets. *)
Definition wts_reply (a : wts_answer) : option (list Z) :=
  if (a.(wa_ret) =? 0) || negb a.(wa_buffer) then None
  else match a.(wa_bytes) with [] => None | l => Some l end.

(** [querySession] and the caller's [defer release()]. *)
Definition querySession {A} (a : wts_answer) (failed : A) (use : list Z -> A) : list act * A :=
  if (a.(wa_ret) =? 0) || negb a.(wa_buffer) then ([], failed)
  else match a.(wa_bytes) with
       | [] => ([Opened HSessionBuffer; Closed HSessionBuffer], failed)
       | l => holding HSessionBuffer (doing [Uses [HSessionBuffer]] ([], use l))
       end.

Section Sessions.
Variable answer : Z -> Z -> wts_answer.
Variable utf16 : list Z -> string.
Variable filetime_ns : Z -> Z -> duration.

Definition wtsSessionInfoEx : Z := 25.
Definition string_of (id class : Z) : option string := utf16 <$> wts_reply (answer id class).
Definition info_of (id : Z) : option (list Z) := wts_reply (answer id wtsSessionInfoEx).

Definition querySessionString_run (id class : Z) : list act * string :=
  querySession (answer id class) "" (fun buf => trim_space (utf16 buf)).

Definition sessionUser_run (id : Z) : list act * string :=
  let '(acts, u) := querySessionString_run id wtsUserName in
  let user := sanitizeHeaderValue u in
  if user =s "" then (acts, "")
  else
    let '(acts', d) := querySessionString_run id wtsDomainName in
    let domain := sanitizeHeaderValue d in
    (acts ++ acts', if (domain =s "") || equal_fold domain user then user else domain +:+ "\" +:+ user).

(** [querySessionTimes] and [sessionDisconnectTime]. *)
Definition querySessionTimes (id : Z) : list act * option (time * time) :=
  querySession (answer id wtsSessionInfoEx) None (parseSessionInfoEx filetime_ns).
Definition disconnect_run (id : Z) : list act * time :=
  let '(acts, t) := querySessionTimes id in
  (acts, match t with Some (disconnect, _) => disconnect | None => zero_time end).

(** The loop of [InteractiveSession] over the sessions. *)
Fixpoint entries_run (l : list (Z * Z)) : list act * list sessionEntry :=
  match l with
  | [] => ([], [])
  | (id, state) :: l' =>
      let '(acts, user) := sessionUser_run id in
      let '(acts', entries) := entries_run l' in
      (Uses [HSessionList] :: acts ++ acts', mkEntry id state user :: entries)
  end.

(** [InteractiveSession]. *)
Definition Interactive_run (sessions : option (list (Z * Z))) (console : Z) : list act * option (Z * UserSession) :=
  match sessions with
  | None => ([], None)
  | Some l =>
      holding HSessionList
        (let '(acts, entries) := entries_run l in
         doing acts
           match pickSession entries console with
           | None => ([], None)
           | Some (picked, state) =>
               if bool_decide (state = SessionDisconnected) then
                 let '(acts', at_) := disconnect_run picked.(se_ID) in
                 (acts', Some (picked.(se_ID), mkUserSession picked.(se_User) state at_))
               else ([], Some (picked.(se_ID), mkUserSession picked.(se_User) state zero_time))
           end)
  end.

(** With only the list of sessions held, a run neither keeps nor misuses
    anything. *)
Definition neat (acts : list act) : Prop :=
  forall k, well_used [HSessionList] (acts ++ k) = well_used [HSessionList] k.

Lemma neat_app a b : neat a -> neat b -> neat (a ++ b).
Proof. intros Ha Hb k. by rewrite <-app_assoc, Ha, Hb. Qed.
Lemma neat_nil : neat [].
Proof. done. Qed.

Lemma querySession_ok {A} a (failed : A) use :
  (querySession a failed use).2 = match wts_reply a with Some l => use l | None => failed end /\
  neat (querySession a failed use).1.
Proof.
  unfold querySession, wts_reply. destruct a as [ret buffer bytes]. cbn.
  destruct ((ret =? 0) || negb buffer); [by split|]. destruct bytes; by split.
Qed.

Lemma sessionUser_run_ok id :
  (sessionUser_run id).2 = sessionUser string_of id /\ neat (sessionUser_run id).1.
Proof.
  unfold sessionUser_run, sessionUser, querySessionString_run, querySessionString, string_of.
  destruct (querySession_ok (answer id wtsUserName) "" (fun buf => trim_space (utf16 buf))) as [E1 N1].
  destruct (querySession_ok (answer id wtsDomainName) "" (fun buf => trim_space (utf16 buf))) as [E2 N2].
  destruct (querySession _ _ _) as [a1 u]; destruct (querySession _ _ _) as [a2 d]. cbn [fst snd] in *. subst.
  destruct (wts_reply (answer id wtsUserName)), (wts_reply (answer id wtsDomainName)); cbn [fmap option_fmap option_map];
    (destruct (_ =s ""); [by split|]); split; try done; by apply neat_app.
Qed.

Lemma entries_run_ok l :
  (entries_run l).2 = (fun s => mkEntry s.1 s.2 (sessionUser string_of s.1)) <$> l /\ neat (entries_run l).1.
Proof.
  induction l as [|[id state] l [E N]]; [done|]. cbn [entries_run].
  destruct (sessionUser_run_ok id) as [Eu Nu]. destruct (sessionUser_run id) as [acts user].
  destruct (entries_run l) as [acts' entries]. cbn [fst snd] in *. subst. split; [done|].
  intros k. cbn. rewrite <-app_assoc. by rewrite Nu, N.
Qed.

(** The interactive session is that of MachineInfo.v, and every buffer the
    enumeration and the queries hand out is freed once, after its last use. *)
Theorem Interactive_run_ok sessions console :
  (Interactive_run sessions console).2 = InteractiveSession filetime_ns string_of info_of sessions console /\
  well_used [] (Interactive_run sessions console).1 = true.
Proof.
  unfold Interactive_run, InteractiveSession. destruct sessions as [l|]; [|done].
  destruct (entries_run_ok l) as [E N]. destruct (entries_run l) as [acts entries]. cbn [fst snd] in *. subst.
  unfold holding, doing. cbn [fst snd mbind option_bind well_used]. rewrite bool_decide_eq_false_2 by apply not_elem_of_nil.
  cbn [negb andb]. rewrite <-app_assoc, N.
  destruct (pickSession _ console) as [[picked state]|]; [|by split].
  destruct (bool_decide (state = SessionDisconnected)); [|by split].
  unfold disconnect_run, querySessionTimes, sessionDisconnectTime, info_of.
  destruct (querySession_ok (answer (se_ID picked) wtsSessionInfoEx) None (parseSessionInfoEx filetime_ns)) as [Et Nt].
  destruct (querySession _ _ _) as [acts' t]. cbn [fst snd] in *. subst. split; [|by rewrite Nt].
  by destruct (wts_reply _).
Qed.
End Sessions.

(** * The domain controller: domaincontroller.go *)

(** The fields of DOMAIN_CONTROLLER_INFOW that are read. *)
Record dc_answer := mkDcAnswer { da_Name : string; da_Site : string; da_Address : string; da_Type : Z }.

Inductive dc_error := InvalidDomain | DsGetDcNameFailed (code : Z).

Definition dsInetAddress : Z := 1.

(** [NearestDomainController]. *)
Definition NearestDomainController (domain : string) (answer : result Z dc_answer) :
    list act * result dc_error DomainControllerInfo :=
  if negb (domain =s "") && has_nul domain then ([], Err InvalidDomain)
  else match answer with
       | Err code => ([], Err (DsGetDcNameFailed code))
       | Ok a =>
           holding HDcInfo (doing [Uses [HDcInfo]]
             ([], Ok (mkDC (trimUNCPrefix a.(da_Name)) a.(da_Site) (trimUNCPrefix a.(da_Address))
                        (a.(da_Type) =? dsInetAddress))))
       end.

Lemma NearestDomainController_tidy domain answer :
  well_used [] (NearestDomainController domain answer).1 = true.
Proof. unfold NearestDomainController. destruct (_ && _); [done|]. by destruct answer. Qed.
