(* ===== verification/Toast.v ===== *)
(** internal/toast/toast.go: [Show] and [extractIcons]. The outcome of each
    call of Windows is given; the message loop runs on the list of its turns,
    each on the thread the scheduler picked. *)
From S2P Require Import Prelude Sessions.

(** * What Windows answers *)

(** A turn of the message loop: the thread [GetMessage] is called on, what it
    returns when no quit message is waiting, and the message it fetches. *)
Record turn := mkTurn { tn_thread : Z; tn_ret : Z; tn_message : Z }.

Record show_env := mkShowEnv {
  sh_register : bool;
  sh_window : bool;
  sh_thread : Z;
  sh_path : bool;
  sh_extract : bool;
  sh_small : bool;
  sh_large : bool;
  sh_add : bool;
  sh_modify : bool;
  sh_turns : list turn
}.

(** The part of NOTIFYICONDATAW that is set. *)
Record notifyIconDataW := mkIconData {
  nd_uFlags : Z;
  nd_icon : bool;
  nd_szTip : list Z;
  nd_szInfo : list Z;
  nd_szInfoTitle : list Z;
  nd_dwInfoFlags : Z;
  nd_balloon : bool
}.

Inductive show_error := RegisterFailed | WindowFailed | AddFailed | ModifyFailed | IconsFailed.

Definition wmDestroy : Z := 0x2.
Definition wmClose : Z := 0x10.
Definition wmTimer : Z := 0x113.
Definition nifIcon : Z := 0x2.
Definition nifTip : Z := 0x4.
Definition nifInfo : Z := 0x10.
Definition niifUser : Z := 0x4.
Definition niifLarge : Z := 0x20.

(** * The operations *)

(** [extractIcons]: the small and the large icon, and whether it failed. *)
Definition extractIcons (e : show_env) : bool * bool * bool :=
  if negb e.(sh_path) then (false, false, true)
  else if negb e.(sh_extract) then (false, false, true)
  else (e.(sh_small), e.(sh_large), false).

(** The window procedure: whether it posts the quit message. *)
Definition wndProc (msg : Z) : bool := (msg =? wmTimer) || (msg =? wmClose) || (msg =? wmDestroy).

Definition wrap32 (z : Z) : Z := (z + 2 ^ 31) mod 2 ^ 32 - 2 ^ 31.

(** The message loop, [quit] saying that the quit message is waiting: whether
    it ended. A window's messages, its timer's among them, are fetched only on
    the thread that created it; on any other thread [GetMessage] waits. *)
Fixpoint pump (owner : Z) (quit : bool) (l : list turn) : bool :=
  match l with
  | [] => false
  | t :: l' =>
      if negb (t.(tn_thread) =? owner) then false
      else
        let ret := if quit then 0 else t.(tn_ret) in
        if wrap32 ret <=? 0 then true
        else pump owner (wndProc t.(tn_message)) l'
  end.

(** The fields as [NIM_ADD] and as [NIM_MODIFY] are called with them; [body]
    and [title] are UTF-16 code units, [None] where they hold a NUL. *)
Definition add_data (small : bool) (title : option (list Z)) : notifyIconDataW :=
  mkIconData (if small then Z.lor nifTip nifIcon else nifTip) small
    (copyString (replicate 128 0) title) (replicate 256 0) (replicate 64 0) 0 false.
Definition modify_data (nid : notifyIconDataW) (large : bool) (title body : option (list Z)) : notifyIconDataW :=
  mkIconData nifInfo nid.(nd_icon) nid.(nd_szTip) (copyString nid.(nd_szInfo) body)
    (copyString nid.(nd_szInfoTitle) title) (if large then Z.lor niifLarge niifUser else niifLarge) large.

(** What a run did: the handles, the calls of Shell_NotifyIcon, and the error
    returned - [None] while it has not returned. *)
Record shown := mkShown {
  sn_acts : list act;
  sn_calls : list notifyIconDataW;
  sn_result : option (option show_error)
}.

Definition returning (r : option show_error) : shown := mkShown [] [] (Some r).
Definition calling (nid : notifyIconDataW) (rest : shown) : shown :=
  mkShown rest.(sn_acts) (nid :: rest.(sn_calls)) rest.(sn_result).
(** [defer] around the rest of the function: it runs when that returns. *)
Definition deferring (h : handle) (rest : shown) : shown :=
  mkShown (Opened h :: rest.(sn_acts) ++ (if is_some rest.(sn_result) then [Closed h] else []))
    rest.(sn_calls) rest.(sn_result).
Definition deferring_if (held : bool) (h : handle) (rest : shown) : shown :=
  if held then deferring h rest else rest.

(** [Show]. *)
Definition Show (title body : option (list Z)) (e : show_env) : shown :=
  if negb e.(sh_register) then returning (Some RegisterFailed)
  else deferring HWindowClass
    (if negb e.(sh_window) then returning (Some WindowFailed)
     else deferring HWindow
       (let '(small, large, failed) := extractIcons e in
        deferring_if small HSmallIcon (deferring_if large HLargeIcon
          (let nid := add_data small title in
           calling nid
             (if negb e.(sh_add) then returning (Some AddFailed)
              else deferring HTrayIcon
                (let nid' := modify_data nid large title body in
                 calling nid'
                   (if negb e.(sh_modify) then returning (Some ModifyFailed)
                    else if pump e.(sh_thread) false e.(sh_turns)
                         then returning (if failed then Some IconsFailed else None)
                         else mkShown [Uses [HWindow]] [] None))))))).

(** * What is shown, and given back *)

(** A turn that ends the loop whatever came before it. *)
Lemma pump_ends owner quit l : Forall (fun t => t.(tn_thread) = owner) l -> (length l > 0)%nat ->
  (quit = true \/ exists pre t post, l = pre ++ t :: post /\
     (wrap32 t.(tn_ret) <= 0 \/ (wndProc t.(tn_message) = true /\ post <> []))) ->
  pump owner quit l = true.
Proof.
  revert quit. induction l as [|t l IH]; intros quit Ho Hl Hq; [cbn in Hl; lia|].
  apply Forall_cons in Ho as [Ht Ho]. cbn. rewrite Ht, Z.eqb_refl. cbn.
  destruct quit; [done|]. destruct (wrap32 (tn_ret t) <=? 0) eqn:E; [done|]. apply Z.leb_gt in E.
  destruct Hq as [Hq|(pre & t' & post & Heq & Hq)]; [done|].
  destruct pre as [|t0 pre]; injection Heq as -> Heq.
  - destruct Hq as [Hq|[Hq Hp]]; [lia|]. subst post. rewrite Hq. apply IH; [done| |by left].
    destruct l; [done|cbn; lia].
  - subst l. apply IH; [done|rewrite length_app; cbn; lia|]. right. by exists pre, t', post.
Qed.

Definition window_error (r : show_error) : bool :=
  match r with RegisterFailed | WindowFailed => true | _ => false end.

Lemma Show_run title body e :
  let s := Show title body e in
  let '(small, large, failed) := extractIcons e in
  (is_some s.(sn_result) = true -> well_used [] s.(sn_acts) = true) /\
  match s.(sn_result) with
  | Some (Some IconsFailed) => failed = true /\ length s.(sn_calls) = 2%nat
  | Some None => failed = false /\ length s.(sn_calls) = 2%nat
  | Some (Some r) => s.(sn_calls) <> [] -> window_error r = false
  | None => pump e.(sh_thread) false e.(sh_turns) = false
  end /\
  s.(sn_calls) `prefix_of` [add_data small title; modify_data (add_data small title) large title body].
Proof.
  unfold Show, extractIcons. destruct e as [reg win th path extract small large add modify turns].
  cbn [sh_register sh_window sh_thread sh_path sh_extract sh_small sh_large sh_add sh_modify sh_turns].
  destruct (pump th false turns), reg, win, path, extract, small, large, add, modify;
    (split; [intros H; first [reflexivity|discriminate H]|split; [cbn; try done; by split|]]);
    cbn [negb returning deferring deferring_if calling sn_calls];
    first [by exists []|by eexists [_]|by eexists [_; _]].
Qed.

(** A call that returns has given back what it acquired. While the loop runs
    on the thread that made the window, its timer ends it: the call returns,
    its error at most that of the icons once the balloon has been shown. *)
Theorem Show_returns title body e :
  e.(sh_register) = true -> e.(sh_window) = true -> e.(sh_add) = true -> e.(sh_modify) = true ->
  Forall (fun t => t.(tn_thread) = e.(sh_thread)) e.(sh_turns) ->
  (exists pre t post, e.(sh_turns) = pre ++ t :: post /\ post <> [] /\ t.(tn_message) = wmTimer) ->
  let s := Show title body e in
  let '(small, large, failed) := extractIcons e in
  s.(sn_result) = Some (if failed then Some IconsFailed else None) /\ well_used [] s.(sn_acts) = true /\
  s.(sn_calls) = [add_data small title; modify_data (add_data small title) large title body].
Proof.
  intros H1 H2 H3 H4 Ho (pre & t & post & Ht & Hp & Hm).
  assert (Hpump : pump e.(sh_thread) false e.(sh_turns) = true).
  { apply pump_ends; [done|rewrite Ht, length_app; cbn; lia|]. right. exists pre, t, post. split; [done|].
    right. by rewrite Hm. }
  pose proof (Show_run title body e) as H. unfold Show in *. rewrite H1, H2, H3, H4, Hpump in *. cbn [negb] in *.
  destruct (extractIcons e) as [[small large] failed]. destruct H as (Hw & _).
  split_and!; [destruct small, large; reflexivity|apply Hw; destruct small, large; reflexivity|].
  by destruct small, large.
Qed.

(** A fetch on another thread than the window's never returns: nothing binds
    the goroutine to its thread, and a call whose first fetch lands elsewhere
    leaves the icon, the window and its class behind, whatever happens
    later. *)
Lemma Show_strands title body e t l :
  e.(sh_register) = true -> e.(sh_window) = true -> e.(sh_add) = true -> e.(sh_modify) = true ->
  e.(sh_turns) = t :: l -> t.(tn_thread) <> e.(sh_thread) ->
  let s := Show title body e in
  s.(sn_result) = None /\ Forall (fun h => Opened h ∈ s.(sn_acts)) [HWindowClass; HWindow; HTrayIcon] /\
  Forall (fun h => Closed h ∉ s.(sn_acts)) [HWindowClass; HWindow; HTrayIcon].
Proof.
  intros H1 H2 H3 H4 Ht Hn. unfold Show. rewrite H1, H2, H3, H4, Ht. cbn [pump].
  apply Z.eqb_neq in Hn. rewrite Hn. cbn [negb].
  destruct (extractIcons e) as [[[] []] failed]; cbn; split_and!; try done;
    repeat constructor; set_solver.
Qed.
