(* ===== verification/Logging.v ===== *)
(** The log: internal/logging/logging.go.

    A [Logger] writes lines to a file - and to a second one beside the
    executable, and to the console - from a minimum level on, and mirrors
    events to the Windows Event Log. The rolling files are the lumberjack
    library's: only the limits each is built with are kept. The writer behind
    the lock is swapped whole, so a line goes to the old files or to the new
    ones. *)
From S2P Require Import Prelude.

Record FileSettings := mkFileSettings { MaxSizeMB : Z; MaxBackups : Z; Compress : bool }.
#[export] Instance FileSettings_eq_dec : EqDecision FileSettings.
Proof. solve_decision. Defined.

Definition DefaultFileSettings : FileSettings := mkFileSettings 2 5 true.
Definition EventSourceName : string := "EMLyUpdater".

(** slog's levels. *)
Definition LevelDebug : Z := -4.
Definition LevelInfo : Z := 0.
Definition LevelWarn : Z := 4.
Definition LevelError : Z := 8.

(** One rolling file. *)
Record rolling := mkRolling { ro_Filename : string; ro_Settings : FileSettings }.

(** [lg_closed] counts the writers closed, in order. *)
Record Logger := mkLogger {
  lg_level : Z;
  lg_files : list rolling;
  lg_closed : list rolling;
  lg_logDir : string;
  lg_exePath : string;
  lg_console : bool;
  lg_settings : FileSettings;
  lg_ev : bool;
  lg_evEnabled : bool
}.

(** [buildFiles]. *)
Definition buildFiles (logDir exePath : string) (s : FileSettings) : list rolling :=
  mkRolling (logDir +:+ "\updater.log") s ::
  if negb (exePath =s "")
  then [mkRolling exePath (mkFileSettings s.(MaxSizeMB) (Z.min s.(MaxBackups) 3) s.(Compress))] else [].

(** [New]. *)
Definition logging_New (logDir exeLogPath : string) (console : bool) : Logger :=
  mkLogger (if console then LevelDebug else LevelInfo) (buildFiles logDir exeLogPath DefaultFileSettings) []
    logDir exeLogPath console DefaultFileSettings false true.

(** [Reconfigure]. *)
Definition sane (s : FileSettings) : FileSettings :=
  mkFileSettings (if s.(MaxSizeMB) <? 1 then DefaultFileSettings.(MaxSizeMB) else s.(MaxSizeMB))
    (if s.(MaxBackups) <? 0 then 0 else s.(MaxBackups)) s.(Compress).
Definition Reconfigure (s : FileSettings) (l : Logger) : Logger :=
  let s := sane s in
  if bool_decide (s = l.(lg_settings)) then l
  else mkLogger l.(lg_level) (buildFiles l.(lg_logDir) l.(lg_exePath) s) (l.(lg_closed) ++ l.(lg_files))
         l.(lg_logDir) l.(lg_exePath) l.(lg_console) s l.(lg_ev) l.(lg_evEnabled).

(** [ParseLevel], [SetLevel]. *)
Definition ParseLevel (name : string) : option Z :=
  let n := to_lower (trim_space name) in
  if n =s "debug" then Some LevelDebug
  else if n =s "info" then Some LevelInfo
  else if (n =s "warn") || (n =s "warning") then Some LevelWarn
  else if n =s "error" then Some LevelError
  else None.
Definition SetLevel (name : string) (l : Logger) : bool * Logger :=
  match ParseLevel name with
  | None => (false, l)
  | Some lv => (true, mkLogger lv l.(lg_files) l.(lg_closed) l.(lg_logDir) l.(lg_exePath) l.(lg_console)
                        l.(lg_settings) l.(lg_ev) l.(lg_evEnabled))
  end.

(** [Level]: slog's name of the level, in lower case. *)
Definition Level (l : Logger) : string :=
  if l.(lg_level) =? LevelDebug then "debug" else if l.(lg_level) =? LevelInfo then "info"
  else if l.(lg_level) =? LevelWarn then "warn" else "error".

(** [SetEventLog], [AttachEventLog], [Close]. *)
Definition with_ev (ev enabled : bool) (l : Logger) : Logger :=
  mkLogger l.(lg_level) l.(lg_files) l.(lg_closed) l.(lg_logDir) l.(lg_exePath) l.(lg_console)
    l.(lg_settings) ev enabled.
Definition SetEventLog (enabled : bool) (l : Logger) : Logger := with_ev l.(lg_ev) enabled l.
Definition AttachEventLog (opens : bool) (l : Logger) : Logger := if opens then with_ev true l.(lg_evEnabled) l else l.
Definition Logger_Close (l : Logger) : Logger := with_ev false l.(lg_evEnabled) l.

(** [alwaysMirrored], [mirror]. *)
Definition alwaysMirrored (id : Z) : bool := (900 <=? id) && (id <=? 904).
Definition mirror (id : Z) (l : Logger) : bool := l.(lg_ev) && (l.(lg_evEnabled) || alwaysMirrored id).

(** [format]: pairs, an odd last key left out. *)
Fixpoint format_pairs (first : bool) (kv : list string) : string :=
  match kv with
  | k :: v :: kv' => (if first then "" else ", ") +:+ k +:+ "=" +:+ v +:+ format_pairs false kv'
  | _ => ""
  end.
Definition format (msg : string) (kv : list string) : string :=
  match kv with [] => msg | _ => msg +:+ " (" +:+ format_pairs true kv +:+ ")" end.

(** Where a line goes: the files, the console, and the Event Log's text. *)
Record emitted := mkEmitted { em_files : list string; em_console : bool; em_event : option (Z * string) }.

Definition line (level : Z) (l : Logger) : emitted :=
  if level <? l.(lg_level) then mkEmitted [] false None
  else mkEmitted (ro_Filename <$> l.(lg_files)) l.(lg_console) None.
(** [InfoEvent], [WarnEvent], [ErrorEvent]. *)
Definition event_line (level id : Z) (msg : string) (kv : list string) (l : Logger) : emitted :=
  mkEmitted (line level l).(em_files) (line level l).(em_console)
    (if mirror id l then Some (id, format msg kv) else None).

(** * What any configuration leaves *)

(** The calls that change a logger at run time. *)
Inductive log_call := CReconfigure (s : FileSettings) | CSetLevel (name : string) | CSetEventLog (enabled : bool)
| CAttach (opens : bool).
Definition log_step (l : Logger) (c : log_call) : Logger :=
  match c with
  | CReconfigure s => Reconfigure s l
  | CSetLevel name => (SetLevel name l).2
  | CSetEventLog enabled => SetEventLog enabled l
  | CAttach opens => AttachEventLog opens l
  end.

Record log_ok (l : Logger) : Prop := {
  lo_level : l.(lg_level) <= LevelError;
  lo_files : l.(lg_files) = buildFiles l.(lg_logDir) l.(lg_exePath) l.(lg_settings);
  lo_size : 1 <= l.(lg_settings).(MaxSizeMB);
  lo_backups : 0 <= l.(lg_settings).(MaxBackups)
}.

Lemma ParseLevel_known name lv : ParseLevel name = Some lv -> lv <= LevelError.
Proof. unfold ParseLevel, LevelDebug, LevelInfo, LevelWarn, LevelError. intros H. repeat case_match; simplify_eq; lia. Qed.

Lemma log_step_ok l c : log_ok l -> log_ok (log_step l c) /\
  (log_step l c).(lg_logDir) = l.(lg_logDir) /\ (log_step l c).(lg_exePath) = l.(lg_exePath).
Proof.
  intros [H1 H2 H3 H4]. destruct c as [s|name|enabled|opens]; cbn [log_step].
  - unfold Reconfigure. case_bool_decide; [done|]. split; [|done]. split; cbn; try done.
    + case_match; [lia|by apply Z.ltb_ge].
    + case_match; [lia|by apply Z.ltb_ge].
  - unfold SetLevel. destruct (ParseLevel name) as [lv|] eqn:E; [|done].
    split; [|done]. split; try done. by eapply ParseLevel_known.
  - by split.
  - destruct opens; by split.
Qed.

Lemma log_run_ok calls : forall l, log_ok l ->
  let l' := foldl log_step l calls in
  log_ok l' /\ l'.(lg_logDir) = l.(lg_logDir) /\ l'.(lg_exePath) = l.(lg_exePath).
Proof.
  induction calls as [|c calls IH]; intros l Hl; [done|]. cbn [foldl].
  destruct (log_step_ok l c Hl) as (Hok & <- & <-). by apply IH.
Qed.

(** no document can silence the log: after any sequence of settings, an
    error still reaches the log file, every file keeps a limit of at least a
    megabyte and a number of backups that is none below zero - at most three
    beside the executable -, and the events that tell of the remote
    configuration itself reach the Event Log whenever it is attached. *)
Theorem log_never_silenced (logDir exePath : string) (console : bool) (calls : list log_call) (id : Z)
    (msg : string) (kv : list string) :
  let l := foldl log_step (logging_New logDir exePath console) calls in
  (logDir +:+ "\updater.log") ∈ (event_line LevelError id msg kv l).(em_files) /\
  Forall (fun r => 1 <= r.(ro_Settings).(MaxSizeMB) /\ 0 <= r.(ro_Settings).(MaxBackups) /\
    (r.(ro_Filename) = logDir +:+ "\updater.log" \/ r.(ro_Settings).(MaxBackups) <= 3)) l.(lg_files) /\
  (900 <= id <= 904 -> (event_line LevelError id msg kv l).(em_event) =
     if l.(lg_ev) then Some (id, format msg kv) else None).
Proof.
  cbn zeta. assert (Hnew : log_ok (logging_New logDir exePath console)) by (split; by destruct console).
  destruct (log_run_ok calls _ Hnew) as ([Hlevel Hfiles Hsize Hbackups] & Hdir & Hexe).
  set (l := foldl _ _ _) in *. cbn [lg_logDir lg_exePath logging_New] in Hdir, Hexe.
  rewrite Hdir, Hexe in Hfiles. split_and!.
  - unfold event_line, line. replace (LevelError <? lg_level l) with false by (symmetry; by apply Z.ltb_ge).
    cbn [em_files]. rewrite Hfiles. apply list_elem_of_here.
  - rewrite Hfiles. unfold buildFiles. constructor; [by split_and!; [| |left]|].
    destruct (negb _); constructor; [|done]. cbn. split_and!; [done|lia|right; lia].
  - intros [H1 H2]. unfold event_line, mirror, alwaysMirrored. cbn [em_event].
    apply Z.leb_le in H1, H2. rewrite H1, H2, orb_true_r. by destruct (lg_ev l).
Qed.

(** Settings applied twice change nothing the second time; when they change
    something, the old files are closed, once, in their order. *)
Lemma Reconfigure_once s l : log_ok l -> Reconfigure s (Reconfigure s l) = Reconfigure s l /\
  (Reconfigure s l = l \/ (Reconfigure s l).(lg_closed) = l.(lg_closed) ++ l.(lg_files)).
Proof.
  intros _. unfold Reconfigure at 2 3 4 5. case_bool_decide as H; unfold Reconfigure.
  - rewrite bool_decide_true by done. auto.
  - cbn [lg_settings]. rewrite bool_decide_true by done. auto.
Qed.

(** A level that was set reads back as one of the names. *)
Lemma SetLevel_Level name l l' : SetLevel name l = (true, l') ->
  Level l' ∈ ["debug"; "info"; "warn"; "error"] /\ ParseLevel (Level l') = ParseLevel name.
Proof.
  unfold SetLevel. destruct (ParseLevel name) as [lv|] eqn:E; [|done]. intros [= <-].
  unfold Level. cbn [lg_level]. unfold ParseLevel in E.
  repeat (case_match; simplify_eq; try (split; [set_solver|vm_compute; reflexivity])); done.
Qed.

(** * Lines written while the files are replaced *)

(** [swapWriter]: the target lines go to, the closers [swap] handed out and not
    yet called, the targets closed, and where each line went. Targets are
    numbered as [buildFiles] makes them. *)
Record swapWriter := mkSwap {
  sw_target : option nat;
  sw_made : nat;
  sw_retired : list nat;
  sw_closed : list nat;
  sw_lines : list (option nat * bool)
}.
Definition no_target_yet : swapWriter := mkSwap None 0 [] [] [].

(** [Write]: the whole write happens under the read lock; whether its target
    was open is kept. *)
Definition Write (s : swapWriter) : swapWriter :=
  mkSwap s.(sw_target) s.(sw_made) s.(sw_retired) s.(sw_closed)
    (s.(sw_lines) ++ [(s.(sw_target), match s.(sw_target) with
                                      | None => true
                                      | Some t => negb (bool_decide (t ∈ s.(sw_closed))) end)]).

(** [swap], under the lock. *)
Definition swap (s : swapWriter) : swapWriter :=
  mkSwap (Some s.(sw_made)) (S s.(sw_made))
    (s.(sw_retired) ++ match s.(sw_target) with Some t => [t] | None => [] end)
    s.(sw_closed) s.(sw_lines).

(** Any goroutine writes, one replaces the files, and the closers [Reconfigure]
    was handed run later, in whatever order. *)
Inductive swap_step : swapWriter -> swapWriter -> Prop :=
| StepWrite s : swap_step s (Write s)
| StepSwap s : swap_step s (swap s)
| StepClose s l1 t l2 : s.(sw_retired) = l1 ++ t :: l2 ->
    swap_step s (mkSwap s.(sw_target) s.(sw_made) (l1 ++ l2) (t :: s.(sw_closed)) s.(sw_lines)).

Definition swap_ok (s : swapWriter) : Prop :=
  (forall t, s.(sw_target) = Some t -> (t < s.(sw_made))%nat /\ t ∉ s.(sw_retired) /\ t ∉ s.(sw_closed)) /\
  Forall (fun t => (t < s.(sw_made))%nat) (s.(sw_retired) ++ s.(sw_closed)) /\
  Forall (fun l => l.2 = true) s.(sw_lines).

Lemma swap_step_ok s s' : swap_step s s' -> swap_ok s -> swap_ok s'.
Proof.
  intros Hs (Ht & Hm & Hl). destruct Hs as [s|s|s l1 t l2 E].
  - split_and!; [done|done|]. apply Forall_app. split; [done|]. constructor; [|done]. cbn.
    destruct (sw_target s) as [t|]; [|done]. destruct (Ht t eq_refl) as (_ & _ & Hc). by rewrite bool_decide_eq_false_2.
  - assert (Hold : forall t, s.(sw_target) = Some t -> (t < sw_made s)%nat) by (intros t E; by apply Ht).
    rewrite Forall_app in Hm. destruct Hm as [Hm1 Hm2]. rewrite Forall_forall in Hm1, Hm2. split_and!; [|cbn|done].
    + intros t [= <-]. cbn. split_and!; [lia| |]; intros Hin.
      * apply elem_of_app in Hin as [Hin%Hm1|Hin]; [lia|]. destruct (sw_target s) as [t|]; [|by apply elem_of_nil in Hin].
        apply list_elem_of_singleton in Hin as <-. specialize (Hold _ eq_refl). lia.
      * apply Hm2 in Hin. lia.
    + apply Forall_forall. intros t Hin. apply elem_of_app in Hin as [Hin|Hin%Hm2]; [|lia].
      apply elem_of_app in Hin as [Hin%Hm1|Hin]; [lia|]. destruct (sw_target s) as [t'|]; [|by apply elem_of_nil in Hin].
      apply list_elem_of_singleton in Hin as ->. specialize (Hold _ eq_refl). lia.
  - rewrite E in *. split_and!; [|cbn|done].
    + cbn. intros t' Et. destruct (Ht t' Et) as (H1 & H2 & H3). split_and!; [done|set_solver|set_solver].
    + rewrite Forall_app in Hm |- *. rewrite Forall_app, Forall_cons in Hm. rewrite Forall_app, Forall_cons. tauto.
Qed.

(** However writes, replacements and closings interleave, no line goes to a
    file already closed. *)
Theorem lines_reach_open_files s : rtc swap_step no_target_yet s ->
  Forall (fun l => l.2 = true) s.(sw_lines).
Proof.
  intros H. assert (Hok : swap_ok s); [|apply Hok]. revert s H.
  apply (rtc_ind_r swap_ok); [|intros s1 s2 _ Hs Hok; by eapply swap_step_ok].
  split_and!; [done|constructor|constructor].
Qed.
