(* ===== verification/Admin.v ===== *)
(** The command line of the updater: main.go, and the commands the updater
    starts itself with (clientpower.go, toast_launch.go).

    The service control manager is the registration it holds of the service,
    and how each request to it ends. What is printed is left out. *)
From S2P Require Import Prelude Trust Logging.

(** * Which command: [main] *)

Inductive command := RunService | CmdInstall | CmdUninstall | CmdStart | CmdStop | CmdRun
| CmdShowToast (args : list string) | CmdRestartService.

(** [None]: the usage, with exit code 2. *)
Definition main (inService : bool) (args : list string) : option command :=
  if inService then Some RunService
  else match args with
       | [] => None
       | name :: rest =>
           if name =s "install" then Some CmdInstall
           else if name =s "uninstall" then Some CmdUninstall
           else if name =s "start" then Some CmdStart
           else if name =s "stop" then Some CmdStop
           else if name =s "run" then Some CmdRun
           else if name =s "show-toast" then Some (CmdShowToast rest)
           else if name =s "restart-service" then Some CmdRestartService
           else None
       end.

(** ** The commands the updater gives itself *)

(** [restart] of internal/service/clientpower.go: the path of the executable,
    then how the detached process starts and is released. *)
Definition restart_argv (exe : string) : list string := [exe; "restart-service"].
Definition restart (exe : result string string) (start : list string -> option string) (release : option string) :
    option string :=
  match exe with
  | Err e => Some e
  | Ok path => match start (restart_argv path) with Some e => Some e | None => release end
  end.

(** The command line of [LaunchToast] (internal/notify/toast_launch.go). *)
Definition toast_argv (updaterExePath emlyExePath title body : string) : list string :=
  [updaterExePath; "show-toast"; "--exe"; emlyExePath; "--title"; title; "--body"; body].

Record toast_flags := mkToastFlags { tf_exe : string; tf_title : string; tf_body : string }.

Definition set_flag (name value : string) (f : toast_flags) : option toast_flags :=
  if name =s "exe" then Some (mkToastFlags value f.(tf_title) f.(tf_body))
  else if name =s "title" then Some (mkToastFlags f.(tf_exe) value f.(tf_body))
  else if name =s "body" then Some (mkToastFlags f.(tf_exe) f.(tf_title) value)
  else None.

(** [flag.FlagSet.Parse] on three string flags; [None] is an error. It stops at
    the first argument that is no flag, and at [--]. *)
Fixpoint parse_flags (f : toast_flags) (args : list string) : option toast_flags :=
  match args with
  | [] => Some f
  | s :: rest =>
      if (slen s <? 2) || negb (has_prefix s "-") then Some f
      else if s =s "--" then Some f
      else
        let name := drop_str (if has_prefix s "--" then 2 else 1) s in
        if (name =s "") || has_prefix name "-" || has_prefix name "=" then None
        else match cut_byte "=" name with
             | (name, value, true) => f ← set_flag name value f; parse_flags f rest
             | (name, _, false) =>
                 match rest with
                 | [] => None
                 | value :: rest => f ← set_flag name value f; parse_flags f rest
                 end
             end
  end.

(** [cmdShowToast]: what [toast.Show] is called with. *)
Definition cmdShowToast (args : list string) : option toast_flags := parse_flags (mkToastFlags "" "" "") args.

(** Each is read as it was meant, whatever the texts hold. *)
Lemma self_commands exe emly title body :
  main false (tail (restart_argv exe)) = Some CmdRestartService /\
  (main false (tail (toast_argv exe emly title body)) ≫= fun c =>
     match c with CmdShowToast args => cmdShowToast args | _ => None end) = Some (mkToastFlags emly title body).
Proof. by split. Qed.

(** * The service control manager *)

Definition serviceName : string := "EMLyUpdater".
Definition displayName : string := "EMLy Updater Service".
Definition description : string := "Bootstrapper e updater per EMLy, il visualizzatore EML/MSG di 3gIT. ".

(** [mgr.Config], with what [cmdInstall] keeps of an existing one in
    [ServiceStartName]. *)
Record mgrConfig := mkMgrConfig {
  StartAutomatic : bool;
  DelayedAutoStart : bool;
  Dependencies : list string;
  mg_DisplayName : string;
  Description : string;
  ErrorNormal : bool;
  BinaryPathName : string;
  ServiceStartName : string
}.

Record registration := mkRegistration { rg_config : mgrConfig; rg_recovery : list duration; rg_reset : Z }.

(** The outcomes of the requests of one command. *)
Record scm_env := mkScmEnv {
  q_connect : bool;
  q_config : bool;
  q_update : bool;
  q_create : bool;
  q_recovery : bool
}.

Inductive admin_error := AdminEnvironment | NotAdministrator | ConfigUnread | UpdateFailed_ | CreateServiceFailed
| RecoveryFailed | NotInstalled | StopNotSent | StopTimedOut | QueryFailed | StartFailed.

(** What [cmdInstall] registers. *)
Definition svcCfg (exePath : string) : mgrConfig :=
  mkMgrConfig true true ["Dnscache"; "LanmanWorkstation"] displayName description true exePath "".

Definition refreshed (exePath : string) (cur : mgrConfig) : mgrConfig :=
  let c := svcCfg exePath in
  mkMgrConfig c.(StartAutomatic) c.(DelayedAutoStart) c.(Dependencies) c.(mg_DisplayName) c.(Description)
    cur.(ErrorNormal) exePath cur.(ServiceStartName).

Definition recovery : list duration := [60 * second; 60 * second; 60 * second].
Definition recoveryReset : Z := 86400.

(** The registration of [cmdInstall], from the connection on. *)
Definition register (e : scm_env) (exePath : string) (r : option registration) :
    result admin_error unit * option registration :=
  if negb e.(q_connect) then (Err NotAdministrator, r)
  else
    let step : result admin_error registration :=
      match r with
      | Some cur =>
          if negb e.(q_config) then Err ConfigUnread
          else if negb e.(q_update) then Err UpdateFailed_
          else Ok (mkRegistration (refreshed exePath cur.(rg_config)) cur.(rg_recovery) cur.(rg_reset))
      | None => if e.(q_create) then Ok (mkRegistration (svcCfg exePath) [] 0) else Err CreateServiceFailed
      end in
    match step with
    | Err err => (Err err, r)
    | Ok reg =>
        if e.(q_recovery) then (Ok tt, Some (mkRegistration reg.(rg_config) recovery recoveryReset))
        else (Err RecoveryFailed, Some reg)
    end.

(** [cmdInstall]: the directories, the configuration ([Config.Reset]), the
    certificate in the machine's stores - best effort -, the registration. *)
Definition installCertificate (env : cert_env) (cfg_enabled : option bool) (embedded : option string)
    (s : stores) : stores :=
  match cfg_enabled, embedded with
  | Some true, Some der => (cert_Ensure env der MachineTargets s).2
  | _, _ => s
  end.
Definition cmdInstall (dirs reset : bool) (cert : cert_env) (cfg_enabled : option bool)
    (embedded exePath : option string) (e : scm_env) (s : stores) (r : option registration) :
    result admin_error unit * (stores * option registration) :=
  if negb (dirs && reset) then (Err AdminEnvironment, (s, r))
  else
    let s := installCertificate cert cfg_enabled embedded s in
    match exePath with
    | None => (Err AdminEnvironment, (s, r))
    | Some exe => let '(res, r') := register e exe r in (res, (s, r'))
    end.

(** [cmdUninstall], once the log was saved and the service asked to stop. *)
Definition cmdUninstall (connects deletes : bool) (r : option registration) :
    result admin_error unit * option registration :=
  if negb connects then (Err NotAdministrator, r)
  else match r with
       | None => (Err NotInstalled, None)
       | Some reg => if deletes then (Ok tt, None) else (Err UpdateFailed_, Some reg)
       end.

(** * Starting, stopping, restarting *)

Inductive svc_state := SvcStopped | SvcOther.
#[export] Instance svc_state_eq_dec : EqDecision svc_state.
Proof. solve_decision. Defined.

Definition stopTimeout : duration := 60 * second.

(** The waiting of [cmdStop]: at each turn the clock is read, then the state
    asked for ([None] when that fails). It is still waiting when the answers
    run out. *)
Fixpoint stop_wait (deadline : time) (status : svc_state) (l : list (time * option svc_state)) :
    option (result admin_error unit) :=
  match status with
  | SvcStopped => Some (Ok tt)
  | SvcOther =>
      match l with
      | [] => None
      | (now, answer) :: l' =>
          if t_after now deadline then Some (Err StopTimedOut)
          else match answer with
               | None => Some (Err QueryFailed)
               | Some status => stop_wait deadline status l'
               end
      end
  end.

(** [cmdStop]; [control] is the state the stop request returns. *)
Definition cmdStop (connects installed : bool) (control : option svc_state) (now : time)
    (l : list (time * option svc_state)) : option (result admin_error unit) :=
  if negb connects then Some (Err NotAdministrator)
  else if negb installed then Some (Err NotInstalled)
  else match control with
       | None => Some (Err StopNotSent)
       | Some status => stop_wait (t_add now stopTimeout) status l
       end.

(** [cmdStart]. *)
Definition cmdStart (connects installed starts : bool) : result admin_error unit :=
  if negb connects then Err NotAdministrator
  else if negb installed then Err NotInstalled
  else if starts then Ok tt else Err StartFailed.

Definition restartServiceStartRetries : nat := 3.
Definition restartServiceStartDelay : duration := 5 * second.

(** The starts of [cmdRestartService]: the outcome of the n-th attempt, how
    many were made, and how long was slept in between. *)
Fixpoint start_attempts (left : nat) (attempt : nat) (start : nat -> result admin_error unit) :
    result admin_error unit * nat * duration :=
  match left with
  | O => (Err StartFailed, 0%nat, 0)
  | S left' =>
      match start attempt with
      | Ok _ => (Ok tt, 1%nat, 0)
      | Err e =>
          match left' with
          | O => (Err e, 1%nat, 0)
          | S _ =>
              let '(r, n, slept) := start_attempts left' (S attempt) start in
              (r, S n, restartServiceStartDelay + slept)
          end
      end
  end.

(** [cmdRestartService]; [stop] is how [cmdStop] ended. *)
Definition cmdRestartService (stop : result admin_error unit) (start : nat -> result admin_error unit) :
    result admin_error unit * nat * duration :=
  match stop with
  | Err e => (Err e, 0%nat, 0)
  | Ok _ => start_attempts restartServiceStartRetries 1 start
  end.

(** [acquireSingleton]: whether the mutex was made, and was there before. *)
Definition acquireSingleton (made existed : bool) : bool := made && negb existed.

(** What the entry points meet: whether the directories are there, the mutex
    is made and was there before, the configuration loads, and the dispatcher
    of the service control manager runs. *)
Record run_env := mkRunEnv {
  n_dirs : bool;
  n_made : bool;
  n_existed : bool;
  n_config : bool;
  n_scm : bool
}.
Inductive run_act :=
| RunMutex | RunMutexClosed | RunLogOpened (console : bool) | RunEventLog | RunLogClosed | RunLoops | RunHandler.
#[export] Instance run_act_eq_dec : EqDecision run_act.
Proof. solve_decision. Defined.
Inductive run_error := DirsFailed | MutexFailed | AlreadyRunning | ConfigFailed.

(** [cmdRun]: the loop in the foreground. *)
Definition cmdRun (e : run_env) : list run_act * result run_error unit :=
  if negb e.(n_dirs) then ([], Err DirsFailed)
  else if negb e.(n_made) then ([], Err MutexFailed)
  else if negb (acquireSingleton e.(n_made) e.(n_existed)) then ([RunMutex; RunMutexClosed], Err AlreadyRunning)
  else
    let '(acts, r) :=
      if negb e.(n_config) then ([], Err ConfigFailed) else ([RunLoops], Ok tt) in
    (RunMutex :: RunLogOpened true :: RunEventLog :: acts ++ [RunLogClosed; RunMutexClosed], r).

(** [runService]: the actions and the exit code; [os.Exit] runs no deferred
    call. *)
Definition runService (e : run_env) : list run_act * Z :=
  if negb e.(n_dirs) then ([], 1)
  else
    let opened := [RunLogOpened false; RunEventLog] in
    if negb e.(n_config) then (opened, 1)
    else if negb e.(n_scm) then (opened ++ [RunHandler], 1)
    else (opened ++ [RunHandler; RunLogClosed], 0).

(** ** Instances on one machine *)

(** The named mutex is there while a handle of it is open; [i_losers] are the
    processes that found it there and have not closed their handle yet. *)
Record instances := mkInstances { i_handles : nat; i_foreground : nat; i_losers : nat; i_services : nat }.

Inductive instance_step : instances -> instances -> Prop :=
| StepCreate s : instance_step s
    (if acquireSingleton true (negb (bool_decide (s.(i_handles) = 0%nat)))
     then mkInstances (S s.(i_handles)) (S s.(i_foreground)) s.(i_losers) s.(i_services)
     else mkInstances (S s.(i_handles)) s.(i_foreground) (S s.(i_losers)) s.(i_services))
| StepGiveUp s n : s.(i_losers) = S n ->
    instance_step s (mkInstances (s.(i_handles) - 1) s.(i_foreground) n s.(i_services))
| StepEnd s n : s.(i_foreground) = S n ->
    instance_step s (mkInstances (s.(i_handles) - 1) n s.(i_losers) s.(i_services))
| StepService s : instance_step s (mkInstances s.(i_handles) s.(i_foreground) s.(i_losers) (S s.(i_services)))
| StepServiceEnd s n : s.(i_services) = S n ->
    instance_step s (mkInstances s.(i_handles) s.(i_foreground) s.(i_losers) n).

Definition no_instance : instances := mkInstances 0 0 0 0.

(** * What they promise *)

(** The loop runs in the foreground only between acquiring the mutex and
    releasing it, and every return has closed what was opened. *)
Lemma cmdRun_guarded e : let '(acts, r) := cmdRun e in
  (RunLoops ∈ acts -> acquireSingleton e.(n_made) e.(n_existed) = true /\ e.(n_config) = true /\
     acts = [RunMutex; RunLogOpened true; RunEventLog; RunLoops; RunLogClosed; RunMutexClosed]) /\
  (RunMutex ∈ acts <-> RunMutexClosed ∈ acts) /\ (RunLogOpened true ∈ acts <-> RunLogClosed ∈ acts) /\
  (r = Ok tt <-> RunLoops ∈ acts).
Proof.
  destruct e as [[] [] [] [] scm]; cbn; split_and!; try done; try (split; intros H; by set_solver); set_solver.
Qed.

(** In the foreground at most one loop runs at a time, whatever the processes
    that find the mutex do meanwhile. *)
Lemma one_foreground s : rtc instance_step no_instance s ->
  (s.(i_foreground) <= 1)%nat /\ s.(i_handles) = (s.(i_foreground) + s.(i_losers))%nat.
Proof.
  revert s. apply (rtc_ind_r (fun s => (s.(i_foreground) <= 1)%nat /\ s.(i_handles) = (s.(i_foreground) + s.(i_losers))%nat));
    [cbn; lia|]. intros s1 s2 _ Hs IH. destruct IH as [H1 H2]. destruct Hs as [s|s n E|s n E|s|s n E]; cbn in *; [|lia..].
  unfold acquireSingleton. case_bool_decide; cbn; lia.
Qed.

(** The service is no part of it: its loop and one in the foreground can run
    together. *)
Lemma service_beside_run : exists s, rtc instance_step no_instance s /\ s.(i_foreground) = 1%nat /\ s.(i_services) = 1%nat.
Proof.
  exists (mkInstances 1 1 0 1). split; [|done].
  apply (rtc_l _ _ (mkInstances 1 1 0 0)); [apply (StepCreate no_instance)|].
  apply rtc_once. apply (StepService (mkInstances 1 1 0 0)).
Qed.


(** Installing twice is installing once, whatever was registered before, and
    what is registered then starts with the machine, after the network, and
    comes back after a crash. *)
Lemma register_idempotent e exePath r r1 : register e exePath r = (Ok tt, Some r1) ->
  r1.(rg_config) = refreshed exePath r1.(rg_config) /\ r1.(rg_recovery) = recovery /\
  (r = None -> r1.(rg_config) = svcCfg exePath) /\
  forall e', e'.(q_connect) = true -> e'.(q_config) = true -> e'.(q_update) = true -> e'.(q_recovery) = true ->
    register e' exePath (Some r1) = (Ok tt, Some r1).
Proof.
  unfold register. destruct (q_connect e); [|done]. cbn [negb]. intros H.
  assert (Hr : r1.(rg_config) = refreshed exePath r1.(rg_config) /\ r1.(rg_recovery) = recovery /\
    r1.(rg_reset) = recoveryReset /\ (r = None -> r1.(rg_config) = svcCfg exePath)).
  { destruct r as [cur|].
    - destruct (q_config e); [|done]. destruct (q_update e); [|done]. cbn [negb] in H.
      destruct (q_recovery e); [|done]. by simplify_eq.
    - destruct (q_create e); [|done]. destruct (q_recovery e); [|done]. by simplify_eq. }
  destruct Hr as (H1 & H2 & H3 & H4). split_and!; [done..|].
  intros e' -> -> -> ->. cbn. rewrite <-H1. destruct r1 as [c rec res]. cbn in *. by subst.
Qed.

(** A stop is reported only of a service seen stopped, and given up no earlier
    than the timeout. *)
Lemma stop_wait_spec deadline l : forall status r, stop_wait deadline status l = Some r ->
  match r with
  | Ok _ => status = SvcStopped \/ exists now, (now, Some SvcStopped) ∈ l
  | Err StopTimedOut => exists now a, (now, a) ∈ l /\ deadline < now
  | Err e => e = QueryFailed
  end.
Proof.
  induction l as [|[now answer] l IH]; intros [] r; cbn [stop_wait]; try (intros [= <-]; by left).
  destruct (t_after now deadline) eqn:E.
  { intros [= <-]. exists now, answer. split; [apply list_elem_of_here|]. by apply Z.ltb_lt. }
  destruct answer as [status|]; [|by intros [= <-]]. intros H. specialize (IH _ _ H).
  destruct r as [[]|[]]; try done.
  - right. destruct IH as [-> | [t Ht]]; [exists now; apply list_elem_of_here|exists t; by apply list_elem_of_further].
  - destruct IH as (t & a & Ht & Hd). exists t, a. split; [by apply list_elem_of_further|done].
Qed.

(** The wait ends: once the clock has passed the deadline it has returned. *)
Lemma stop_wait_ends deadline l status now a : (now, a) ∈ l -> deadline < now ->
  stop_wait deadline status l <> None.
Proof.
  intros Hin Hd. revert status. induction l as [|[t x] l IH]; intros status; [by apply elem_of_nil in Hin|].
  destruct status; cbn [stop_wait]; [done|]. destruct (t_after t deadline) eqn:E; [done|].
  apply elem_of_cons in Hin as [[= <- <-]|Hin].
  - unfold t_after in E. apply Z.ltb_ge in E. lia.
  - destruct x; [by apply IH|done].
Qed.

Lemma start_loop_spec start : forall left attempt, (0 < left)%nat ->
  let '(r, n, slept) := start_attempts left attempt start in
  (1 <= n <= left)%nat /\ r = start (attempt + n - 1)%nat /\
  (forall i, (i < n - 1)%nat -> is_ok (start (attempt + i)%nat) = false) /\
  (is_ok r = false -> n = left) /\ slept = Z.of_nat (n - 1) * restartServiceStartDelay.
Proof.
  induction left as [|left IH]; intros attempt Hl; [lia|]. cbn [start_attempts].
  destruct (start attempt) as [[]|e] eqn:E.
  { rewrite Nat.add_sub. split_and!; [lia|lia|by rewrite E|intros i Hi; lia|done|lia]. }
  destruct left as [|left].
  { rewrite Nat.add_sub. split_and!; [lia|lia|by rewrite E|intros i Hi; lia|done|lia]. }
  specialize (IH (S attempt) ltac:(lia)). destruct (start_attempts (S left) (S attempt) start) as [[r n] slept].
  destruct IH as (Hn & Hr & Hfail & Hlast & Hs). split_and!; try lia.
  - rewrite Hr. f_equal. lia.
  - intros [|i] Hi; [by rewrite Nat.add_0_r, E|]. replace (attempt + S i)%nat with (S attempt + i)%nat by lia.
    apply Hfail. lia.
  - intros H. specialize (Hlast H). lia.
  - rewrite Hs. unfold restartServiceStartDelay, second, duration in *. lia.
Qed.

(** a restart of the service that stopped it tries to start it up to three
    times and stops trying at the first success: it succeeds exactly when one
    of those attempts does, reports the last failure otherwise, and never
    starts a service it could not stop. *)
Theorem cmdRestartService_spec (stop : result admin_error unit) (start : nat -> result admin_error unit) :
  let '(r, n, slept) := cmdRestartService stop start in
  match stop with
  | Err e => r = Err e /\ n = 0%nat
  | Ok _ =>
      (is_ok r = true <-> exists i, (1 <= i <= 3)%nat /\ is_ok (start i) = true) /\
      (1 <= n <= 3)%nat /\ r = start n /\ (forall i, (1 <= i < n)%nat -> is_ok (start i) = false) /\
      slept <= 2 * restartServiceStartDelay
  end.
Proof.
  unfold cmdRestartService. destruct stop as [[]|e]; [|done].
  pose proof (start_loop_spec start restartServiceStartRetries 1 ltac:(unfold restartServiceStartRetries; lia)) as H.
  destruct (start_attempts _ 1 start) as [[r n] slept]. destruct H as (Hn & Hr & Hfail & Hlast & Hs).
  unfold restartServiceStartRetries in *. replace (1 + n - 1)%nat with n in Hr by lia.
  assert (Hbefore : forall i, (1 <= i < n)%nat -> is_ok (start i) = false).
  { intros i Hi. replace i with (1 + (i - 1))%nat by lia. apply Hfail. lia. }
  cbn beta iota.
  split_and!; [|lia|lia|done|done|rewrite Hs; unfold restartServiceStartDelay, second; lia]. split.
  - intros H. exists n. split; [lia|]. by rewrite <-Hr.
  - intros (i & Hi & Hok). destruct (is_ok r) eqn:E; [done|]. specialize (Hlast eq_refl).
    destruct (decide (i = n)) as [->|Hne]; [by rewrite Hr, Hok in E|].
    rewrite Hbefore in Hok by lia. done.
Qed.
