(* ===== verification/Life.v ===== *)
(** internal/service/service.go, [New], and the life of the process it starts:
    the state every part finds, and what then holds of the update loop from
    start-up on, over any disk, servers, machine and timing.

    The updater's fields are those of the parts that use them: the poll
    goroutine's ([loopState]), the command handlers' ([Svc]), the channel's
    ([Chan]), the announcements' and the session watcher's. All of them see one
    directory of state. *)
From S2P Require Import Prelude Rfc3339 Json Files Versions Manifest PolicyDoc PolicyMatch State.
From S2P Require Import PolicyValidate PolicyParse PolicyProps SelfUpdate Source Config PolicyStore RemoteConfig.
From S2P Require Import MachineInfo SourcePolicy Wire Download Layout Installer World Cycle CycleInv CycleProps Loop.
From S2P Require Import Conc Gate Commands CommandProps Events EventProps Wake.

(** What the process finds on the machine: the directory of the updater, the
    other files, EMLy's config.ini, the time. *)
Record found := mkFound { fd_dir : dir; fd_files : files; fd_ini : option string; fd_now : time }.

Record Updater := mkUpdater {
  u_Downloads : Manager;
  u_SelfDownloads : Manager;
  u_startedAt : time;
  u_loop : loopState;
  u_svc : Svc;
  u_chan : Chan;
  u_notified : notified;
  u_watcher : watcher
}.

(** [New]: the fields it sets, and Go's zero values for the others. *)
Definition New (pd : string) (m : found) : Updater :=
  mkUpdater (Downloads_of pd) (SelfDownloads_of pd) m.(fd_now)
    (mkLoop
       (mkWorld 0 m.(fd_files) m.(fd_ini)
          (mkRC None m.(fd_dir) None zero_time zero_time false false None [])
          None 0 ∅ ∅ false "" "" None 0 false [])
       new_site)
    (mkSvc m.(fd_now) 0 0 false zero_time "" false m.(fd_dir) (mkRing [] ∅ ∅) ∅ None [])
    (mkChan 0 0 0 None [] false None m.(fd_dir) [])
    (mkNotified zero_time false [])
    no_watch.

(** It is where the properties of each part start. *)
Lemma New_ready pd m : let u := New pd m in
  fresh_service u.(u_svc) /\ u.(u_svc).(g_ring) = mkRing [] ∅ ∅ /\
  (u.(u_chan).(ch_gen) = 0 /\ u.(u_chan).(ch_issued) = 0 /\ u.(u_chan).(ch_session) = None /\
   u.(u_chan).(ch_started) = false /\ u.(u_chan).(ch_sent) = []) /\
  u.(u_loop).(lp_world).(w_trace) = [] /\ u.(u_loop).(lp_world).(w_rc).(Policy) = None /\
  u.(u_loop).(lp_world).(w_wakeReason) = "" /\ u.(u_watcher) = no_watch.
Proof. by split_and!. Qed.

Section Life.
Context {versions : VersionLib} {inilib : IniLib} {digest : Sha256}.
Variable env : Env.
Variable cfg : Config.
Variable D : Defaults.
Variable json_size : json -> Z.
Variable machine : Info.
Variable pd : string.

Abbreviation loop_from := (loop_from env cfg D machine (DownloadsDir pd) (SelfDownloadsDir pd) (LogsDir pd)).
Abbreviation service := (service env cfg machine (DownloadsDir pd) (SelfDownloadsDir pd) (LogsDir pd)).

(** [RunLoop] of the updater [New] makes. *)
Definition process (m : found) (read_fails quarantine_fails : bool) (first : turn) (turns : list turn) :
    list (cycleState * string) * loopState :=
  let u := New pd m in
  RunLoop env cfg D json_size machine u.(u_Downloads).(Dir) u.(u_SelfDownloads).(Dir) (LogsDir pd)
    read_fails quarantine_fails first turns u.(u_loop).

(** C24: the life of one process, from its construction on: whatever is on
    disk, whatever the servers, the setups, EMLy and the other goroutines do,
    and however long it runs, every setup it starts is the announced one - its
    own signed and on record -, no failure is reported twice, EMLy's setup is
    started at most twice and its own at most once per cycle, and every cycle
    works on the default policy or a validated one, never older than that of
    the cycle before, and finds the reason that woke it. *)
Theorem process_life (m : found) (read_fails quarantine_fails : bool) (first : turn) (turns : list turn) :
  let '(cycles, s) := process m read_fails quarantine_fails first turns in
  let trace := s.(lp_world).(w_trace) in
  Forall (safe env) trace /\ NoDup (failures trace) /\
  (setups trace <= 2 * length cycles)%nat /\ (launches_ trace <= length cycles)%nat /\
  no_older cfg D 0 cycles.*1 /\ cycles.*2 = "" :: reasons first.(tn_wait) turns.
Proof.
  unfold process. set (s0 := (New pd m).(u_loop)). set (run := RunLoop _ _ _ _ _ _ _ _ _ _ _ _ s0).
  pose proof (RunLoop_service env cfg D json_size machine (DownloadsDir pd) (SelfDownloadsDir pd) (LogsDir pd)
    read_fails quarantine_fails first turns s0) as Hs.
  pose proof (RunLoop_total env cfg D json_size machine (DownloadsDir pd) (SelfDownloadsDir pd) (LogsDir pd)
    true false read_fails quarantine_fails first turns s0) as H2.
  pose proof (RunLoop_total env cfg D json_size machine (DownloadsDir pd) (SelfDownloadsDir pd) (LogsDir pd)
    false true read_fails quarantine_fails first turns s0) as H1.
  pose proof (loop_policies env cfg D json_size machine (DownloadsDir pd) (SelfDownloadsDir pd) (LogsDir pd)
    read_fails quarantine_fails first turns s0 eq_refl eq_refl) as Hp.
  change (RunLoop _ _ _ _ _ _ _ _ _ _ _ _ s0) with run in Hs, H1, H2, Hp.
  destruct run as [cycles s]. cbv zeta. cbn [fst snd] in *. unfold setups, launches_.
  split_and!; try apply Hp.
  - exact (service_safe env cfg machine _ _ _ s0.(lp_world) _ eq_refl Hs).
  - exact (service_reported env cfg machine _ _ _ s0.(lp_world) _ eq_refl Hs).
  - cbn in H2. cbn. lia.
  - cbn in H1. cbn. lia.
Qed.
End Life.

(** * A process on concrete servers *)

Module LifeBench.
Import Scenario.
#[local] Existing Instance toy_ini.
#[local] Existing Instance toy_digest.
#[local] Existing Instance Dotted.lib.

(** EMLy 1.0.0 is installed, 2.0.0 announced: of three cycles the first
    installs it from the cache [New] set up. *)
Definition life : list (cycleState * string) * loopState :=
  process env ex_config Run.D (fun _ => 900) machine "" (mkFound ∅ ∅ (Some "1.0.0") Fixture.now)
    false false LoopBench.first LoopBench.turns.

Definition setup_paths (l : list action) : list string :=
  omap (fun a => match a with ASetup path _ _ _ => Some path | _ => None end) l.

Lemma process_life_witness :
  setup_paths life.2.(lp_world).(w_trace) = ["C:\ProgramData\EMLyUpdater\downloads\EMLy-2.0.0-setup.exe"] /\
  Forall (safe env) life.2.(lp_world).(w_trace) /\ life.1.*2 = [""; "notify"; ""].
Proof.
  split; [vm_compute; reflexivity|].
  pose proof (process_life env ex_config Run.D (fun _ => 900) machine "" (mkFound ∅ ∅ (Some "1.0.0") Fixture.now)
    false false LoopBench.first LoopBench.turns) as H.
  unfold life. destruct (process _ _ _ _ _ _ _ _ _ _ _) as [cycles s]. destruct H as (Hs & _ & _ & _ & _ & Hr).
  split; [exact Hs|exact Hr].
Defined.
End LifeBench.
