(* ===== verification/Genversion.v ===== *)
(** tools/genversion: the version of versioninfo.json written into the Go
    constant and into the installer's script.

    The script is patched by a regular expression; [match_define] is its match
    at the start of a line, [segments] the matches Go finds one after the
    other, [expand] the template of the replacement. Letters of a template's
    names are those of ASCII. *)
From S2P Require Import Prelude Json Net.

Definition versionInfoPath : string := "versioninfo.json".
Definition versionGoPath : string := "internal/version/version_generated.go".
Definition installerISSPath : string := "installer/installer.iss".

Definition LF : ascii := "010".
Definition CR : ascii := "013".

(** * [issVersionRe] *)

Definition define_head : string := "#define ApplicationVersion '".

(** [(\r?)$]: the carriage return, if the line ends here. *)
Definition line_end (s : string) : option string :=
  match s with
  | EmptyString => Some ""
  | String c s' =>
      if Ascii.eqb c LF then Some ""
      else if Ascii.eqb c CR then
        match s' with
        | EmptyString => Some (String CR "")
        | String d _ => if Ascii.eqb d LF then Some (String CR "") else None
        end
      else None
  end.

(** A match at the start of a line: what is between the quotes - which may
    span lines -, and the carriage return. *)
Definition match_define (s : string) : option (string * string) :=
  if has_prefix s define_head then
    let '(old, after, found) := cut_byte "'" (drop_str (String.length define_head) s) in
    if found then eol ← line_end after; Some (old, eol) else None
  else None.

Inductive segment := Other (c : ascii) | Define (old eol : string).

(** The matches from left to right, and the bytes between them; [skip] bytes of
    a match remain, [bol] says that a line starts here. *)
Fixpoint segments (skip : nat) (bol : bool) (s : string) : list segment :=
  match s with
  | EmptyString => []
  | String c s' =>
      match skip with
      | S k => segments k false s'
      | O =>
          match (if bol then match_define s else None) with
          | Some (old, eol) =>
              Define old eol ::
                segments (String.length define_head + String.length old + String.length eol) false s'
          | None => Other c :: segments 0 (Ascii.eqb c LF) s'
          end
      end
  end.

(** * [Expand] *)

Definition name_char (c : ascii) : bool := is_alpha c || is_digit c || Ascii.eqb c "_".
Fixpoint take_name (s : string) : string * string :=
  match s with
  | EmptyString => ("", "")
  | String c s' => if name_char c then let '(n, r) := take_name s' in (String c n, r) else ("", s)
  end.

(** [extract]: the name after a dollar sign, and what follows it. *)
Definition extract (s : string) : option (string * string) :=
  match s with
  | EmptyString => None
  | String c s' =>
      let brace := Ascii.eqb c "{" in
      let '(n, r) := take_name (if brace then s' else s) in
      if n =s "" then None
      else if brace then match r with
                         | String d r' => if Ascii.eqb d "}" then Some (n, r') else None
                         | EmptyString => None
                         end
           else Some (n, r)
  end.

(** The text of a group: the match, its three groups; any other name is
    empty. *)
Definition group (old eol name : string) : string :=
  if name =s "0" then define_head +:+ old +:+ "'" +:+ eol
  else if name =s "1" then define_head
  else if name =s "2" then "'"
  else if name =s "3" then eol
  else "".

Fixpoint expand (fuel : nat) (g : string -> string) (t : string) : string :=
  match fuel with
  | O => t
  | S f =>
      match index_byte t "$" with
      | None => t
      | Some i =>
          take_str i t +:+
          let t' := drop_str (S i) t in
          if has_prefix t' "$" then "$" +:+ expand f g (drop_str 1 t')
          else match extract t' with
               | None => "$" +:+ expand f g t'
               | Some (name, rest) => g name +:+ expand f g rest
               end
      end
  end.

Definition replacement (v old eol : string) : string :=
  let t := "${1}" +:+ v +:+ "${2}${3}" in expand (String.length t) (group old eol) t.

(** * The tool *)

Definition render (v : string) (g : segment) : string :=
  match g with Other c => String c "" | Define old eol => replacement v old eol end.
Fixpoint concat_str (l : list string) : string :=
  match l with [] => "" | x :: r => x +:+ concat_str r end.

(** What [patchInstallerISS] writes, when the script has a match. *)
Definition is_define (g : segment) : bool := match g with Define _ _ => true | _ => false end.
Definition patched (v s : string) : option string :=
  let l := segments 0 true s in
  if existsb is_define l then Some (concat_str (render v <$> l)) else None.

(** The versions a script defines. *)
Definition defined (s : string) : list string :=
  omap (fun g => match g with Define old _ => Some old | Other _ => None end) (segments 0 true s).

(** [%q] on ASCII; the bytes of other printable characters stay. *)
Definition hex_digit (n : N) : string :=
  String (ascii_of_N (if (n <? 10)%N then 48 + n else 87 + n)) "".
Definition quoted_char (c : ascii) : string :=
  if Ascii.eqb c "034" then "\" +:+ String c ""
  else if Ascii.eqb c "\" then "\\"
  else match N_of_ascii c with
       | 7%N => "\a" | 8%N => "\b" | 9%N => "\t" | 10%N => "\n" | 11%N => "\v" | 12%N => "\f" | 13%N => "\r"
       | n => if (n <? 32)%N || (n =? 127)%N then "\x" +:+ hex_digit (n / 16) +:+ hex_digit (n mod 16)
              else String c ""
       end.
Fixpoint quoted (s : string) : string :=
  match s with EmptyString => "" | String c s' => quoted_char c +:+ quoted s' end.

(** [writeGoConst]'s file. *)
Definition line (s : string) : string := s +:+ String LF "".
Definition go_source (v : string) : string :=
  let q := String "034" "" in
  line ("// Code generated from versioninfo.json by " +:+ q +:+ "go generate" +:+ q +:+ "; DO NOT EDIT.") +:+
  line ("// Run " +:+ q +:+ "go generate ./..." +:+ q +:+ " after bumping versioninfo.json.") +:+
  line "" +:+ line "package version" +:+ line "" +:+
  line "// Version is this build's own semver. versioninfo.json is the single" +:+
  line "// source of truth; this file is regenerated from it." +:+
  line ("const Version = " +:+ q +:+ quoted v +:+ q).

(** [versionInfo]. *)
Definition FileVersion (j : json) : option string :=
  dec_struct "" (fun m =>
    match m !! "StringFileInfo" with
    | None => Some ""
    | Some info => dec_struct "" (fun n => field (A := string) n "FileVersion") info
    end) j.

(** How [os.WriteFile] ends: it truncates the file in place, so that a write
    that breaks off leaves what was written so far. *)
Inductive write_end := Written | NotOpened | BrokenOff (n : nat).
Definition WriteFile (w : write_end) (path text : string) (fs : gmap string string) :
    bool * gmap string string :=
  match w with
  | Written => (true, <[path := text]> fs)
  | NotOpened => (false, fs)
  | BrokenOff n => (false, <[path := take_str n text]> fs)
  end.

Record tool_env := mkToolEnv {
  tl_info : option json;
  tl_write_go : write_end;
  tl_read_iss : bool;
  tl_write_iss : write_end
}.
Inductive tool_error :=
| NoVersionInfo | BadVersionInfo | EmptyVersion | GoNotWritten | NoScript | NoDefine | ScriptNotWritten.

(** [main] over the files of the repository; [None] is success. A read that is
    not refused fails when the file is not there, and [tl_info] is what
    versioninfo.json holds, when that is JSON. *)
Definition genversion (e : tool_env) (fs : gmap string string) : option tool_error * gmap string string :=
  match fs !! versionInfoPath with
  | None => (Some NoVersionInfo, fs)
  | Some _ =>
      match j ← e.(tl_info); FileVersion j with
      | None => (Some BadVersionInfo, fs)
      | Some v =>
          if v =s "" then (Some EmptyVersion, fs)
          else
            let '(ok, fs) := WriteFile e.(tl_write_go) versionGoPath (go_source v) fs in
            if negb ok then (Some GoNotWritten, fs)
            else
            match (if e.(tl_read_iss) then fs !! installerISSPath else None) with
            | None => (Some NoScript, fs)
            | Some s =>
                match patched v s with
                | None => (Some NoDefine, fs)
                | Some t =>
                    let '(ok, fs) := WriteFile e.(tl_write_iss) installerISSPath t fs in
                    (if ok then None else Some ScriptNotWritten, fs)
                end
            end
      end
  end.

(** * The replacement *)

Definition plain (v : string) : bool :=
  string_forallb (fun c => negb (Ascii.eqb c "$") && negb (Ascii.eqb c "'") && negb (Ascii.eqb c LF)) v.

Lemma index_byte_skip (c : ascii) v w : string_forallb (fun d => negb (Ascii.eqb d c)) v = true ->
  index_byte (v +:+ String c w) c = Some (String.length v).
Proof.
  induction v as [|d v IH]; cbn; [by rewrite Ascii.eqb_refl|]. intros [Hd Hv]%andb_true_iff.
  apply negb_true_iff in Hd. by rewrite Hd, IH.
Qed.

Lemma plain_no v (c : ascii) : plain v = true -> c ∈ ["$"%char; "'"%char; LF] ->
  string_forallb (fun d => negb (Ascii.eqb d c)) v = true.
Proof.
  intros H Hc. unfold plain in H. induction v as [|d v IH]; [done|]. cbn in *.
  apply andb_true_iff in H as [Hd Hv]. rewrite (IH Hv), andb_true_r.
  apply andb_true_iff in Hd as [Hd H3]. apply andb_true_iff in Hd as [H1 H2].
  repeat (apply elem_of_cons in Hc as [->|Hc]; [done|]). by apply elem_of_nil in Hc.
Qed.

Lemma take_length_app a b : take_str (String.length a) (a +:+ b) = a.
Proof. rewrite <-(Nat.add_0_r (String.length a)), take_str_app. destruct b; by rewrite append_nil. Qed.
Lemma drop_S_app a c b : drop_str (S (String.length a)) (a +:+ String c b) = b.
Proof. induction a as [|d a IH]; [done|]. exact IH. Qed.

(** One [${n}] of the template. *)
Lemma expand_group f g d rest : d ∈ ["1"%char; "2"%char; "3"%char] ->
  expand (S f) g (String "$" (String "{" (String d (String "}" rest)))) = g (String d "") +:+ expand f g rest.
Proof.
  intros Hd. repeat (apply elem_of_cons in Hd as [->|Hd]; [reflexivity|]). by apply elem_of_nil in Hd.
Qed.

Lemma expand_text f g v rest : string_forallb (fun d => negb (Ascii.eqb d "$")) v = true ->
  expand (S f) g (v +:+ String "$" rest) = v +:+ expand (S f) g (String "$" rest).
Proof.
  intros Hv. cbn [expand]. rewrite (index_byte_skip "$" v) by done. rewrite take_length_app, drop_S_app.
  reflexivity.
Qed.

Lemma replacement_plain v old eol : plain v = true ->
  replacement v old eol = define_head +:+ v +:+ "'" +:+ eol.
Proof.
  intros Hv. unfold replacement. change ("${1}" +:+ v +:+ "${2}${3}") with
    (String "$" (String "{" (String "1" (String "}" (v +:+ String "$" "{2}${3}"))))).
  assert (E : exists k, String.length (String "$" (String "{" (String "1" (String "}" (v +:+ String "$" "{2}${3}"))))) = S (S (S (S k)))).
  { eexists. reflexivity. }
  destruct E as [k ->]. rewrite expand_group by set_solver. rewrite expand_text by (apply plain_no; [done|set_solver]).
  rewrite !expand_group by set_solver. destruct k; cbn [expand index_byte]; unfold group; by rewrite append_nil.
Qed.

(** * The matches *)

Definition unquoted (s : string) : bool := string_forallb (fun d => negb (Ascii.eqb d "'")) s.
(** Nothing, or a new line. *)
Definition new_line (s : string) : bool := match s with String c _ => Ascii.eqb c LF | EmptyString => true end.

Lemma line_end_spec s eol : line_end s = Some eol <->
  exists rest, s = eol +:+ rest /\ (eol = "" \/ eol = String CR "") /\ new_line rest = true.
Proof.
  split.
  - destruct s as [|c s]; cbn; [intros [= <-]; exists ""; auto|].
    destruct (Ascii.eqb c LF) eqn:E1; [intros [= <-]; exists (String c s); auto|].
    destruct (Ascii.eqb c CR) eqn:E2; [|done]. apply Ascii.eqb_eq in E2 as ->.
    destruct s as [|d s]; [intros [= <-]; exists ""; auto|]. destruct (Ascii.eqb d LF) eqn:E3; [|done].
    intros [= <-]. exists (String d s). auto.
  - intros (rest & -> & [-> | ->] & Hr); cbn.
    + destruct rest as [|c rest]; [done|]. cbn in Hr. cbn. by rewrite Hr.
    + destruct rest as [|c rest]; [done|]. cbn in Hr. by rewrite Hr.
Qed.

Lemma cut_byte_spec (c : ascii) s : match cut_byte c s with
  | (a, b, true) => s = a +:+ String c b /\ string_forallb (fun d => negb (Ascii.eqb d c)) a = true
  | (_, _, false) => True
  end.
Proof.
  unfold cut_byte. induction s as [|d s IH]; [done|]. cbn [index_byte].
  destruct (Ascii.eqb d c) eqn:E.
  - apply Ascii.eqb_eq in E as ->. change (take_str 0 (String c s)) with "". done.
  - destruct (index_byte s c) as [i|]; [|done]. cbn [fmap option_fmap option_map]. destruct IH as [IH1 IH2].
    change (take_str (S i) (String d s)) with (String d (take_str i s)).
    change (drop_str (S (S i)) (String d s)) with (drop_str (S i) s). split; cbn; [by f_equal|by rewrite E].
Qed.

(** The shape of a match. *)
Lemma match_define_spec s old eol : match_define s = Some (old, eol) <->
  exists rest, s = define_head +:+ old +:+ String "'" (eol +:+ rest) /\ unquoted old = true /\
    (eol = "" \/ eol = String CR "") /\ new_line rest = true.
Proof.
  unfold match_define. split.
  - destruct (has_prefix s define_head) eqn:Hp; [|done]. apply prefix_split in Hp.
    pose proof (cut_byte_spec "'" (drop_str (String.length define_head) s)) as Hc.
    destruct (cut_byte _ _) as [[a b] []]; [|done]. destruct Hc as [Hd Hu].
    destruct (line_end b) as [e|] eqn:Hl; [|done]. cbn. intros [= -> ->].
    apply line_end_spec in Hl as (rest & -> & He & Hn). exists rest. split; [|done]. by rewrite Hp, Hd.
  - intros (rest & -> & Hu & He & Hn). rewrite prefix_app, drop_str_app. unfold cut_byte.
    rewrite (index_byte_skip "'" old) by done. rewrite take_length_app, drop_S_app.
    rewrite (proj2 (line_end_spec (eol +:+ rest) eol)); [done|]. by exists rest.
Qed.

Lemma segments_skip k s : segments k false s = segments 0 false (drop_str k s).
Proof.
  revert s. induction k as [|k IH]; intros s; [done|]. destruct s as [|c s]; [done|]. exact (IH s).
Qed.

(** Where no match starts. *)
Definition unmatched (bol : bool) (s : string) : Prop := bol = true -> match_define s = None.

Lemma segments_other bol c s : unmatched bol (String c s) ->
  segments 0 bol (String c s) = Other c :: segments 0 (Ascii.eqb c LF) s.
Proof. intros H. cbn [segments]. destruct bol; [by rewrite H|done]. Qed.

Lemma drop_app_plus a n w : drop_str (String.length a + n) (a +:+ w) = drop_str n w.
Proof. induction a as [|c a IH]; [done|exact IH]. Qed.

Lemma drop_match c h old eol rest :
  drop_str (String.length (String c h) + String.length old + String.length eol)
    (h +:+ old +:+ String "'" (eol +:+ rest)) = rest.
Proof.
  replace (String.length (String c h) + String.length old + String.length eol)%nat with
    (String.length h + (String.length old + (String.length (String "'" eol) + 0)))%nat by (cbn; lia).
  rewrite !drop_app_plus. change (String "'" (eol +:+ rest)) with (String "'" eol +:+ rest).
  by rewrite drop_app_plus.
Qed.

Lemma segments_match c s old eol : match_define (String c s) = Some (old, eol) ->
  segments 0 true (String c s) = Define old eol ::
    segments (String.length define_head + String.length old + String.length eol) false s.
Proof. intros H. cbn [segments]. by rewrite H. Qed.

Lemma segments_define old eol rest : match_define (define_head +:+ old +:+ String "'" (eol +:+ rest)) = Some (old, eol) ->
  segments 0 true (define_head +:+ old +:+ String "'" (eol +:+ rest)) = Define old eol :: segments 0 false rest.
Proof.
  assert (E : define_head +:+ old +:+ String "'" (eol +:+ rest) =
    String "#" ("define ApplicationVersion '" +:+ old +:+ String "'" (eol +:+ rest))) by reflexivity.
  rewrite E. intros H. rewrite (segments_match _ _ _ _ H), segments_skip. do 2 f_equal.
  apply (drop_match "#" "define ApplicationVersion '").
Qed.

(** The text with [v] in every match. *)
Definition rewritten (v : string) (bol : bool) (s : string) : string :=
  concat_str (render v <$> segments 0 bol s).

Lemma rewritten_other v bol c s : unmatched bol (String c s) ->
  rewritten v bol (String c s) = String c (rewritten v (Ascii.eqb c LF) s).
Proof. intros H. unfold rewritten. by rewrite segments_other. Qed.

Lemma rewritten_define v old eol rest : plain v = true ->
  match_define (define_head +:+ old +:+ String "'" (eol +:+ rest)) = Some (old, eol) ->
  rewritten v true (define_head +:+ old +:+ String "'" (eol +:+ rest)) =
    define_head +:+ v +:+ String "'" (eol +:+ rewritten v false rest).
Proof.
  intros Hv H. unfold rewritten. rewrite segments_define by done.
  change (concat_str (render v <$> Define old eol :: segments 0 false rest)) with
    (replacement v old eol +:+ concat_str (render v <$> segments 0 false rest)).
  rewrite replacement_plain by done. rewrite !sapp_assoc3. done.
Qed.

(** Whether the first quote ends its line. *)
Fixpoint quote_ends (s : string) : bool :=
  match s with
  | EmptyString => false
  | String c s' => if Ascii.eqb c "'" then is_some (line_end s') else quote_ends s'
  end.

Lemma match_define_ends s :
  is_some (match_define s) = has_prefix s define_head && quote_ends (drop_str (String.length define_head) s).
Proof.
  unfold match_define. destruct (has_prefix s define_head); [|done]. cbn [andb].
  generalize (drop_str (String.length define_head) s). clear s. intros s. unfold cut_byte.
  induction s as [|c s IH]; [done|]. cbn [index_byte quote_ends]. destruct (Ascii.eqb c "'").
  - cbn. by destruct (line_end s).
  - destruct (index_byte s "'") as [i|]; [|done]. cbn [fmap option_fmap option_map] in *.
    change (drop_str (S (S i)) (String c s)) with (drop_str (S i) s). rewrite <-IH.
    by destruct (line_end (drop_str (S i) s)).
Qed.

Lemma quote_ends_app a w : unquoted a = true -> quote_ends (a +:+ w) = quote_ends w.
Proof.
  induction a as [|c a IH]; [done|]. cbn. intros [Hc Ha]%andb_true_iff. apply negb_true_iff in Hc. by rewrite Hc, IH.
Qed.

Lemma is_some_false {A} (x : option A) : is_some x = false <-> x = None.
Proof. by destruct x. Qed.

(** A text either has a match at its head, or goes on with its first byte. *)
Lemma head_cases v bol s : plain v = true ->
  (exists old eol rest, bol = true /\ s = define_head +:+ old +:+ String "'" (eol +:+ rest) /\
     unquoted old = true /\ (eol = "" \/ eol = String CR "") /\ new_line rest = true /\
     segments 0 bol s = Define old eol :: segments 0 false rest /\
     rewritten v bol s = define_head +:+ v +:+ String "'" (eol +:+ rewritten v false rest)) \/
  unmatched bol s.
Proof.
  intros Hv. destruct bol; [|by right]. destruct (match_define s) as [[old eol]|] eqn:H; [|right; by intros _].
  left. pose proof (proj1 (match_define_spec _ _ _) H) as (rest & -> & Hu & He & Hn).
  exists old, eol, rest. split_and!; try done; [by apply segments_define|by apply rewritten_define].
Qed.

Lemma rewritten_new_line v s : new_line (rewritten v false s) = new_line s.
Proof. destruct s as [|c s]; [done|]. by rewrite rewritten_other. Qed.

(** Rewriting makes no new line ends after a quote, and no new matches. *)
Lemma rewritten_line_end v s : is_some (line_end (rewritten v false s)) = is_some (line_end s).
Proof.
  destruct s as [|c s]; [done|]. rewrite rewritten_other by done. cbn [line_end].
  destruct (Ascii.eqb c LF) eqn:E1; [done|]. destruct (Ascii.eqb c CR); [|done].
  pose proof (rewritten_new_line v s) as Hn. destruct s as [|d s]; [done|].
  destruct (rewritten v false (String d s)) as [|d' s'] eqn:E2; [by rewrite rewritten_other in E2|].
  cbn in Hn. by rewrite Hn.
Qed.

Lemma quote_ends_rewritten v s : plain v = true -> forall bol, unmatched bol s ->
  quote_ends (rewritten v bol s) = true -> quote_ends s = true.
Proof.
  intros Hv. induction s as [|c s IH]; intros bol Hu; [done|]. rewrite rewritten_other by done.
  cbn [quote_ends]. destruct (Ascii.eqb c "'") eqn:Ec.
  { assert (Ascii.eqb c LF = false) as -> by (apply Ascii.eqb_eq in Ec as ->; done). by rewrite rewritten_line_end. }
  destruct (head_cases v (Ascii.eqb c LF) s Hv) as [(old & eol & rest & _ & _ & _ & _ & _ & _ & ->)|Hs]; [|by apply IH].
  intros H. exfalso. change (define_head +:+ v +:+ String "'" (eol +:+ rewritten v false rest)) with
    ("#define ApplicationVersion " +:+ String "'" (v +:+ String "'" (eol +:+ rewritten v false rest))) in H.
  rewrite quote_ends_app in H by done. cbn [quote_ends] in H. rewrite Ascii.eqb_refl in H.
  assert (Hl : line_end (v +:+ String "'" (eol +:+ rewritten v false rest)) = None); [|by rewrite Hl in H].
  clear -Hv. destruct v as [|d v]; [done|]. unfold plain in Hv. cbn in Hv. apply andb_true_iff in Hv as [Hd Hv].
  apply andb_true_iff in Hd as [_ Hd]. apply negb_true_iff in Hd. cbn [String.append line_end]. rewrite Hd.
  destruct (Ascii.eqb d CR); [|done]. destruct v as [|d' v]; [done|]. cbn [String.append].
  cbn in Hv. apply andb_true_iff in Hv as [Hd' _]. apply andb_true_iff in Hd' as [_ Hd']. apply negb_true_iff in Hd'.
  by rewrite Hd'.
Qed.

Lemma prefix_rewritten v p : string_forallb (fun d => negb (Ascii.eqb d LF)) p = true -> forall bol s,
  unmatched bol s -> has_prefix (rewritten v bol s) p = true ->
  has_prefix s p = true /\
  (p <> "" -> drop_str (String.length p) (rewritten v bol s) = rewritten v false (drop_str (String.length p) s)).
Proof.
  unfold has_prefix. induction p as [|d p IH]; intros Hp bol s Hu; [by destruct s|].
  destruct s as [|c s]; [done|]. rewrite rewritten_other by done. cbn in Hp. apply andb_true_iff in Hp as [Hd Hp].
  apply negb_true_iff in Hd. cbn [String.prefix]. destruct (ascii_dec d c) as [->|]; [|done]. rewrite Hd.
  intros H. destruct (IH Hp false s (fun E => ltac:(discriminate E)) H) as [H1 H2]. split; [done|]. intros _. cbn [String.length drop_str].
  destruct p; [by destruct s|by apply H2].
Qed.

Lemma unmatched_rewritten v bol s : plain v = true -> unmatched bol s -> unmatched bol (rewritten v bol s).
Proof.
  intros Hv Hu ->. apply is_some_false. rewrite match_define_ends. apply not_true_iff_false.
  intros [Hp Hq]%andb_true_iff. specialize (Hu eq_refl) as Hn. apply is_some_false in Hn.
  rewrite match_define_ends in Hn. apply not_true_iff_false in Hn. apply Hn.
  destruct (prefix_rewritten v define_head eq_refl true s Hu Hp) as [Hp' Hd]. rewrite Hd in Hq by done.
  rewrite Hp'. cbn [andb]. by apply (quote_ends_rewritten v _ Hv false).
Qed.

Definition with_version (v : string) (g : segment) : segment :=
  match g with Other c => Other c | Define _ eol => Define v eol end.

(** The matches of a rewritten text are those of the text, with the version
    in them. *)
Lemma segments_rewritten v : plain v = true -> forall n s bol, (String.length s < n)%nat ->
  segments 0 bol (rewritten v bol s) = with_version v <$> segments 0 bol s.
Proof.
  intros Hv. induction n as [|n IH]; intros s bol Hn; [lia|].
  destruct (head_cases v bol s Hv) as [(old & eol & rest & -> & -> & Hu & He & Hl & -> & ->)|Hs].
  - rewrite segments_define.
    + rewrite fmap_cons. rewrite IH; [done|]. rewrite !length_sapp in Hn. cbn in Hn. rewrite length_sapp in Hn. lia.
    + apply match_define_spec. exists (rewritten v false rest). split_and!; try done.
      * clear -Hv. apply plain_no; [done|set_solver].
      * by rewrite rewritten_new_line.
  - pose proof (unmatched_rewritten v bol s Hv Hs) as Hr. destruct s as [|c s]; [done|].
    rewrite rewritten_other in * by done. rewrite !segments_other by done. cbn in Hn. rewrite IH by lia. done.
Qed.

Lemma patched_rewritten v s t : patched v s = Some t -> t = rewritten v true s /\ defined s <> [].
Proof.
  unfold patched, defined. destruct (existsb is_define _) eqn:E; [|done]. intros [= <-]. split; [done|].
  apply existsb_exists in E as (g & Hg & Hd). destruct g as [|old eol]; [done|]. intros Hn.
  apply list_elem_of_In in Hg. assert (Hx : old ∈ @nil string); [|by apply elem_of_nil in Hx].
  rewrite <-Hn. apply list_elem_of_omap. by exists (Define old eol).
Qed.

Lemma defined_rewritten v s : plain v = true -> defined (rewritten v true s) = (fun _ => v) <$> defined s.
Proof.
  intros Hv. unfold defined. rewrite (segments_rewritten v Hv (S (String.length s))) by lia.
  induction (segments 0 true s) as [|[c|old eol] l IH]; [done|exact IH|cbn; by f_equal].
Qed.

Lemma patched_twice v v' s : plain v = true -> plain v' = true ->
  patched v' (rewritten v true s) = patched v' s.
Proof.
  intros Hv Hv'. unfold patched. rewrite (segments_rewritten v Hv (S (String.length s))) by lia.
  assert (E : forall l, existsb is_define (with_version v <$> l) = existsb is_define l /\
    concat_str (render v' <$> (with_version v <$> l)) = concat_str (render v' <$> l)).
  { induction l as [|[c|old eol] l [IH1 IH2]]; [done|cbn in *; by rewrite IH1, IH2|].
    rewrite !fmap_cons. cbn [existsb is_define with_version render concat_str orb]. split; [done|].
    by rewrite !replacement_plain, IH2. }
  destruct (E (segments 0 true s)) as [-> ->]. done.
Qed.

Lemma quoted_plain v : string_forallb (fun c => let n := N_of_ascii c in
    (32 <=? n)%N && negb (n =? 34)%N && negb (n =? 92)%N && negb (n =? 127)%N) v = true -> quoted v = v.
Proof.
  induction v as [|c v IH]; [done|]. cbn [string_forallb]. cbv zeta. intros [Hc Hv]%andb_true_iff. cbn [quoted]. rewrite (IH Hv).
  apply (f_equal (fun s => s +:+ v) (x := quoted_char c) (y := String c "")). clear -Hc.
  destruct c as [[] [] [] [] [] [] [] []]; first [discriminate Hc|reflexivity].
Qed.

Lemma WriteFile_ne w path text fs p : p <> path -> (WriteFile w path text fs).2 !! p = fs !! p.
Proof. intros H. destruct w; cbn; rewrite ?lookup_insert_ne by congruence; done. Qed.
Lemma WriteFile_ok w path text fs fs' : WriteFile w path text fs = (true, fs') -> fs' !! path = Some text.
Proof. destruct w; cbn; [intros [= <-]; by rewrite lookup_insert_eq|done|done]. Qed.

(** The version is one everywhere: when the tool succeeds, the constant is that
    of versioninfo.json, and every definition the script has is set to it - to
    whatever it was, so that a later run with another version gives what it
    would have given before -, provided the version holds no dollar sign, quote
    or new line. No other file is touched; a run that fails leaves the script
    alone, unless it is the writing of the script that broke off. *)
Theorem genversion_agrees (e : tool_env) (fs : gmap string string) :
  let '(r, fs') := genversion e fs in
  (forall path, path <> versionGoPath -> path <> installerISSPath -> fs' !! path = fs !! path) /\
  (r <> None -> r <> Some ScriptNotWritten -> fs' !! installerISSPath = fs !! installerISSPath) /\
  (r = None -> exists v s t, (j ← e.(tl_info); FileVersion j) = Some v /\ v <> "" /\
     fs' !! versionGoPath = Some (go_source v) /\
     fs !! installerISSPath = Some s /\ defined s <> [] /\ fs' !! installerISSPath = Some t /\
     (plain v = true -> defined t = (fun _ => v) <$> defined s /\
        forall v', plain v' = true -> patched v' t = patched v' s)).
Proof.
  assert (Hne : versionGoPath <> installerISSPath) by done. unfold genversion.
  destruct (fs !! versionInfoPath) as [text|]; [|by split_and!]. destruct (j ← e.(tl_info); FileVersion j) as [v|] eqn:Ev; [|by split_and!].
  destruct (v =s "") eqn:E0; [by split_and!|]. apply str_eqb_neq in E0.
  pose proof (WriteFile_ne e.(tl_write_go) versionGoPath (go_source v) fs) as H1.
  pose proof (WriteFile_ok e.(tl_write_go) versionGoPath (go_source v) fs) as G1.
  destruct (WriteFile _ _ _ fs) as [ok fs1]. cbn [snd] in H1.
  destruct ok; cbn [negb]; [|split_and!; try done; intros; apply H1; congruence].
  specialize (G1 _ eq_refl). assert (H2 : fs1 !! installerISSPath = fs !! installerISSPath) by (apply H1; congruence).
  destruct (tl_read_iss e); [|split_and!; [intros; by apply H1|done|done]]. rewrite H2.
  destruct (fs !! installerISSPath) as [s|] eqn:Es; [|split_and!; [intros; by apply H1|by rewrite H2|done]].
  destruct (patched v s) as [t|] eqn:Et; [|split_and!; [intros; by apply H1|by rewrite H2|done]].
  pose proof (WriteFile_ne e.(tl_write_iss) installerISSPath t fs1) as H3.
  pose proof (WriteFile_ok e.(tl_write_iss) installerISSPath t fs1) as G3.
  destruct (WriteFile _ _ _ fs1) as [ok fs2]. cbn [snd] in H3.
  split_and!; [intros path Hp Hq; by rewrite H3, H1|by destruct ok|]. destruct ok; [|done]. intros _.
  destruct (patched_rewritten v s t Et) as [-> Hd]. exists v, s, (rewritten v true s).
  split_and!; try done; [by rewrite H3|by apply G3|]. intros Hv.
  split; [by apply defined_rewritten|]. intros v' Hv'. by apply patched_twice.
Qed.

(** * Runs *)

Module Script.
Definition script (v : string) : string :=
  line "; EMLyUpdater" +:+ line (define_head +:+ v +:+ "'" +:+ String CR "") +:+ "[Setup]".

Example script_patched : patched "1.7.3" (script "1.7.2") = Some (script "1.7.3").
Proof. vm_compute. reflexivity. Qed.

(** A dollar sign in the version is read as part of the template, and a quote
    ends the definition early: the next run does not find it. *)
Example dollar_expanded : (defined <$> patched "1$3x" (script "1.7.2")) = Some ["1"].
Proof. vm_compute. reflexivity. Qed.
Example quote_lost : (defined <$> patched "1'2" (script "1.7.2")) = Some [].
Proof. vm_compute. reflexivity. Qed.

Definition repository : gmap string string :=
  {[versionInfoPath := "..."; versionGoPath := ""; installerISSPath := script "1.7.2"]}.
Definition info (v : string) : json := obj [("StringFileInfo", obj [("FileVersion", JStr v)])].

Example genversion_run :
  (genversion (mkToolEnv (Some (info "1.7.3")) Written true Written) repository).2 !! installerISSPath =
    Some (script "1.7.3").
Proof. vm_compute. reflexivity. Qed.

(** A write of the script that breaks off leaves a script the tool finds no
    definition in. *)
Example broken_off :
  let '(r, fs) := genversion (mkToolEnv (Some (info "1.7.3")) Written true (BrokenOff 40)) repository in
  (r, (genversion (mkToolEnv (Some (info "1.7.3")) Written true Written) fs).1) =
    (Some ScriptNotWritten, Some NoDefine).
Proof. vm_compute. reflexivity. Qed.
End Script.
